(** * libavcodec/nvenc.c: queues, timestamps and the submission engine

    A shallow embedding of the scheduling harness of the NVENC adapter:
    the growable ring queue ([data_queue_enqueue], [data_queue_dequeue]),
    the decode-timestamp generator of [process_output_surface], session
    set-up ([nvenc_encode_init]) and the per-call engine
    ([nvenc_encode_frame]).

    Conventions.
    - C integers are [Z] with the wrap-around of their type written out
      ([uint32_t], [int_t], [int64_t], [size_t]).
    - Pointers into [ctx->input_surfaces] / [ctx->output_surfaces] are array
      indices; [queue->data] is [None] for [NULL] and [Some buf] for an
      allocated block.
    - Everything the driver, CUDA or the allocator decides is an explicit
      argument of the function that asks for it (an "answers" record).
    - A call either returns ([Done]), trips [av_assert0] ([AssertFail]) or
      leaves the behaviour defined by C ([Undefined]). *)

From stdpp Require Import base option list sets strings.
From Stdlib Require Import ZArith Znumtheory Lia.

Local Open Scope Z_scope.

(* stdpp's solvers clear hypotheses that are already gone. *)
#[local] Set Warnings "-clear-no-such-hyp".

(** ** Machine integers *)

Definition uint32_t (z : Z) : Z := z mod 2 ^ 32.
Definition size_t (z : Z) : Z := z mod 2 ^ 64.
Definition int_t (z : Z) : Z := (z + 2 ^ 31) mod 2 ^ 32 - 2 ^ 31.
Definition int64_t (z : Z) : Z := (z + 2 ^ 63) mod 2 ^ 64 - 2 ^ 63.

Definition INT_MAX : Z := 2 ^ 31 - 1.

(** libavutil/avutil.h: [((int64_t)UINT64_C(0x8000000000000000))]. *)
Definition AV_NOPTS_VALUE : Z := - 2 ^ 63.

(** libavutil/error.h: [AVERROR(e)] is [-e]; [AVERROR_EXTERNAL] is
    [FFERRTAG('E','X','T',' ')]. *)
Definition ENOMEM : Z := 12.
Definition EINVAL : Z := 22.
Definition AVERROR (e : Z) : Z := - e.
Definition AVERROR_EXTERNAL : Z := - 542398533.

(** ** Outcome of a call *)

Inductive exec (A : Type) : Type :=
| Done (a : A)
| AssertFail
| Undefined.
Arguments Done {A} a.
Arguments AssertFail {A}.
Arguments Undefined {A}.

#[global] Instance exec_ret : MRet exec := fun _ a => Done a.
#[global] Instance exec_bind : MBind exec := fun _ _ f m =>
  match m with
  | Done a => f a
  | AssertFail => AssertFail
  | Undefined => Undefined
  end.

Definition is_Done {A} (m : exec A) : Prop := exists a, m = Done a.

(** ** The queue payload and the ring queue *)

(** [NvencData] is a union of a timestamp and a surface pointer; the model
    tags the member that was written.  Reading the other member is left
    [Undefined]. *)
Inductive NvencData : Type :=
| U_timestamp (timestamp : Z)
| U_surface (surface : nat).

Record NvencDataList : Type := mkNvencDataList {
  data : option (list NvencData);
  pos : Z;
  count : Z;
  size : Z
}.

(** Content of a block fresh from [av_malloc]: never read before written. *)
Definition uninit : NvencData := U_timestamp 0.

(** [av_malloc(n)] for a block of [cells] elements: the allocator's answer
    [av_malloc n] says whether the request of [n] bytes is granted. *)
Definition malloc_cells (av_malloc : Z -> bool) (cells : Z)
  : option (list NvencData) :=
  if av_malloc (size_t (cells * 8)) then Some (replicate (Z.to_nat cells) uninit)
  else None.

(** A queue of a context fresh from [av_mallocz]. *)
Definition queue_zero : NvencDataList := mkNvencDataList None 0 0 0.

Definition data_queue_dequeue (queue : NvencDataList)
  : exec (option NvencData * NvencDataList) :=
  if size queue =? 0 then AssertFail else
  match data queue with
  | None => AssertFail
  | Some buf =>
    if count queue =? 0 then Done (None, queue) else
    let mask := uint32_t (size queue - 1) in
    let read_pos := Z.land (uint32_t (pos queue - count queue)) mask in
    let queue' := mkNvencDataList (data queue) (pos queue)
                    (uint32_t (count queue - 1)) (size queue) in
    match buf !! Z.to_nat read_pos with
    | Some d => Done (Some d, queue')
    | None => Undefined
    end
  end.

(** Lines 270-276: store at [pos], advance, count. *)
Definition data_queue_store (queue : NvencDataList) (d : NvencData)
  : exec (Z * NvencDataList) :=
  let mask := uint32_t (size queue - 1) in
  match data queue with
  | None => Undefined
  | Some buf =>
    if decide (0 <= pos queue < Z.of_nat (length buf)) then
      Done (0, mkNvencDataList (Some (<[Z.to_nat (pos queue) := d]> buf))
                 (Z.land (uint32_t (pos queue + 1)) mask)
                 (uint32_t (count queue + 1)) (size queue))
    else Undefined
  end.

(** [while (tmp_data = data_queue_dequeue(queue))
       data_queue_enqueue(&new_queue, tmp_data);]
    The loop body runs once per stored element, so it is unfolded
    [count] times ([n]); [enqueue] is the recursive call, whose return
    value the source ignores. *)
Fixpoint drain_loop (n : nat)
    (enqueue : NvencDataList -> NvencData -> exec (Z * NvencDataList))
    (queue new_queue : NvencDataList) : exec (NvencDataList * NvencDataList) :=
  '(tmp_data, queue1) ← data_queue_dequeue queue;
  match tmp_data with
  | None => Done (queue1, new_queue)
  | Some d =>
    match n with
    | O => Undefined
    | S n' =>
      '(_, new_queue1) ← enqueue new_queue d;
      drain_loop n' enqueue queue1 new_queue1
    end
  end.

(** [depth] bounds the nesting of the recursive call; a well-formed queue
    nests once (see [data_queue_enqueue_depth]). *)
Fixpoint data_queue_enqueue_rec (depth : nat) (av_malloc : Z -> bool)
    (queue : NvencDataList) (d : NvencData) : exec (Z * NvencDataList) :=
  match depth with
  | O => Undefined
  | S depth' =>
    let init :=
      if size queue =? 0 then
        match malloc_cells av_malloc 4 with
        | Some buf => inr (mkNvencDataList (Some buf) 0 0 4)
        | None => inl (mkNvencDataList None 0 0 0)
        end
      else inr queue in
    match init with
    | inl queue1 => Done (AVERROR ENOMEM, queue1)
    | inr queue1 =>
      if count queue1 =? size queue1 then
        let new_size := uint32_t (Z.shiftl (size queue1) 1) in
        match malloc_cells av_malloc new_size with
        | None => Done (AVERROR ENOMEM, queue1)
        | Some buf =>
          '(_, new_queue) ←
            drain_loop (Z.to_nat (count queue1))
              (data_queue_enqueue_rec depth' av_malloc)
              queue1 (mkNvencDataList (Some buf) 0 0 new_size);
          data_queue_store new_queue d
        end
      else data_queue_store queue1 d
    end
  end.

Definition data_queue_enqueue : (Z -> bool) -> NvencDataList -> NvencData
  -> exec (Z * NvencDataList) := data_queue_enqueue_rec 4.

Definition out_surf_queue_enqueue (av_malloc : Z -> bool)
    (queue : NvencDataList) (surface : nat) : exec (Z * NvencDataList) :=
  data_queue_enqueue av_malloc queue (U_surface surface).

Definition out_surf_queue_dequeue (queue : NvencDataList)
  : exec (option nat * NvencDataList) :=
  '(res, queue1) ← data_queue_dequeue queue;
  match res with
  | None => Done (None, queue1)
  | Some (U_surface s) => Done (Some s, queue1)
  | Some (U_timestamp _) => Undefined
  end.

Definition timestamp_queue_enqueue (av_malloc : Z -> bool)
    (queue : NvencDataList) (timestamp : Z) : exec (Z * NvencDataList) :=
  data_queue_enqueue av_malloc queue (U_timestamp timestamp).

Definition timestamp_queue_dequeue (queue : NvencDataList)
  : exec (Z * NvencDataList) :=
  '(res, queue1) ← data_queue_dequeue queue;
  match res with
  | None => Done (AV_NOPTS_VALUE, queue1)
  | Some (U_timestamp t) => Done (t, queue1)
  | Some (U_surface _) => Undefined
  end.

(** ** Enumerations of the vendor and framework headers *)

Inductive AVCodecID : Type :=
| AV_CODEC_ID_H264 | AV_CODEC_ID_H265 | AV_CODEC_ID_OTHER.

Inductive AVPixelFormat : Type :=
| AV_PIX_FMT_YUV420P | AV_PIX_FMT_NV12 | AV_PIX_FMT_OTHER.

(** Every status other than the two the code tests for is [NV_ENC_ERR_GENERIC]. *)
Inductive NVENCSTATUS : Type :=
| NV_ENC_SUCCESS | NV_ENC_ERR_NEED_MORE_INPUT | NV_ENC_ERR_GENERIC.

Inductive NV_ENC_PIC_TYPE : Type :=
| NV_ENC_PIC_TYPE_P | NV_ENC_PIC_TYPE_B | NV_ENC_PIC_TYPE_I
| NV_ENC_PIC_TYPE_IDR | NV_ENC_PIC_TYPE_BI | NV_ENC_PIC_TYPE_SKIPPED
| NV_ENC_PIC_TYPE_INTRA_REFRESH | NV_ENC_PIC_TYPE_UNKNOWN.

Inductive NV_ENC_BUFFER_FORMAT : Type :=
| NV_ENC_BUFFER_FORMAT_UNDEFINED | NV_ENC_BUFFER_FORMAT_NV12_PL
| NV_ENC_BUFFER_FORMAT_OTHER.

#[global] Instance NVENCSTATUS_eq_dec : EqDecision NVENCSTATUS.
Proof. solve_decision. Defined.
#[global] Instance NV_ENC_BUFFER_FORMAT_eq_dec : EqDecision NV_ENC_BUFFER_FORMAT.
Proof. solve_decision. Defined.
#[global] Instance AVPixelFormat_eq_dec : EqDecision AVPixelFormat.
Proof. solve_decision. Defined.

(** ** Surfaces and the encoder context *)

Record NvencInputSurface : Type := mkNvencInputSurface {
  lockCount : Z;
  format : NV_ENC_BUFFER_FORMAT
}.

(** [output_surface] is the bitstream-buffer handle ([false] for [NULL]);
    [input_surface] points into [ctx->input_surfaces]. *)
Record NvencOutputSurface : Type := mkNvencOutputSurface {
  output_surface : bool;
  input_surface : option nat;
  busy : Z
}.

Record NvencContext : Type := mkNvencContext {
  nvenc_lib : bool;
  cu_context : bool;
  nvencoder : bool;
  max_surface_count : Z;
  input_surfaces : list NvencInputSurface;
  output_surfaces : list NvencOutputSurface;
  output_surface_queue : NvencDataList;
  output_surface_ready_queue : NvencDataList;
  timestamp_list : NvencDataList;
  last_dts : Z;
  frameIntervalP : Z;
  twopass : Z;
  buffer_delay : Z
}.

Definition set_input_surfaces (ctx : NvencContext) v : NvencContext :=
  mkNvencContext (nvenc_lib ctx) (cu_context ctx) (nvencoder ctx)
    (max_surface_count ctx) v (output_surfaces ctx)
    (output_surface_queue ctx) (output_surface_ready_queue ctx)
    (timestamp_list ctx) (last_dts ctx) (frameIntervalP ctx) (twopass ctx)
    (buffer_delay ctx).

Definition set_output_surfaces (ctx : NvencContext) v : NvencContext :=
  mkNvencContext (nvenc_lib ctx) (cu_context ctx) (nvencoder ctx)
    (max_surface_count ctx) (input_surfaces ctx) v
    (output_surface_queue ctx) (output_surface_ready_queue ctx)
    (timestamp_list ctx) (last_dts ctx) (frameIntervalP ctx) (twopass ctx)
    (buffer_delay ctx).

Definition set_output_surface_queue (ctx : NvencContext) v : NvencContext :=
  mkNvencContext (nvenc_lib ctx) (cu_context ctx) (nvencoder ctx)
    (max_surface_count ctx) (input_surfaces ctx) (output_surfaces ctx)
    v (output_surface_ready_queue ctx)
    (timestamp_list ctx) (last_dts ctx) (frameIntervalP ctx) (twopass ctx)
    (buffer_delay ctx).

Definition set_output_surface_ready_queue (ctx : NvencContext) v
  : NvencContext :=
  mkNvencContext (nvenc_lib ctx) (cu_context ctx) (nvencoder ctx)
    (max_surface_count ctx) (input_surfaces ctx) (output_surfaces ctx)
    (output_surface_queue ctx) v
    (timestamp_list ctx) (last_dts ctx) (frameIntervalP ctx) (twopass ctx)
    (buffer_delay ctx).

Definition set_timestamp_list (ctx : NvencContext) v : NvencContext :=
  mkNvencContext (nvenc_lib ctx) (cu_context ctx) (nvencoder ctx)
    (max_surface_count ctx) (input_surfaces ctx) (output_surfaces ctx)
    (output_surface_queue ctx) (output_surface_ready_queue ctx)
    v (last_dts ctx) (frameIntervalP ctx) (twopass ctx)
    (buffer_delay ctx).

Definition set_last_dts (ctx : NvencContext) v : NvencContext :=
  mkNvencContext (nvenc_lib ctx) (cu_context ctx) (nvencoder ctx)
    (max_surface_count ctx) (input_surfaces ctx) (output_surfaces ctx)
    (output_surface_queue ctx) (output_surface_ready_queue ctx)
    (timestamp_list ctx) v (frameIntervalP ctx) (twopass ctx)
    (buffer_delay ctx).

Definition set_lockCount (s : NvencInputSurface) v : NvencInputSurface :=
  mkNvencInputSurface v (format s).

Definition set_busy (s : NvencOutputSurface) v : NvencOutputSurface :=
  mkNvencOutputSurface (output_surface s) (input_surface s) v.

Definition set_input_surface (s : NvencOutputSurface) v : NvencOutputSurface :=
  mkNvencOutputSurface (output_surface s) v (busy s).

(** ** Packets and [process_output_surface] *)

Record AVPacket : Type := mkAVPacket {
  pkt_size : Z;
  pkt_key : bool;
  pts : Z;
  dts : Z
}.

(** What the driver and the allocator answer during one retrieval. *)
Record LockAnswers : Type := mkLockAnswers {
  slice_offsets_alloc : bool;
  lock_status : NVENCSTATUS;
  bitstreamSizeInBytes : Z;
  outputTimeStamp : Z;
  pictureType : NV_ENC_PIC_TYPE;
  alloc_packet : Z;
  unlock_status : NVENCSTATUS
}.

(** The [error:] label: the timestamp is dropped, its value ignored. *)
Definition process_output_surface_error (ctx : NvencContext) (pkt : AVPacket)
    (res : Z) : exec (Z * NvencContext * AVPacket) :=
  '(_, tl) ← timestamp_queue_dequeue (timestamp_list ctx);
  Done (res, set_timestamp_list ctx tl, pkt).

(** Lines 1111-1124.  [pkt->dts -= 1] and [ctx->last_dts + 1] are signed
    64-bit operations: C leaves their overflow undefined, and they are
    written here with the wrap-around of the machine.  The statements
    about this function are about the values it stores. *)
Definition set_timestamps (ctx : NvencContext) (pkt : AVPacket)
    (outputTimeStamp : Z) : exec (NvencContext * AVPacket) :=
  let pts1 := int64_t outputTimeStamp in
  '(dts1, tl) ← timestamp_queue_dequeue (timestamp_list ctx);
  let dts2 := if 2 <=? frameIntervalP ctx then int64_t (dts1 - 1) else dts1 in
  let dts3 := if pts1 <? dts2 then pts1 else dts2 in
  let dts4 :=
    if negb (last_dts ctx =? AV_NOPTS_VALUE) && (dts3 <=? last_dts ctx)
    then int64_t (last_dts ctx + 1) else dts3 in
  Done (set_last_dts (set_timestamp_list ctx tl) dts4,
        mkAVPacket (pkt_size pkt) (pkt_key pkt) pts1 dts4).

(** [FF_API_CODED_FRAME] comes from libavcodec/version.h; with it unset the
    picture-type switch keeps its IDR case only.  For a codec that is
    neither H.264 nor HEVC the source jumps to [error:] and frees
    [slice_offsets] before it was ever assigned.  [ff_alloc_packet2]
    (line 1069) belongs to libavcodec's encoder support, not to this
    file: [alloc_packet] is what it returns, and the packet is taken to
    hold the requested size afterwards, its other fields being carried
    over.  The key flag apart, the code overwrites them on the way to
    [return 0]; no statement is made about them after a failure that
    follows the call. *)
Definition process_output_surface (FF_API_CODED_FRAME : bool)
    (codec_id : AVCodecID) (ctx : NvencContext) (pkt : AVPacket)
    (tmpoutsurf : option nat) (a : LockAnswers)
  : exec (Z * NvencContext * AVPacket) :=
  match codec_id with
  | AV_CODEC_ID_OTHER => Undefined
  | _ =>
    if negb (slice_offsets_alloc a) then Done (AVERROR ENOMEM, ctx, pkt) else
    match tmpoutsurf ≫= (fun i => output_surfaces ctx !! i) with
    | None => Undefined
    | Some _ =>
      if decide (lock_status a <> NV_ENC_SUCCESS)
      then process_output_surface_error ctx pkt AVERROR_EXTERNAL
      else if negb (alloc_packet a =? 0)
      then process_output_surface_error ctx pkt (alloc_packet a)
      else
        let pkt1 := mkAVPacket (bitstreamSizeInBytes a) (pkt_key pkt)
                      (pts pkt) (dts pkt) in
        let key := mkAVPacket (pkt_size pkt1) true (pts pkt1) (dts pkt1) in
        let typed :=
          match pictureType a with
          | NV_ENC_PIC_TYPE_IDR => Some key
          | NV_ENC_PIC_TYPE_I | NV_ENC_PIC_TYPE_P | NV_ENC_PIC_TYPE_B
          | NV_ENC_PIC_TYPE_BI => Some pkt1
          | _ => if FF_API_CODED_FRAME then None else Some pkt1
          end in
        match typed with
        | None => process_output_surface_error ctx pkt1 AVERROR_EXTERNAL
        | Some pkt2 =>
          '(ctx1, pkt3) ← set_timestamps ctx pkt2 (outputTimeStamp a);
          Done (0, ctx1, pkt3)
        end
    end
  end.

(** ** The per-call engine: [nvenc_encode_frame] *)

Record AVFrame : Type := mkAVFrame {
  frame_pts : Z;
  frame_format : AVPixelFormat
}.

(** What the driver, CUDA and the allocator answer during one call.
    [cuda_copy] is the value [nvenc_copy_to_inputbuffer] returns once its
    CUDA transfers ran (0 unless the [__cu] wrapper of cudautils.h left the
    function); [ready_malloc k] serves the [k]-th surface moved from the
    in-flight queue to the ready queue, [ready_malloc_frame] the surface
    submitted by this call. *)
Record FrameAnswers : Type := mkFrameAnswers {
  map_status : NVENCSTATUS;
  mappedBufferFmt : NV_ENC_BUFFER_FORMAT;
  cuda_copy : Z;
  unmap_status : NVENCSTATUS;
  timestamp_malloc : Z -> bool;
  encode_status : NVENCSTATUS;
  queue_malloc : Z -> bool;
  ready_malloc : nat -> Z -> bool;
  ready_malloc_frame : Z -> bool;
  lock : LockAnswers
}.

Definition nvenc_copy_to_inputbuffer (cuda_copy : Z) (frame : AVFrame) : Z :=
  match frame_format frame with
  | AV_PIX_FMT_NV12 | AV_PIX_FMT_YUV420P => cuda_copy
  | AV_PIX_FMT_OTHER => AVERROR EINVAL
  end.

(** [for (i = 0; i < ctx->max_surface_count; ++i)
       if (!ctx->input_surfaces[i].lockCount) { inSurf = ...; break; }] *)
Fixpoint find_input_surface (n : nat) (i : nat)
    (surfaces : list NvencInputSurface) : exec (option nat) :=
  match n with
  | O => Done None
  | S n' =>
    match surfaces !! i with
    | None => Undefined
    | Some s =>
      if lockCount s =? 0 then Done (Some i)
      else find_input_surface n' (S i) surfaces
    end
  end.

(** [for (i = 0; i < ctx->max_surface_count; ++i)
       if (!ctx->output_surfaces[i].busy) break;]  The result is [i]. *)
Fixpoint find_output_surface (n : nat) (i : nat)
    (surfaces : list NvencOutputSurface) : exec nat :=
  match n with
  | O => Done i
  | S n' =>
    match surfaces !! i with
    | None => Undefined
    | Some s =>
      if busy s =? 0 then Done i
      else find_output_surface n' (S i) surfaces
    end
  end.

(** Assignment through a pointer into one of the surface arrays. *)
Definition update_at {A} (l : list A) (i : nat) (f : A -> A) : exec (list A) :=
  match l !! i with
  | None => Undefined
  | Some x => Done (<[i := f x]> l)
  end.

(** How far a call got before the emission test of line 1337: it either
    returned [res] or reached the test with output surface [i] in hand. *)
Inductive submission : Type :=
| Returned (res : Z) (ctx : NvencContext)
| AtGate (ctx : NvencContext).

(** Lines 1207-1297, the [if (frame)] branch up to the timestamp push. *)
Definition nvenc_prepare_frame (codec_id : AVCodecID) (ctx : NvencContext)
    (frame : AVFrame) (a : FrameAnswers)
  : exec (Z * NvencContext + NvencContext * nat) :=
  let n := Z.to_nat (max_surface_count ctx) in
  inSurf ← find_input_surface n 0 (input_surfaces ctx);
  match inSurf with
  | None => AssertFail
  | Some j =>
    ins ← update_at (input_surfaces ctx) j (fun s => set_lockCount s 1);
    let ctx1 := set_input_surfaces ctx ins in
    if decide (map_status a <> NV_ENC_SUCCESS) then Done (inl (0, ctx1))
    else if decide ((format <$> ins !! j) <> Some (mappedBufferFmt a))
    then Done (inl (0, ctx1))
    else if negb (nvenc_copy_to_inputbuffer (cuda_copy a) frame =? 0)
    then Done (inl (0, ctx1))
    else if decide (unmap_status a <> NV_ENC_SUCCESS)
    then Done (inl (AVERROR_EXTERNAL, ctx1))
    else
      i ← find_output_surface n 0 (output_surfaces ctx1);
      if Z.of_nat i =? max_surface_count ctx1 then
        ins0 ← update_at ins j (fun s => set_lockCount s 0);
        Done (inl (AVERROR_EXTERNAL, set_input_surfaces ctx1 ins0))
      else
        outs ← update_at (output_surfaces ctx1) i
                 (fun s => set_input_surface s (Some j));
        let ctx2 := set_output_surfaces ctx1 outs in
        match codec_id with
        | AV_CODEC_ID_OTHER => Done (inl (AVERROR EINVAL, ctx2))
        | _ =>
          '(res, tl) ← timestamp_queue_enqueue (timestamp_malloc a)
                         (timestamp_list ctx2) (frame_pts frame);
          let ctx3 := set_timestamp_list ctx2 tl in
          if negb (res =? 0) then Done (inl (res, ctx3))
          else Done (inr (ctx3, i))
        end
  end.

(** [while (ctx->output_surface_queue.count) { ... }] of lines 1319-1325;
    [n] is the number of surfaces in flight. *)
Fixpoint move_to_ready (n : nat) (av_malloc : nat -> Z -> bool) (k : nat)
    (queue ready : NvencDataList) : exec (Z * NvencDataList * NvencDataList) :=
  if count queue =? 0 then Done (0, queue, ready) else
  match n with
  | O => Undefined
  | S n' =>
    '(tmpoutsurf, queue1) ← out_surf_queue_dequeue queue;
    match tmpoutsurf with
    | None => Undefined
    | Some s =>
      '(res, ready1) ← out_surf_queue_enqueue (av_malloc k) ready s;
      if negb (res =? 0) then Done (res, queue1, ready1)
      else move_to_ready n' av_malloc (S k) queue1 ready1
    end
  end.

Definition mark_busy (ctx : NvencContext) (i : nat) : exec NvencContext :=
  outs ← update_at (output_surfaces ctx) i (fun s => set_busy s 1);
  Done (set_output_surfaces ctx outs).

(** Lines 1207-1335: everything before the emission test. *)
Definition nvenc_submit (codec_id : AVCodecID) (ctx : NvencContext)
    (frame : option AVFrame) (a : FrameAnswers) : exec submission :=
  prep ← match frame with
         | Some f => nvenc_prepare_frame codec_id ctx f a
         | None => Done (inr (ctx, O))
         end;
  match prep with
  | inl (res, ctx1) => Done (Returned res ctx1)
  | inr (ctx1, i) =>
    let nv_status := encode_status a in
    queued ←
      (if bool_decide (is_Some frame /\ nv_status = NV_ENC_ERR_NEED_MORE_INPUT)
       then
         '(res, q) ← out_surf_queue_enqueue (queue_malloc a)
                       (output_surface_queue ctx1) i;
         let ctx2 := set_output_surface_queue ctx1 q in
         if negb (res =? 0) then Done (inl (res, ctx2))
         else ctx3 ← mark_busy ctx2 i; Done (inr ctx3)
       else Done (inr ctx1));
    match queued with
    | inl (res, ctx2) => Done (Returned res ctx2)
    | inr ctx2 =>
      match nv_status with
      | NV_ENC_ERR_GENERIC => Done (Returned AVERROR_EXTERNAL ctx2)
      | NV_ENC_ERR_NEED_MORE_INPUT => Done (AtGate ctx2)
      | NV_ENC_SUCCESS =>
        '(res, q, r) ← move_to_ready
                         (Z.to_nat (count (output_surface_queue ctx2)))
                         (ready_malloc a) O (output_surface_queue ctx2)
                         (output_surface_ready_queue ctx2);
        let ctx3 := set_output_surface_ready_queue
                      (set_output_surface_queue ctx2 q) r in
        if negb (res =? 0) then Done (Returned res ctx3)
        else
          match frame with
          | None => Done (AtGate ctx3)
          | Some _ =>
            '(res1, r1) ← out_surf_queue_enqueue (ready_malloc_frame a)
                            (output_surface_ready_queue ctx3) i;
            let ctx4 := set_output_surface_ready_queue ctx3 r1 in
            if negb (res1 =? 0) then Done (Returned res1 ctx4)
            else ctx5 ← mark_busy ctx4 i; Done (AtGate ctx5)
          end
      end
    end
  end.

(** The condition of line 1337.  The sum is [uint32_t]; [buffer_delay] is
    an [int] and is converted to unsigned for the comparison. *)
Definition emission_gate (ctx : NvencContext) (frame : option AVFrame) : bool :=
  negb (count (output_surface_ready_queue ctx) =? 0) &&
  (negb (bool_decide (is_Some frame)) ||
   (uint32_t (buffer_delay ctx) <=?
    uint32_t (count (output_surface_ready_queue ctx)
              + count (output_surface_queue ctx)))).

(** Lines 1338-1349. *)
Definition nvenc_retrieve (FF_API_CODED_FRAME : bool) (codec_id : AVCodecID)
    (ctx : NvencContext) (pkt : AVPacket) (got_packet : Z) (a : LockAnswers)
  : exec (Z * NvencContext * Z * AVPacket) :=
  '(tmpoutsurf, r) ← out_surf_queue_dequeue (output_surface_ready_queue ctx);
  let ctx1 := set_output_surface_ready_queue ctx r in
  '(res, ctx2, pkt1) ←
    process_output_surface FF_API_CODED_FRAME codec_id ctx1 pkt tmpoutsurf a;
  if negb (res =? 0) then Done (res, ctx2, got_packet, pkt1) else
  match tmpoutsurf with
  | None => Undefined
  | Some i =>
    outs ← update_at (output_surfaces ctx2) i (fun s => set_busy s 0);
    let ctx3 := set_output_surfaces ctx2 outs in
    match outs !! i ≫= input_surface with
    | None => Undefined
    | Some j =>
      match input_surfaces ctx3 !! j with
      | None => Undefined
      | Some s =>
        if lockCount s =? 0 then AssertFail else
        ins ← update_at (input_surfaces ctx3) j
                (fun s => set_lockCount s (int_t (lockCount s - 1)));
        Done (0, set_input_surfaces ctx3 ins, 1, pkt1)
      end
    end
  end.

(** [got_packet] is the caller's variable: a call that returns early leaves
    it as it found it. *)
Definition nvenc_encode_frame (FF_API_CODED_FRAME : bool)
    (codec_id : AVCodecID) (ctx : NvencContext) (pkt : AVPacket)
    (frame : option AVFrame) (got_packet : Z) (a : FrameAnswers)
  : exec (Z * NvencContext * Z * AVPacket) :=
  sub ← nvenc_submit codec_id ctx frame a;
  match sub with
  | Returned res ctx1 => Done (res, ctx1, got_packet, pkt)
  | AtGate ctx1 =>
    if emission_gate ctx1 frame
    then nvenc_retrieve FF_API_CODED_FRAME codec_id ctx1 pkt got_packet (lock a)
    else Done (0, ctx1, 0, pkt)
  end.

(** ** Session set-up: [nvenc_encode_init] *)

Definition set_nvenc_lib (ctx : NvencContext) v : NvencContext :=
  mkNvencContext v (cu_context ctx) (nvencoder ctx)
    (max_surface_count ctx) (input_surfaces ctx) (output_surfaces ctx)
    (output_surface_queue ctx) (output_surface_ready_queue ctx)
    (timestamp_list ctx) (last_dts ctx) (frameIntervalP ctx) (twopass ctx)
    (buffer_delay ctx).

Definition set_cu_context (ctx : NvencContext) v : NvencContext :=
  mkNvencContext (nvenc_lib ctx) v (nvencoder ctx)
    (max_surface_count ctx) (input_surfaces ctx) (output_surfaces ctx)
    (output_surface_queue ctx) (output_surface_ready_queue ctx)
    (timestamp_list ctx) (last_dts ctx) (frameIntervalP ctx) (twopass ctx)
    (buffer_delay ctx).

Definition set_nvencoder (ctx : NvencContext) v : NvencContext :=
  mkNvencContext (nvenc_lib ctx) (cu_context ctx) v
    (max_surface_count ctx) (input_surfaces ctx) (output_surfaces ctx)
    (output_surface_queue ctx) (output_surface_ready_queue ctx)
    (timestamp_list ctx) (last_dts ctx) (frameIntervalP ctx) (twopass ctx)
    (buffer_delay ctx).

Definition set_max_surface_count (ctx : NvencContext) v : NvencContext :=
  mkNvencContext (nvenc_lib ctx) (cu_context ctx) (nvencoder ctx)
    v (input_surfaces ctx) (output_surfaces ctx)
    (output_surface_queue ctx) (output_surface_ready_queue ctx)
    (timestamp_list ctx) (last_dts ctx) (frameIntervalP ctx) (twopass ctx)
    (buffer_delay ctx).

Definition set_frameIntervalP (ctx : NvencContext) v : NvencContext :=
  mkNvencContext (nvenc_lib ctx) (cu_context ctx) (nvencoder ctx)
    (max_surface_count ctx) (input_surfaces ctx) (output_surfaces ctx)
    (output_surface_queue ctx) (output_surface_ready_queue ctx)
    (timestamp_list ctx) (last_dts ctx) v (twopass ctx)
    (buffer_delay ctx).

Definition set_twopass (ctx : NvencContext) v : NvencContext :=
  mkNvencContext (nvenc_lib ctx) (cu_context ctx) (nvencoder ctx)
    (max_surface_count ctx) (input_surfaces ctx) (output_surfaces ctx)
    (output_surface_queue ctx) (output_surface_ready_queue ctx)
    (timestamp_list ctx) (last_dts ctx) (frameIntervalP ctx) v
    (buffer_delay ctx).

Definition set_buffer_delay (ctx : NvencContext) v : NvencContext :=
  mkNvencContext (nvenc_lib ctx) (cu_context ctx) (nvencoder ctx)
    (max_surface_count ctx) (input_surfaces ctx) (output_surfaces ctx)
    (output_surface_queue ctx) (output_surface_ready_queue ctx)
    (timestamp_list ctx) (last_dts ctx) (frameIntervalP ctx) (twopass ctx)
    v.

(** The fields of [AVCodecContext] that decide a branch of the set-up or
    are written by it.  [global_header] is
    [flags & AV_CODEC_FLAG_GLOBAL_HEADER]. *)
Record AVCodecContext : Type := mkAVCodecContext {
  codec_id : AVCodecID;
  width : Z;
  height : Z;
  gop_size : Z;
  max_b_frames : Z;
  global_header : bool;
  pix_fmt : AVPixelFormat;
  has_b_frames : Z;
  extradata : bool
}.

Definition set_has_b_frames (avctx : AVCodecContext) v : AVCodecContext :=
  mkAVCodecContext (codec_id avctx) (width avctx) (height avctx)
    (gop_size avctx) (max_b_frames avctx) (global_header avctx)
    (pix_fmt avctx) v (extradata avctx).

Definition set_extradata (avctx : AVCodecContext) v : AVCodecContext :=
  mkAVCodecContext (codec_id avctx) (width avctx) (height avctx)
    (gop_size avctx) (max_b_frames avctx) (global_header avctx)
    (pix_fmt avctx) (has_b_frames avctx) v.

(** The string options of [NvencContext] ([NULL] is [None]). *)
Record NvencOptions : Type := mkNvencOptions {
  preset : option string;
  profile : option string;
  level : option string;
  tier : option string
}.

(** The [options] table: defaults of ["preset"], ["2pass"] and ["delay"]. *)
Definition default_preset : option string := Some "hq"%string.
Definition default_twopass : Z := -1.
Definition default_buffer_delay : Z := INT_MAX.

(** What set-up acquires and gives back, in call order. *)
Inductive resource : Type :=
| R_cuda | R_nvenc_lib | R_cuda_context | R_cu_module | R_encoder
| R_input_surfaces | R_output_surfaces | R_transfer_mem
| R_input_mem (i : nat) | R_registration (i : nat) | R_bitstream (i : nat)
| R_extradata.

Inductive event : Type :=
| Acquire (r : resource)
| Release (r : resource).

#[global] Instance resource_eq_dec : EqDecision resource.
Proof. solve_decision. Defined.
#[global] Instance event_eq_dec : EqDecision event.
Proof. solve_decision. Defined.

(** What the driver, CUDA and the allocator answer during set-up.
    [cu_module_load] and [cu_module_get_function] are the two calls under
    the [__cu] wrapper of cudautils.h: [None] when execution goes on,
    [Some r] when the wrapper makes the function return [r]. *)
Record InitAnswers : Type := mkInitAnswers {
  init_cuda : bool;
  is_gpu_feature_available : Z -> bool;
  dlopen : bool;
  load_entrypoint : bool;
  create_instance : NVENCSTATUS;
  get_cuda_context : bool;
  cu_module_load : option Z;
  cu_module_get_function : option Z;
  open_session : NVENCSTATUS;
  get_preset_config : NVENCSTATUS;
  presetCfg_frameIntervalP : Z;
  initialize_encoder : NVENCSTATUS;
  input_surfaces_alloc : bool;
  output_surfaces_alloc : bool;
  register_resource : nat -> NVENCSTATUS;
  create_bitstream_buffer : nat -> NVENCSTATUS;
  get_sequence_params : NVENCSTATUS;
  extradata_alloc : bool;
  add_cpb_side_data : bool
}.

Definition nvenc_check_cuda (avctx : AVCodecContext) (a : InitAnswers)
  : Z * list event :=
  if negb (init_cuda a) then (0, []) else
  match codec_id avctx with
  | AV_CODEC_ID_OTHER => (0, [Acquire R_cuda])
  | c =>
    let target_smver :=
      match c with AV_CODEC_ID_H264 => 48 | _ => 82 end in
    if negb (is_gpu_feature_available a target_smver)
    then (0, [Acquire R_cuda])
    else (1, [Acquire R_cuda])
  end.

Definition nvenc_dyload_nvenc (avctx : AVCodecContext) (ctx : NvencContext)
    (a : InitAnswers) : Z * NvencContext * list event :=
  let '(ok, tr) := nvenc_check_cuda avctx a in
  if ok =? 0 then (0, ctx, tr)
  else if nvenc_lib ctx then (1, ctx, tr)
  else if negb (dlopen a) then (0, set_nvenc_lib ctx false, tr)
  else
    let tr1 := tr ++ [Acquire R_nvenc_lib] in
    let ctx1 := set_nvenc_lib ctx true in
    if negb (load_entrypoint a)
       || negb (bool_decide (create_instance a = NV_ENC_SUCCESS))
    then (0, set_nvenc_lib ctx1 false, tr1 ++ [Release R_nvenc_lib])
    else (1, ctx1, tr1).

Definition nvenc_unload_nvenc (ctx : NvencContext)
  : NvencContext * list event :=
  (set_nvenc_lib ctx false, [Release R_nvenc_lib; Release R_cuda]).

Inductive GUID : Type :=
| NV_ENC_PRESET_DEFAULT_GUID | NV_ENC_PRESET_HP_GUID | NV_ENC_PRESET_HQ_GUID
| NV_ENC_PRESET_BD_GUID | NV_ENC_PRESET_LOW_LATENCY_DEFAULT_GUID
| NV_ENC_PRESET_LOW_LATENCY_HQ_GUID | NV_ENC_PRESET_LOW_LATENCY_HP_GUID
| NV_ENC_PRESET_LOSSLESS_DEFAULT_GUID | NV_ENC_PRESET_LOSSLESS_HP_GUID.

(** Lines 475-513: [(encoder_preset, ctx->twopass, isLL, lossless)], or
    [None] for an unknown preset name. *)
Definition select_preset (preset : option string) (twopass : Z)
  : option (GUID * Z * bool * bool) :=
  match preset with
  | None => Some (NV_ENC_PRESET_HQ_GUID, twopass, false, false)
  | Some p =>
    if String.eqb p "slow" then Some (NV_ENC_PRESET_HQ_GUID, 1, false, false)
    else if String.eqb p "medium"
    then Some (NV_ENC_PRESET_HQ_GUID, 0, false, false)
    else if String.eqb p "fast"
    then Some (NV_ENC_PRESET_HP_GUID, 0, false, false)
    else if String.eqb p "hq"
    then Some (NV_ENC_PRESET_HQ_GUID, twopass, false, false)
    else if String.eqb p "hp"
    then Some (NV_ENC_PRESET_HP_GUID, twopass, false, false)
    else if String.eqb p "bd"
    then Some (NV_ENC_PRESET_BD_GUID, twopass, false, false)
    else if String.eqb p "ll"
    then Some (NV_ENC_PRESET_LOW_LATENCY_DEFAULT_GUID, twopass, true, false)
    else if String.eqb p "llhp"
    then Some (NV_ENC_PRESET_LOW_LATENCY_HP_GUID, twopass, true, false)
    else if String.eqb p "llhq"
    then Some (NV_ENC_PRESET_LOW_LATENCY_HQ_GUID, twopass, true, false)
    else if String.eqb p "lossless"
    then Some (NV_ENC_PRESET_LOSSLESS_DEFAULT_GUID, twopass, false, true)
    else if String.eqb p "losslesshp"
    then Some (NV_ENC_PRESET_LOSSLESS_HP_GUID, twopass, false, true)
    else if String.eqb p "default"
    then Some (NV_ENC_PRESET_DEFAULT_GUID, twopass, false, false)
    else None
  end.

(** The level tables; [num] is kept by the name of its vendor constant. *)
Definition nvenc_h264_level_pairs : list (string * string) :=
  [ ("auto", "NV_ENC_LEVEL_AUTOSELECT"); ("1", "NV_ENC_LEVEL_H264_1");
    ("1.0", "NV_ENC_LEVEL_H264_1"); ("1b", "NV_ENC_LEVEL_H264_1b");
    ("1.0b", "NV_ENC_LEVEL_H264_1b"); ("1.1", "NV_ENC_LEVEL_H264_11");
    ("1.2", "NV_ENC_LEVEL_H264_12"); ("1.3", "NV_ENC_LEVEL_H264_13");
    ("2", "NV_ENC_LEVEL_H264_2"); ("2.0", "NV_ENC_LEVEL_H264_2");
    ("2.1", "NV_ENC_LEVEL_H264_21"); ("2.2", "NV_ENC_LEVEL_H264_22");
    ("3", "NV_ENC_LEVEL_H264_3"); ("3.0", "NV_ENC_LEVEL_H264_3");
    ("3.1", "NV_ENC_LEVEL_H264_31"); ("3.2", "NV_ENC_LEVEL_H264_32");
    ("4", "NV_ENC_LEVEL_H264_4"); ("4.0", "NV_ENC_LEVEL_H264_4");
    ("4.1", "NV_ENC_LEVEL_H264_41"); ("4.2", "NV_ENC_LEVEL_H264_42");
    ("5", "NV_ENC_LEVEL_H264_5"); ("5.0", "NV_ENC_LEVEL_H264_5");
    ("5.1", "NV_ENC_LEVEL_H264_51") ]%string.

Definition nvenc_hevc_level_pairs : list (string * string) :=
  [ ("auto", "NV_ENC_LEVEL_AUTOSELECT"); ("1", "NV_ENC_LEVEL_HEVC_1");
    ("1.0", "NV_ENC_LEVEL_HEVC_1"); ("2", "NV_ENC_LEVEL_HEVC_2");
    ("2.0", "NV_ENC_LEVEL_HEVC_2"); ("2.1", "NV_ENC_LEVEL_HEVC_21");
    ("3", "NV_ENC_LEVEL_HEVC_3"); ("3.0", "NV_ENC_LEVEL_HEVC_3");
    ("3.1", "NV_ENC_LEVEL_HEVC_31"); ("4", "NV_ENC_LEVEL_HEVC_4");
    ("4.0", "NV_ENC_LEVEL_HEVC_4"); ("4.1", "NV_ENC_LEVEL_HEVC_41");
    ("5", "NV_ENC_LEVEL_HEVC_5"); ("5.0", "NV_ENC_LEVEL_HEVC_5");
    ("5.1", "NV_ENC_LEVEL_HEVC_51"); ("5.2", "NV_ENC_LEVEL_HEVC_52");
    ("6", "NV_ENC_LEVEL_HEVC_6"); ("6.0", "NV_ENC_LEVEL_HEVC_6");
    ("6.1", "NV_ENC_LEVEL_HEVC_61"); ("6.2", "NV_ENC_LEVEL_HEVC_62") ]%string.

Fixpoint input_string_to_uint32 (pair : list (string * string))
    (input : string) : Z * option string :=
  match pair with
  | [] => (AVERROR EINVAL, None)
  | (str, num) :: pair' =>
    if String.eqb input str then (0, Some num)
    else input_string_to_uint32 pair' input
  end.

(** Lines 735-836, the profile, level and tier strings: [inl res] for
    [goto error], [inr res] to go on, [res] being the local of that name. *)
Definition select_profile_level (avctx : AVCodecContext) (o : NvencOptions)
    (res : Z) : Z + Z :=
  let check_level (pairs : list (string * string)) (k : Z -> Z + Z) :=
    match level o with
    | Some l =>
      let res1 := (input_string_to_uint32 pairs l).1 in
      if negb (res1 =? 0) then inl res1 else k res1
    | None => k res
    end in
  match codec_id avctx with
  | AV_CODEC_ID_H264 =>
    let profile_ok :=
      match profile o with
      | None => true
      | Some p => String.eqb p "high" || String.eqb p "main"
                  || String.eqb p "baseline"
      end in
    if negb profile_ok then inl (AVERROR EINVAL)
    else check_level nvenc_h264_level_pairs inr
  | AV_CODEC_ID_H265 =>
    check_level nvenc_hevc_level_pairs (fun res1 =>
      match tier o with
      | None => inr res1
      | Some t =>
        if String.eqb t "main" || String.eqb t "high" then inr res1
        else inl (AVERROR EINVAL)
      end)
  | AV_CODEC_ID_OTHER => inr res
  end.

(** Cells of an array fresh from [av_malloc]. *)
Definition uninit_input_surface : NvencInputSurface :=
  mkNvencInputSurface (-1) NV_ENC_BUFFER_FORMAT_UNDEFINED.
Definition uninit_output_surface : NvencOutputSurface :=
  mkNvencOutputSurface false None (-1).

(** The loop of the [error:] label, lines 972-978. *)
Fixpoint release_surfaces (n i : nat) (ctx : NvencContext)
  : exec (list event) :=
  match n with
  | O => Done []
  | S n' =>
    match input_surfaces ctx !! i, output_surfaces ctx !! i with
    | Some _, Some o =>
      rest ← release_surfaces n' (S i) ctx;
      Done ([Release (R_registration i); Release (R_input_mem i)]
            ++ (if output_surface o then [Release (R_bitstream i)] else [])
            ++ rest)
    | _, _ => Undefined
    end
  end.

(** The [error:] label, lines 971-991. *)
Definition init_error (avctx : AVCodecContext) (ctx : NvencContext)
    (surfaceCount : nat) (res : Z) (tr : list event)
  : exec (Z * AVCodecContext * NvencContext * list event) :=
  ev ← release_surfaces surfaceCount 0 ctx;
  let tr1 := tr ++ ev ++ [Release R_transfer_mem]
             ++ (if nvencoder ctx then [Release R_encoder] else [])
             ++ (if cu_context ctx then [Release R_cuda_context] else []) in
  let '(ctx1, ev1) := nvenc_unload_nvenc ctx in
  Done (res, avctx, set_cu_context (set_nvencoder ctx1 false) false,
        tr1 ++ ev1).

(** The loop of lines 872-927, [n] iterations left, [k] is [surfaceCount].
    The first component is [Some res] when the loop left for [error:]. *)
Fixpoint init_surfaces (n k : nat) (avctx : AVCodecContext) (a : InitAnswers)
    (ctx : NvencContext) (tr : list event)
  : exec (option Z * nat * NvencContext * list event) :=
  match n with
  | O => Done (None, k, ctx, tr)
  | S n' =>
    match pix_fmt avctx with
    | AV_PIX_FMT_OTHER => Done (Some (AVERROR EINVAL), k, ctx, tr)
    | _ =>
      ins ← update_at (input_surfaces ctx) k
              (fun s => mkNvencInputSurface (lockCount s)
                          NV_ENC_BUFFER_FORMAT_NV12_PL);
      let ctx1 := set_input_surfaces ctx ins in
      let tr1 := tr ++ [Acquire (R_input_mem k)] in
      if decide (register_resource a k <> NV_ENC_SUCCESS)
      then Done (Some AVERROR_EXTERNAL, k, ctx1, tr1)
      else
        ins1 ← update_at ins k (fun s => set_lockCount s 0);
        let ctx2 := set_input_surfaces ctx1 ins1 in
        let tr2 := tr1 ++ [Acquire (R_registration k)] in
        if decide (create_bitstream_buffer a k <> NV_ENC_SUCCESS) then
          outs ← update_at (output_surfaces ctx2) k
                   (fun s => mkNvencOutputSurface false (input_surface s)
                               (busy s));
          Done (Some AVERROR_EXTERNAL, S k, set_output_surfaces ctx2 outs, tr2)
        else
          outs ← update_at (output_surfaces ctx2) k
                   (fun s => mkNvencOutputSurface true (input_surface s) 0);
          init_surfaces n' (S k) avctx a (set_output_surfaces ctx2 outs)
            (tr2 ++ [Acquire (R_bitstream k)])
    end
  end.

(** Lines 571-575. *)
Definition num_macroblocks (avctx : AVCodecContext) : Z :=
  int_t (Z.shiftr (int_t (width avctx + 15)) 4
         * Z.shiftr (int_t (height avctx + 15)) 4).

Definition size_surface_pool (avctx : AVCodecContext) (ctx : NvencContext)
  : NvencContext :=
  let num_mbs := num_macroblocks avctx in
  let ctx1 := set_max_surface_count ctx (if 8160 <=? num_mbs then 32 else 48) in
  if max_surface_count ctx1 <=? buffer_delay ctx1
  then set_buffer_delay ctx1 (int_t (max_surface_count ctx1 - 1))
  else ctx1.

(** Lines 583 and 599-631: the preset's configuration is copied, then the
    GOP options and the decode-timestamp baseline are applied. *)
Definition configure_gop (avctx : AVCodecContext) (a : InitAnswers)
    (ctx : NvencContext) : NvencContext :=
  let ctx1 := set_frameIntervalP ctx (presetCfg_frameIntervalP a) in
  let ctx2 :=
    if 0 <? gop_size avctx then
      if 0 <=? max_b_frames avctx
      then set_frameIntervalP ctx1 (int_t (max_b_frames avctx + 1))
      else ctx1
    else if gop_size avctx =? 0 then set_frameIntervalP ctx1 0
    else ctx1 in
  if 2 <=? frameIntervalP ctx2 then set_last_dts ctx2 (-2) else ctx2.

(** Lines 929-969: the out-of-band header and the exit of the function. *)
Definition init_finish (avctx : AVCodecContext) (a : InitAnswers)
    (ctx : NvencContext) (surfaceCount : nat) (res : Z) (tr : list event)
  : exec (Z * AVCodecContext * NvencContext * list event) :=
  let finish (avctx1 : AVCodecContext) (tr1 : list event) :=
    let avctx2 := if 1 <? frameIntervalP ctx then set_has_b_frames avctx1 2
                  else avctx1 in
    if negb (add_cpb_side_data a)
    then Done (AVERROR ENOMEM, avctx2, ctx, tr1)
    else Done (0, avctx2, ctx, tr1) in
  if global_header avctx then
    if decide (get_sequence_params a <> NV_ENC_SUCCESS)
    then init_error avctx ctx surfaceCount res tr
    else if negb (extradata_alloc a)
    then init_error avctx ctx surfaceCount (AVERROR ENOMEM) tr
    else finish (set_extradata avctx true) (tr ++ [Acquire R_extradata])
  else finish avctx tr.

(** Lines 838-927: the encoder is initialised and the pool is filled. *)
Definition init_pool (avctx : AVCodecContext) (a : InitAnswers)
    (ctx : NvencContext) (res : Z) (tr : list event)
  : exec (Z * AVCodecContext * NvencContext * list event) :=
  if decide (initialize_encoder a <> NV_ENC_SUCCESS)
  then init_error avctx ctx 0 AVERROR_EXTERNAL tr
  else
    let n := Z.to_nat (max_surface_count ctx) in
    if negb (input_surfaces_alloc a)
    then init_error avctx (set_input_surfaces ctx []) 0 (AVERROR ENOMEM) tr
    else
      let ctx1 := set_input_surfaces ctx (replicate n uninit_input_surface) in
      let tr1 := tr ++ [Acquire R_input_surfaces] in
      if negb (output_surfaces_alloc a)
      then init_error avctx (set_output_surfaces ctx1 []) 0 (AVERROR ENOMEM) tr1
      else
        let ctx2 := set_output_surfaces ctx1
                      (replicate n uninit_output_surface) in
        let tr2 := tr1 ++ [Acquire R_output_surfaces]
                   ++ (if decide (pix_fmt avctx = AV_PIX_FMT_YUV420P)
                       then [Acquire R_transfer_mem] else []) in
        '(failed, surfaceCount, ctx3, tr3) ←
          init_surfaces n 0 avctx a ctx2 tr2;
        match failed with
        | Some res1 => init_error avctx ctx3 surfaceCount res1 tr3
        | None => init_finish avctx a ctx3 surfaceCount res tr3
        end.

Definition nvenc_encode_init (avctx : AVCodecContext) (o : NvencOptions)
    (ctx : NvencContext) (a : InitAnswers)
  : exec (Z * AVCodecContext * NvencContext * list event) :=
  let res := 0 in
  let '(loaded, ctx0, tr0) := nvenc_dyload_nvenc avctx ctx a in
  if loaded =? 0 then Done (AVERROR_EXTERNAL, avctx, ctx0, tr0) else
  let ctx1 := set_last_dts ctx0 AV_NOPTS_VALUE in
  if negb (get_cuda_context a)
  then init_error avctx ctx1 0 AVERROR_EXTERNAL tr0
  else
    let ctx2 := set_cu_context ctx1 true in
    let tr1 := tr0 ++ [Acquire R_cuda_context] in
    match cu_module_load a with
    | Some r => Done (r, avctx, ctx2, tr1)
    | None =>
      let tr2 := tr1 ++ [Acquire R_cu_module] in
      match cu_module_get_function a with
      | Some r => Done (r, avctx, ctx2, tr2)
      | None =>
        if decide (open_session a <> NV_ENC_SUCCESS)
        then init_error avctx (set_nvencoder ctx2 false) 0 AVERROR_EXTERNAL tr2
        else
          let ctx3 := set_nvencoder ctx2 true in
          let tr3 := tr2 ++ [Acquire R_encoder] in
          match select_preset (preset o) (twopass ctx3) with
          | None => init_error avctx ctx3 0 (AVERROR EINVAL) tr3
          | Some (encoder_preset, twopass1, isLL, lossless) =>
            let ctx4 := set_twopass ctx3
                          (if twopass1 <? 0 then (if isLL then 1 else 0)
                           else twopass1) in
            match codec_id avctx with
            | AV_CODEC_ID_OTHER => init_error avctx ctx4 0 (AVERROR EINVAL) tr3
            | _ =>
              if decide (get_preset_config a <> NV_ENC_SUCCESS)
              then init_error avctx ctx4 0 AVERROR_EXTERNAL tr3
              else
                let ctx5 := configure_gop avctx a
                              (size_surface_pool avctx ctx4) in
                match select_profile_level avctx o res with
                | inl res1 => init_error avctx ctx5 0 res1 tr3
                | inr res1 => init_pool avctx a ctx5 res1 tr3
                end
            end
          end
      end
    end.

(** The private context as [av_mallocz] and the option defaults leave it. *)
Definition ctx_zero : NvencContext :=
  mkNvencContext false false false 0 [] []
    queue_zero queue_zero queue_zero 0 0 default_twopass default_buffer_delay.

(** ** Session tear-down: [nvenc_encode_close] *)

(** [av_freep(&queue->data)]: the block is freed and the pointer cleared;
    [pos], [count] and [size] stay as they are. *)
Definition free_queue_data (queue : NvencDataList) : NvencDataList :=
  mkNvencDataList None (pos queue) (count queue) (size queue).

(** The loop of lines 1005-1009; unlike the loop of the [error:] label it
    destroys the bitstream buffer without testing the pointer. *)
Fixpoint close_surfaces (n i : nat) (ctx : NvencContext)
  : exec (list event) :=
  match n with
  | O => Done []
  | S n' =>
    match input_surfaces ctx !! i, output_surfaces ctx !! i with
    | Some _, Some _ =>
      rest ← close_surfaces n' (S i) ctx;
      Done ([Release (R_registration i); Release (R_input_mem i);
             Release (R_bitstream i)] ++ rest)
    | _, _ => Undefined
    end
  end.

(** Lines 994-1024.  [release_cuda_context] (cudautils.h) is handed the
    address of [ctx->cu_context]; [cu_context_left] is what it leaves
    there. *)
Definition nvenc_encode_close (ctx : NvencContext) (cu_context_left : bool)
  : exec (Z * NvencContext * list event) :=
  let ctx1 :=
    set_output_surface_queue
      (set_output_surface_ready_queue
         (set_timestamp_list ctx (free_queue_data (timestamp_list ctx)))
         (free_queue_data (output_surface_ready_queue ctx)))
      (free_queue_data (output_surface_queue ctx)) in
  ev ← close_surfaces (Z.to_nat (max_surface_count ctx1)) 0 ctx1;
  let ctx2 := set_max_surface_count ctx1 0 in
  let tr1 := ev ++ (if nvencoder ctx2 then [Release R_encoder] else []) in
  let ctx3 := set_nvencoder ctx2 false in
  let '(ctx4, tr2) :=
    if cu_context ctx3
    then (set_cu_context ctx3 cu_context_left, tr1 ++ [Release R_cuda_context])
    else (ctx3, tr1) in
  let '(ctx5, ev1) := nvenc_unload_nvenc ctx4 in
  Done (0, ctx5, tr2 ++ ev1).

(** ** Rate control: lines 633-699 of [nvenc_encode_init] *)

Inductive NV_ENC_PARAMS_RC_MODE : Type :=
| NV_ENC_PARAMS_RC_CONSTQP | NV_ENC_PARAMS_RC_VBR | NV_ENC_PARAMS_RC_CBR
| NV_ENC_PARAMS_RC_VBR_MINQP | NV_ENC_PARAMS_RC_2_PASS_QUALITY
| NV_ENC_PARAMS_RC_2_PASS_VBR.

Record NV_ENC_QP : Type := mkNV_ENC_QP {
  qpInterP : Z;
  qpInterB : Z;
  qpIntra : Z
}.

(** The fields of [encode_config.rcParams] the block writes. *)
Record NV_ENC_RC_PARAMS : Type := mkNV_ENC_RC_PARAMS {
  rateControlMode : NV_ENC_PARAMS_RC_MODE;
  constQP : NV_ENC_QP;
  enableMinQP : Z;
  enableMaxQP : Z;
  minQP : NV_ENC_QP;
  maxQP : NV_ENC_QP;
  enableInitialRCQP : Z;
  initialRCQP : NV_ENC_QP
}.

(** The block takes the parameters the preset brought ([rc]) and returns
    them with [avctx->qmin] and [avctx->qmax].  [lossless] is the local of
    that name, [cbr] and [twopass] the fields of the context.  The two
    quantiser factors are floating point: [quant_factors_set] is the test
    of line 690, [intra_scaled qp] and [inter_b_scaled qp] are the values
    [qp * fabs(factor) + offset] of lines 691-694 as [av_clip] receives
    them.  The writes to the H.264 configuration (lines 635, 647-650 and
    674-677) are not part of the state modelled here. *)
Definition configure_rate_control (av_clip : Z -> Z -> Z -> Z)
    (lossless : bool) (cbr twopass global_quality qmin qmax : Z)
    (quant_factors_set : bool) (intra_scaled inter_b_scaled : Z -> Z)
    (rc : NV_ENC_RC_PARAMS) : NV_ENC_RC_PARAMS * Z * Z :=
  let const_qp (mode : NV_ENC_PARAMS_RC_MODE) (q : Z) :=
    mkNV_ENC_RC_PARAMS mode
      (mkNV_ENC_QP (uint32_t q) (uint32_t q) (uint32_t q))
      (enableMinQP rc) (enableMaxQP rc) (minQP rc) (maxQP rc)
      (enableInitialRCQP rc) (initialRCQP rc) in
  let set_mode (r : NV_ENC_RC_PARAMS) (mode : NV_ENC_PARAMS_RC_MODE) :=
    mkNV_ENC_RC_PARAMS mode (constQP r)
      (enableMinQP r) (enableMaxQP r) (minQP r) (maxQP r)
      (enableInitialRCQP r) (initialRCQP r) in
  if lossless then (const_qp NV_ENC_PARAMS_RC_CONSTQP 0, -1, -1)
  else if negb (cbr =? 0) then
    if twopass =? 0 then (set_mode rc NV_ENC_PARAMS_RC_CBR, qmin, qmax)
    else (set_mode rc NV_ENC_PARAMS_RC_2_PASS_QUALITY, qmin, qmax)
  else if 0 <? global_quality then
    (const_qp NV_ENC_PARAMS_RC_CONSTQP global_quality, -1, -1)
  else
    let '(rc1, qp_inter_p) :=
      if (0 <=? qmin) && (0 <=? qmax) then
        let rc0 :=
          mkNV_ENC_RC_PARAMS (rateControlMode rc) (constQP rc) 1 1
            (mkNV_ENC_QP (uint32_t qmin) (uint32_t qmin) (uint32_t qmin))
            (mkNV_ENC_QP (uint32_t qmax) (uint32_t qmax) (uint32_t qmax))
            (enableInitialRCQP rc) (initialRCQP rc) in
        (set_mode rc0 (if negb (twopass =? 0) then NV_ENC_PARAMS_RC_2_PASS_VBR
                       else NV_ENC_PARAMS_RC_VBR_MINQP),
         int_t (Z.quot (int_t (qmax + int_t (3 * qmin))) 4))
      else
        (set_mode rc (if negb (twopass =? 0) then NV_ENC_PARAMS_RC_2_PASS_VBR
                      else NV_ENC_PARAMS_RC_VBR),
         26) in
    let initial :=
      if quant_factors_set
      then mkNV_ENC_QP (uint32_t qp_inter_p)
             (uint32_t (av_clip (inter_b_scaled qp_inter_p) 0 51))
             (uint32_t (av_clip (intra_scaled qp_inter_p) 0 51))
      else mkNV_ENC_QP (uint32_t qp_inter_p) (uint32_t qp_inter_p)
             (uint32_t qp_inter_p) in
    (mkNV_ENC_RC_PARAMS (rateControlMode rc1) (constQP rc1)
       (enableMinQP rc1) (enableMaxQP rc1) (minQP rc1) (maxQP rc1)
       1 initial,
     qmin, qmax).

(** ** Display aspect ratio: lines 543-567 of [nvenc_encode_init] *)

(** [(darWidth, darHeight)] as the block leaves them.  [av_reduce num den
    max] (libavutil) is the pair it stores through its first two
    arguments; the products are formed in [int] (line 546-547) and in
    [unsigned] (lines 562-563, [darWidth] and [darHeight] being
    [uint32_t]). *)
Definition display_aspect_ratio (av_reduce : Z -> Z -> Z -> Z * Z)
    (width height sar_num sar_den : Z) : Z * Z :=
  let '(darWidth, darHeight) :=
    if negb (sar_num =? 0) && negb (sar_den =? 0)
       && (negb (sar_num =? 1) || negb (sar_num =? 1))
    then
      let '(dw, dh) := av_reduce (int_t (width * sar_num))
                         (int_t (height * sar_den)) (1024 * 1024) in
      (uint32_t dw, uint32_t dh)
    else (uint32_t width, uint32_t height) in
  if (width =? 720) && ((height =? 480) || (height =? 576)) then
    let '(dw, dh) := av_reduce (uint32_t (darWidth * 44))
                       (uint32_t (darHeight * 45)) (1024 * 1024) in
    (uint32_t dw, uint32_t dh)
  else (darWidth, darHeight).

(** * Vocabulary of the statements *)

(** ** Ring queue *)

(** The states a queue can be in: untouched (or after a failed first
    allocation), or allocated with a power-of-two capacity. *)
Definition queue_wfb (q : NvencDataList) : bool :=
  match data q with
  | None => (size q =? 0) && (pos q =? 0) && (count q =? 0)
  | Some buf =>
    (4 <=? size q) && (size q <=? 2 ^ 31) && (size q =? 2 ^ Z.log2 (size q))
    && (Z.of_nat (length buf) =? size q)
    && (0 <=? pos q) && (pos q <? size q)
    && (0 <=? count q) && (count q <=? size q)
  end.

Definition queue_wf (q : NvencDataList) : Prop := queue_wfb q = true.

Definition cell (buf : list NvencData) (i : Z) : NvencData :=
  default uninit (buf !! Z.to_nat i).

(** The stored sequence, oldest first. *)
Definition contents (q : NvencDataList) : list NvencData :=
  match data q with
  | None => []
  | Some buf =>
    (fun j : nat => cell buf ((pos q - count q + Z.of_nat j) mod size q))
      <$> seq 0 (Z.to_nat (count q))
  end.

(** The request an enqueue on [q] sends to the allocator, in bytes:
    the first block of four cells, or the doubled block of a full queue. *)
Definition allocation_request (q : NvencDataList) : option Z :=
  if size q =? 0 then Some (size_t (4 * 8))
  else if count q =? size q
  then Some (size_t (uint32_t (Z.shiftl (size q) 1) * 8))
  else None.

(** A client of the queue: a sequence of calls, every enqueue with the
    allocator it meets, and what each call returned. *)
Inductive queue_op : Type :=
| Enqueue (av_malloc : Z -> bool) (d : NvencData)
| Dequeue.

Inductive queue_ret : Type :=
| Enqueued (res : Z)
| Dequeued (d : option NvencData).

Fixpoint run_queue (ops : list queue_op) (q : NvencDataList)
  : exec (list queue_ret * NvencDataList) :=
  match ops with
  | [] => Done ([], q)
  | Enqueue m d :: ops' =>
    '(res, q1) ← data_queue_enqueue m q d;
    '(rets, q2) ← run_queue ops' q1;
    Done (Enqueued res :: rets, q2)
  | Dequeue :: ops' =>
    '(r, q1) ← data_queue_dequeue q;
    '(rets, q2) ← run_queue ops' q1;
    Done (Dequeued r :: rets, q2)
  end.

(** The reference the queue is compared with, in the words of the
    specification: a list; an accepted enqueue appends, a refused one
    changes nothing, a dequeue hands out the oldest value or "no value".
    [fifo_trace ops rets l l'] holds when the answers [rets] are those of
    that list started at [l] and ending at [l']. *)
Fixpoint fifo_trace (ops : list queue_op) (rets : list queue_ret)
    (l l' : list NvencData) : Prop :=
  match ops, rets with
  | [], [] => l' = l
  | Enqueue _ d :: ops', Enqueued res :: rets' =>
    (res = 0 /\ fifo_trace ops' rets' (l ++ [d]) l')
    \/ (res = AVERROR ENOMEM /\ fifo_trace ops' rets' l l')
  | Dequeue :: ops', Dequeued r :: rets' =>
    r = head l /\ fifo_trace ops' rets' (tail l) l'
  | _, _ => False
  end.

(** [n] dequeues in a row. *)
Fixpoint dequeue_n (n : nat) (q : NvencDataList)
  : exec (list (option NvencData) * NvencDataList) :=
  match n with
  | O => Done ([], q)
  | S n' =>
    '(r, q1) ← data_queue_dequeue q;
    '(rs, q2) ← dequeue_n n' q1;
    Done (r :: rs, q2)
  end.

(** ** Decode timestamps *)

(** The presentation timestamp a retrieval pops: the oldest one pushed and
    not yet popped, "no timestamp" when there is none. *)
Definition oldest_timestamp (q : NvencDataList) : Z :=
  match head (contents q) with
  | Some (U_timestamp t) => t
  | _ => AV_NOPTS_VALUE
  end.

(** Steps 2 to 4 of the decode-timestamp correction, in the words of the
    specification: subtract the offset of 1 when the B-frame depth implies
    reordering, clamp to the presentation timestamp, then force past the
    last emitted value. *)
Definition decode_timestamp (frameIntervalP last_dts pts popped : Z) : Z :=
  let shifted := if 2 <=? frameIntervalP then int64_t (popped - 1) else popped in
  let clamped := Z.min shifted pts in
  if bool_decide (last_dts <> AV_NOPTS_VALUE /\ clamped <= last_dts)
  then int64_t (last_dts + 1) else clamped.



(** ** The engine as its caller drives it *)

Definition blank_packet : AVPacket := mkAVPacket 0 false 0 0.

(** Successive calls of [nvenc_encode_frame], each with a blank packet and
    [got_packet] cleared, as libavcodec's encode wrapper does; the answer
    of each call is [(return value, got_packet, packet)]. *)
Fixpoint run_engine (FF_API_CODED_FRAME : bool) (codec_id : AVCodecID)
    (ctx : NvencContext) (calls : list (option AVFrame * FrameAnswers))
  : exec (list (Z * Z * AVPacket) * NvencContext) :=
  match calls with
  | [] => Done ([], ctx)
  | (frame, a) :: calls' =>
    '(res, ctx1, got_packet, pkt) ←
      nvenc_encode_frame FF_API_CODED_FRAME codec_id ctx blank_packet
        frame 0 a;
    '(outs, ctx2) ← run_engine FF_API_CODED_FRAME codec_id ctx1 calls';
    Done ((res, got_packet, pkt) :: outs, ctx2)
  end.


(** ** The engine's invariant *)

(** The output surfaces waiting in the two queues, in-flight first. *)
Definition queued (ctx : NvencContext) : list NvencData :=
  contents (output_surface_queue ctx)
  ++ contents (output_surface_ready_queue ctx).

Definition outstanding (ctx : NvencContext) : Z :=
  count (output_surface_queue ctx) + count (output_surface_ready_queue ctx).

(** The input surface a queued output surface refers to. *)
Definition surface_link (outs : list NvencOutputSurface) (d : NvencData)
  : option nat :=
  match d with
  | U_surface i => outs !! i ≫= input_surface
  | U_timestamp _ => None
  end.

Definition link_locked (ins : list NvencInputSurface)
    (outs : list NvencOutputSurface) (d : NvencData) : bool :=
  match surface_link outs d ≫= (fun j => ins !! j) with
  | Some s => negb (lockCount s =? 0)
  | None => false
  end.

Definition is_timestamp (d : NvencData) : bool :=
  match d with U_timestamp _ => true | U_surface _ => false end.

(** Every queued entry is an output surface whose input surface is
    locked, no two of them share an input surface, the timestamp list
    holds timestamps and exists as soon as a surface is queued. *)
Definition ctx_okb (ctx : NvencContext) : bool :=
  queue_wfb (output_surface_queue ctx)
  && queue_wfb (output_surface_ready_queue ctx)
  && queue_wfb (timestamp_list ctx)
  && (outstanding ctx <? 2 ^ 31)
  && ((outstanding ctx =? 0) || negb (size (timestamp_list ctx) =? 0))
  && forallb is_timestamp (contents (timestamp_list ctx))
  && forallb (link_locked (input_surfaces ctx) (output_surfaces ctx))
       (queued ctx)
  && bool_decide (NoDup (surface_link (output_surfaces ctx) <$> queued ctx)).

Definition ctx_ok (ctx : NvencContext) : Prop := ctx_okb ctx = true.

Definition links_ok (ins : list NvencInputSurface)
    (outs : list NvencOutputSurface) (l : list NvencData) : Prop :=
  Forall (fun d => link_locked ins outs d = true) l
  /\ NoDup (surface_link outs <$> l).

Definition entry_busy (outs : list NvencOutputSurface) (d : NvencData)
  : bool :=
  match d with
  | U_surface i =>
    match outs !! i with
    | Some o => negb (busy o =? 0)
    | None => false
    end
  | U_timestamp _ => false
  end.

(** The number of input surfaces in use. *)
Definition locked (ins : list NvencInputSurface) : nat :=
  length (filter (fun s => lockCount s <> 0) ins).

(** The bookkeeping of the pool against the list [l] of queued surfaces:
    the timestamp list is well-formed, holds timestamps and is allocated
    once a surface is queued; queued surfaces are busy and refer to
    distinct locked input surfaces; lock counts are 0 or 1; there are no
    more pending timestamps than locked input surfaces; both arrays have
    [max] cells. *)
Definition pool_inv (ins : list NvencInputSurface)
    (outs : list NvencOutputSurface) (ts : NvencDataList) (max : Z)
    (l : list NvencData) : Prop :=
  queue_wf ts
  /\ Forall (fun d => is_timestamp d = true) (contents ts)
  /\ (l <> [] -> size ts <> 0)
  /\ links_ok ins outs l
  /\ Forall (fun d => entry_busy outs d = true) l
  /\ Forall (fun s => lockCount s = 0 \/ lockCount s = 1) ins
  /\ count ts <= Z.of_nat (locked ins)
  /\ Z.of_nat (length ins) = max
  /\ Z.of_nat (length outs) = max
  /\ max < 2 ^ 31 - 1.

(** What every call of the engine keeps true, from the end of set-up on:
    besides [ctx_ok], queued surfaces are marked busy, lock counts are 0 or
    1, there are no more pending timestamps than locked input surfaces,
    and both arrays have [max_surface_count] cells. *)
Definition engine_inv (ctx : NvencContext) : Prop :=
  ctx_ok ctx
  /\ Forall (fun d => entry_busy (output_surfaces ctx) d = true) (queued ctx)
  /\ Forall (fun s => lockCount s = 0 \/ lockCount s = 1) (input_surfaces ctx)
  /\ count (timestamp_list ctx) <= Z.of_nat (locked (input_surfaces ctx))
  /\ Z.of_nat (length (input_surfaces ctx)) = max_surface_count ctx
  /\ Z.of_nat (length (output_surfaces ctx)) = max_surface_count ctx
  /\ max_surface_count ctx < 2 ^ 31 - 1.

(** Between the timestamp push and the queueing of output surface [i]:
    the surface is free, points at a locked input surface no queued
    surface refers to, and the timestamp list is allocated. *)
Definition pending (ctx : NvencContext) (i : nat) : Prop :=
  engine_inv ctx
  /\ size (timestamp_list ctx) <> 0
  /\ exists o j s,
       output_surfaces ctx !! i = Some o /\ busy o = 0
       /\ input_surface o = Some j
       /\ input_surfaces ctx !! j = Some s /\ lockCount s <> 0
       /\ Some j ∉ surface_link (output_surfaces ctx) <$> queued ctx.

(** The caller drains the encoder: [n] calls without a frame, the [k]-th
    of them met by [answers k]; the state after them. *)
Fixpoint flush_state (FF_API_CODED_FRAME : bool) (codec_id : AVCodecID)
    (answers : nat -> FrameAnswers) (n : nat) (ctx : NvencContext)
  : exec NvencContext :=
  match n with
  | O => Done ctx
  | S n' =>
    ctx1 ← flush_state FF_API_CODED_FRAME codec_id answers n' ctx;
    '(_, ctx2, _, _) ←
      nvenc_encode_frame FF_API_CODED_FRAME codec_id ctx1 blank_packet
        None 0 (answers n');
    Done ctx2
  end.

(** ** Session set-up *)

(** The [__cu] wrapper reports a failed CUDA call: when it makes
    [nvenc_encode_init] return, the value is not 0. *)
Definition cu_wrapper_reports (a : InitAnswers) : Prop :=
  cu_module_load a <> Some 0 /\ cu_module_get_function a <> Some 0.

(** The part of the context the emission test and the timestamp generator
    read. *)
Definition same_config (c1 c2 : NvencContext) : Prop :=
  max_surface_count c1 = max_surface_count c2
  /\ buffer_delay c1 = buffer_delay c2
  /\ last_dts c1 = last_dts c2
  /\ frameIntervalP c1 = frameIntervalP c2.

(** What a trace acquired, what it gave back, and what it kept. *)
Definition acquired (tr : list event) : list resource :=
  omap (fun e => match e with Acquire r => Some r | Release _ => None end) tr.

Definition released (tr : list event) : list resource :=
  omap (fun e => match e with Release r => Some r | Acquire _ => None end) tr.

Definition kept (tr : list event) : list resource :=
  filter (fun r => r ∉ released tr) (acquired tr).

(** The frame size is one libavcodec accepts: the macroblock count of
    line 571 is computed without leaving [int]. *)
Definition dimensions_fit (avctx : AVCodecContext) : Prop :=
  0 <= width avctx <= INT_MAX - 15 /\ 0 <= height avctx <= INT_MAX - 15
  /\ (width avctx + 15) / 16 * ((height avctx + 15) / 16) <= INT_MAX.

(** The parts of the context the engine's bookkeeping lives in. *)
Definition same_queues (c1 c2 : NvencContext) : Prop :=
  output_surface_queue c1 = output_surface_queue c2
  /\ output_surface_ready_queue c1 = output_surface_ready_queue c2
  /\ timestamp_list c1 = timestamp_list c2.

Definition same_surfaces (c1 c2 : NvencContext) : Prop :=
  input_surfaces c1 = input_surfaces c2
  /\ output_surfaces c1 = output_surfaces c2
  /\ max_surface_count c1 = max_surface_count c2.

(** Both arrays have [N] cells and the first [k] input surfaces have been
    set up (line 909: lock count 0). *)
Definition pool_filled (k N : nat) (c : NvencContext) : Prop :=
  length (input_surfaces c) = N /\ length (output_surfaces c) = N
  /\ forall j s, (j < k)%nat -> input_surfaces c !! j = Some s ->
                 lockCount s = 0.

(** What the events of a set-up trace may acquire when [sc] surfaces have
    been set up: the session-wide resources, the three resources of each
    of these surfaces, and the device memory of surface [sc] when its
    registration is refused.  [enc], [cuc] and [outs] are the encoder
    handle, the CUDA context and the output surfaces of the context the
    trace belongs to. *)
Definition session_resources : list resource :=
  [R_cuda; R_nvenc_lib; R_cuda_context; R_cu_module; R_encoder;
   R_input_surfaces; R_output_surfaces; R_transfer_mem].

Definition held_within (a : InitAnswers) (enc cuc : bool)
    (outs : list NvencOutputSurface) (sc : nat) (tr : list event) : Prop :=
  (forall r, Acquire r ∈ tr ->
     r ∈ session_resources
     \/ (exists i, (i < sc)%nat
                   /\ (r = R_input_mem i \/ r = R_registration i
                       \/ r = R_bitstream i))
     \/ (r = R_input_mem sc /\ register_resource a sc <> NV_ENC_SUCCESS))
  /\ (Acquire R_encoder ∈ tr -> enc = true)
  /\ (Acquire R_cuda_context ∈ tr -> cuc = true)
  /\ (forall i, Acquire (R_bitstream i) ∈ tr ->
                exists o, outs !! i = Some o /\ output_surface o = true).

(** What set-up and tear-down never give back. *)
Definition never_released (a : InitAnswers) (r : resource) : Prop :=
  r ∈ [R_cu_module; R_input_surfaces; R_output_surfaces]
  \/ exists k, r = R_input_mem k /\ register_resource a k <> NV_ENC_SUCCESS.

(** The state and the trace set-up leaves when it went through its
    [error:] label: the handles are cleared and what the trace still holds
    is never given back. *)
Definition unwound (a : InitAnswers) (ctx : NvencContext) (tr : list event)
  : Prop :=
  nvencoder ctx = false /\ cu_context ctx = false /\ nvenc_lib ctx = false
  /\ forall x, x ∈ kept tr -> never_released a x.

(** The state and the trace set-up leaves when it went past the surface
    loop and the header: both handles are set, nothing was given back, and
    the trace acquired the session-wide resources and the three resources
    of each of the [max_surface_count] surfaces, and besides these at most
    the out-of-band header. *)
Definition opened (ctx : NvencContext) (tr : list event) : Prop :=
  nvencoder ctx = true /\ cu_context ctx = true /\ released tr = []
  /\ (forall x, x ∈ [R_cuda_context; R_cu_module; R_encoder;
                     R_input_surfaces; R_output_surfaces] -> Acquire x ∈ tr)
  /\ (forall i, (i < Z.to_nat (max_surface_count ctx))%nat ->
         Acquire (R_input_mem i) ∈ tr /\ Acquire (R_registration i) ∈ tr
         /\ Acquire (R_bitstream i) ∈ tr)
  /\ (forall x, Acquire x ∈ tr ->
         x ∈ session_resources \/ x = R_extradata
         \/ exists i, (i < Z.to_nat (max_surface_count ctx))%nat
                      /\ (x = R_input_mem i \/ x = R_registration i
                          \/ x = R_bitstream i)).



(** The emission test in the words of the claim, on the queues [mid] the
    submission step of a call made in state [ctx] has left: the ready
    queue is not empty and either no frame was passed or ready count plus
    in-flight count is at least the delay.  (The code's test is
    [emission_gate], on [uint32_t] operands.) *)
Definition emission_test (ctx mid : NvencContext) (frame : option AVFrame)
  : Prop :=
  count (output_surface_ready_queue mid) <> 0
  /\ (frame = None
      \/ buffer_delay ctx <= count (output_surface_ready_queue mid)
                             + count (output_surface_queue mid)).

(** A private context as the framework hands it to the set-up: the three
    queues zeroed. *)
Definition fresh (ctx : NvencContext) : Prop :=
  output_surface_queue ctx = queue_zero
  /\ output_surface_ready_queue ctx = queue_zero
  /\ timestamp_list ctx = queue_zero.

(** [ctx] is the state of a session opened on [avctx] (set-up returned 0)
    after the calls [calls]. *)
Definition session_state (FF_API_CODED_FRAME : bool) (avctx : AVCodecContext)
    (o : NvencOptions) (ctx0 : NvencContext) (a : InitAnswers)
    (calls : list (option AVFrame * FrameAnswers)) (ctx : NvencContext)
  : Prop :=
  fresh ctx0 /\ cu_wrapper_reports a
  /\ exists avctx' ctx1 tr outs,
       nvenc_encode_init avctx o ctx0 a = Done (0, avctx', ctx1, tr)
       /\ run_engine FF_API_CODED_FRAME (codec_id avctx) ctx1 calls
          = Done (outs, ctx).

(** ** Worked inputs *)

Definition granted (_ : Z) : bool := true.
Definition refused (_ : Z) : bool := false.

(** Four values fill the first block, two leave, two more wrap around the
    end of the block, the seventh doubles it, then everything is read. *)
Definition ops_growth : list queue_op :=
  [ Enqueue granted (U_timestamp 1); Enqueue granted (U_timestamp 2);
    Enqueue granted (U_timestamp 3); Enqueue granted (U_timestamp 4);
    Dequeue; Dequeue;
    Enqueue granted (U_timestamp 5); Enqueue granted (U_timestamp 6);
    Enqueue granted (U_timestamp 7);
    Dequeue; Dequeue; Dequeue; Dequeue; Dequeue; Dequeue ].

(** A queue that held one value and was emptied again. *)
Definition queue_emptied : NvencDataList :=
  mkNvencDataList (Some [U_timestamp 7; uninit; uninit; uninit]) 1 0 4.

(** A full queue whose content wraps around the end of its block. *)
Definition queue_full : NvencDataList :=
  mkNvencDataList
    (Some [U_timestamp 5; U_timestamp 6; U_timestamp 3; U_timestamp 4])
    2 4 4.

(** A driver that accepts every request of the set-up, and one that
    refuses the sequence-header query only. *)
Definition answers_ok : InitAnswers :=
  mkInitAnswers true (fun _ => true) true true NV_ENC_SUCCESS true None None
    NV_ENC_SUCCESS NV_ENC_SUCCESS 1 NV_ENC_SUCCESS true true
    (fun _ => NV_ENC_SUCCESS) (fun _ => NV_ENC_SUCCESS) NV_ENC_SUCCESS
    true true.

Definition answers_header_refused : InitAnswers :=
  mkInitAnswers true (fun _ => true) true true NV_ENC_SUCCESS true None None
    NV_ENC_SUCCESS NV_ENC_SUCCESS 1 NV_ENC_SUCCESS true true
    (fun _ => NV_ENC_SUCCESS) (fun _ => NV_ENC_SUCCESS) NV_ENC_ERR_GENERIC
    true true.

(** One that refuses to register the third input surface. *)
Definition answers_register_refused : InitAnswers :=
  mkInitAnswers true (fun _ => true) true true NV_ENC_SUCCESS true None None
    NV_ENC_SUCCESS NV_ENC_SUCCESS 1 NV_ENC_SUCCESS true true
    (fun i => if decide (i = 2%nat) then NV_ENC_ERR_GENERIC
              else NV_ENC_SUCCESS)
    (fun _ => NV_ENC_SUCCESS) NV_ENC_SUCCESS true true.

(** One on which [ff_add_cpb_side_data] finds no memory. *)
Definition answers_no_side_data : InitAnswers :=
  mkInitAnswers true (fun _ => true) true true NV_ENC_SUCCESS true None None
    NV_ENC_SUCCESS NV_ENC_SUCCESS 1 NV_ENC_SUCCESS true true
    (fun _ => NV_ENC_SUCCESS) (fun _ => NV_ENC_SUCCESS) NV_ENC_SUCCESS
    true false.

(** H.264, 1920x1080, NV12, GOP of 12 with two B-frames, global header. *)
Definition avctx_1080p : AVCodecContext :=
  mkAVCodecContext AV_CODEC_ID_H264 1920 1080 12 2 true AV_PIX_FMT_NV12
    0 false.

Definition options_default : NvencOptions :=
  mkNvencOptions default_preset None None None.

Definition context_of (r : exec (Z * AVCodecContext * NvencContext * list event))
  : NvencContext :=
  match r with Done (_, _, ctx, _) => ctx | _ => ctx_zero end.

(** The session opened on [avctx_1080p] with a delay of 2. *)
Definition ctx_open : NvencContext :=
  Eval vm_compute in
    context_of (nvenc_encode_init avctx_1080p options_default
                  (set_buffer_delay ctx_zero 2) answers_ok).

Definition lock_ok (ts : Z) (t : NV_ENC_PIC_TYPE) : LockAnswers :=
  mkLockAnswers true NV_ENC_SUCCESS 100 ts t 0 NV_ENC_SUCCESS.

Definition lock_refused : LockAnswers :=
  mkLockAnswers true NV_ENC_ERR_GENERIC 0 0 NV_ENC_PIC_TYPE_P 0
    NV_ENC_SUCCESS.

(** The allocator refuses the slice-offset table. *)
Definition lock_no_table : LockAnswers :=
  mkLockAnswers false NV_ENC_SUCCESS 100 0 NV_ENC_PIC_TYPE_P 0
    NV_ENC_SUCCESS.

(** A call in which everything but the encode status and the retrieval
    is fixed to success. *)
Definition frame_answers (st : NVENCSTATUS) (l : LockAnswers) : FrameAnswers :=
  mkFrameAnswers NV_ENC_SUCCESS NV_ENC_BUFFER_FORMAT_NV12_PL 0 NV_ENC_SUCCESS
    granted st granted (fun _ => granted) granted l.

Definition frame_at (t : Z) : option AVFrame :=
  Some (mkAVFrame t AV_PIX_FMT_NV12).

Definition state_of {A} (r : exec (A * NvencContext)) : NvencContext :=
  match r with Done (_, ctx) => ctx | _ => ctx_zero end.

(** Five frames, presentation timestamps 0 to 4, all still in flight. *)
Definition calls_five_frames : list (option AVFrame * FrameAnswers) :=
  map (fun t => (frame_at t,
                 frame_answers NV_ENC_ERR_NEED_MORE_INPUT
                   (lock_ok 0 NV_ENC_PIC_TYPE_P)))
      [0; 1; 2; 3; 4].

Definition ctx_five_in_flight : NvencContext :=
  Eval vm_compute in
    state_of (run_engine true AV_CODEC_ID_H264 ctx_open calls_five_frames).



(** Three frames under a delay of 2: the third call moved all three
    surfaces to the ready queue and handed one out. *)
Definition calls_three_frames : list (option AVFrame * FrameAnswers) :=
  [ (frame_at 0, frame_answers NV_ENC_ERR_NEED_MORE_INPUT
                   (lock_ok 0 NV_ENC_PIC_TYPE_IDR));
    (frame_at 1, frame_answers NV_ENC_ERR_NEED_MORE_INPUT
                   (lock_ok 0 NV_ENC_PIC_TYPE_IDR));
    (frame_at 2, frame_answers NV_ENC_SUCCESS
                   (lock_ok 0 NV_ENC_PIC_TYPE_IDR)) ].

Definition ctx_two_ready : NvencContext :=
  Eval vm_compute in
    state_of (run_engine true AV_CODEC_ID_H264 ctx_open calls_three_frames).

(** The session the worked states belong to: H.264 at 1920x1080, opened
    with a delay of 2 on a driver that accepts the whole set-up. *)
Definition session_1080p (calls : list (option AVFrame * FrameAnswers))
    (ctx : NvencContext) : Prop :=
  session_state true avctx_1080p options_default
    (set_buffer_delay ctx_zero 2) answers_ok calls ctx.

(** A call in which the driver refuses to map the input surface. *)
Definition answers_map_refused : FrameAnswers :=
  mkFrameAnswers NV_ENC_ERR_GENERIC NV_ENC_BUFFER_FORMAT_NV12_PL 0
    NV_ENC_SUCCESS granted NV_ENC_SUCCESS granted (fun _ => granted) granted
    (lock_ok 3 NV_ENC_PIC_TYPE_P).

(** * Verification *)

(** ** Machine arithmetic *)

Lemma uint32_t_small z : 0 <= z < 2 ^ 32 -> uint32_t z = z.
Proof. intros H. unfold uint32_t. apply Z.mod_small. exact H. Qed.

Lemma int_t_small z : - 2 ^ 31 <= z < 2 ^ 31 -> int_t z = z.
Proof. intros H. unfold int_t. rewrite Z.mod_small; lia. Qed.


Lemma pow2_bounds k : 2 <= k <= 31 -> 4 <= 2 ^ k <= 2 ^ 31.
Proof.
  intros H. split.
  - change 4 with (2 ^ 2). apply Z.pow_le_mono_r; lia.
  - apply Z.pow_le_mono_r; lia.
Qed.

Lemma land_mask k x :
  2 <= k <= 31 -> Z.land (uint32_t x) (uint32_t (2 ^ k - 1)) = x mod 2 ^ k.
Proof.
  intros Hk. pose proof (pow2_bounds k Hk) as Hb.
  rewrite (uint32_t_small (2 ^ k - 1)) by lia.
  replace (2 ^ k - 1) with (Z.ones k) by (rewrite Z.ones_equiv; lia).
  rewrite Z.land_ones by lia. unfold uint32_t.
  apply Z.mod_mod_divide.
  exists (2 ^ (32 - k)). rewrite <- Z.pow_add_r by lia. f_equal. lia.
Qed.

Lemma mod_shift_ne s a d : 0 < s -> 0 < d < s -> (a - d) mod s <> a mod s.
Proof.
  intros Hs Hd Heq.
  assert (H : (a - (a - d)) mod s = 0).
  { rewrite Zminus_mod, Heq, Z.sub_diag. apply Z.mod_0_l. lia. }
  replace (a - (a - d)) with d in H by lia.
  rewrite Z.mod_small in H; lia.
Qed.

(** ** Ring queue: well-formedness and the stored sequence *)

Lemma queue_wf_zero q :
  queue_wf q -> data q = None -> q = queue_zero.
Proof.
  unfold queue_wf, queue_wfb. destruct q as [d p c s]; simpl.
  intros H ->. apply andb_true_iff in H as [H Hc].
  apply andb_true_iff in H as [Hs Hp].
  apply Z.eqb_eq in Hs, Hp, Hc. subst. reflexivity.
Qed.

Lemma queue_wf_alloc q buf :
  queue_wf q -> data q = Some buf ->
  exists k, 2 <= k <= 31 /\ size q = 2 ^ k
            /\ Z.of_nat (length buf) = size q
            /\ 0 <= pos q < size q /\ 0 <= count q <= size q.
Proof.
  unfold queue_wf, queue_wfb. intros H Hd. rewrite Hd in H.
  repeat (apply andb_true_iff in H as [H ?]).
  exists (Z.log2 (size q)).
  assert (4 <= size q) by lia.
  assert (size q <= 2 ^ 31) by lia.
  assert (Hs : size q = 2 ^ Z.log2 (size q)) by lia.
  repeat split; try lia.
  - apply Z.log2_le_pow2; lia.
  - destruct (Z.log2_lt_pow2 (size q) 32) as [Hl _]; [lia|].
    specialize (Hl ltac:(lia)).
    destruct (decide (Z.log2 (size q) <= 31)) as [|Hn]; [assumption|].
    assert (Z.log2 (size q) = 32 \/ 32 < Z.log2 (size q)) as [?|?] by lia; lia.
Qed.

Lemma queue_wf_intro buf p c k :
  2 <= k <= 31 -> Z.of_nat (length buf) = 2 ^ k ->
  0 <= p < 2 ^ k -> 0 <= c <= 2 ^ k ->
  queue_wf (mkNvencDataList (Some buf) p c (2 ^ k)).
Proof.
  intros Hk Hl Hp Hc. pose proof (pow2_bounds k Hk).
  unfold queue_wf, queue_wfb; simpl.
  rewrite Z.log2_pow2 by lia.
  repeat (apply andb_true_iff; split); lia.
Qed.

Lemma queue_wf_size_data q :
  queue_wf q -> size q <> 0 -> exists buf, data q = Some buf.
Proof.
  intros Hwf Hs. destruct (data q) as [buf|] eqn:Hd; [eauto|].
  apply queue_wf_zero in Hwf; [|assumption]. subst q. simpl in Hs. lia.
Qed.

Lemma contents_length q :
  length (contents q) = Z.to_nat (count q) \/ data q = None.
Proof.
  unfold contents. destruct (data q); [left|right; reflexivity].
  rewrite length_fmap, length_seq. reflexivity.
Qed.

Lemma contents_length_wf q :
  queue_wf q -> Z.of_nat (length (contents q)) = count q.
Proof.
  intros Hwf. unfold contents. destruct (data q) as [buf|] eqn:Hd.
  - destruct (queue_wf_alloc q buf Hwf Hd) as (k & _ & _ & _ & _ & Hc).
    rewrite length_fmap, length_seq. lia.
  - apply queue_wf_zero in Hwf; [|assumption]. subst q. reflexivity.
Qed.

Lemma dequeue_empty q :
  queue_wf q -> size q <> 0 -> count q = 0 ->
  data_queue_dequeue q = Done (None, q).
Proof.
  intros Hwf Hs Hc. destruct (queue_wf_size_data q Hwf Hs) as [buf Hd].
  unfold data_queue_dequeue. rewrite Hd.
  destruct (size q =? 0) eqn:E; [apply Z.eqb_eq in E; lia|].
  rewrite Hc. reflexivity.
Qed.

Lemma dequeue_nonempty q :
  queue_wf q -> 0 < count q ->
  exists d q',
    data_queue_dequeue q = Done (Some d, q')
    /\ contents q = d :: contents q'
    /\ queue_wf q'
    /\ count q' = count q - 1 /\ size q' = size q.
Proof.
  intros Hwf Hc.
  destruct (data q) as [buf|] eqn:Hd;
    [|apply queue_wf_zero in Hwf; [subst q; simpl in Hc; lia|assumption]].
  destruct (queue_wf_alloc q buf Hwf Hd) as (k & Hk & Hs & Hl & Hp & Hcs).
  pose proof (pow2_bounds k Hk) as Hb.
  assert (Hr : 0 <= (pos q - count q) mod 2 ^ k < 2 ^ k)
    by (apply Z.mod_pos_bound; lia).
  destruct (lookup_lt_is_Some_2 buf (Z.to_nat ((pos q - count q) mod 2 ^ k)))
    as [d Hl1]; [lia|].
  exists d, (mkNvencDataList (data q) (pos q) (count q - 1) (size q)).
  split; [|split; [|split]].
  - unfold data_queue_dequeue. rewrite Hd.
    destruct (size q =? 0) eqn:E; [apply Z.eqb_eq in E; lia|].
    destruct (count q =? 0) eqn:E1; [apply Z.eqb_eq in E1; lia|].
    rewrite Hs, land_mask by lia. rewrite Hl1.
    rewrite uint32_t_small by lia. reflexivity.
  - unfold contents; simpl. rewrite Hd.
    replace (Z.to_nat (count q)) with (S (Z.to_nat (count q - 1))) by lia.
    rewrite <- cons_seq, fmap_cons. f_equal.
    + unfold cell. rewrite Z.add_0_r, Hs, Hl1. reflexivity.
    + rewrite <- fmap_S_seq, <- list_fmap_compose.
      apply list_fmap_ext. intros i j _. simpl. f_equal. f_equal. lia.
  - rewrite Hd, Hs. apply queue_wf_intro; lia.
  - split; reflexivity.
Qed.

Lemma store_spec q d :
  queue_wf q -> size q <> 0 -> count q < size q ->
  exists q',
    data_queue_store q d = Done (0, q')
    /\ contents q' = contents q ++ [d]
    /\ queue_wf q'
    /\ count q' = count q + 1 /\ size q' = size q.
Proof.
  intros Hwf Hsz Hc. destruct (queue_wf_size_data q Hwf Hsz) as [buf Hd].
  destruct (queue_wf_alloc q buf Hwf Hd) as (k & Hk & Hs & Hl & Hp & Hcs).
  pose proof (pow2_bounds k Hk) as Hb.
  assert (Hr : 0 <= (pos q + 1) mod 2 ^ k < 2 ^ k)
    by (apply Z.mod_pos_bound; lia).
  eexists. split; [|split; [|split]].
  - unfold data_queue_store. rewrite Hd.
    destruct (decide (0 <= pos q < Z.of_nat (length buf))) as [_|Hn]; [|lia].
    rewrite Hs, land_mask by lia. rewrite uint32_t_small by lia. reflexivity.
  - unfold contents; simpl. rewrite Hd, Hs.
    replace (Z.to_nat (count q + 1)) with (S (Z.to_nat (count q))) by lia.
    rewrite seq_S, fmap_app. simpl. f_equal.
    + apply list_fmap_ext. intros i j Hj.
      apply lookup_seq in Hj as [-> Hj]. simpl.
      replace (((pos q + 1) mod 2 ^ k - (count q + 1) + Z.of_nat i) mod 2 ^ k)
        with ((pos q - count q + Z.of_nat i) mod 2 ^ k).
      2:{ rewrite <- (Zplus_mod_idemp_l ((pos q + 1) mod 2 ^ k - (count q + 1))).
          rewrite Zminus_mod_idemp_l, Zplus_mod_idemp_l. f_equal. lia. }
      unfold cell. rewrite list_lookup_insert_ne; [reflexivity|].
      intros Heq.
      assert (Hne := mod_shift_ne (2 ^ k) (pos q) (count q - Z.of_nat i)
                       ltac:(lia) ltac:(lia)).
      apply Hne. rewrite (Z.mod_small (pos q)) by lia.
      replace (pos q - (count q - Z.of_nat i))
        with (pos q - count q + Z.of_nat i) by lia.
      pose proof (Z.mod_pos_bound (pos q - count q + Z.of_nat i) (2 ^ k)
                    ltac:(lia)). lia.
    + f_equal.
      replace (((pos q + 1) mod 2 ^ k - (count q + 1)
                + Z.of_nat (Z.to_nat (count q))) mod 2 ^ k) with (pos q).
      2:{ rewrite <- (Zplus_mod_idemp_l ((pos q + 1) mod 2 ^ k - (count q + 1))).
          rewrite Zminus_mod_idemp_l, Zplus_mod_idemp_l.
          rewrite <- (Z.mod_small (pos q) (2 ^ k)) at 1 by lia. f_equal. lia. }
      unfold cell. rewrite list_lookup_insert_eq by lia. reflexivity.
  - apply queue_wf_intro; try lia. rewrite length_insert. lia.
  - simpl. split; [reflexivity|lia].
Qed.

Lemma contents_empty q : queue_wf q -> count q = 0 -> contents q = [].
Proof.
  intros Hwf Hc. apply nil_length_inv.
  pose proof (contents_length_wf q Hwf). lia.
Qed.

Lemma enqueue_rec_room n m q d :
  size q <> 0 -> count q <> size q ->
  data_queue_enqueue_rec (S n) m q d = data_queue_store q d.
Proof.
  intros Hs Hc. simpl.
  destruct (size q =? 0) eqn:E; [apply Z.eqb_eq in E; lia|].
  destruct (count q =? size q) eqn:E1; [apply Z.eqb_eq in E1; lia|].
  reflexivity.
Qed.

Lemma bind_Done {A B} (a : A) (f : A -> exec B) : (Done a ≫= f) = f a.
Proof. reflexivity. Qed.

Lemma bind_Done_inv {A B} (m : exec A) (f : A -> exec B) b :
  (m ≫= f) = Done b -> exists a, m = Done a /\ f a = Done b.
Proof. destruct m as [a| |]; try discriminate. intros H. eauto. Qed.

Lemma drain_loop_stop n enq q nq q1 :
  data_queue_dequeue q = Done (None, q1) ->
  drain_loop n enq q nq = Done (q1, nq).
Proof. intros H. destruct n; simpl; rewrite H; reflexivity. Qed.

Lemma drain_loop_step n enq q nq d q1 :
  data_queue_dequeue q = Done (Some d, q1) ->
  drain_loop (S n) enq q nq
  = ('(_, new_queue1) ← enq nq d; drain_loop n enq q1 new_queue1).
Proof. intros H. simpl. rewrite H. reflexivity. Qed.

Lemma enqueue_rec_full dep m q d :
  size q <> 0 -> count q = size q ->
  data_queue_enqueue_rec (S dep) m q d =
  match malloc_cells m (uint32_t (Z.shiftl (size q) 1)) with
  | None => Done (AVERROR ENOMEM, q)
  | Some buf =>
    '(_, new_queue) ←
      drain_loop (Z.to_nat (count q)) (data_queue_enqueue_rec dep m) q
        (mkNvencDataList (Some buf) 0 0 (uint32_t (Z.shiftl (size q) 1)));
    data_queue_store new_queue d
  end.
Proof.
  intros Hs Hc. simpl.
  destruct (size q =? 0) eqn:E; [apply Z.eqb_eq in E; lia|].
  destruct (count q =? size q) eqn:E1; [|apply Z.eqb_neq in E1; lia].
  reflexivity.
Qed.

Lemma drain_spec n m dep : forall q nq,
  queue_wf q -> size q <> 0 -> queue_wf nq -> size nq <> 0 ->
  n = Z.to_nat (count q) -> count nq + count q <= size nq ->
  exists q' nq',
    drain_loop n (data_queue_enqueue_rec (S dep) m) q nq = Done (q', nq')
    /\ contents nq' = contents nq ++ contents q
    /\ queue_wf nq'
    /\ count nq' = count nq + count q /\ size nq' = size nq.
Proof.
  induction n as [|n IH]; intros q nq Hwf Hs Hwfn Hsn Hn Hroom.
  - destruct (queue_wf_size_data q Hwf Hs) as [buf Hd].
    destruct (queue_wf_alloc q buf Hwf Hd) as (k & _ & _ & _ & _ & Hc).
    assert (Hc0 : count q = 0) by lia.
    exists q, nq.
    rewrite (drain_loop_stop _ _ _ _ _ (dequeue_empty q Hwf Hs Hc0)).
    rewrite (contents_empty q Hwf Hc0), app_nil_r.
    repeat split; [assumption|lia].
  - destruct (dequeue_nonempty q Hwf ltac:(lia))
      as (d & q1 & Hdq & Hcq & Hwf1 & Hc1 & Hs1).
    destruct (queue_wf_size_data nq Hwfn Hsn) as [bufn Hdn].
    destruct (queue_wf_alloc nq bufn Hwfn Hdn) as (kn & _ & _ & _ & _ & Hcn).
    destruct (store_spec nq d Hwfn Hsn ltac:(lia))
      as (nq1 & Hst & Hcn1 & Hwfn1 & Hcc1 & Hsn1).
    destruct (IH q1 nq1 Hwf1 ltac:(lia) Hwfn1 ltac:(lia) ltac:(lia) ltac:(lia))
      as (q' & nq' & Hdr & Hcont & Hwf' & Hc' & Hs').
    exists q', nq'. split; [|split; [|split]].
    + rewrite (drain_loop_step _ _ _ _ _ _ Hdq).
      rewrite enqueue_rec_room by lia. rewrite Hst, bind_Done. exact Hdr.
    + rewrite Hcont, Hcn1, Hcq, <- app_assoc. reflexivity.
    + assumption.
    + lia.
Qed.

Lemma enqueue_rec_grow dep m q d :
  queue_wf q -> size q <> 0 -> count q = size q -> size q < 2 ^ 31 ->
  m (size_t (uint32_t (Z.shiftl (size q) 1) * 8)) = true ->
  exists q',
    data_queue_enqueue_rec (S (S dep)) m q d = Done (0, q')
    /\ contents q' = contents q ++ [d]
    /\ queue_wf q'
    /\ count q' = count q + 1 /\ size q' = 2 * size q.
Proof.
  intros Hwf Hsz Hc Hlt Hm.
  destruct (queue_wf_size_data q Hwf Hsz) as [buf Hd].
  destruct (queue_wf_alloc q buf Hwf Hd) as (k & Hk & Hs & Hl & Hp & Hcs).
  pose proof (pow2_bounds k Hk) as Hb.
  assert (Hk1 : k <= 30).
  { destruct (decide (k <= 30)); [assumption|].
    assert (k = 31) by lia. subst k. lia. }
  assert (Hnew : uint32_t (Z.shiftl (size q) 1) = 2 ^ (k + 1)).
  { rewrite Z.shiftl_mul_pow2 by lia. rewrite Hs.
    rewrite Z.pow_add_r by lia. rewrite uint32_t_small; lia. }
  pose proof (pow2_bounds (k + 1) ltac:(lia)) as Hb1.
  assert (Hdbl : 2 ^ (k + 1) = 2 * 2 ^ k) by (rewrite Z.pow_add_r; lia).
  set (nq := mkNvencDataList
               (Some (replicate (Z.to_nat (2 ^ (k + 1))) uninit))
               0 0 (2 ^ (k + 1))).
  assert (Hwfn : queue_wf nq).
  { apply queue_wf_intro; try lia. rewrite length_replicate. lia. }
  destruct (drain_spec (Z.to_nat (count q)) m dep q nq Hwf Hsz Hwfn
              ltac:(simpl; lia) eq_refl ltac:(simpl; lia))
    as (q1 & nq1 & Hdr & Hcont & Hwf1 & Hc1 & Hs1).
  simpl in Hc1, Hs1.
  destruct (store_spec nq1 d Hwf1 ltac:(lia) ltac:(lia))
    as (q' & Hst & Hcq & Hwf' & Hc' & Hs').
  exists q'. split; [|split; [|split]].
  - rewrite enqueue_rec_full by lia.
    unfold malloc_cells. rewrite Hm, Hnew. fold nq.
    rewrite Hdr, bind_Done. exact Hst.
  - rewrite Hcq, Hcont. reflexivity.
  - assumption.
  - lia.
Qed.

Lemma enqueue_rec_first dep m d :
  m (size_t (4 * 8)) = true ->
  data_queue_enqueue_rec (S dep) m queue_zero d
  = Done (0, mkNvencDataList (Some [d; uninit; uninit; uninit]) 1 1 4).
Proof.
  intros Hm. simpl. unfold malloc_cells. rewrite Hm. reflexivity.
Qed.

Lemma enqueue_ok m q d :
  queue_wf q -> count q < 2 ^ 31 ->
  (forall n, allocation_request q = Some n -> m n = true) ->
  exists q',
    data_queue_enqueue m q d = Done (0, q')
    /\ contents q' = contents q ++ [d]
    /\ queue_wf q'
    /\ count q' = count q + 1 /\ size q' <> 0.
Proof.
  intros Hwf Hc Hm. unfold allocation_request in Hm.
  destruct (data q) as [buf|] eqn:Hd.
  - destruct (queue_wf_alloc q buf Hwf Hd) as (k & Hk & Hs & Hl & Hp & Hcs).
    pose proof (pow2_bounds k Hk) as Hb.
    destruct (size q =? 0) eqn:E; [apply Z.eqb_eq in E; lia|].
    destruct (count q =? size q) eqn:E1.
    + apply Z.eqb_eq in E1.
      destruct (enqueue_rec_grow 2 m q d Hwf ltac:(lia) E1 ltac:(lia)
                  (Hm _ eq_refl)) as (q' & He & Hcq & Hwf' & Hc' & Hs').
      exists q'. repeat split; try assumption. lia.
    + apply Z.eqb_neq in E1.
      destruct (store_spec q d Hwf ltac:(lia) ltac:(lia))
        as (q' & He & Hcq & Hwf' & Hc' & Hs').
      exists q'. unfold data_queue_enqueue.
      rewrite enqueue_rec_room by lia. repeat split; try assumption. lia.
  - apply queue_wf_zero in Hwf; [|assumption]. subst q. simpl in Hm.
    eexists. unfold data_queue_enqueue.
    rewrite enqueue_rec_first by (apply Hm; reflexivity).
    repeat split; simpl; lia.
Qed.

Lemma enqueue_enomem m q d n :
  queue_wf q -> allocation_request q = Some n -> m n = false ->
  data_queue_enqueue m q d = Done (AVERROR ENOMEM, q).
Proof.
  intros Hwf Hreq Hm. unfold allocation_request in Hreq.
  destruct (data q) as [buf|] eqn:Hd.
  - destruct (queue_wf_alloc q buf Hwf Hd) as (k & Hk & Hs & Hl & Hp & Hcs).
    pose proof (pow2_bounds k Hk) as Hb.
    destruct (size q =? 0) eqn:E; [apply Z.eqb_eq in E; lia|].
    destruct (count q =? size q) eqn:E1; [|discriminate].
    apply Z.eqb_eq in E1. injection Hreq as <-.
    unfold data_queue_enqueue. rewrite enqueue_rec_full by lia.
    unfold malloc_cells. rewrite Hm. reflexivity.
  - apply queue_wf_zero in Hwf; [|assumption]. subst q. simpl in Hreq.
    injection Hreq as <-. unfold data_queue_enqueue. simpl.
    unfold malloc_cells. rewrite Hm. reflexivity.
Qed.

Lemma enqueue_no_request m q d :
  queue_wf q -> allocation_request q = None ->
  data_queue_enqueue m q d = data_queue_store q d.
Proof.
  intros Hwf Hreq. unfold allocation_request in Hreq.
  destruct (size q =? 0) eqn:E; [discriminate|].
  destruct (count q =? size q) eqn:E1; [discriminate|].
  apply Z.eqb_neq in E, E1. apply enqueue_rec_room; assumption.
Qed.

(** Every enqueue on a well-formed queue returns: either 0 with the value
    appended, or [AVERROR(ENOMEM)] with the queue as it was. *)
Lemma enqueue_total m q d :
  queue_wf q -> count q < 2 ^ 31 ->
  exists r q',
    data_queue_enqueue m q d = Done (r, q') /\ queue_wf q'
    /\ ((r = 0 /\ contents q' = contents q ++ [d]
         /\ count q' = count q + 1 /\ size q' <> 0)
        \/ (r = AVERROR ENOMEM /\ q' = q /\ allocation_request q <> None)).
Proof.
  intros Hwf Hc.
  destruct (allocation_request q) as [n|] eqn:Hreq.
  - destruct (m n) eqn:Hm.
    + destruct (enqueue_ok m q d Hwf Hc) as (q' & He & H1 & H2 & H3 & H4).
      { intros n' Hn'. congruence. }
      exists 0, q'. split; [assumption|]. split; [assumption|]. left. auto.
    + exists (AVERROR ENOMEM), q.
      rewrite (enqueue_enomem m q d n Hwf Hreq Hm).
      split; [reflexivity|]. split; [assumption|]. right. auto.
  - destruct (enqueue_ok m q d Hwf Hc) as (q' & He & H1 & H2 & H3 & H4).
    { intros n' Hn'. congruence. }
    exists 0, q'. split; [assumption|]. split; [assumption|]. left. auto.
Qed.

(** The recursion of [data_queue_enqueue] nests once: deeper unfoldings
    return what two levels return. *)
Lemma drain_loop_depth n m dep : forall q nq,
  queue_wf q -> size q <> 0 -> queue_wf nq -> size nq <> 0 ->
  n = Z.to_nat (count q) -> count nq + count q <= size nq ->
  drain_loop n (data_queue_enqueue_rec (S dep) m) q nq
  = drain_loop n (data_queue_enqueue_rec 1 m) q nq.
Proof.
  induction n as [|n IH]; intros q nq Hwf Hs Hwfn Hsn Hn Hroom.
  - destruct (queue_wf_size_data q Hwf Hs) as [buf Hd].
    destruct (queue_wf_alloc q buf Hwf Hd) as (k & _ & _ & _ & _ & Hc).
    assert (Hc0 : count q = 0) by lia.
    rewrite !(drain_loop_stop _ _ _ _ _ (dequeue_empty q Hwf Hs Hc0)).
    reflexivity.
  - destruct (dequeue_nonempty q Hwf ltac:(lia))
      as (d & q1 & Hdq & Hcq & Hwf1 & Hc1 & Hs1).
    destruct (queue_wf_size_data nq Hwfn Hsn) as [bufn Hdn].
    destruct (queue_wf_alloc nq bufn Hwfn Hdn) as (kn & _ & _ & _ & _ & Hcn).
    destruct (store_spec nq d Hwfn Hsn ltac:(lia))
      as (nq1 & Hst & Hcn1 & Hwfn1 & Hcc1 & Hsn1).
    rewrite !(drain_loop_step _ _ _ _ _ _ Hdq).
    rewrite !enqueue_rec_room by lia. rewrite Hst, !bind_Done.
    apply IH; try assumption; lia.
Qed.

Lemma data_queue_enqueue_depth dep m q d :
  queue_wf q -> count q < 2 ^ 31 ->
  data_queue_enqueue_rec (S (S dep)) m q d = data_queue_enqueue_rec 2 m q d.
Proof.
  intros Hwf Hc.
  destruct (data q) as [buf|] eqn:Hd.
  - destruct (queue_wf_alloc q buf Hwf Hd) as (k & Hk & Hs & Hl & Hp & Hcs).
    pose proof (pow2_bounds k Hk) as Hb.
    destruct (decide (count q = size q)) as [E|E].
    + rewrite !enqueue_rec_full by lia.
      destruct (malloc_cells m (uint32_t (Z.shiftl (size q) 1)))
        as [nbuf|] eqn:Hmc; [|reflexivity].
      assert (Hk1 : k <= 30).
      { destruct (decide (k <= 30)); [assumption|].
        assert (k = 31) by lia. subst k. lia. }
      assert (Hnew : uint32_t (Z.shiftl (size q) 1) = 2 ^ (k + 1)).
      { rewrite Z.shiftl_mul_pow2 by lia. rewrite Hs.
        rewrite Z.pow_add_r by lia. rewrite uint32_t_small; lia. }
      assert (Hdbl : 2 ^ (k + 1) = 2 * 2 ^ k) by (rewrite Z.pow_add_r; lia).
      rewrite Hnew in *. unfold malloc_cells in Hmc.
      destruct (m (size_t (2 ^ (k + 1) * 8))); [|discriminate].
      injection Hmc as <-.
      rewrite drain_loop_depth; try assumption; try reflexivity;
        try (simpl; lia).
      apply queue_wf_intro; try lia. rewrite length_replicate. lia.
    + rewrite !enqueue_rec_room by lia. reflexivity.
  - apply queue_wf_zero in Hwf; [|assumption]. subst q. simpl.
    unfold malloc_cells. destruct (m (size_t (4 * 8))); reflexivity.
Qed.

Lemma dequeue_total q :
  queue_wf q -> size q <> 0 ->
  exists r q',
    data_queue_dequeue q = Done (r, q') /\ queue_wf q'
    /\ r = head (contents q) /\ contents q' = tail (contents q)
    /\ size q' = size q /\ 0 <= count q' <= count q.
Proof.
  intros Hwf Hs. destruct (queue_wf_size_data q Hwf Hs) as [buf Hd].
  destruct (queue_wf_alloc q buf Hwf Hd) as (k & _ & _ & _ & _ & Hc).
  destruct (decide (count q = 0)) as [E|E].
  - exists None, q. rewrite (dequeue_empty q Hwf Hs E).
    rewrite (contents_empty q Hwf E). repeat split; try assumption; lia.
  - destruct (dequeue_nonempty q Hwf ltac:(lia))
      as (d & q' & Hdq & Hcq & Hwf' & Hc' & Hs').
    exists (Some d), q'. rewrite Hdq, Hcq. repeat split; try assumption; lia.
Qed.

Lemma run_queue_fifo ops : forall q,
  queue_wf q -> count q + Z.of_nat (length ops) < 2 ^ 31 ->
  (size q <> 0 -> is_Done (run_queue ops q))
  /\ (forall rets q', run_queue ops q = Done (rets, q') ->
      fifo_trace ops rets (contents q) (contents q') /\ queue_wf q').
Proof.
  induction ops as [|op ops IH]; intros q Hwf Hb.
  - split; [intros _; eexists; reflexivity|].
    intros rets q' H. injection H as <- <-. simpl. auto.
  - destruct op as [m d|].
    + destruct (enqueue_total m q d Hwf ltac:(simpl in Hb; lia))
        as (r & q1 & He & Hwf1 & Hcase).
      assert (Hb1 : count q1 + Z.of_nat (length ops) < 2 ^ 31).
      { simpl in Hb. destruct Hcase as [(_ & _ & Hc & _)|(_ & -> & _)]; lia. }
      destruct (IH q1 Hwf1 Hb1) as [IHd IHt].
      split.
      * intros Hs. assert (Hs1 : size q1 <> 0).
        { destruct Hcase as [(_ & _ & _ & Hs1)|(_ & -> & _)]; assumption. }
        destruct (IHd Hs1) as [[rets q2] Hr]. eexists. simpl.
        rewrite He, bind_Done, Hr. reflexivity.
      * intros rets q' H. simpl in H. rewrite He, bind_Done in H.
        destruct (run_queue ops q1) as [[rets1 q2]| |] eqn:Hr;
          try discriminate.
        injection H as <- <-. destruct (IHt _ _ eq_refl) as [Ht Hwf'].
        split; [|assumption]. simpl.
        destruct Hcase as [(-> & Hc & _)|(-> & -> & _)].
        -- left. rewrite <- Hc. auto.
        -- right. auto.
    + split.
      * intros Hs.
        destruct (dequeue_total q Hwf Hs)
          as (r & q1 & Hdq & Hwf1 & _ & _ & Hs1 & Hc1).
        destruct (IH q1 Hwf1 ltac:(simpl in Hb; lia)) as [IHd _].
        destruct (IHd ltac:(lia)) as [[rets q2] Hr]. eexists. simpl.
        rewrite Hdq, bind_Done, Hr. reflexivity.
      * intros rets q' H. simpl in H.
        destruct (decide (size q = 0)) as [E|E].
        { unfold data_queue_dequeue in H. rewrite E in H. discriminate. }
        destruct (dequeue_total q Hwf E)
          as (r & q1 & Hdq & Hwf1 & Hr & Hcq & Hs1 & Hc1).
        rewrite Hdq, bind_Done in H.
        destruct (run_queue ops q1) as [[rets1 q2]| |] eqn:Hrun;
          try discriminate.
        injection H as <- <-.
        destruct (IH q1 Hwf1 ltac:(simpl in Hb; lia)) as [_ IHt].
        destruct (IHt _ _ Hrun) as [Ht Hwf'].
        split; [|assumption]. simpl. rewrite <- Hcq. auto.
Qed.

Lemma dequeue_n_empty n q :
  queue_wf q -> size q <> 0 -> count q = 0 ->
  dequeue_n n q = Done (replicate n None, q).
Proof.
  intros Hwf Hs Hc. induction n as [|n IH]; [reflexivity|].
  simpl. rewrite (dequeue_empty q Hwf Hs Hc), bind_Done, IH. reflexivity.
Qed.

(** ** Ring queue: the claims *)

(** C3. Started on a well-formed queue, any sequence of enqueues and
    dequeues (fewer than 2^31 entries outstanding) answers as the FIFO list
    of the specification does: every dequeue hands out the oldest value not
    yet handed out, an accepted enqueue appends, also when it doubles the
    block and moves the entries over.  On an allocated queue every such
    sequence returns. *)
Theorem ring_queue_fifo (ops : list queue_op) (q : NvencDataList) :
  queue_wf q -> count q + Z.of_nat (length ops) < 2 ^ 31 ->
  (size q <> 0 -> is_Done (run_queue ops q))
  /\ (forall rets q', run_queue ops q = Done (rets, q') ->
      fifo_trace ops rets (contents q) (contents q') /\ queue_wf q').
Proof. apply run_queue_fifo. Qed.

Lemma ring_queue_fifo_witness :
  queue_wf queue_zero
  /\ count queue_zero + Z.of_nat (length ops_growth) < 2 ^ 31
  /\ exists rets q',
       run_queue ops_growth queue_zero = Done (rets, q')
       /\ rets = [ Enqueued 0; Enqueued 0; Enqueued 0; Enqueued 0;
                   Dequeued (Some (U_timestamp 1));
                   Dequeued (Some (U_timestamp 2));
                   Enqueued 0; Enqueued 0; Enqueued 0;
                   Dequeued (Some (U_timestamp 3));
                   Dequeued (Some (U_timestamp 4));
                   Dequeued (Some (U_timestamp 5));
                   Dequeued (Some (U_timestamp 6));
                   Dequeued (Some (U_timestamp 7));
                   Dequeued None ]
       /\ size q' = 8
       /\ fifo_trace ops_growth rets (contents queue_zero) (contents q').
Proof.
  split; [reflexivity|]. split; [vm_compute; reflexivity|].
  eexists _, _. split; [vm_compute; reflexivity|].
  split; [reflexivity|]. split; [reflexivity|].
  destruct (ring_queue_fifo ops_growth queue_zero) as [_ H].
  - reflexivity.
  - vm_compute. reflexivity.
  - apply H. vm_compute. reflexivity.
Defined.

(** C7, as the code has it. A dequeue on an allocated queue with zero count
    returns the sentinel ([NULL]; [AV_NOPTS_VALUE] for timestamps) and
    leaves the queue as it was, so any number of dequeues in a row do; no
    dequeue of a well-formed queue takes the count below zero. *)
Theorem dequeue_empty_sentinel (q : NvencDataList) (n : nat) :
  queue_wf q -> size q <> 0 -> count q = 0 ->
  dequeue_n n q = Done (replicate n None, q)
  /\ timestamp_queue_dequeue q = Done (AV_NOPTS_VALUE, q)
  /\ out_surf_queue_dequeue q = Done (None, q)
  /\ (forall q0 r q1, queue_wf q0 -> data_queue_dequeue q0 = Done (r, q1) ->
      0 <= count q1).
Proof.
  intros Hwf Hs Hc. split; [apply dequeue_n_empty; assumption|].
  unfold timestamp_queue_dequeue, out_surf_queue_dequeue.
  rewrite (dequeue_empty q Hwf Hs Hc). split; [reflexivity|].
  split; [reflexivity|].
  intros q0 r q1 Hwf0 Hdq.
  destruct (decide (size q0 = 0)) as [E|E].
  { unfold data_queue_dequeue in Hdq. rewrite E in Hdq. discriminate. }
  destruct (dequeue_total q0 Hwf0 E) as (r' & q1' & Hdq' & _ & _ & _ & _ & H).
  rewrite Hdq in Hdq'. injection Hdq' as -> ->. lia.
Qed.

Lemma dequeue_empty_sentinel_witness :
  queue_wf queue_emptied /\ size queue_emptied <> 0
  /\ count queue_emptied = 0
  /\ dequeue_n 3 queue_emptied = Done ([None; None; None], queue_emptied)
  /\ timestamp_queue_dequeue queue_emptied
     = Done (AV_NOPTS_VALUE, queue_emptied).
Proof.
  assert (Hwf : queue_wf queue_emptied) by reflexivity.
  assert (Hs : size queue_emptied <> 0) by (simpl; lia).
  assert (Hc : count queue_emptied = 0) by reflexivity.
  destruct (dequeue_empty_sentinel queue_emptied 3 Hwf Hs Hc)
    as (H1 & H2 & _).
  repeat split; assumption.
Defined.

(** C7, as stated, fails on a queue that was never allocated: its count is
    zero and the dequeue trips [av_assert0(queue->size)]. *)
Lemma dequeue_unallocated_aborts :
  queue_wf queue_zero /\ count queue_zero = 0
  /\ data_queue_dequeue queue_zero = AssertFail
  /\ timestamp_queue_dequeue queue_zero = AssertFail
  /\ out_surf_queue_dequeue queue_zero = AssertFail
  /\ ~ (exists r q', data_queue_dequeue queue_zero = Done (r, q')).
Proof.
  repeat split; try reflexivity.
  intros (r & q' & H). discriminate H.
Qed.

(** C8. An enqueue whose request to the allocator (the first block, or the
    doubled block of a full queue) is refused returns [AVERROR(ENOMEM)] and
    leaves the queue as it was: same stored sequence, count and capacity. *)
Theorem enqueue_enomem_unchanged (av_malloc : Z -> bool) (q : NvencDataList)
    (d : NvencData) (n : Z) :
  queue_wf q -> allocation_request q = Some n -> av_malloc n = false ->
  exists q',
    data_queue_enqueue av_malloc q d = Done (AVERROR ENOMEM, q')
    /\ q' = q
    /\ contents q' = contents q /\ count q' = count q /\ size q' = size q.
Proof.
  intros Hwf Hreq Hm. exists q.
  rewrite (enqueue_enomem av_malloc q d n Hwf Hreq Hm). auto.
Qed.

Lemma enqueue_enomem_unchanged_witness :
  (queue_wf queue_full /\ allocation_request queue_full = Some 64
   /\ refused 64 = false
   /\ data_queue_enqueue refused queue_full (U_timestamp 9)
      = Done (AVERROR ENOMEM, queue_full))
  /\ (queue_wf queue_zero /\ allocation_request queue_zero = Some 32
      /\ data_queue_enqueue refused queue_zero (U_timestamp 9)
         = Done (AVERROR ENOMEM, queue_zero)).
Proof.
  split.
  - assert (Hwf : queue_wf queue_full) by reflexivity.
    assert (Hreq : allocation_request queue_full = Some 64) by reflexivity.
    assert (Hm : refused 64 = false) by reflexivity.
    destruct (enqueue_enomem_unchanged refused queue_full (U_timestamp 9) 64
                Hwf Hreq Hm) as (q' & He & -> & _).
    repeat split; assumption.
  - assert (Hwf : queue_wf queue_zero) by reflexivity.
    assert (Hreq : allocation_request queue_zero = Some 32) by reflexivity.
    destruct (enqueue_enomem_unchanged refused queue_zero (U_timestamp 9) 32
                Hwf Hreq eq_refl) as (q' & He & -> & _).
    repeat split; assumption.
Defined.

(** ** Decode timestamps *)

Lemma timestamp_dequeue_spec q t q' :
  queue_wf q -> timestamp_queue_dequeue q = Done (t, q') ->
  t = oldest_timestamp q /\ contents q' = tail (contents q)
  /\ queue_wf q' /\ size q' = size q /\ size q <> 0
  /\ 0 <= count q' <= count q.
Proof.
  intros Hwf H. unfold timestamp_queue_dequeue in H.
  destruct (decide (size q = 0)) as [E|E].
  { unfold data_queue_dequeue in H. rewrite E in H. discriminate. }
  destruct (dequeue_total q Hwf E)
    as (r & q1 & Hdq & Hwf1 & Hr & Hcq & Hs1 & Hc1).
  rewrite Hdq, bind_Done in H. unfold oldest_timestamp. rewrite <- Hr.
  destruct r as [[t1|s1]|]; try discriminate; injection H as <- <-;
    repeat split; try assumption; lia.
Qed.

Lemma decode_timestamp_eq fip last p popped :
  (let dts2 := if 2 <=? fip then int64_t (popped - 1) else popped in
   let dts3 := if p <? dts2 then p else dts2 in
   if negb (last =? AV_NOPTS_VALUE) && (dts3 <=? last)
   then int64_t (last + 1) else dts3)
  = decode_timestamp fip last p popped.
Proof.
  unfold decode_timestamp. cbv zeta.
  set (s := if 2 <=? fip then int64_t (popped - 1) else popped).
  assert (Hmin : (if p <? s then p else s) = Z.min s p).
  { destruct (p <? s) eqn:E; [apply Z.ltb_lt in E|apply Z.ltb_ge in E]; lia. }
  rewrite Hmin.
  destruct (last =? AV_NOPTS_VALUE) eqn:E1;
    [apply Z.eqb_eq in E1|apply Z.eqb_neq in E1];
    destruct (Z.min s p <=? last) eqn:E2;
    [apply Z.leb_le in E2|apply Z.leb_gt in E2
    |apply Z.leb_le in E2|apply Z.leb_gt in E2]; simpl;
    case_bool_decide; try reflexivity; try tauto; try lia.
Qed.

Lemma set_timestamps_spec ctx pkt ots ctx' pkt' :
  queue_wf (timestamp_list ctx) ->
  set_timestamps ctx pkt ots = Done (ctx', pkt') ->
  exists tl,
    timestamp_queue_dequeue (timestamp_list ctx)
    = Done (oldest_timestamp (timestamp_list ctx), tl)
    /\ pts pkt' = int64_t ots
    /\ dts pkt' = decode_timestamp (frameIntervalP ctx) (last_dts ctx)
                    (int64_t ots) (oldest_timestamp (timestamp_list ctx))
    /\ ctx' = set_last_dts (set_timestamp_list ctx tl) (dts pkt').
Proof.
  intros Hwf H. unfold set_timestamps in H.
  destruct (timestamp_queue_dequeue (timestamp_list ctx))
    as [[t tl]| |] eqn:Hdq; try discriminate.
  destruct (timestamp_dequeue_spec _ _ _ Hwf Hdq) as (-> & _).
  rewrite bind_Done in H. cbv zeta in H.
  rewrite decode_timestamp_eq in H. injection H as <- <-.
  exists tl. simpl. auto.
Qed.

(** A retrieval that returns 0 went through the timestamp assignment. *)
Lemma process_output_surface_ok FF codec ctx pkt surf a ctx' pkt' :
  process_output_surface FF codec ctx pkt surf a = Done (0, ctx', pkt') ->
  exists pkt2,
    set_timestamps ctx pkt2 (outputTimeStamp a) = Done (ctx', pkt').
Proof.
  unfold process_output_surface, process_output_surface_error. intros H.
  destruct codec; try discriminate;
    destruct (slice_offsets_alloc a); simpl in H; try discriminate;
    destruct (surf ≫= _); try discriminate;
    destruct (decide (lock_status a <> NV_ENC_SUCCESS));
    try (destruct (timestamp_queue_dequeue (timestamp_list ctx))
           as [[? ?]| |]; discriminate);
    destruct (alloc_packet a =? 0) eqn:E; simpl in H;
    try (destruct (timestamp_queue_dequeue (timestamp_list ctx))
           as [[? ?]| |]; try discriminate;
         simpl in H; injection H as H _ _; apply Z.eqb_neq in E; congruence);
    destruct (pictureType a), FF; simpl in H;
    try (destruct (timestamp_queue_dequeue (timestamp_list ctx))
           as [[? ?]| |]; discriminate);
    match type of H with
    | (set_timestamps ?c ?p ?o ≫= _) = _ =>
      destruct (set_timestamps c p o) as [[c1 p1]| |] eqn:Hs;
        try discriminate; simpl in H; injection H as <- <-;
        exists p; exact Hs
    end.
Qed.

Lemma set_eta ctx :
  set_last_dts (set_timestamp_list ctx (timestamp_list ctx)) (last_dts ctx)
  = ctx.
Proof. destruct ctx; reflexivity. Qed.

(** Whatever a retrieval returns, it touches the timestamp list and the
    last decode timestamp only, and the latter only when it returns 0. *)
Lemma process_output_surface_frame FF codec ctx pkt surf a res ctx' pkt' :
  process_output_surface FF codec ctx pkt surf a = Done (res, ctx', pkt') ->
  exists tl ld,
    ctx' = set_last_dts (set_timestamp_list ctx tl) ld
    /\ (res <> 0 -> ld = last_dts ctx)
    /\ (tl = timestamp_list ctx
        \/ exists t, timestamp_queue_dequeue (timestamp_list ctx)
                     = Done (t, tl)).
Proof.
  destruct (Z.eq_dec res 0) as [->|Hne].
  - intros H. apply process_output_surface_ok in H as [pkt2 H].
    unfold set_timestamps in H.
    destruct (timestamp_queue_dequeue (timestamp_list ctx))
      as [[t tl]| |] eqn:Hdq; try discriminate.
    simpl in H. injection H as <- <-.
    eexists tl, _. split; [reflexivity|]. split; [tauto|]. right. eauto.
  - unfold process_output_surface, process_output_surface_error. intros H.
    assert (Herr : forall r p,
      ('(_, tl) ← timestamp_queue_dequeue (timestamp_list ctx);
       Done (r, set_timestamp_list ctx tl, p)) = Done (res, ctx', pkt') ->
      exists tl ld,
        ctx' = set_last_dts (set_timestamp_list ctx tl) ld
        /\ (res <> 0 -> ld = last_dts ctx)
        /\ (tl = timestamp_list ctx
            \/ exists t, timestamp_queue_dequeue (timestamp_list ctx)
                         = Done (t, tl))).
    { intros r p He.
      destruct (timestamp_queue_dequeue (timestamp_list ctx))
        as [[t tl]| |] eqn:Hdq; try discriminate.
      simpl in He. injection He as <- <- <-.
      exists tl, (last_dts ctx). split; [destruct ctx; reflexivity|].
      split; [reflexivity|]. right. eauto. }
    destruct codec; try discriminate;
      (destruct (slice_offsets_alloc a); simpl in H;
       [|injection H as <- <- <-;
         exists (timestamp_list ctx), (last_dts ctx);
         rewrite set_eta; auto]);
      (destruct (surf ≫= _); [|discriminate]);
      (destruct (decide (lock_status a <> NV_ENC_SUCCESS));
       [eapply Herr; exact H|]);
      (destruct (alloc_packet a =? 0); simpl in H;
       [|eapply Herr; exact H]);
      destruct (pictureType a), FF; simpl in H;
      try (eapply Herr; exact H);
      match type of H with
      | (set_timestamps ?c ?p ?o ≫= _) = _ =>
        destruct (set_timestamps c p o) as [[c1 p1]| |];
          try discriminate; simpl in H; injection H as <- <- <-; lia
      end.
Qed.

Lemma int64_t_range z : - 2 ^ 63 <= int64_t z < 2 ^ 63.
Proof.
  unfold int64_t. pose proof (Z.mod_pos_bound (z + 2 ^ 63) (2 ^ 64)). lia.
Qed.




(** ** Session set-up *)

Lemma same_config_refl c : same_config c c.
Proof. unfold same_config. auto. Qed.

Lemma same_config_trans c1 c2 c3 :
  same_config c1 c2 -> same_config c2 c3 -> same_config c1 c3.
Proof. unfold same_config. intuition congruence. Qed.

Lemma dyload_config avctx ctx a loaded ctx0 tr0 :
  nvenc_dyload_nvenc avctx ctx a = (loaded, ctx0, tr0) ->
  same_config ctx0 ctx /\ twopass ctx0 = twopass ctx.
Proof.
  unfold nvenc_dyload_nvenc. destruct (nvenc_check_cuda avctx a) as [ok tr].
  intros Hd.
  repeat case_match; injection Hd as <- <- <-;
    unfold same_config; simpl; auto.
Qed.

Lemma init_error_config avctx ctx n res tr r avctx' ctx' tr' :
  init_error avctx ctx n res tr = Done (r, avctx', ctx', tr') ->
  r = res /\ same_config ctx' ctx.
Proof.
  unfold init_error. destruct (release_surfaces n 0 ctx); try discriminate.
  simpl. intros H. injection H as <- <- <- <-.
  split; [reflexivity|]. unfold same_config. auto.
Qed.

Lemma update_at_Done {A} (l : list A) i f l' :
  update_at l i f = Done l' ->
  exists x, l !! i = Some x /\ l' = <[i := f x]> l.
Proof.
  unfold update_at. destruct (l !! i); [|discriminate].
  intros H. injection H as <-. eauto.
Qed.

Lemma init_surfaces_config n avctx a : forall k ctx tr failed k' ctx' tr',
  init_surfaces n k avctx a ctx tr = Done (failed, k', ctx', tr') ->
  same_config ctx' ctx /\ failed <> Some 0.
Proof.
  induction n as [|n IH]; intros k ctx tr failed k' ctx' tr' H; simpl in H.
  - injection H as <- <- <- <-. split; [apply same_config_refl|discriminate].
  - destruct (pix_fmt avctx);
      try (injection H as <- <- <- <-;
           split; [apply same_config_refl|discriminate]);
      (destruct (update_at (input_surfaces ctx) k _) as [ins| |];
         try discriminate; simpl in H;
       destruct (decide (register_resource a k <> NV_ENC_SUCCESS));
         [injection H as <- <- <- <-;
          split; [unfold same_config; auto|discriminate]|];
       destruct (update_at ins k _) as [ins1| |]; try discriminate;
         simpl in H;
       destruct (decide (create_bitstream_buffer a k <> NV_ENC_SUCCESS));
         [destruct (update_at _ k _) as [outs| |]; try discriminate;
          simpl in H; injection H as <- <- <- <-;
          split; [unfold same_config; auto|discriminate]|];
       destruct (update_at _ k _) as [outs| |]; try discriminate;
         simpl in H; apply IH in H as [H Hf];
       split; [|exact Hf];
       eapply same_config_trans; [exact H|]; unfold same_config; auto).
Qed.

Lemma init_finish_config avctx a ctx n res tr r avctx' ctx' tr' :
  init_finish avctx a ctx n res tr = Done (r, avctx', ctx', tr') ->
  same_config ctx' ctx /\ (r = 0 \/ r = res \/ r = AVERROR ENOMEM).
Proof.
  unfold init_finish. intros Hf.
  repeat case_match;
    try (apply init_error_config in Hf as [-> ?]; auto);
    injection Hf as <- <- <- <-; split; auto using same_config_refl.
Qed.

Lemma init_pool_config avctx a ctx res tr r avctx' ctx' tr' :
  init_pool avctx a ctx res tr = Done (r, avctx', ctx', tr') ->
  same_config ctx' ctx.
Proof.
  unfold init_pool. intros H.
  destruct (decide (initialize_encoder a <> NV_ENC_SUCCESS)).
  { apply init_error_config in H as [-> ?]. assumption. }
  destruct (input_surfaces_alloc a); simpl in H.
  2:{ apply init_error_config in H as [-> ?]. assumption. }
  destruct (output_surfaces_alloc a); simpl in H.
  2:{ apply init_error_config in H as [-> ?]. assumption. }
  match type of H with
  | (init_surfaces ?n ?k ?av ?an ?c ?t ≫= _) = _ =>
    destruct (init_surfaces n k av an c t) as [[[[failed k'] ctx3] tr3]| |]
      eqn:Hs; try discriminate
  end.
  apply init_surfaces_config in Hs as [Hs Hfail]. rewrite bind_Done in H.
  destruct failed as [res1|].
  - apply init_error_config in H as [-> Hc].
    eapply same_config_trans; [exact Hc|exact Hs].
  - apply init_finish_config in H as [Hc Hr].
    eapply same_config_trans; [exact Hc|exact Hs].
Qed.

(** A set-up that returns 0 has sized the pool and configured the GOP:
    the context it leaves agrees with [configure_gop] and
    [size_surface_pool] on what they set. *)
Lemma init_configured avctx o ctx a avctx' ctx' tr :
  cu_wrapper_reports a ->
  nvenc_encode_init avctx o ctx a = Done (0, avctx', ctx', tr) ->
  exists c,
    same_config ctx' (configure_gop avctx a (size_surface_pool avctx c))
    /\ buffer_delay c = buffer_delay ctx
    /\ last_dts c = AV_NOPTS_VALUE.
Proof.
  intros [Hcu1 Hcu2]. unfold nvenc_encode_init.
  destruct (nvenc_dyload_nvenc avctx ctx a) as [[loaded ctx0] tr0] eqn:Hdy.
  apply dyload_config in Hdy as [(_ & Hbd & _) _].
  destruct (loaded =? 0); [discriminate|].
  destruct (get_cuda_context a); simpl.
  2:{ intros H. apply init_error_config in H as [H _]. discriminate. }
  destruct (cu_module_load a) as [r|].
  { intros H. injection H as -> _ _ _. congruence. }
  destruct (cu_module_get_function a) as [r|].
  { intros H. injection H as -> _ _ _. congruence. }
  destruct (decide (open_session a <> NV_ENC_SUCCESS)).
  { intros H. apply init_error_config in H as [H _]. discriminate. }
  destruct (select_preset _ _) as [[[[g tp] isLL] lossless]|].
  2:{ intros H. apply init_error_config in H as [H _]. discriminate. }
  destruct (codec_id avctx) eqn:Hcodec;
    try (intros H; apply init_error_config in H as [H _]; discriminate);
    (destruct (decide (get_preset_config a <> NV_ENC_SUCCESS));
     [intros H; apply init_error_config in H as [H _]; discriminate|]);
    (destruct (select_profile_level avctx o 0) as [res1|res1] eqn:Hsel;
     [intros H; apply init_error_config in H as [H _]; subst res1;
      exfalso; revert Hsel; unfold select_profile_level; rewrite Hcodec;
      repeat case_match; intros; simplify_eq;
      try match goal with
          | E : negb (?x =? 0) = true, E' : ?x = 0 |- _ =>
            rewrite E' in E; discriminate
          end
     |intros H; apply init_pool_config in H;
      eexists; split; [exact H|]; split; [exact Hbd|reflexivity]]).
Qed.

Lemma configure_gop_config avctx a c :
  max_surface_count (configure_gop avctx a c) = max_surface_count c
  /\ buffer_delay (configure_gop avctx a c) = buffer_delay c
  /\ (last_dts c = AV_NOPTS_VALUE ->
      last_dts (configure_gop avctx a c)
      = if 2 <=? frameIntervalP (configure_gop avctx a c) then -2
        else AV_NOPTS_VALUE).
Proof.
  unfold configure_gop.
  repeat case_match; simpl in *; repeat split; intros; try congruence.
Qed.

Lemma size_surface_pool_config avctx c :
  let c' := size_surface_pool avctx c in
  max_surface_count c' = (if 8160 <=? num_macroblocks avctx then 32 else 48)
  /\ buffer_delay c'
     = (if max_surface_count c' <=? buffer_delay c
        then max_surface_count c' - 1 else buffer_delay c)
  /\ last_dts c' = last_dts c.
Proof.
  unfold size_surface_pool. cbv zeta.
  destruct (8160 <=? num_macroblocks avctx); simpl;
    case_match; simpl; repeat split;
    repeat match goal with E : (_ <=? _) = _ |- _ => rewrite E; clear E end;
    reflexivity.
Qed.

Lemma num_macroblocks_fit avctx :
  dimensions_fit avctx ->
  num_macroblocks avctx
  = (width avctx + 15) / 16 * ((height avctx + 15) / 16).
Proof.
  unfold dimensions_fit, num_macroblocks, INT_MAX. intros (Hw & Hh & Hm).
  rewrite (int_t_small (width avctx + 15)) by lia.
  rewrite (int_t_small (height avctx + 15)) by lia.
  rewrite !Z.shiftr_div_pow2 by lia. change (2 ^ 4) with 16.
  apply int_t_small.
  assert (0 <= (width avctx + 15) / 16) by (apply Z.div_pos; lia).
  assert (0 <= (height avctx + 15) / 16) by (apply Z.div_pos; lia).
  nia.
Qed.

(** ** Decode timestamps and session set-up: the claims *)




(** C4. A retrieval that returns 0 stamps its packet with the oldest
    presentation timestamp still in the list (popped in FIFO order), minus
    the fixed offset of 1 when frameIntervalP is at least 2, before the
    clamp and the monotonic correction; with neither of these two applying,
    that is the decode timestamp.  And a set-up that returns 0 leaves the
    baseline [last_dts] at -2 when frameIntervalP is at least 2 and at
    [AV_NOPTS_VALUE] otherwise. *)
Theorem decode_timestamp_source :
  (forall FF_API_CODED_FRAME codec ctx pkt surf a ctx' pkt',
     queue_wf (timestamp_list ctx) ->
     process_output_surface FF_API_CODED_FRAME codec ctx pkt surf a
     = Done (0, ctx', pkt') ->
     let popped := oldest_timestamp (timestamp_list ctx) in
     let shifted := if 2 <=? frameIntervalP ctx then int64_t (popped - 1)
                    else popped in
     dts pkt' = decode_timestamp (frameIntervalP ctx) (last_dts ctx)
                  (pts pkt') popped
     /\ contents (timestamp_list ctx') = tail (contents (timestamp_list ctx))
     /\ last_dts ctx' = dts pkt'
     /\ (shifted <= pts pkt' ->
         last_dts ctx = AV_NOPTS_VALUE \/ last_dts ctx < shifted ->
         dts pkt' = shifted))
  /\ (forall avctx o ctx a avctx' ctx' tr,
        cu_wrapper_reports a ->
        nvenc_encode_init avctx o ctx a = Done (0, avctx', ctx', tr) ->
        last_dts ctx' = if 2 <=? frameIntervalP ctx' then -2
                        else AV_NOPTS_VALUE).
Proof.
  split.
  - intros FF codec ctx pkt surf a ctx' pkt' Hwf H. cbv zeta.
    destruct (process_output_surface_ok _ _ _ _ _ _ _ _ H) as [pkt2 Hs].
    destruct (set_timestamps_spec _ _ _ _ _ Hwf Hs)
      as (tl & Hdq & Hpts & Hdts & Hctx).
    destruct (timestamp_dequeue_spec _ _ _ Hwf Hdq) as (_ & Hc & _).
    rewrite Hpts, Hdts. split; [reflexivity|].
    split; [rewrite Hctx; exact Hc|]. split; [rewrite Hctx, Hdts; reflexivity|].
    intros Hclamp Hbump. unfold decode_timestamp. cbv zeta.
    rewrite Z.min_l by exact Hclamp.
    case_bool_decide as Hc'; [|reflexivity]. lia.
  - intros avctx o ctx a avctx' ctx' tr Hcu H.
    destruct (init_configured _ _ _ _ _ _ _ Hcu H)
      as (c & (_ & _ & Hl & Hf) & _ & Hn).
    destruct (size_surface_pool_config avctx c) as (_ & _ & Hl1).
    destruct (configure_gop_config avctx a (size_surface_pool avctx c))
      as (_ & _ & Hg).
    rewrite Hl, Hf. apply Hg. congruence.
Qed.

Lemma decode_timestamp_source_witness :
  (exists ctx' pkt',
     process_output_surface true AV_CODEC_ID_H264 ctx_five_in_flight
       blank_packet (Some 0%nat) (lock_ok 0 NV_ENC_PIC_TYPE_IDR)
     = Done (0, ctx', pkt')
     /\ oldest_timestamp (timestamp_list ctx_five_in_flight) = 0
     /\ dts pkt' = -1 /\ last_dts ctx' = -1
     /\ contents (timestamp_list ctx')
        = [U_timestamp 1; U_timestamp 2; U_timestamp 3; U_timestamp 4])
  /\ (frameIntervalP ctx_open = 3 /\ last_dts ctx_open = -2).
Proof.
  destruct decode_timestamp_source as [Ha Hb]. split.
  - eexists _, _. split; [vm_compute; reflexivity|].
    split; [reflexivity|].
    edestruct (Ha true AV_CODEC_ID_H264 ctx_five_in_flight blank_packet
                 (Some 0%nat) (lock_ok 0 NV_ENC_PIC_TYPE_IDR))
      as (H1 & H2 & H3 & _);
      [reflexivity|vm_compute; reflexivity|].
    split; [rewrite H1; reflexivity|]. split; [rewrite H3, H1; reflexivity|].
    rewrite H2. reflexivity.
  - split; [reflexivity|].
    assert (Hcu : cu_wrapper_reports answers_ok) by (split; discriminate).
    assert (Hi : exists avctx' tr,
               nvenc_encode_init avctx_1080p options_default
                 (set_buffer_delay ctx_zero 2) answers_ok
               = Done (0, avctx', ctx_open, tr))
      by (eexists _, _; vm_compute; reflexivity).
    destruct Hi as (avctx' & tr & Hi).
    rewrite (Hb _ _ _ _ _ _ _ Hcu Hi). reflexivity.
Defined.

(** C9. A set-up that returns 0 has sized the pool at 32 surfaces when the
    frame has at least 8160 macroblocks, (width+15)/16 times (height+15)/16
    with both quotients rounded down, and at 48 otherwise. *)
Theorem surface_pool_capacity avctx o ctx a avctx' ctx' tr :
  dimensions_fit avctx ->
  cu_wrapper_reports a ->
  nvenc_encode_init avctx o ctx a = Done (0, avctx', ctx', tr) ->
  max_surface_count ctx'
  = if 8160 <=? (width avctx + 15) / 16 * ((height avctx + 15) / 16)
    then 32 else 48.
Proof.
  intros Hfit Hcu H.
  destruct (init_configured _ _ _ _ _ _ _ Hcu H) as (c & (Hm & _) & _).
  destruct (configure_gop_config avctx a (size_surface_pool avctx c))
    as (Hg & _).
  destruct (size_surface_pool_config avctx c) as (Hp & _).
  rewrite Hm, Hg, Hp, (num_macroblocks_fit avctx Hfit). reflexivity.
Qed.

Lemma surface_pool_capacity_witness :
  dimensions_fit avctx_1080p /\ cu_wrapper_reports answers_ok
  /\ (1920 + 15) / 16 * ((1080 + 15) / 16) = 8160
  /\ max_surface_count ctx_open = 32.
Proof.
  assert (Hfit : dimensions_fit avctx_1080p).
  { unfold dimensions_fit; simpl. repeat split; vm_compute; discriminate. }
  assert (Hcu : cu_wrapper_reports answers_ok) by (split; discriminate).
  assert (Hi : exists avctx' tr,
             nvenc_encode_init avctx_1080p options_default
               (set_buffer_delay ctx_zero 2) answers_ok
             = Done (0, avctx', ctx_open, tr))
    by (eexists _, _; vm_compute; reflexivity).
  destruct Hi as (avctx' & tr & Hi).
  split; [exact Hfit|]. split; [exact Hcu|]. split; [reflexivity|].
  rewrite (surface_pool_capacity _ _ _ _ _ _ _ Hfit Hcu Hi). reflexivity.
Defined.

(** C10. After a set-up that returns 0 the buffering delay is below the
    pool capacity: a delay option at or above [max_surface_count] (the
    default is [INT_MAX]) was reduced to [max_surface_count - 1], a
    smaller one was kept. *)
Theorem buffer_delay_below_capacity avctx o ctx a avctx' ctx' tr :
  cu_wrapper_reports a ->
  nvenc_encode_init avctx o ctx a = Done (0, avctx', ctx', tr) ->
  buffer_delay ctx' < max_surface_count ctx'
  /\ (max_surface_count ctx' <= buffer_delay ctx ->
      buffer_delay ctx' = max_surface_count ctx' - 1)
  /\ (buffer_delay ctx < max_surface_count ctx' ->
      buffer_delay ctx' = buffer_delay ctx)
  /\ default_buffer_delay = INT_MAX.
Proof.
  intros Hcu H.
  destruct (init_configured _ _ _ _ _ _ _ Hcu H)
    as (c & (Hm & Hb & _) & Hbc & _).
  destruct (configure_gop_config avctx a (size_surface_pool avctx c))
    as (Hg & Hgb & _).
  destruct (size_surface_pool_config avctx c) as (Hp & Hpb & _).
  cbv zeta in Hp, Hpb.
  rewrite Hb, Hm, Hgb, Hg, Hpb, <- Hbc.
  destruct (max_surface_count (size_surface_pool avctx c) <=? buffer_delay c)
    eqn:E; [apply Z.leb_le in E|apply Z.leb_gt in E];
    repeat split; try reflexivity; lia.
Qed.

Lemma buffer_delay_below_capacity_witness :
  cu_wrapper_reports answers_ok
  /\ (exists avctx' ctx' tr,
        nvenc_encode_init avctx_1080p options_default ctx_zero answers_ok
        = Done (0, avctx', ctx', tr)
        /\ buffer_delay ctx_zero = INT_MAX
        /\ max_surface_count ctx' = 32 /\ buffer_delay ctx' = 31)
  /\ buffer_delay ctx_open = 2.
Proof.
  assert (Hcu : cu_wrapper_reports answers_ok) by (split; discriminate).
  split; [exact Hcu|]. split; [|reflexivity].
  eexists _, _, _. split; [vm_compute; reflexivity|].
  split; [reflexivity|]. split; [reflexivity|].
  edestruct (buffer_delay_below_capacity avctx_1080p options_default ctx_zero
               answers_ok) as (_ & H & _);
    [exact Hcu|vm_compute; reflexivity|].
  rewrite H; [reflexivity|]. vm_compute. discriminate.
Defined.


(** C6: the set-up on a driver that refuses the sequence-header query only.
    The code reaches the [error:] label with [res] still 0: the surfaces,
    the encoder, the CUDA context and the library are given back, the
    encoder handle is cleared, and the caller is told the session is
    open. *)
Theorem init_header_failure_returns_success :
  get_sequence_params answers_header_refused <> NV_ENC_SUCCESS
  /\ exists avctx' ctx' tr,
       nvenc_encode_init avctx_1080p options_default ctx_zero
         answers_header_refused = Done (0, avctx', ctx', tr)
       /\ nvencoder ctx' = false /\ cu_context ctx' = false
       /\ nvenc_lib ctx' = false
       /\ kept tr = [R_cu_module; R_input_surfaces; R_output_surfaces].
Proof.
  split; [discriminate|].
  eexists _, _, _. split; [vm_compute; reflexivity|].
  repeat split; vm_compute; reflexivity.
Qed.

(** The sibling failure paths set [res] before the jump.  A refused
    registration of surface 2 returns [AVERROR_EXTERNAL]; the device memory
    allocated for that surface in the same iteration is not among what the
    label frees. *)
Lemma init_register_failure_keeps_memory :
  exists avctx' ctx' tr,
    nvenc_encode_init avctx_1080p options_default ctx_zero
      answers_register_refused = Done (AVERROR_EXTERNAL, avctx', ctx', tr)
    /\ nvencoder ctx' = false
    /\ kept tr = [R_cu_module; R_input_surfaces; R_output_surfaces;
                  R_input_mem 2].
Proof.
  eexists _, _, _. split; [vm_compute; reflexivity|].
  split; vm_compute; reflexivity.
Qed.

(** ** The engine: invariant of the surface queues *)

Lemma forallb_Forall {A} (f : A -> bool) l :
  forallb f l = true <-> Forall (fun x => f x = true) l.
Proof.
  induction l as [|x l IH]; simpl.
  - split; [constructor|reflexivity].
  - rewrite andb_true_iff, IH, Forall_cons. reflexivity.
Qed.

Lemma ctx_ok_iff ctx :
  ctx_ok ctx <->
  queue_wf (output_surface_queue ctx)
  /\ queue_wf (output_surface_ready_queue ctx)
  /\ queue_wf (timestamp_list ctx)
  /\ outstanding ctx < 2 ^ 31
  /\ (outstanding ctx <> 0 -> size (timestamp_list ctx) <> 0)
  /\ Forall (fun d => is_timestamp d = true) (contents (timestamp_list ctx))
  /\ links_ok (input_surfaces ctx) (output_surfaces ctx) (queued ctx).
Proof.
  unfold ctx_ok, ctx_okb, links_ok, queue_wf.
  rewrite !andb_true_iff, !forallb_Forall, bool_decide_eq_true,
    orb_true_iff, negb_true_iff, Z.ltb_lt, Z.eqb_eq, Z.eqb_neq.
  intuition lia.
Qed.

Lemma surface_link_busy outs i o b d :
  outs !! i = Some o ->
  surface_link (<[i := set_busy o b]> outs) d = surface_link outs d.
Proof.
  intros Ho. destruct d as [t|k]; [reflexivity|]. simpl.
  destruct (decide (k = i)) as [->|Hne].
  - rewrite list_lookup_insert_eq by (eapply lookup_lt_Some; eauto).
    rewrite Ho. reflexivity.
  - rewrite list_lookup_insert_ne by auto. reflexivity.
Qed.

Lemma links_ok_perm ins outs l l' :
  l ≡ₚ l' -> links_ok ins outs l -> links_ok ins outs l'.
Proof.
  intros Hp [Hf Hn]. split.
  - rewrite <- Hp. exact Hf.
  - rewrite <- Hp. exact Hn.
Qed.

Lemma links_ok_tail ins outs d l :
  links_ok ins outs (d :: l) -> links_ok ins outs l.
Proof.
  intros [Hf Hn]. apply Forall_cons in Hf as [_ Hf].
  rewrite fmap_cons in Hn. apply NoDup_cons in Hn as [_ Hn].
  split; assumption.
Qed.

Lemma link_locked_inv ins outs d :
  link_locked ins outs d = true ->
  exists i o j s,
    d = U_surface i /\ outs !! i = Some o /\ input_surface o = Some j
    /\ ins !! j = Some s /\ lockCount s <> 0.
Proof.
  unfold link_locked. destruct d as [t|i]; simpl; [discriminate|].
  destruct (outs !! i) as [o|] eqn:Ho; simpl; [|discriminate].
  destruct (input_surface o) as [j|] eqn:Hj; simpl; [|discriminate].
  destruct (ins !! j) as [s|] eqn:Hs; [|discriminate].
  intros H. apply negb_true_iff, Z.eqb_neq in H.
  exists i, o, j, s. auto.
Qed.

(** Handing out the surface at the head: its busy flag is cleared and its
    input surface unlocked; the others keep their locked inputs. *)
Lemma links_ok_release ins outs i o j s' l :
  links_ok ins outs (U_surface i :: l) ->
  outs !! i = Some o -> input_surface o = Some j ->
  links_ok (<[j := s']> ins) (<[i := set_busy o 0]> outs) l.
Proof.
  intros [Hf Hn] Ho Hj.
  apply Forall_cons in Hf as [_ Hf].
  rewrite fmap_cons in Hn. apply NoDup_cons in Hn as [Hni Hn].
  assert (Hli : surface_link outs (U_surface i) = Some j).
  { simpl. rewrite Ho. exact Hj. }
  split.
  - apply Forall_forall. intros d Hd.
    rewrite Forall_forall in Hf. specialize (Hf d Hd).
    unfold link_locked in *. rewrite surface_link_busy by exact Ho.
    destruct (surface_link outs d) as [j'|] eqn:Hl; [|discriminate].
    simpl in *. destruct (decide (j' = j)) as [->|Hne].
    + exfalso. apply Hni. rewrite Hli, <- Hl.
      apply list_elem_of_fmap_2. exact Hd.
    + rewrite list_lookup_insert_ne by auto. exact Hf.
  - erewrite list_fmap_ext; [exact Hn|].
    intros k d _. apply surface_link_busy. exact Ho.
Qed.

Lemma move_to_ready_stop n m k q r :
  count q = 0 -> move_to_ready n m k q r = Done (0, q, r).
Proof. intros H. destruct n; simpl; rewrite H; reflexivity. Qed.

Lemma move_to_ready_step n m k q r d q1 :
  count q <> 0 -> data_queue_dequeue q = Done (Some d, q1) ->
  move_to_ready (S n) m k q r =
  match d with
  | U_timestamp _ => Undefined
  | U_surface s =>
    '(res, ready1) ← out_surf_queue_enqueue (m k) r s;
    if negb (res =? 0) then Done (res, q1, ready1)
    else move_to_ready n m (S k) q1 ready1
  end.
Proof.
  intros Hc Hdq. simpl.
  destruct (count q =? 0) eqn:E; [apply Z.eqb_eq in E; lia|].
  unfold out_surf_queue_dequeue. rewrite Hdq, bind_Done.
  destruct d; reflexivity.
Qed.

(** Moving the in-flight surfaces to the ready queue loses at most the one
    surface whose enqueue was refused. *)
Lemma move_to_ready_spec m : forall n k q r,
  queue_wf q -> queue_wf r -> n = Z.to_nat (count q) ->
  count q + count r < 2 ^ 31 ->
  match move_to_ready n m k q r with
  | Done (res, q', r') =>
    queue_wf q' /\ queue_wf r'
    /\ exists lost,
         contents q ++ contents r ≡ₚ lost ++ contents q' ++ contents r'
         /\ ((res = 0 /\ lost = [] /\ count q' = 0)
             \/ (res <> 0 /\ length lost = 1%nat))
  | AssertFail => False
  | Undefined => ~ Forall (fun d => is_timestamp d = false) (contents q)
  end.
Proof.
  induction n as [|n IH]; intros k q r Hwf Hwfr Hn Hb.
  - assert (Hc : count q = 0).
    { pose proof (contents_length_wf q Hwf). lia. }
    rewrite move_to_ready_stop by exact Hc.
    split; [assumption|]. split; [assumption|].
    exists []. split; [reflexivity|]. left. auto.
  - assert (Hc : 0 < count q) by lia.
    destruct (dequeue_nonempty q Hwf Hc)
      as (d & q1 & Hdq & Hcq & Hwf1 & Hc1 & Hs1).
    rewrite (move_to_ready_step n m k q r d q1) by (assumption || lia).
    destruct d as [t|s].
    { rewrite Hcq. intros HF. apply Forall_cons in HF as [HF _].
      discriminate. }
    unfold out_surf_queue_enqueue.
    destruct (enqueue_total (m k) r (U_surface s) Hwfr ltac:(lia))
      as (res1 & r1 & He & Hwfr1 & Hcase).
    rewrite He, bind_Done.
    destruct Hcase as [(-> & Hcr & Hcnt & _)|(-> & -> & _)].
    + simpl.
      specialize (IH (S k) q1 r1 Hwf1 Hwfr1 ltac:(lia) ltac:(lia)).
      destruct (move_to_ready n m (S k) q1 r1) as [[[res q'] r']| |].
      * destruct IH as (Hq' & Hr' & lost & Hperm & Hres).
        split; [assumption|]. split; [assumption|].
        exists lost. split; [|assumption].
        rewrite <- Hperm, Hcq, Hcr. simpl.
        rewrite (Permutation_app_comm (contents r) [U_surface s]).
        simpl. rewrite Permutation_middle. reflexivity.
      * assumption.
      * rewrite Hcq. intros HF. apply Forall_cons in HF as [_ HF]. auto.
    + simpl. split; [assumption|]. split; [assumption|].
      exists [U_surface s]. split; [rewrite Hcq; reflexivity|].
      right. split; [unfold AVERROR, ENOMEM; lia|reflexivity].
Qed.

Lemma timestamp_dequeue_Done q :
  queue_wf q -> size q <> 0 ->
  Forall (fun d => is_timestamp d = true) (contents q) ->
  exists t q',
    timestamp_queue_dequeue q = Done (t, q')
    /\ queue_wf q' /\ size q' = size q
    /\ Forall (fun d => is_timestamp d = true) (contents q').
Proof.
  intros Hwf Hs Hall. unfold timestamp_queue_dequeue.
  destruct (dequeue_total q Hwf Hs)
    as (r & q1 & Hdq & Hwf1 & Hr & Hcq & Hs1 & _).
  rewrite Hdq, bind_Done.
  assert (Hall1 : Forall (fun d => is_timestamp d = true) (contents q1)).
  { rewrite Hcq. destruct (contents q) as [|x l]; [constructor|].
    simpl. apply Forall_cons in Hall as [_ Hall]. exact Hall. }
  destruct r as [[t|s]|].
  - exists t, q1. auto.
  - exfalso. symmetry in Hr. apply head_Some in Hr as [l' Hl].
    rewrite Hl in Hall. apply Forall_cons in Hall as [Hx _]. discriminate.
  - exists AV_NOPTS_VALUE, q1. auto.
Qed.

Lemma process_output_surface_total FF codec ctx pkt i a :
  codec <> AV_CODEC_ID_OTHER ->
  is_Some (output_surfaces ctx !! i) ->
  queue_wf (timestamp_list ctx) -> size (timestamp_list ctx) <> 0 ->
  Forall (fun d => is_timestamp d = true) (contents (timestamp_list ctx)) ->
  is_Done (process_output_surface FF codec ctx pkt (Some i) a).
Proof.
  intros Hcodec [o Ho] Hwf Hs Hall.
  destruct (timestamp_dequeue_Done _ Hwf Hs Hall) as (t & tl & Hdq & _).
  assert (Herr : forall p r, is_Done (process_output_surface_error ctx p r)).
  { intros p r. unfold process_output_surface_error.
    rewrite Hdq. eexists. reflexivity. }
  assert (Hset : forall p, is_Done
            ('(ctx1, pkt3) ← set_timestamps ctx p (outputTimeStamp a);
             Done (0, ctx1, pkt3))).
  { intros p. unfold set_timestamps. rewrite Hdq. eexists. reflexivity. }
  unfold process_output_surface.
  destruct codec; try congruence;
    (destruct (slice_offsets_alloc a); simpl; [|eexists; reflexivity]);
    rewrite Ho;
    (destruct (decide (lock_status a <> NV_ENC_SUCCESS)); [apply Herr|]);
    (destruct (alloc_packet a =? 0); simpl; [|apply Herr]);
    destruct (pictureType a), FF; simpl;
    first [apply Herr | apply Hset].
Qed.

Lemma queued_ready_head ctx d r1 :
  contents (output_surface_ready_queue ctx) = d :: contents r1 ->
  queued ctx ≡ₚ d :: queued (set_output_surface_ready_queue ctx r1).
Proof.
  intros H. unfold queued. simpl. rewrite H.
  symmetry. apply Permutation_middle.
Qed.

Lemma timestamp_dequeue_count q t q' :
  queue_wf q -> timestamp_queue_dequeue q = Done (t, q') ->
  count q' = Z.max 0 (count q - 1).
Proof.
  intros Hwf H. unfold timestamp_queue_dequeue in H.
  apply bind_Done_inv in H as ([r q1] & Hdq & H).
  assert (q1 = q') as ->.
  { destruct r as [[?|?]|]; try discriminate; injection H as _ <-;
      reflexivity. }
  destruct (decide (size q = 0)) as [E|E].
  { unfold data_queue_dequeue in Hdq. rewrite E in Hdq. discriminate. }
  pose proof (contents_length_wf q Hwf) as Hl.
  destruct (decide (count q = 0)) as [E0|E0].
  - rewrite (dequeue_empty q Hwf E E0) in Hdq. injection Hdq as _ <-. lia.
  - destruct (dequeue_nonempty q Hwf ltac:(lia)) as (d & q2 & Hdq' & _ & _ & Hc & _).
    rewrite Hdq in Hdq'. injection Hdq' as _ ->. lia.
Qed.

Lemma process_output_surface_pop FF codec ctx pkt surf a ctx' pkt' :
  process_output_surface FF codec ctx pkt surf a = Done (0, ctx', pkt') ->
  exists t, timestamp_queue_dequeue (timestamp_list ctx)
            = Done (t, timestamp_list ctx').
Proof.
  intros H. apply process_output_surface_ok in H as [pkt2 H].
  unfold set_timestamps in H.
  apply bind_Done_inv in H as ([t tl] & Hdq & H).
  injection H as <- _. simpl. eauto.
Qed.

(** A retrieval on a state that satisfies the invariant returns, keeps the
    invariant and takes exactly one surface out of the queues, whether the
    driver hands the bitstream over or not. *)
Lemma retrieve_spec FF codec ctx pkt got a :
  codec <> AV_CODEC_ID_OTHER -> ctx_ok ctx ->
  0 < count (output_surface_ready_queue ctx) ->
  exists res ctx' got' pkt',
    nvenc_retrieve FF codec ctx pkt got a = Done (res, ctx', got', pkt')
    /\ ctx_ok ctx' /\ outstanding ctx' = outstanding ctx - 1
    /\ ((res = 0 /\ got' = 1) \/ (res <> 0 /\ got' = got))
    /\ exists i o j s,
         output_surfaces ctx !! i = Some o /\ input_surface o = Some j
         /\ input_surfaces ctx !! j = Some s /\ lockCount s <> 0
         /\ queued ctx ≡ₚ U_surface i :: queued ctx'
         /\ max_surface_count ctx' = max_surface_count ctx
         /\ count (timestamp_list ctx') <= count (timestamp_list ctx)
         /\ ((res = 0
              /\ input_surfaces ctx'
                 = <[j := set_lockCount s (int_t (lockCount s - 1))]>
                     (input_surfaces ctx)
              /\ output_surfaces ctx'
                 = <[i := set_busy o 0]> (output_surfaces ctx)
              /\ count (timestamp_list ctx')
                 = Z.max 0 (count (timestamp_list ctx) - 1))
             \/ (res <> 0
                 /\ input_surfaces ctx' = input_surfaces ctx
                 /\ output_surfaces ctx' = output_surfaces ctx)).
Proof.
  intros Hcodec Hok Hc.
  apply ctx_ok_iff in Hok as (Hq & Hr & Ht & Hb & Hts & Hall & Hl).
  destruct (dequeue_nonempty _ Hr Hc)
    as (d & r1 & Hdq & Hcq & Hwf1 & Hc1 & Hs1).
  pose proof (queued_ready_head ctx d r1 Hcq) as Hperm.
  pose proof (links_ok_perm _ _ _ _ Hperm Hl) as Hl1.
  assert (Hd : link_locked (input_surfaces ctx) (output_surfaces ctx) d = true).
  { destruct Hl1 as [Hf _]. apply Forall_cons in Hf as [Hd _]. exact Hd. }
  destruct (link_locked_inv _ _ _ Hd)
    as (i & o & j & s & -> & Ho & Hj & Hsj & Hlk).
  set (ctx1 := set_output_surface_ready_queue ctx r1) in *.
  assert (Hcq0 : 0 <= count (output_surface_queue ctx)).
  { pose proof (contents_length_wf _ Hq). lia. }
  assert (Hout : outstanding ctx <> 0) by (unfold outstanding; lia).
  assert (Hout1 : outstanding ctx1 = outstanding ctx - 1).
  { unfold outstanding, ctx1. simpl. lia. }
  destruct (process_output_surface_total FF codec ctx1 pkt i a Hcodec)
    as [[[res ctx2] pkt1] Hp]; try (simpl; eauto; fail).
  destruct (process_output_surface_frame _ _ _ _ _ _ _ _ _ Hp)
    as (tl & ld & Hctx2 & Hld & Htl).
  assert (Htl' : queue_wf tl /\ size tl = size (timestamp_list ctx)
                 /\ Forall (fun d => is_timestamp d = true) (contents tl)
                 /\ count tl <= count (timestamp_list ctx)).
  { destruct Htl as [Heq|[t Hdt]];
      [rewrite Heq; unfold ctx1; simpl; repeat split; auto; lia|].
    simpl in Hdt.
    destruct (timestamp_dequeue_Done _ Ht (Hts Hout) Hall)
      as (t' & tl' & Hdt' & ? & ? & ?).
    destruct (timestamp_dequeue_spec _ _ _ Ht Hdt) as (_ & _ & _ & _ & _ & ?).
    rewrite Hdt in Hdt'. injection Hdt' as -> ->. repeat split; auto; lia. }
  destruct Htl' as (Hwtl & Hstl & Hatl & Hctl).
  unfold nvenc_retrieve, out_surf_queue_dequeue.
  rewrite Hdq, !bind_Done. fold ctx1. rewrite Hp, bind_Done.
  destruct (Z.eq_dec res 0) as [->|Hres].
  - simpl. unfold update_at.
    assert (Ho2 : output_surfaces ctx2 !! i = Some o)
      by (rewrite Hctx2; exact Ho).
    rewrite Ho2, bind_Done. simpl.
    rewrite list_lookup_insert_eq by (eapply lookup_lt_Some; eauto).
    simpl. rewrite Hj.
    assert (Hs2 : input_surfaces ctx2 !! j = Some s)
      by (rewrite Hctx2; exact Hsj).
    rewrite Hs2.
    destruct (lockCount s =? 0) eqn:E; [apply Z.eqb_eq in E; lia|].
    rewrite bind_Done.
    destruct (process_output_surface_pop _ _ _ _ _ _ _ _ Hp) as [t Hpop].
    apply (timestamp_dequeue_count _ _ _ Ht) in Hpop.
    eexists _, _, _, _. split; [reflexivity|].
    split; [|split; [|split; [left; auto|]]].
    + apply ctx_ok_iff. rewrite Hctx2. simpl.
      unfold outstanding. simpl.
      split; [assumption|]. split; [assumption|]. split; [assumption|].
      split; [unfold outstanding in Hb; lia|].
      split; [intros _; rewrite Hstl; apply Hts; exact Hout|].
      split; [assumption|].
      unfold queued. simpl.
      eapply links_ok_release; [exact Hl1|exact Ho|exact Hj].
    + rewrite Hctx2. unfold outstanding in *. simpl in *. lia.
    + exists i, o, j, s. rewrite Hctx2 in *. simpl in *.
      repeat split; try assumption. left. repeat split; assumption.
  - simpl. destruct (res =? 0) eqn:E; [apply Z.eqb_eq in E; lia|]. simpl.
    eexists _, _, _, _. split; [reflexivity|].
    split; [|split; [|split; [right; auto|]]].
    + apply ctx_ok_iff. rewrite Hctx2. simpl.
      unfold outstanding. simpl.
      split; [assumption|]. split; [assumption|]. split; [assumption|].
      split; [unfold outstanding in Hb; lia|].
      split; [intros _; rewrite Hstl; apply Hts; exact Hout|].
      split; [assumption|].
      eapply links_ok_tail. exact Hl1.
    + rewrite Hctx2. unfold outstanding in *. simpl in *. lia.
    + exists i, o, j, s. rewrite Hctx2. simpl.
      repeat split; try assumption. right. auto.
Qed.

Lemma outstanding_length ctx :
  queue_wf (output_surface_queue ctx) ->
  queue_wf (output_surface_ready_queue ctx) ->
  outstanding ctx = Z.of_nat (length (queued ctx)).
Proof.
  intros Hq Hr. unfold outstanding, queued. rewrite length_app.
  pose proof (contents_length_wf _ Hq). pose proof (contents_length_wf _ Hr).
  lia.
Qed.

Lemma links_ok_surfaces ins outs l :
  links_ok ins outs l -> Forall (fun d => is_timestamp d = false) l.
Proof.
  intros [Hf _]. eapply Forall_impl; [exact Hf|].
  intros d Hd. apply link_locked_inv in Hd as (i & _ & _ & _ & -> & _).
  reflexivity.
Qed.

Lemma set_queues_eta ctx :
  set_output_surface_ready_queue
    (set_output_surface_queue ctx (output_surface_queue ctx))
    (output_surface_ready_queue ctx) = ctx.
Proof. destruct ctx; reflexivity. Qed.

(** One call without a frame, accepted by the driver, on a state that
    satisfies the invariant: it returns and keeps the invariant; with both
    queues empty it reports no packet and changes nothing, otherwise it
    takes exactly one surface out of the queues. *)
Lemma flush_call_spec FF codec ctx a :
  codec <> AV_CODEC_ID_OTHER -> ctx_ok ctx ->
  encode_status a = NV_ENC_SUCCESS ->
  exists res ctx' got pkt,
    nvenc_encode_frame FF codec ctx blank_packet None 0 a
    = Done (res, ctx', got, pkt)
    /\ ctx_ok ctx'
    /\ ((outstanding ctx = 0 /\ ctx' = ctx /\ res = 0 /\ got = 0
         /\ pkt = blank_packet)
        \/ (0 < outstanding ctx /\ outstanding ctx' = outstanding ctx - 1
            /\ (res = 0 <-> got = 1) /\ (got = 1 \/ got = 0))).
Proof.
  intros Hcodec Hok Henc. pose proof Hok as Hok0.
  apply ctx_ok_iff in Hok as (Hq & Hr & Ht & Hb & Hts & Hall & Hl).
  pose proof (contents_length_wf _ Hq) as Hlq.
  pose proof (contents_length_wf _ Hr) as Hlr.
  unfold nvenc_encode_frame, nvenc_submit. rewrite !bind_Done.
  rewrite bool_decide_eq_false_2 by (intros [[? ?] _]; discriminate).
  rewrite bind_Done, Henc.
  destruct (decide (outstanding ctx = 0)) as [E|E].
  - assert (Hcq : count (output_surface_queue ctx) = 0)
      by (unfold outstanding in E; lia).
    assert (Hcr : count (output_surface_ready_queue ctx) = 0)
      by (unfold outstanding in E; lia).
    rewrite move_to_ready_stop by exact Hcq. rewrite bind_Done. simpl.
    rewrite set_queues_eta. unfold emission_gate. rewrite Hcr. simpl.
    exists 0, ctx, 0, blank_packet. split; [reflexivity|].
    split; [assumption|]. left. auto.
  - assert (Hpos : 0 < outstanding ctx) by (unfold outstanding in *; lia).
    pose proof (move_to_ready_spec (ready_malloc a)
                  (Z.to_nat (count (output_surface_queue ctx))) 0%nat
                  (output_surface_queue ctx) (output_surface_ready_queue ctx)
                  Hq Hr eq_refl ltac:(unfold outstanding in Hb; lia)) as Hm.
    destruct (move_to_ready _ _ _ _ _) as [[[res q'] r']| |];
      [|contradiction|].
    2:{ exfalso. apply Hm.
        apply links_ok_surfaces in Hl. unfold queued in Hl.
        apply Forall_app in Hl as [Hl _]. exact Hl. }
    destruct Hm as (Hq' & Hr' & lost & Hperm & Hres).
    rewrite bind_Done.
    set (ctx3 := set_output_surface_ready_queue
                   (set_output_surface_queue ctx q') r').
    assert (Hlen : outstanding ctx
                   = Z.of_nat (length lost) + outstanding ctx3).
    { rewrite (outstanding_length ctx Hq Hr).
      rewrite (outstanding_length ctx3) by (simpl; assumption).
      unfold queued at 1. rewrite Hperm, length_app.
      unfold queued, ctx3. simpl. lia. }
    assert (Hl3 : links_ok (input_surfaces ctx3) (output_surfaces ctx3)
                    (queued ctx3)).
    { unfold queued in Hl. pose proof (links_ok_perm _ _ _ _ Hperm Hl) as Hl'.
      destruct Hres as [(_ & -> & _)|(_ & Hlost)]; [exact Hl'|].
      destruct lost as [|d [|? ?]]; try discriminate.
      eapply links_ok_tail. exact Hl'. }
    assert (Hok3 : ctx_ok ctx3).
    { apply ctx_ok_iff. simpl.
      split; [assumption|]. split; [assumption|]. split; [assumption|].
      split; [lia|]. split; [intros _; apply Hts; lia|].
      split; assumption. }
    destruct Hres as [(-> & -> & Hcq')|(Hne & Hlost)].
    + simpl in Hlen. simpl. fold ctx3.
      assert (Hcr' : 0 < count (output_surface_ready_queue ctx3)).
      { unfold outstanding in Hlen, Hpos. simpl in Hlen. simpl. lia. }
      unfold emission_gate.
      destruct (count (output_surface_ready_queue ctx3) =? 0) eqn:E0;
        [apply Z.eqb_eq in E0; lia|].
      simpl.
      destruct (retrieve_spec FF codec ctx3 blank_packet 0 (lock a)
                  Hcodec Hok3 Hcr')
        as (res & ctx' & got' & pkt' & Hret & Hok' & Hout' & Hcase & _).
      exists res, ctx', got', pkt'. split; [exact Hret|].
      split; [assumption|]. right.
      split; [assumption|]. split; [lia|].
      destruct Hcase as [[-> ->]|[? ->]]; split; try tauto; try lia.
    + destruct (res =? 0) eqn:E0; [apply Z.eqb_eq in E0; lia|]. simpl.
      fold ctx3. exists res, ctx3, 0, blank_packet.
      split; [reflexivity|]. split; [assumption|]. right.
      split; [assumption|]. split; [lia|]. split; [lia|]. auto.
Qed.

Lemma flush_state_progress FF codec answers :
  codec <> AV_CODEC_ID_OTHER ->
  (forall k, encode_status (answers k) = NV_ENC_SUCCESS) ->
  forall n ctx,
    ctx_ok ctx -> Z.of_nat n <= outstanding ctx ->
    exists ctx_n,
      flush_state FF codec answers n ctx = Done ctx_n
      /\ ctx_ok ctx_n /\ outstanding ctx_n = outstanding ctx - Z.of_nat n.
Proof.
  intros Hcodec Hacc. induction n as [|n IH]; intros ctx Hok Hn.
  - exists ctx. simpl. split; [reflexivity|]. split; [assumption|]. lia.
  - destruct (IH ctx Hok ltac:(lia)) as (ctx_n & Hst & Hokn & Houtn).
    destruct (flush_call_spec FF codec ctx_n (answers n) Hcodec Hokn (Hacc n))
      as (res & ctx' & got & pkt & Hcall & Hok' & Hcase).
    exists ctx'. simpl. rewrite Hst, bind_Done, Hcall, bind_Done.
    split; [reflexivity|]. split; [assumption|].
    destruct Hcase as [(E & _)|(_ & Hout' & _)]; lia.
Qed.

Lemma flush_state_idle FF codec answers n ctx ctx_d :
  codec <> AV_CODEC_ID_OTHER ->
  (forall k, encode_status (answers k) = NV_ENC_SUCCESS) ->
  flush_state FF codec answers n ctx = Done ctx_d ->
  ctx_ok ctx_d -> outstanding ctx_d = 0 ->
  forall m,
    flush_state FF codec answers (n + m) ctx = Done ctx_d
    /\ nvenc_encode_frame FF codec ctx_d blank_packet None 0
         (answers (n + m)%nat) = Done (0, ctx_d, 0, blank_packet).
Proof.
  intros Hcodec Hacc Hst Hok Hout.
  assert (Hcall : forall k,
    nvenc_encode_frame FF codec ctx_d blank_packet None 0 (answers k)
    = Done (0, ctx_d, 0, blank_packet)).
  { intros k.
    destruct (flush_call_spec FF codec ctx_d (answers k) Hcodec Hok (Hacc k))
      as (res & ctx' & got & pkt & Hc & _ & Hcase).
    destruct Hcase as [(_ & -> & -> & -> & ->)|(? & _)]; [exact Hc|lia]. }
  induction m as [|m IH].
  - rewrite Nat.add_0_r. split; [exact Hst|apply Hcall].
  - split; [|apply Hcall].
    rewrite Nat.add_succ_r. simpl.
    destruct IH as [-> _]. rewrite bind_Done, Hcall, bind_Done. reflexivity.
Qed.

(** ** The engine: the emission test *)

(** The part of the context the surface bookkeeping leaves alone. *)
Lemma prepare_frame_queues codec ctx f a r :
  nvenc_prepare_frame codec ctx f a = Done r ->
  let c := match r with inl (_, c) => c | inr (c, _) => c end in
  output_surface_queue c = output_surface_queue ctx
  /\ output_surface_ready_queue c = output_surface_ready_queue ctx
  /\ buffer_delay c = buffer_delay ctx.
Proof.
  unfold nvenc_prepare_frame. intros H.
  apply bind_Done_inv in H as (inSurf & _ & H).
  destruct inSurf as [j|]; [|discriminate].
  apply bind_Done_inv in H as (ins & _ & H).
  destruct (decide (map_status a <> NV_ENC_SUCCESS));
    [injection H as <-; simpl; auto|].
  destruct (decide (_ <> Some (mappedBufferFmt a)));
    [injection H as <-; simpl; auto|].
  destruct (negb _); [injection H as <-; simpl; auto|].
  destruct (decide (unmap_status a <> NV_ENC_SUCCESS));
    [injection H as <-; simpl; auto|].
  apply bind_Done_inv in H as (i & _ & H).
  destruct (Z.of_nat i =? _).
  { apply bind_Done_inv in H as (ins0 & _ & H). injection H as <-.
    simpl. auto. }
  apply bind_Done_inv in H as (outs & _ & H).
  destruct codec; try (injection H as <-; simpl; auto; fail);
    apply bind_Done_inv in H as ([res tl] & _ & H);
    destruct (negb (res =? 0)); injection H as <-; simpl; auto.
Qed.

Lemma mark_busy_queues ctx i ctx' :
  mark_busy ctx i = Done ctx' ->
  output_surface_queue ctx' = output_surface_queue ctx
  /\ output_surface_ready_queue ctx' = output_surface_ready_queue ctx
  /\ buffer_delay ctx' = buffer_delay ctx.
Proof.
  unfold mark_busy. intros H. apply bind_Done_inv in H as (outs & _ & H).
  injection H as <-. simpl. auto.
Qed.

(** A call that reaches the emission test leaves the two surface queues
    well-formed and the configured delay as it was. *)
Lemma nvenc_submit_queues codec ctx frame a mid :
  queue_wf (output_surface_queue ctx) ->
  queue_wf (output_surface_ready_queue ctx) ->
  outstanding ctx < 2 ^ 31 - 1 ->
  nvenc_submit codec ctx frame a = Done (AtGate mid) ->
  queue_wf (output_surface_queue mid)
  /\ queue_wf (output_surface_ready_queue mid)
  /\ buffer_delay mid = buffer_delay ctx
  /\ outstanding mid <= outstanding ctx + 1.
Proof.
  intros Hq Hr Hb H. unfold nvenc_submit in H.
  pose proof (contents_length_wf _ Hq) as Hlq.
  pose proof (contents_length_wf _ Hr) as Hlr.
  apply bind_Done_inv in H as (prep & Hprep & H).
  assert (Hp : let c := match prep with inl (_, c) => c | inr (c, _) => c end in
               output_surface_queue c = output_surface_queue ctx
               /\ output_surface_ready_queue c = output_surface_ready_queue ctx
               /\ buffer_delay c = buffer_delay ctx).
  { destruct frame as [f|].
    - eapply prepare_frame_queues. exact Hprep.
    - injection Hprep as <-. simpl. auto. }
  destruct prep as [[res c1]|[c1 i]]; [discriminate|].
  simpl in Hp. destruct Hp as (Hq1 & Hr1 & Hd1).
  unfold outstanding in *.
  apply bind_Done_inv in H as (qd & Hqd & H).
  destruct (bool_decide _) eqn:Hbd.
  - apply bool_decide_eq_true in Hbd as [_ Hst]. rewrite Hst in H.
    apply bind_Done_inv in Hqd as ([res q] & Henq & Hqd).
    destruct (negb (res =? 0)) eqn:Eres;
      [injection Hqd as <-; discriminate|].
    apply bind_Done_inv in Hqd as (ctx3 & Hmb & Hqd). injection Hqd as <-.
    injection H as <-.
    apply mark_busy_queues in Hmb as (Hq3 & Hr3 & Hd3). simpl in *.
    unfold out_surf_queue_enqueue in Henq.
    destruct (enqueue_total (queue_malloc a) (output_surface_queue c1)
                (U_surface i) ltac:(rewrite Hq1; exact Hq)
                ltac:(rewrite Hq1; lia))
      as (res' & q' & Henq' & Hwf' & Hcase).
    rewrite Henq in Henq'. injection Henq' as <- <-.
    rewrite Hq3, Hr3, Hd3, Hr1, Hd1.
    split; [assumption|]. split; [assumption|]. split; [reflexivity|].
    destruct Hcase as [(_ & _ & Hc & _)|(_ & -> & _)]; rewrite ?Hc, ?Hq1; lia.
  - injection Hqd as <-.
    destruct (encode_status a); try discriminate.
    + apply bind_Done_inv in H as ([[res q] r] & Hmv & H).
      pose proof (move_to_ready_spec (ready_malloc a)
                    (Z.to_nat (count (output_surface_queue c1))) 0%nat
                    (output_surface_queue c1) (output_surface_ready_queue c1)
                    ltac:(rewrite Hq1; exact Hq) ltac:(rewrite Hr1; exact Hr)
                    eq_refl ltac:(rewrite Hq1, Hr1; lia)) as Hm.
      rewrite Hmv in Hm. destruct Hm as (Hq' & Hr' & lost & Hperm & _).
      assert (Hlen : count q + count r <= count (output_surface_queue ctx)
                     + count (output_surface_ready_queue ctx)).
      { apply Permutation_length in Hperm. rewrite !length_app in Hperm.
        pose proof (contents_length_wf _ Hq').
        pose proof (contents_length_wf _ Hr').
        rewrite Hq1, Hr1 in Hperm. lia. }
      pose proof (contents_length_wf _ Hq') as Hlq'.
      destruct (negb (res =? 0)); [discriminate|].
      destruct frame as [f|].
      * apply bind_Done_inv in H as ([res1 r1] & Henq & H).
        destruct (negb (res1 =? 0)); [discriminate|].
        apply bind_Done_inv in H as (ctx5 & Hmb & H). injection H as <-.
        apply mark_busy_queues in Hmb as (Hq5 & Hr5 & Hd5). simpl in *.
        unfold out_surf_queue_enqueue in Henq.
        destruct (enqueue_total (ready_malloc_frame a) r (U_surface i) Hr'
                    ltac:(lia)) as (res' & r' & Henq' & Hwf' & Hcase).
        rewrite Henq in Henq'. injection Henq' as <- <-.
        rewrite Hq5, Hr5, Hd5, Hd1.
        split; [assumption|]. split; [assumption|]. split; [reflexivity|].
        destruct Hcase as [(_ & _ & Hc & _)|(_ & -> & _)]; rewrite ?Hc; lia.
      * injection H as <-. simpl. rewrite Hd1. repeat split; auto; lia.
    + injection H as <-. rewrite Hq1, Hr1, Hd1. repeat split; auto; lia.
Qed.

Lemma emission_gate_iff ctx frame :
  queue_wf (output_surface_queue ctx) ->
  queue_wf (output_surface_ready_queue ctx) ->
  outstanding ctx < 2 ^ 32 ->
  0 <= buffer_delay ctx <= INT_MAX ->
  emission_gate ctx frame = true <->
  count (output_surface_ready_queue ctx) <> 0
  /\ (frame = None
      \/ buffer_delay ctx <= count (output_surface_ready_queue ctx)
                             + count (output_surface_queue ctx)).
Proof.
  intros Hq Hr Hb Hd. unfold INT_MAX in Hd. unfold outstanding in Hb.
  pose proof (contents_length_wf _ Hq) as Hlq.
  pose proof (contents_length_wf _ Hr) as Hlr.
  unfold emission_gate.
  rewrite andb_true_iff, orb_true_iff, !negb_true_iff, Z.eqb_neq,
    Z.leb_le, bool_decide_eq_false.
  rewrite (uint32_t_small (buffer_delay ctx)) by lia.
  rewrite uint32_t_small by lia.
  split; intros [H1 H2]; (split; [exact H1|]);
    destruct H2 as [H2|H2]; auto.
  - left. destruct frame; [exfalso; apply H2; eauto|reflexivity].
  - left. subst frame. intros [? ?]. discriminate.
Qed.

Lemma retrieve_got FF codec ctx pkt got a res ctx' got' pkt' :
  nvenc_retrieve FF codec ctx pkt got a = Done (res, ctx', got', pkt') ->
  (res = 0 /\ got' = 1) \/ (res <> 0 /\ got' = got).
Proof.
  unfold nvenc_retrieve. intros H.
  apply bind_Done_inv in H as ([surf r] & _ & H).
  apply bind_Done_inv in H as ([[res1 ctx2] pkt1] & _ & H).
  destruct (negb (res1 =? 0)) eqn:E.
  - injection H as <- <- <- <-. right.
    apply negb_true_iff, Z.eqb_neq in E. auto.
  - destruct surf as [i|]; [|discriminate].
    apply bind_Done_inv in H as (outs & _ & H).
    destruct (outs !! i ≫= input_surface) as [j|]; [|discriminate].
    destruct (input_surfaces _ !! j) as [s|]; [|discriminate].
    destruct (lockCount s =? 0); [discriminate|].
    apply bind_Done_inv in H as (ins & _ & H).
    injection H as <- <- <- <-. left. auto.
Qed.

(** ** The engine's invariant over a whole session *)

Lemma locked_insert ins j s s' :
  ins !! j = Some s ->
  (locked (<[j := s']> ins)
   + (if decide (lockCount s <> 0)%Z then 1 else 0)
   = locked ins + (if decide (lockCount s' <> 0)%Z then 1 else 0))%nat.
Proof.
  intros H. unfold locked.
  rewrite insert_take_drop by (eapply lookup_lt_Some; eauto).
  rewrite <- (take_drop_middle ins j s H) at 3.
  rewrite !filter_app, !filter_cons, !length_app.
  destruct (decide (lockCount s <> 0)), (decide (lockCount s' <> 0));
    simpl; lia.
Qed.

Lemma locked_le ins : (locked ins <= length ins)%nat.
Proof. unfold locked. apply length_filter. Qed.

(** Distinct links into an array of [n] cells are at most [n]. *)
Lemma links_length (l : list (option nat)) (n : nat) :
  NoDup l -> (forall x, x ∈ l -> exists j, x = Some j /\ (j < n)%nat) ->
  (length l <= n)%nat.
Proof.
  intros Hn Hall.
  assert (Hsub : l ⊆+ (Some <$> seq 0 n)).
  { apply NoDup_submseteq; [exact Hn|].
    intros x Hx. destruct (Hall x Hx) as (j & -> & Hj).
    apply list_elem_of_fmap_2. apply elem_of_seq. lia. }
  apply submseteq_length in Hsub. rewrite length_fmap, length_seq in Hsub.
  exact Hsub.
Qed.

Lemma links_ok_length ins outs l :
  links_ok ins outs l -> (length l <= length ins)%nat.
Proof.
  intros [Hf Hn].
  rewrite <- (length_fmap (surface_link outs) l).
  apply links_length; [exact Hn|].
  intros x Hx. apply list_elem_of_fmap in Hx as (d & -> & Hd).
  rewrite Forall_forall in Hf. specialize (Hf d Hd).
  unfold link_locked in Hf.
  destruct (surface_link outs d) as [j|]; [|discriminate].
  simpl in Hf. destruct (ins !! j) as [s|] eqn:Hs; [|discriminate].
  exists j. split; [reflexivity|]. eapply lookup_lt_Some; eauto.
Qed.

Lemma engine_inv_iff ctx :
  engine_inv ctx <->
  queue_wf (output_surface_queue ctx)
  /\ queue_wf (output_surface_ready_queue ctx)
  /\ pool_inv (input_surfaces ctx) (output_surfaces ctx) (timestamp_list ctx)
       (max_surface_count ctx) (queued ctx).
Proof.
  unfold engine_inv, pool_inv. rewrite ctx_ok_iff. split.
  - intros ((Hq & Hr & Ht & Hb & Hts & Hall & Hl) & Hbusy & H01 & Hc & Hi
            & Ho & Hm).
    repeat split; try assumption; try apply Hl.
    intros Hne. apply Hts. rewrite (outstanding_length ctx Hq Hr).
    destruct (queued ctx); [congruence|simpl; lia].
  - intros (Hq & Hr & Ht & Hall & Hts & Hl & Hbusy & H01 & Hc & Hi & Ho & Hm).
    pose proof (links_ok_length _ _ _ Hl) as Hlen.
    rewrite (outstanding_length ctx Hq Hr).
    repeat split; try assumption; try apply Hl; try lia.
    intros Hne. apply Hts. intros E. rewrite E in Hne. simpl in Hne. lia.
Qed.

Lemma links_ok_app_r ins outs l1 l2 :
  links_ok ins outs (l1 ++ l2) -> links_ok ins outs l2.
Proof.
  intros [Hf Hn]. apply Forall_app in Hf as [_ Hf].
  rewrite fmap_app in Hn. apply NoDup_app in Hn as (_ & _ & Hn).
  split; assumption.
Qed.

(** Surfaces leaving the queues keep the bookkeeping sound. *)
Lemma pool_inv_sub ins outs ts max l lost l' :
  l ≡ₚ lost ++ l' -> pool_inv ins outs ts max l ->
  pool_inv ins outs ts max l'.
Proof.
  intros Hp (Ht & Hall & Hts & Hl & Hbusy & Hrest).
  split; [assumption|]. split; [assumption|].
  split.
  { intros Hne. apply Hts. intros E. rewrite E in Hp.
    symmetry in Hp. apply Permutation_nil_r in Hp.
    apply app_eq_nil in Hp as [_ ?]. congruence. }
  split.
  { eapply links_ok_app_r. eapply links_ok_perm; [exact Hp|exact Hl]. }
  split; [|exact Hrest].
  rewrite Hp in Hbusy. apply Forall_app in Hbusy as [_ ?]. assumption.
Qed.

(** Changes to the timestamp list that keep its allocation and do not
    add to it. *)
Lemma pool_inv_pop ins outs ts ts' max l :
  queue_wf ts' -> (l <> [] -> size ts' <> 0) -> count ts' <= count ts ->
  Forall (fun d => is_timestamp d = true) (contents ts') ->
  pool_inv ins outs ts max l -> pool_inv ins outs ts' max l.
Proof.
  intros Hwf Hs Hc Hall' (Ht & Hall & Hts & Hl & Hbusy & H01 & Hcount & Hrest).
  split; [exact Hwf|]. split; [exact Hall'|]. split; [exact Hs|].
  split; [exact Hl|]. split; [exact Hbusy|]. split; [exact H01|].
  split; [lia|exact Hrest].
Qed.

Lemma entry_busy_inv outs d :
  entry_busy outs d = true ->
  exists i o, d = U_surface i /\ outs !! i = Some o /\ busy o <> 0.
Proof.
  destruct d as [t|i]; [discriminate|]. unfold entry_busy.
  destruct (outs !! i) as [o|] eqn:E; [|discriminate].
  intros H. apply negb_true_iff, Z.eqb_neq in H. exists i, o. auto.
Qed.

(** Taking a free input surface. *)
Lemma pool_inv_lock ins outs ts max l j s :
  pool_inv ins outs ts max l -> ins !! j = Some s -> lockCount s = 0 ->
  pool_inv (<[j := set_lockCount s 1]> ins) outs ts max l
  /\ count ts + 1 <= Z.of_nat (locked (<[j := set_lockCount s 1]> ins))
  /\ Some j ∉ surface_link outs <$> l.
Proof.
  intros (Ht & Hall & Hts & [Hf Hn] & Hbusy & H01 & Hc & Hi & Ho & Hm) Hj Hs.
  pose proof (locked_insert ins j s (set_lockCount s 1) Hj) as Hlk.
  destruct (decide (lockCount s <> 0)) as [?|_]; [congruence|].
  destruct (decide (lockCount (set_lockCount s 1) <> 0)) as [_|Hn1];
    [|simpl in Hn1; lia].
  split; [|split].
  - repeat split; try assumption.
    + apply Forall_forall. intros d Hd.
      rewrite Forall_forall in Hf. specialize (Hf d Hd).
      unfold link_locked in *.
      destruct (surface_link outs d) as [j'|]; [|discriminate]. simpl in *.
      destruct (decide (j' = j)) as [->|Hne].
      * rewrite list_lookup_insert_eq by (eapply lookup_lt_Some; eauto).
        reflexivity.
      * rewrite list_lookup_insert_ne by auto. exact Hf.
    + apply Forall_insert; [exact H01|]. simpl. auto.
    + lia.
    + rewrite length_insert. exact Hi.
  - lia.
  - intros Hin. apply list_elem_of_fmap in Hin as (d & Hd & Hdl).
    rewrite Forall_forall in Hf. specialize (Hf d Hdl).
    unfold link_locked in Hf. rewrite <- Hd in Hf. simpl in Hf.
    rewrite Hj, Hs in Hf. discriminate.
Qed.

(** Pointing a free output surface at an input surface. *)
Lemma pool_inv_link ins outs ts max l i o v :
  pool_inv ins outs ts max l -> outs !! i = Some o -> busy o = 0 ->
  pool_inv ins (<[i := set_input_surface o v]> outs) ts max l
  /\ surface_link (<[i := set_input_surface o v]> outs) <$> l
     = surface_link outs <$> l.
Proof.
  intros (Ht & Hall & Hts & [Hf Hn] & Hbusy & H01 & Hc & Hi & Ho & Hm) Hoi Hb.
  assert (Hother : forall d, d ∈ l ->
            surface_link (<[i := set_input_surface o v]> outs) d
            = surface_link outs d
            /\ entry_busy (<[i := set_input_surface o v]> outs) d
               = entry_busy outs d).
  { intros d Hd. rewrite Forall_forall in Hbusy.
    destruct (entry_busy_inv _ _ (Hbusy d Hd)) as (i' & o' & -> & Ho' & Hb').
    assert (i' <> i) by (intros ->; congruence).
    simpl. rewrite list_lookup_insert_ne by auto. auto. }
  assert (Hlinks : surface_link (<[i := set_input_surface o v]> outs) <$> l
                   = surface_link outs <$> l).
  { apply list_eq. intros k. rewrite !list_lookup_fmap.
    destruct (l !! k) as [d|] eqn:E; [|reflexivity]. simpl. f_equal.
    apply Hother. eapply list_elem_of_lookup_2. exact E. }
  split; [|exact Hlinks].
  repeat split; try assumption.
  - apply Forall_forall. intros d Hd.
    rewrite Forall_forall in Hf. specialize (Hf d Hd).
    unfold link_locked in *. rewrite (proj1 (Hother d Hd)). exact Hf.
  - rewrite Hlinks. exact Hn.
  - apply Forall_forall. intros d Hd. rewrite (proj2 (Hother d Hd)).
    rewrite Forall_forall in Hbusy. auto.
  - rewrite length_insert. exact Ho.
Qed.

(** Pushing the timestamp of the frame whose input surface was locked. *)
Lemma pool_inv_push ins outs ts ts' max l t :
  pool_inv ins outs ts max l ->
  queue_wf ts' -> contents ts' = contents ts ++ [U_timestamp t] ->
  count ts' <= Z.of_nat (locked ins) -> size ts' <> 0 ->
  pool_inv ins outs ts' max l.
Proof.
  intros (Ht & Hall & Hts & Hl & Hbusy & H01 & Hc & Hi & Ho & Hm)
         Hwf Hcont Hcnt Hs.
  split; [exact Hwf|]. split.
  { rewrite Hcont. apply Forall_app. split; [exact Hall|].
    constructor; [reflexivity|constructor]. }
  split; [intros _; exact Hs|].
  repeat (split; [assumption|]). assumption.
Qed.

(** Queueing the surface submitted by this call and marking it busy. *)
Lemma pool_inv_commit ins outs ts max l i o j s :
  pool_inv ins outs ts max l ->
  outs !! i = Some o -> input_surface o = Some j ->
  ins !! j = Some s -> lockCount s <> 0 ->
  Some j ∉ surface_link outs <$> l -> size ts <> 0 ->
  pool_inv ins (<[i := set_busy o 1]> outs) ts max (U_surface i :: l).
Proof.
  intros (Ht & Hall & Hts & [Hf Hn] & Hbusy & H01 & Hc & Hi & Ho & Hm)
         Hoi Hj Hs Hlk Hnj Hsz.
  assert (Hlinks : forall d,
            surface_link (<[i := set_busy o 1]> outs) d = surface_link outs d).
  { intros d. apply surface_link_busy. exact Hoi. }
  assert (Hli : surface_link outs (U_surface i) = Some j).
  { simpl. rewrite Hoi. exact Hj. }
  split; [exact Ht|]. split; [exact Hall|]. split; [intros _; exact Hsz|].
  repeat split; try assumption.
  - constructor.
    + unfold link_locked. rewrite Hlinks, Hli. simpl. rewrite Hs.
      apply negb_true_iff, Z.eqb_neq. exact Hlk.
    + apply Forall_forall. intros d Hd.
      rewrite Forall_forall in Hf. specialize (Hf d Hd).
      unfold link_locked in *. rewrite Hlinks. exact Hf.
  - rewrite fmap_cons, Hlinks, Hli. apply NoDup_cons. split.
    + erewrite list_fmap_ext; [exact Hnj|]. intros; apply Hlinks.
    + erewrite list_fmap_ext; [exact Hn|]. intros; apply Hlinks.
  - constructor.
    + simpl. rewrite list_lookup_insert_eq by (eapply lookup_lt_Some; eauto).
      reflexivity.
    + apply Forall_forall. intros d Hd. rewrite Forall_forall in Hbusy.
      destruct (entry_busy_inv _ _ (Hbusy d Hd)) as (i' & o' & -> & Ho' & Hb').
      simpl. destruct (decide (i' = i)) as [->|Hne].
      * rewrite list_lookup_insert_eq by (eapply lookup_lt_Some; eauto).
        reflexivity.
      * rewrite list_lookup_insert_ne by auto. rewrite Ho'.
        apply negb_true_iff, Z.eqb_neq. exact Hb'.
  - rewrite length_insert. exact Ho.
Qed.

(** Handing out the surface at the head of the list. *)
Lemma pool_inv_release ins outs ts ts' max l i o j s :
  pool_inv ins outs ts max (U_surface i :: l) ->
  outs !! i = Some o -> input_surface o = Some j -> ins !! j = Some s ->
  queue_wf ts' -> (l <> [] -> size ts' <> 0) ->
  count ts' = Z.max 0 (count ts - 1) ->
  Forall (fun d => is_timestamp d = true) (contents ts') ->
  pool_inv (<[j := set_lockCount s (int_t (lockCount s - 1))]> ins)
    (<[i := set_busy o 0]> outs) ts' max l.
Proof.
  intros (Ht & Hall & Hts & Hl & Hbusy & H01 & Hc & Hi & Ho & Hm)
         Hoi Hj Hs Hwf' Hsz' Hcnt' Hall'.
  assert (Hli : surface_link outs (U_surface i) = Some j).
  { simpl. rewrite Hoi. exact Hj. }
  assert (Hlk : lockCount s = 1).
  { destruct Hl as [Hf _]. apply Forall_cons in Hf as [Hf _].
    unfold link_locked in Hf. rewrite Hli in Hf. simpl in Hf.
    rewrite Hs in Hf. apply negb_true_iff, Z.eqb_neq in Hf.
    rewrite Forall_forall in H01.
    destruct (H01 s (list_elem_of_lookup_2 _ _ _ Hs)); lia. }
  assert (Hni : U_surface i ∉ l).
  { destruct Hl as [_ Hn]. rewrite fmap_cons in Hn.
    apply NoDup_cons in Hn as [Hn _]. intros Hin. apply Hn.
    apply list_elem_of_fmap_2. exact Hin. }
  pose proof (locked_insert ins j s
                (set_lockCount s (int_t (lockCount s - 1))) Hs) as Hlocked.
  rewrite Hlk in Hlocked. simpl in Hlocked.
  destruct (decide (1 <> 0)) as [_|?]; [|lia].
  destruct (decide (int_t (1 - 1) <> 0)) as [Hbad|_];
    [exfalso; apply Hbad; reflexivity|].
  split; [exact Hwf'|]. split; [exact Hall'|]. split; [exact Hsz'|].
  repeat split; try assumption.
  - eapply links_ok_release; eauto.
  - eapply links_ok_release; eauto.
  - apply Forall_cons in Hbusy as [_ Hbusy].
    apply Forall_forall. intros d Hd. rewrite Forall_forall in Hbusy.
    destruct (entry_busy_inv _ _ (Hbusy d Hd)) as (i' & o' & -> & Ho' & Hb').
    assert (i' <> i) by (intros ->; contradiction).
    simpl. rewrite list_lookup_insert_ne by auto. rewrite Ho'.
    apply negb_true_iff, Z.eqb_neq. exact Hb'.
  - apply Forall_insert; [exact H01|]. simpl. rewrite Hlk. left. reflexivity.
  - rewrite Hlk. lia.
  - rewrite length_insert. exact Hi.
  - rewrite length_insert. exact Ho.
Qed.

(** The two searches of the submission step. *)
Lemma find_input_surface_spec n : forall i ins j,
  find_input_surface n i ins = Done (Some j) ->
  exists s, ins !! j = Some s /\ lockCount s = 0.
Proof.
  induction n as [|n IH]; intros i ins j H; simpl in H; [discriminate|].
  destruct (ins !! i) as [s|] eqn:E; [|discriminate].
  destruct (lockCount s =? 0) eqn:E0.
  - injection H as <-. apply Z.eqb_eq in E0. eauto.
  - eapply IH. exact H.
Qed.

Lemma find_output_surface_spec n : forall i outs k,
  find_output_surface n i outs = Done k ->
  k = (i + n)%nat \/ exists o, outs !! k = Some o /\ busy o = 0.
Proof.
  induction n as [|n IH]; intros i outs k H; simpl in H.
  - injection H as <-. left. lia.
  - destruct (outs !! i) as [o|] eqn:E; [|discriminate].
    destruct (busy o =? 0) eqn:E0.
    + injection H as <-. apply Z.eqb_eq in E0. right. eauto.
    + apply IH in H as [->|H]; [left; lia|right; exact H].
Qed.

Lemma pool_inv_count ins outs ts max l :
  pool_inv ins outs ts max l ->
  count ts < 2 ^ 31 - 1 /\ Z.of_nat (length l) < 2 ^ 31 - 1 /\ 0 <= max.
Proof.
  intros (Ht & Hall & Hts & Hl & Hbusy & H01 & Hc & Hi & Ho & Hm).
  pose proof (locked_le ins). pose proof (links_ok_length _ _ _ Hl).
  lia.
Qed.

Lemma set_lockCount_id s : lockCount s = 0 ->
  set_lockCount (set_lockCount s 1) 0 = s.
Proof. destruct s as [lc fmt]. simpl. intros ->. reflexivity. Qed.

(** The preparation of a frame keeps the invariant on every early return,
    and otherwise leaves output surface [i] ready to be queued. *)
Lemma prepare_frame_inv codec ctx f a r :
  engine_inv ctx ->
  nvenc_prepare_frame codec ctx f a = Done r ->
  match r with
  | inl (_, c) => engine_inv c
  | inr (c, i) => pending c i
  end.
Proof.
  intros Hinv H. apply engine_inv_iff in Hinv as (Hq & Hr & Hp).
  unfold nvenc_prepare_frame in H.
  apply bind_Done_inv in H as (inSurf & Hfind & H).
  destruct inSurf as [j|]; [|discriminate].
  apply find_input_surface_spec in Hfind as (s & Hs & Hlk).
  apply bind_Done_inv in H as (ins & Hup & H).
  apply update_at_Done in Hup as (s0 & Hs0 & ->).
  rewrite Hs in Hs0. injection Hs0 as <-.
  destruct (pool_inv_lock _ _ _ _ _ j s Hp Hs Hlk) as (Hp1 & Hc1 & Hnj).
  assert (Hlt : (j < length (input_surfaces ctx))%nat)
    by (eapply lookup_lt_Some; eauto).
  assert (Hinv1 : engine_inv
            (set_input_surfaces ctx
               (<[j := set_lockCount s 1]> (input_surfaces ctx)))).
  { apply engine_inv_iff. simpl. auto. }
  destruct (decide (map_status a <> NV_ENC_SUCCESS));
    [injection H as <-; exact Hinv1|].
  destruct (decide (_ <> Some (mappedBufferFmt a)));
    [injection H as <-; exact Hinv1|].
  destruct (negb _); [injection H as <-; exact Hinv1|].
  destruct (decide (unmap_status a <> NV_ENC_SUCCESS));
    [injection H as <-; exact Hinv1|].
  apply bind_Done_inv in H as (i & Hfo & H).
  destruct (Z.of_nat i =? _) eqn:Ei.
  { apply bind_Done_inv in H as (ins0 & Hup0 & H). injection H as <-.
    apply update_at_Done in Hup0 as (s1 & Hs1 & ->).
    rewrite list_lookup_insert_eq in Hs1 by exact Hlt. injection Hs1 as <-.
    rewrite list_insert_insert_eq, set_lockCount_id by exact Hlk.
    rewrite (list_insert_id (input_surfaces ctx) j s Hs).
    apply engine_inv_iff. simpl. auto. }
  apply Z.eqb_neq in Ei. simpl in Ei, Hfo.
  apply bind_Done_inv in H as (outs & Hupo & H).
  apply update_at_Done in Hupo as (o & Ho & ->). simpl in Ho.
  assert (Hb : busy o = 0).
  { destruct (pool_inv_count _ _ _ _ _ Hp) as (_ & _ & Hmax).
    apply find_output_surface_spec in Hfo as [->|(o' & Ho' & Hb')].
    - exfalso. apply Ei. simpl. lia.
    - rewrite Ho in Ho'. injection Ho' as <-. exact Hb'. }
  destruct (pool_inv_link _ _ _ _ _ i o (Some j) Hp1 Ho Hb) as (Hp2 & Hlinks).
  assert (Hinv2 : engine_inv
            (set_output_surfaces
               (set_input_surfaces ctx
                  (<[j := set_lockCount s 1]> (input_surfaces ctx)))
               (<[i := set_input_surface o (Some j)]> (output_surfaces ctx)))).
  { apply engine_inv_iff. simpl. auto. }
  destruct (pool_inv_count _ _ _ _ _ Hp) as (Hcb & _ & _).
  pose proof Hp as (Ht & _).
  destruct (enqueue_total (timestamp_malloc a) (timestamp_list ctx)
              (U_timestamp (frame_pts f)) Ht ltac:(lia))
    as (r' & q' & He & Hwf' & Hcase).
  destruct codec; [| |injection H as <-; exact Hinv2];
    (apply bind_Done_inv in H as ([res tl] & Henq & H);
     unfold timestamp_queue_enqueue in Henq; simpl in Henq;
     rewrite He in Henq; injection Henq as <- <-;
     destruct Hcase as [(-> & Hcont & Hcnt & Hsz)|(-> & -> & _)];
     [|injection H as <-; apply engine_inv_iff; simpl; auto];
     simpl in H; injection H as <-;
     assert (Hp3 : pool_inv (<[j := set_lockCount s 1]> (input_surfaces ctx))
                     (<[i := set_input_surface o (Some j)]>
                        (output_surfaces ctx))
                     q' (max_surface_count ctx) (queued ctx))
       by (eapply pool_inv_push; eauto; lia);
     split; [apply engine_inv_iff; simpl; auto|];
     split; [exact Hsz|];
     exists (set_input_surface o (Some j)), j, (set_lockCount s 1); simpl;
     rewrite !list_lookup_insert_eq
       by (first [exact Hlt|eapply lookup_lt_Some; eauto]);
     repeat split; try assumption; try discriminate;
     unfold queued; simpl; fold (queued ctx); rewrite Hlinks; exact Hnj).
Qed.

(** Queue updates seen from the invariant: surfaces may leave the queues,
    and the pending surface may enter them. *)
Lemma requeue_inv ctx c2 lost :
  engine_inv ctx ->
  input_surfaces c2 = input_surfaces ctx ->
  output_surfaces c2 = output_surfaces ctx ->
  timestamp_list c2 = timestamp_list ctx ->
  max_surface_count c2 = max_surface_count ctx ->
  queue_wf (output_surface_queue c2) ->
  queue_wf (output_surface_ready_queue c2) ->
  queued ctx ≡ₚ lost ++ queued c2 ->
  engine_inv c2.
Proof.
  intros Hinv Hi Ho Ht Hm Hq2 Hr2 Hperm.
  apply engine_inv_iff in Hinv as (Hq & Hr & Hp). apply engine_inv_iff.
  split; [exact Hq2|]. split; [exact Hr2|]. rewrite Hi, Ho, Ht, Hm.
  eapply pool_inv_sub; eauto.
Qed.

Lemma requeue_pending ctx i c2 lost :
  pending ctx i ->
  input_surfaces c2 = input_surfaces ctx ->
  output_surfaces c2 = output_surfaces ctx ->
  timestamp_list c2 = timestamp_list ctx ->
  max_surface_count c2 = max_surface_count ctx ->
  queue_wf (output_surface_queue c2) ->
  queue_wf (output_surface_ready_queue c2) ->
  queued ctx ≡ₚ lost ++ queued c2 ->
  pending c2 i.
Proof.
  intros (Hinv & Hsz & o & j & s & Hoi & Hb & Hj & Hs & Hlk & Hnj)
         Hi Ho Ht Hm Hq2 Hr2 Hperm.
  split; [eapply requeue_inv; eauto|]. rewrite Ht, Hi, Ho.
  split; [exact Hsz|]. exists o, j, s. repeat split; try assumption.
  intros Hin. apply Hnj. rewrite Hperm, fmap_app.
  apply elem_of_app. right. exact Hin.
Qed.

Lemma commit_inv ctx i c2 ctx' :
  pending ctx i ->
  input_surfaces c2 = input_surfaces ctx ->
  output_surfaces c2 = output_surfaces ctx ->
  timestamp_list c2 = timestamp_list ctx ->
  max_surface_count c2 = max_surface_count ctx ->
  queue_wf (output_surface_queue c2) ->
  queue_wf (output_surface_ready_queue c2) ->
  queued c2 ≡ₚ U_surface i :: queued ctx ->
  mark_busy c2 i = Done ctx' ->
  engine_inv ctx'.
Proof.
  intros (Hinv & Hsz & o & j & s & Hoi & Hb & Hj & Hs & Hlk & Hnj)
         Hi Ho Ht Hm Hq2 Hr2 Hperm H.
  apply engine_inv_iff in Hinv as (Hq & Hr & Hp).
  unfold mark_busy in H. apply bind_Done_inv in H as (outs & Hup & H).
  injection H as <-.
  apply update_at_Done in Hup as (o' & Ho' & ->).
  rewrite Ho, Hoi in Ho'. injection Ho' as <-.
  apply engine_inv_iff. simpl.
  split; [exact Hq2|]. split; [exact Hr2|].
  change (queued (set_output_surfaces c2
                    (<[i:=set_busy o 1]> (output_surfaces c2))))
    with (queued c2).
  rewrite Hi, Ho, Ht, Hm.
  apply (pool_inv_sub _ _ _ _ (U_surface i :: queued ctx) []);
    [symmetry; exact Hperm|].
  eapply pool_inv_commit; eauto.
Qed.

(** The submission step keeps the invariant, however it ends. *)
Lemma nvenc_submit_inv codec ctx frame a sub :
  engine_inv ctx -> nvenc_submit codec ctx frame a = Done sub ->
  engine_inv (match sub with Returned _ c => c | AtGate c => c end).
Proof.
  intros Hinv H. unfold nvenc_submit in H.
  apply bind_Done_inv in H as (prep & Hprep & H).
  assert (Hp : match prep with
               | inl (_, c) => engine_inv c
               | inr (c, i) => engine_inv c /\ (is_Some frame -> pending c i)
               end).
  { destruct frame as [f|].
    - pose proof (prepare_frame_inv _ _ _ _ _ Hinv Hprep) as Hpf.
      destruct prep as [[res c]|[c i]]; [exact Hpf|].
      split; [apply Hpf|intros _; exact Hpf].
    - injection Hprep as <-. split; [exact Hinv|].
      intros [? ?]. discriminate. }
  destruct prep as [[res c1]|[c1 i]]; [injection H as <-; exact Hp|].
  destruct Hp as [Hinv1 Hpend].
  pose proof Hinv1 as Hinv1'.
  apply engine_inv_iff in Hinv1' as (Hq & Hr & Hp).
  destruct (pool_inv_count _ _ _ _ _ Hp) as (_ & Hlen & _).
  pose proof (contents_length_wf _ Hq) as Hlq.
  pose proof (contents_length_wf _ Hr) as Hlr.
  assert (Hqr : count (output_surface_queue c1)
                + count (output_surface_ready_queue c1) < 2 ^ 31 - 1).
  { unfold queued in Hlen. rewrite length_app in Hlen. lia. }
  apply bind_Done_inv in H as (qd & Hqd & H).
  destruct (bool_decide _) eqn:Hbd.
  - apply bool_decide_eq_true in Hbd as [Hfr Hst]. rewrite Hst in H.
    specialize (Hpend Hfr).
    apply bind_Done_inv in Hqd as ([res q] & Henq & Hqd).
    unfold out_surf_queue_enqueue in Henq.
    destruct (enqueue_total (queue_malloc a) (output_surface_queue c1)
                (U_surface i) Hq ltac:(lia))
      as (res' & q' & Henq' & Hwf' & Hcase).
    rewrite Henq in Henq'. injection Henq' as <- <-.
    destruct Hcase as [(-> & Hcont & _)|(-> & -> & _)].
    + simpl in Hqd. apply bind_Done_inv in Hqd as (ctx3 & Hmb & Hqd).
      injection Hqd as <-. injection H as <-.
      refine (commit_inv c1 i _ _ Hpend _ _ _ _ _ _ _ Hmb);
        try reflexivity; try assumption.
      unfold queued. simpl. rewrite Hcont.
      rewrite <- app_assoc. simpl. rewrite <- Permutation_middle.
      reflexivity.
    + simpl in Hqd. injection Hqd as <-. injection H as <-.
      apply engine_inv_iff. simpl. auto.
  - injection Hqd as <-.
    destruct (encode_status a) eqn:Hst.
    + apply bind_Done_inv in H as ([[res q] r] & Hmv & H).
      pose proof (move_to_ready_spec (ready_malloc a)
                    (Z.to_nat (count (output_surface_queue c1))) 0%nat
                    (output_surface_queue c1) (output_surface_ready_queue c1)
                    Hq Hr eq_refl ltac:(lia)) as Hm.
      rewrite Hmv in Hm. destruct Hm as (Hq' & Hr' & lost & Hperm & _).
      set (ctx3 := set_output_surface_ready_queue
                     (set_output_surface_queue c1 q) r) in *.
      assert (Hinv3 : engine_inv ctx3).
      { eapply (requeue_inv c1 ctx3 lost); try reflexivity; assumption. }
      destruct (negb (res =? 0)); [injection H as <-; exact Hinv3|].
      destruct frame as [f|]; [|injection H as <-; exact Hinv3].
      assert (Hpend3 : pending ctx3 i).
      { eapply (requeue_pending c1 i ctx3 lost); try reflexivity;
          try assumption. apply Hpend. eauto. }
      apply bind_Done_inv in H as ([res1 r1] & Henq & H).
      unfold out_surf_queue_enqueue in Henq. simpl in Henq.
      assert (Hcr : count r < 2 ^ 31).
      { apply Permutation_length in Hperm. rewrite !length_app in Hperm.
        pose proof (contents_length_wf _ Hr'). lia. }
      destruct (enqueue_total (ready_malloc_frame a) r (U_surface i) Hr' Hcr)
        as (res' & r' & Henq' & Hwf' & Hcase).
      rewrite Henq in Henq'. injection Henq' as <- <-.
      destruct Hcase as [(-> & Hcont & _)|(-> & -> & _)].
      * simpl in H. apply bind_Done_inv in H as (ctx5 & Hmb & H).
        injection H as <-.
        refine (commit_inv ctx3 i _ _ Hpend3 _ _ _ _ _ _ _ Hmb);
          try reflexivity; try assumption.
        unfold queued. simpl. rewrite Hcont.
        rewrite app_assoc. rewrite <- Permutation_cons_append.
        reflexivity.
      * simpl in H. injection H as <-.
        apply engine_inv_iff. simpl. apply engine_inv_iff in Hinv3. exact Hinv3.
    + injection H as <-. exact Hinv1.
    + injection H as <-. exact Hinv1.
Qed.

(** The retrieval keeps the invariant, whether the driver hands the
    bitstream over or not. *)
Lemma nvenc_retrieve_inv FF codec ctx pkt got a res ctx' got' pkt' :
  codec <> AV_CODEC_ID_OTHER -> engine_inv ctx ->
  0 < count (output_surface_ready_queue ctx) ->
  nvenc_retrieve FF codec ctx pkt got a = Done (res, ctx', got', pkt') ->
  engine_inv ctx'.
Proof.
  intros Hcodec Hinv Hc H. pose proof Hinv as [Hok _].
  apply engine_inv_iff in Hinv as (Hq & Hr & Hp).
  destruct (retrieve_spec FF codec ctx pkt got a Hcodec Hok Hc)
    as (res0 & ctx0 & got0 & pkt0 & Hret & Hok' & _ & _
        & i & o & j & s & Ho & Hj & Hs & Hlk & Hperm & Hmax & Hcnt & Hcase).
  rewrite H in Hret. injection Hret as <- <- <- <-.
  apply ctx_ok_iff in Hok' as (Hq' & Hr' & Ht' & _ & Hts' & Hall' & _).
  assert (Hsz : queued ctx' <> [] -> size (timestamp_list ctx') <> 0).
  { intros Hne. apply Hts'. rewrite (outstanding_length ctx' Hq' Hr').
    destruct (queued ctx'); [congruence|simpl; lia]. }
  apply engine_inv_iff. split; [exact Hq'|]. split; [exact Hr'|].
  rewrite Hmax.
  destruct Hcase as [(_ & -> & -> & Hcnt')|(_ & -> & ->)].
  - eapply pool_inv_release; eauto.
    eapply (pool_inv_sub _ _ _ _ _ []); [|exact Hp]. exact Hperm.
  - eapply pool_inv_pop; eauto.
    eapply (pool_inv_sub _ _ _ _ _ [U_surface i]); [|exact Hp].
    rewrite Hperm. reflexivity.
Qed.

(** One call of the engine keeps the invariant. *)
Lemma nvenc_encode_frame_inv FF codec ctx pkt frame got a res ctx' got' pkt' :
  codec <> AV_CODEC_ID_OTHER -> engine_inv ctx ->
  nvenc_encode_frame FF codec ctx pkt frame got a
  = Done (res, ctx', got', pkt') ->
  engine_inv ctx'.
Proof.
  intros Hcodec Hinv H. unfold nvenc_encode_frame in H.
  apply bind_Done_inv in H as (sub & Hsub & H).
  pose proof (nvenc_submit_inv _ _ _ _ _ Hinv Hsub) as Hinv1.
  destruct sub as [r c1|c1]; [injection H as _ <- _ _; exact Hinv1|].
  destruct (emission_gate c1 frame) eqn:Eg;
    [|injection H as _ <- _ _; exact Hinv1].
  eapply nvenc_retrieve_inv; [exact Hcodec|exact Hinv1| |exact H].
  unfold emission_gate in Eg. apply andb_true_iff in Eg as [Eg _].
  apply negb_true_iff, Z.eqb_neq in Eg.
  apply engine_inv_iff in Hinv1 as (_ & Hr & _).
  pose proof (contents_length_wf _ Hr). lia.
Qed.

Lemma run_engine_inv FF codec : forall calls ctx outs ctx',
  codec <> AV_CODEC_ID_OTHER -> engine_inv ctx ->
  run_engine FF codec ctx calls = Done (outs, ctx') ->
  engine_inv ctx'.
Proof.
  induction calls as [|[frame a] calls IH]; intros ctx outs ctx' Hcodec Hinv H;
    simpl in H.
  - injection H as _ <-. exact Hinv.
  - apply bind_Done_inv in H as ([[[res ctx1] got] pkt] & Hcall & H).
    apply bind_Done_inv in H as ([outs1 ctx2] & Hrun & H).
    injection H as _ <-.
    eapply IH; [exact Hcodec| |exact Hrun].
    eapply nvenc_encode_frame_inv; eauto.
Qed.

(** ** Set-up establishes the invariant *)

Lemma dyload_queues avctx ctx a loaded ctx0 tr0 :
  nvenc_dyload_nvenc avctx ctx a = (loaded, ctx0, tr0) ->
  same_queues ctx0 ctx.
Proof.
  unfold nvenc_dyload_nvenc. destruct (nvenc_check_cuda avctx a) as [ok tr].
  intros Hd.
  repeat case_match; injection Hd as <- <- <-;
    unfold same_queues; simpl; auto.
Qed.

Lemma init_error_pool avctx ctx n res tr r avctx' ctx' tr' :
  init_error avctx ctx n res tr = Done (r, avctx', ctx', tr') ->
  same_queues ctx' ctx /\ same_surfaces ctx' ctx.
Proof.
  unfold init_error. destruct (release_surfaces n 0 ctx); try discriminate.
  simpl. intros H. injection H as <- <- <- <-.
  unfold same_queues, same_surfaces. simpl. auto.
Qed.

Lemma init_finish_pool avctx a ctx n res tr r avctx' ctx' tr' :
  init_finish avctx a ctx n res tr = Done (r, avctx', ctx', tr') ->
  same_queues ctx' ctx /\ same_surfaces ctx' ctx.
Proof.
  unfold init_finish. intros Hf.
  repeat case_match;
    try (apply init_error_pool in Hf; exact Hf);
    injection Hf as <- <- <- <-; unfold same_queues, same_surfaces; auto.
Qed.

Lemma configure_gop_pool avctx a c :
  same_queues (configure_gop avctx a c) c
  /\ same_surfaces (configure_gop avctx a c) c.
Proof.
  unfold configure_gop, same_queues, same_surfaces.
  repeat case_match; simpl; auto.
Qed.

Lemma size_surface_pool_queues avctx c :
  same_queues (size_surface_pool avctx c) c
  /\ input_surfaces (size_surface_pool avctx c) = input_surfaces c
  /\ output_surfaces (size_surface_pool avctx c) = output_surfaces c.
Proof.
  unfold size_surface_pool, same_queues.
  repeat case_match; simpl; auto.
Qed.

(** The loop of lines 872-927, run to its end, leaves every surface it
    visited unlocked and touches neither the queues nor the capacity. *)
Lemma init_surfaces_filled n avctx a N : forall k ctx tr k' ctx' tr',
  pool_filled k N ctx ->
  init_surfaces n k avctx a ctx tr = Done (None, k', ctx', tr') ->
  pool_filled (k + n) N ctx' /\ same_queues ctx' ctx
  /\ max_surface_count ctx' = max_surface_count ctx.
Proof.
  induction n as [|n IH]; intros k ctx tr k' ctx' tr' Hf H; simpl in H.
  - injection H as _ <- _. rewrite Nat.add_0_r.
    unfold same_queues. auto.
  - assert (Hstep : forall ins outs,
              update_at (input_surfaces ctx) k
                (fun s => mkNvencInputSurface (lockCount s)
                            NV_ENC_BUFFER_FORMAT_NV12_PL) = Done ins ->
              forall ins1 x,
              update_at ins k (fun s => set_lockCount s 0) = Done ins1 ->
              update_at (output_surfaces ctx) k x = Done outs ->
              pool_filled (S k) N
                (set_output_surfaces
                   (set_input_surfaces (set_input_surfaces ctx ins) ins1)
                   outs)).
    { intros ins outs Hu ins1 x Hu1 Huo.
      apply update_at_Done in Hu as (s0 & Hs0 & ->).
      apply update_at_Done in Hu1 as (s1 & Hs1 & ->).
      apply update_at_Done in Huo as (o0 & Ho0 & ->).
      destruct Hf as (Hli & Hlo & Hall).
      unfold pool_filled. simpl. rewrite !length_insert.
      split; [exact Hli|]. split; [exact Hlo|].
      intros j s Hj Hlook.
      destruct (decide (j = k)) as [->|Hne].
      - rewrite list_lookup_insert_eq in Hlook
          by (rewrite length_insert; eapply lookup_lt_Some; eauto).
        injection Hlook as <-. reflexivity.
      - rewrite !list_lookup_insert_ne in Hlook by auto.
        eapply Hall; [|exact Hlook]. lia. }
    destruct (pix_fmt avctx); try discriminate;
      (destruct (update_at (input_surfaces ctx) k _) as [ins| |] eqn:Hu;
         try discriminate; simpl in H;
       destruct (decide (register_resource a k <> NV_ENC_SUCCESS));
         [discriminate|];
       destruct (update_at ins k _) as [ins1| |] eqn:Hu1; try discriminate;
         simpl in H;
       destruct (decide (create_bitstream_buffer a k <> NV_ENC_SUCCESS));
         [apply bind_Done_inv in H as (outs & _ & H); discriminate|];
       apply bind_Done_inv in H as (outs & Huo & H);
       eapply IH in H; [|eapply Hstep; eauto];
       destruct H as (Hfill & (Hq1 & Hq2 & Hq3) & Hmax);
       replace (k + S n)%nat with (S k + n)%nat by lia;
       split; [exact Hfill|]; split; [|exact Hmax];
       unfold same_queues; rewrite Hq1, Hq2, Hq3; simpl; auto).
Qed.

Lemma init_pool_filled avctx a ctx res tr avctx' ctx' tr' :
  init_pool avctx a ctx res tr = Done (0, avctx', ctx', tr') ->
  same_queues ctx' ctx
  /\ max_surface_count ctx' = max_surface_count ctx
  /\ pool_filled (Z.to_nat (max_surface_count ctx))
       (Z.to_nat (max_surface_count ctx)) ctx'.
Proof.
  unfold init_pool. intros H.
  destruct (decide (initialize_encoder a <> NV_ENC_SUCCESS)).
  { apply init_error_config in H as [H _]. discriminate. }
  destruct (input_surfaces_alloc a); simpl in H.
  2:{ apply init_error_config in H as [H _]. discriminate. }
  destruct (output_surfaces_alloc a); simpl in H.
  2:{ apply init_error_config in H as [H _]. discriminate. }
  apply bind_Done_inv in H as ([[[failed k'] ctx3] tr3] & Hs & H).
  destruct failed as [res1|].
  { apply init_surfaces_config in Hs as [_ Hfail].
    apply init_error_config in H as [<- _]. congruence. }
  apply init_surfaces_filled
    with (N := Z.to_nat (max_surface_count ctx)) in Hs
    as (Hfill & (Hq1 & Hq2 & Hq3) & Hmax).
  2:{ unfold pool_filled. simpl. rewrite !length_replicate.
      split; [reflexivity|]. split; [reflexivity|]. intros j s Hj. lia. }
  apply init_finish_pool in H as [(Hf1 & Hf2 & Hf3) (Hs1 & Hs2 & Hs3)].
  simpl in *.
  split; [unfold same_queues; rewrite Hf1, Hf2, Hf3; auto|].
  split; [congruence|].
  unfold pool_filled. rewrite Hs1, Hs2. exact Hfill.
Qed.

Lemma engine_inv_fresh ctx N :
  fresh ctx -> pool_filled N N ctx ->
  max_surface_count ctx = Z.of_nat N -> Z.of_nat N < 2 ^ 31 - 1 ->
  engine_inv ctx.
Proof.
  intros (Hq & Hr & Ht) (Hli & Hlo & Hall) Hmax Hb.
  apply engine_inv_iff. unfold queued. rewrite Hq, Hr, Ht.
  split; [reflexivity|]. split; [reflexivity|].
  split; [reflexivity|]. split; [constructor|].
  split; [intros Hne; exfalso; apply Hne; reflexivity|].
  split; [split; [constructor|apply NoDup_nil_2]|].
  split; [constructor|].
  split.
  { apply Forall_forall. intros s Hs. left.
    apply list_elem_of_lookup in Hs as [j Hj].
    eapply Hall; [|exact Hj]. rewrite <- Hli. eapply lookup_lt_Some; eauto. }
  split; [simpl; lia|].
  rewrite Hli, Hlo, Hmax. auto.
Qed.

(** A set-up that returns 0 on a zeroed context leaves a state that
    satisfies the engine's invariant, for a codec the engine knows. *)
Lemma init_engine_inv avctx o ctx a avctx' ctx' tr :
  fresh ctx -> cu_wrapper_reports a ->
  nvenc_encode_init avctx o ctx a = Done (0, avctx', ctx', tr) ->
  engine_inv ctx' /\ codec_id avctx <> AV_CODEC_ID_OTHER.
Proof.
  intros Hfresh [Hcu1 Hcu2]. unfold nvenc_encode_init.
  destruct (nvenc_dyload_nvenc avctx ctx a) as [[loaded ctx0] tr0] eqn:Hdy.
  apply dyload_queues in Hdy as (Hd1 & Hd2 & Hd3).
  destruct (loaded =? 0); [discriminate|].
  destruct (get_cuda_context a); simpl.
  2:{ intros H. apply init_error_config in H as [H _]. discriminate. }
  destruct (cu_module_load a) as [r|].
  { intros H. injection H as -> _ _ _. congruence. }
  destruct (cu_module_get_function a) as [r|].
  { intros H. injection H as -> _ _ _. congruence. }
  destruct (decide (open_session a <> NV_ENC_SUCCESS)).
  { intros H. apply init_error_config in H as [H _]. discriminate. }
  destruct (select_preset _ _) as [[[[g tp] isLL] lossless]|].
  2:{ intros H. apply init_error_config in H as [H _]. discriminate. }
  destruct (codec_id avctx) eqn:Hcodec;
    try (intros H; apply init_error_config in H as [H _]; discriminate);
    (destruct (decide (get_preset_config a <> NV_ENC_SUCCESS));
     [intros H; apply init_error_config in H as [H _]; discriminate|]);
    (destruct (select_profile_level avctx o 0) as [res1|res1] eqn:Hsel;
     [intros H; apply init_error_config in H as [H _]; subst res1;
      exfalso; revert Hsel; unfold select_profile_level; rewrite Hcodec;
      repeat case_match; intros; simplify_eq;
      try match goal with
          | E : negb (?x =? 0) = true, E' : ?x = 0 |- _ =>
            rewrite E' in E; discriminate
          end
     |intros H; split; [|discriminate];
      apply init_pool_filled in H as ((Hq1 & Hq2 & Hq3) & Hmax & Hfill);
      match type of Hmax with
      | _ = max_surface_count (configure_gop _ _ (size_surface_pool _ ?c)) =>
        destruct (configure_gop_pool avctx a (size_surface_pool avctx c))
          as [(Hg1 & Hg2 & Hg3) (_ & _ & Hg4)];
        destruct (size_surface_pool_queues avctx c) as [(Hp1 & Hp2 & Hp3) _];
        destruct (size_surface_pool_config avctx c) as (Hp4 & _)
      end;
      rewrite Hg4, Hp4 in Hmax, Hfill;
      destruct Hfresh as (Hf1 & Hf2 & Hf3);
      destruct (8160 <=? num_macroblocks avctx);
      [apply (engine_inv_fresh ctx' 32)|apply (engine_inv_fresh ctx' 48)];
      try exact Hfill; try exact Hmax; try reflexivity;
      unfold fresh;
      rewrite Hq1, Hq2, Hq3, Hg1, Hg2, Hg3, Hp1, Hp2, Hp3; simpl;
      rewrite Hd1, Hd2, Hd3; auto]).
Qed.

(** Every state of an opened session satisfies the invariant. *)
Lemma session_engine_inv FF avctx o ctx0 a calls ctx :
  session_state FF avctx o ctx0 a calls ctx ->
  engine_inv ctx /\ codec_id avctx <> AV_CODEC_ID_OTHER.
Proof.
  intros (Hfresh & Hcu & avctx' & ctx1 & tr & outs & Hinit & Hrun).
  destruct (init_engine_inv _ _ _ _ _ _ _ Hfresh Hcu Hinit) as [Hinv Hcodec].
  split; [|exact Hcodec].
  eapply run_engine_inv; eauto.
Qed.

(** ** The configured delay over a whole session *)

Lemma nvenc_submit_delay codec ctx frame a sub :
  nvenc_submit codec ctx frame a = Done sub ->
  buffer_delay (match sub with Returned _ c => c | AtGate c => c end)
  = buffer_delay ctx.
Proof.
  intros H. unfold nvenc_submit in H.
  apply bind_Done_inv in H as (prep & Hprep & H).
  assert (Hp : buffer_delay
                 (match prep with inl (_, c) => c | inr (c, _) => c end)
               = buffer_delay ctx).
  { destruct frame as [f|].
    - apply prepare_frame_queues in Hprep. apply Hprep.
    - injection Hprep as <-. reflexivity. }
  destruct prep as [[res c1]|[c1 i]]; [injection H as <-; exact Hp|].
  simpl in Hp.
  apply bind_Done_inv in H as (qd & Hqd & H).
  destruct (bool_decide _) eqn:Hbd.
  - apply bool_decide_eq_true in Hbd as [_ Hst]. rewrite Hst in H.
    apply bind_Done_inv in Hqd as ([res q] & _ & Hqd).
    destruct (negb (res =? 0)).
    + injection Hqd as <-. injection H as <-. exact Hp.
    + apply bind_Done_inv in Hqd as (ctx3 & Hmb & Hqd). injection Hqd as <-.
      injection H as <-.
      apply mark_busy_queues in Hmb as (_ & _ & ->). exact Hp.
  - injection Hqd as <-.
    destruct (encode_status a); try (injection H as <-; exact Hp).
    apply bind_Done_inv in H as ([[res q] r] & _ & H).
    destruct (negb (res =? 0)); [injection H as <-; exact Hp|].
    destruct frame as [f|]; [|injection H as <-; exact Hp].
    apply bind_Done_inv in H as ([res1 r1] & _ & H).
    destruct (negb (res1 =? 0)); [injection H as <-; exact Hp|].
    apply bind_Done_inv in H as (ctx5 & Hmb & H). injection H as <-.
    apply mark_busy_queues in Hmb as (_ & _ & ->). exact Hp.
Qed.

Lemma nvenc_retrieve_delay FF codec ctx pkt got a res ctx' got' pkt' :
  nvenc_retrieve FF codec ctx pkt got a = Done (res, ctx', got', pkt') ->
  buffer_delay ctx' = buffer_delay ctx.
Proof.
  unfold nvenc_retrieve. intros H.
  apply bind_Done_inv in H as ([surf r] & _ & H).
  apply bind_Done_inv in H as ([[res1 ctx2] pkt1] & Hp & H).
  apply process_output_surface_frame in Hp as (tl & ld & -> & _).
  destruct (negb (res1 =? 0)); [injection H as _ <- _ _; reflexivity|].
  destruct surf as [i|]; [|discriminate].
  apply bind_Done_inv in H as (outs & _ & H).
  destruct (outs !! i ≫= input_surface) as [j|]; [|discriminate].
  destruct (input_surfaces _ !! j) as [s|]; [|discriminate].
  destruct (lockCount s =? 0); [discriminate|].
  apply bind_Done_inv in H as (ins & _ & H).
  injection H as _ <- _ _. reflexivity.
Qed.

Lemma nvenc_encode_frame_delay FF codec ctx pkt frame got a res ctx' got' pkt' :
  nvenc_encode_frame FF codec ctx pkt frame got a
  = Done (res, ctx', got', pkt') ->
  buffer_delay ctx' = buffer_delay ctx.
Proof.
  intros H. unfold nvenc_encode_frame in H.
  apply bind_Done_inv in H as (sub & Hsub & H).
  apply nvenc_submit_delay in Hsub.
  destruct sub as [r c1|c1]; [injection H as _ <- _ _; exact Hsub|].
  destruct (emission_gate c1 frame);
    [|injection H as _ <- _ _; exact Hsub].
  apply nvenc_retrieve_delay in H. congruence.
Qed.

Lemma run_engine_delay FF codec : forall calls ctx outs ctx',
  run_engine FF codec ctx calls = Done (outs, ctx') ->
  buffer_delay ctx' = buffer_delay ctx.
Proof.
  induction calls as [|[frame a] calls IH]; intros ctx outs ctx' H;
    simpl in H.
  - injection H as _ <-. reflexivity.
  - apply bind_Done_inv in H as ([[[res ctx1] got] pkt] & Hcall & H).
    apply bind_Done_inv in H as ([outs1 ctx2] & Hrun & H).
    injection H as _ <-.
    apply nvenc_encode_frame_delay in Hcall. apply IH in Hrun. congruence.
Qed.

(** The delay of an opened session lies in [0, INT_MAX] as soon as the
    option it was opened with is not negative (the option's range, line
    1373, is [0, INT_MAX]). *)
Lemma session_delay FF avctx o ctx0 a calls ctx :
  session_state FF avctx o ctx0 a calls ctx ->
  0 <= buffer_delay ctx0 ->
  0 <= buffer_delay ctx <= INT_MAX.
Proof.
  intros (_ & Hcu & avctx' & ctx1 & tr & outs & Hinit & Hrun) Hd.
  apply run_engine_delay in Hrun. rewrite Hrun.
  destruct (init_configured _ _ _ _ _ _ _ Hcu Hinit)
    as (c & (_ & Hbd & _) & Hc & _).
  destruct (configure_gop_config avctx a (size_surface_pool avctx c))
    as (_ & Hg & _).
  destruct (size_surface_pool_config avctx c) as (Hm & Hs & _).
  rewrite Hbd, Hg, Hs, Hm, Hc. unfold INT_MAX.
  destruct (8160 <=? num_macroblocks avctx);
    match goal with
    | |- context [?x <=? ?y] => destruct (Z.leb_spec x y)
    end; lia.
Qed.

(** ** Draining and the emission test from the invariant *)

(** From a state that satisfies the invariant, when the driver accepts
    every end-of-stream submission, as many calls without a frame as there
    are surfaces outstanding empty both queues, and every call made after
    them reports no packet and changes nothing. *)
Lemma flush_from_invariant FF codec answers ctx :
  codec <> AV_CODEC_ID_OTHER -> ctx_ok ctx ->
  (forall k, encode_status (answers k) = NV_ENC_SUCCESS) ->
  exists n ctx_d,
    Z.of_nat n = outstanding ctx
    /\ count (output_surface_queue ctx_d) = 0
    /\ count (output_surface_ready_queue ctx_d) = 0
    /\ forall m,
         flush_state FF codec answers (n + m) ctx = Done ctx_d
         /\ nvenc_encode_frame FF codec ctx_d blank_packet None 0
              (answers (n + m)%nat)
            = Done (0, ctx_d, 0, blank_packet).
Proof.
  intros Hcodec Hok Hacc. pose proof Hok as Hok0.
  apply ctx_ok_iff in Hok0 as (Hq & Hr & _).
  pose proof (contents_length_wf _ Hq). pose proof (contents_length_wf _ Hr).
  assert (Hpos : 0 <= outstanding ctx) by (unfold outstanding; lia).
  destruct (flush_state_progress FF codec answers Hcodec Hacc
              (Z.to_nat (outstanding ctx)) ctx Hok ltac:(lia))
    as (ctx_d & Hst & Hokd & Houtd).
  exists (Z.to_nat (outstanding ctx)), ctx_d.
  split; [lia|].
  assert (Hout0 : outstanding ctx_d = 0) by lia.
  pose proof Hokd as Hokd0. apply ctx_ok_iff in Hokd0 as (Hqd & Hrd & _).
  pose proof (contents_length_wf _ Hqd).
  pose proof (contents_length_wf _ Hrd).
  split; [unfold outstanding in Hout0; lia|].
  split; [unfold outstanding in Hout0; lia|].
  apply flush_state_idle; assumption.
Qed.

(** Every call that returns, by the way it ends: before the emission test,
    with [got_packet] and the packet as the caller passed them; at a
    failed test, with [got_packet] cleared; or through the retrieval,
    which sets [got_packet] when it returns 0 and leaves it alone when it
    does not. *)
Lemma call_from_invariant FF codec ctx pkt frame a got0 res ctx' got_packet pkt' :
  queue_wf (output_surface_queue ctx) ->
  queue_wf (output_surface_ready_queue ctx) ->
  outstanding ctx < 2 ^ 31 - 1 ->
  0 <= buffer_delay ctx <= INT_MAX ->
  nvenc_encode_frame FF codec ctx pkt frame got0 a
  = Done (res, ctx', got_packet, pkt') ->
  exists sub,
    nvenc_submit codec ctx frame a = Done sub
    /\ match sub with
       | Returned r c =>
         res = r /\ ctx' = c /\ got_packet = got0 /\ pkt' = pkt
       | AtGate mid =>
         (emission_test ctx mid frame
          /\ ((res = 0 /\ got_packet = 1) \/ (res <> 0 /\ got_packet = got0)))
         \/ (~ emission_test ctx mid frame
             /\ res = 0 /\ got_packet = 0 /\ ctx' = mid /\ pkt' = pkt)
       end.
Proof.
  intros Hq Hr Hb Hd Hcall. unfold nvenc_encode_frame in Hcall.
  apply bind_Done_inv in Hcall as (sub & Hsub & Hcall).
  exists sub. split; [exact Hsub|].
  destruct sub as [r c|mid].
  - injection Hcall as <- <- <- <-. auto.
  - destruct (nvenc_submit_queues _ _ _ _ _ Hq Hr Hb Hsub)
      as (Hqm & Hrm & Hdm & Hom).
    pose proof (emission_gate_iff mid frame Hqm Hrm ltac:(lia)
                  ltac:(rewrite Hdm; exact Hd)) as Hgate.
    rewrite Hdm in Hgate. fold (emission_test ctx mid frame) in Hgate.
    destruct (emission_gate mid frame) eqn:E.
    + left. split; [apply Hgate; reflexivity|].
      apply retrieve_got in Hcall. exact Hcall.
    + right. injection Hcall as <- <- <- <-.
      split; [intros Hg; apply Hgate in Hg; discriminate|auto].
Qed.

Lemma session_1080p_five : session_1080p calls_five_frames ctx_five_in_flight.
Proof.
  split; [repeat split|]. split; [split; discriminate|].
  eexists _, _, _, _.
  split; [vm_compute; reflexivity|vm_compute; reflexivity].
Qed.

Lemma session_1080p_three : session_1080p calls_three_frames ctx_two_ready.
Proof.
  split; [repeat split|]. split; [split; discriminate|].
  eexists _, _, _, _.
  split; [vm_compute; reflexivity|vm_compute; reflexivity].
Qed.

(** ** The engine: the claims *)

(** C5. In every state of an opened session, when the driver accepts every
    end-of-stream submission, the calls without a frame reach, after as
    many calls as there are surfaces outstanding, a state with the
    in-flight queue and the ready queue empty; the call made there reports
    no packet, and so does every later one, leaving that state as it is. *)
Theorem flush_drains (FF_API_CODED_FRAME : bool) (avctx : AVCodecContext)
    (o : NvencOptions) (ctx0 : NvencContext) (a : InitAnswers)
    (calls : list (option AVFrame * FrameAnswers)) (ctx : NvencContext)
    (answers : nat -> FrameAnswers) :
  session_state FF_API_CODED_FRAME avctx o ctx0 a calls ctx ->
  (forall k, encode_status (answers k) = NV_ENC_SUCCESS) ->
  exists n ctx_d,
    Z.of_nat n = outstanding ctx
    /\ count (output_surface_queue ctx_d) = 0
    /\ count (output_surface_ready_queue ctx_d) = 0
    /\ forall m,
         flush_state FF_API_CODED_FRAME (codec_id avctx) answers (n + m) ctx
         = Done ctx_d
         /\ nvenc_encode_frame FF_API_CODED_FRAME (codec_id avctx) ctx_d
              blank_packet None 0 (answers (n + m)%nat)
            = Done (0, ctx_d, 0, blank_packet).
Proof.
  intros Hs Hacc.
  destruct (session_engine_inv _ _ _ _ _ _ _ Hs) as [[Hok _] Hcodec].
  apply flush_from_invariant; assumption.
Qed.

Lemma flush_drains_witness :
  session_1080p calls_five_frames ctx_five_in_flight
  /\ outstanding ctx_five_in_flight = 5
  /\ exists ctx_d,
       count (output_surface_queue ctx_d) = 0
       /\ count (output_surface_ready_queue ctx_d) = 0
       /\ forall m,
            flush_state true AV_CODEC_ID_H264
              (fun _ => frame_answers NV_ENC_SUCCESS
                          (lock_ok 0 NV_ENC_PIC_TYPE_P))
              (5 + m) ctx_five_in_flight = Done ctx_d
            /\ nvenc_encode_frame true AV_CODEC_ID_H264 ctx_d blank_packet
                 None 0
                 (frame_answers NV_ENC_SUCCESS (lock_ok 0 NV_ENC_PIC_TYPE_P))
               = Done (0, ctx_d, 0, blank_packet).
Proof.
  assert (Hs : session_1080p calls_five_frames ctx_five_in_flight).
  { split; [repeat split|]. split; [split; discriminate|].
    eexists _, _, _, _.
    split; [vm_compute; reflexivity|vm_compute; reflexivity]. }
  split; [exact Hs|]. split; [reflexivity|].
  destruct (flush_drains true avctx_1080p options_default
              (set_buffer_delay ctx_zero 2) answers_ok calls_five_frames
              ctx_five_in_flight
              (fun _ => frame_answers NV_ENC_SUCCESS
                          (lock_ok 0 NV_ENC_PIC_TYPE_P)))
    as (n & ctx_d & Hn & Hq & Hr & Hall); [exact Hs|reflexivity|].
  assert (n = 5%nat) as ->
    by (change (outstanding ctx_five_in_flight) with 5 in Hn; lia).
  exists ctx_d. auto.
Defined.

(** C1, as the code has it.  A call made in a session that was opened with
    a delay option that is not negative ends in one of four ways.  If the
    submission step returns before the emission test, the call returns
    that code and leaves [got_packet] and the packet as the caller passed
    them.  Otherwise the test is made on the queues as the submission step
    left them: the ready queue is non-empty and either no frame was passed
    or ready count plus in-flight count is at least the delay.  When the
    test fails the call returns 0 and reports no packet ([got_packet] 0).
    When it passes, the retrieval either returns 0 and a packet is
    reported ([got_packet] 1), or returns its error code and leaves
    [got_packet] as the caller passed it.  So, for a caller that did not
    pass 1, a packet is reported if and only if the call reached the test,
    the test passed and the retrieval returned 0. *)
Theorem emission_gate_decides (FF_API_CODED_FRAME : bool)
    (avctx : AVCodecContext) (o : NvencOptions) (ctx0 : NvencContext)
    (a : InitAnswers) (calls : list (option AVFrame * FrameAnswers))
    (ctx : NvencContext) (pkt : AVPacket) (frame : option AVFrame)
    (fa : FrameAnswers) (got0 : Z)
    (res : Z) (ctx' : NvencContext) (got_packet : Z) (pkt' : AVPacket) :
  session_state FF_API_CODED_FRAME avctx o ctx0 a calls ctx ->
  0 <= buffer_delay ctx0 ->
  nvenc_encode_frame FF_API_CODED_FRAME (codec_id avctx) ctx pkt frame got0 fa
  = Done (res, ctx', got_packet, pkt') ->
  exists sub,
    nvenc_submit (codec_id avctx) ctx frame fa = Done sub
    /\ match sub with
       | Returned r c =>
         res = r /\ ctx' = c /\ got_packet = got0 /\ pkt' = pkt
       | AtGate mid =>
         (emission_test ctx mid frame
          /\ ((res = 0 /\ got_packet = 1) \/ (res <> 0 /\ got_packet = got0)))
         \/ (~ emission_test ctx mid frame
             /\ res = 0 /\ got_packet = 0 /\ ctx' = mid /\ pkt' = pkt)
       end
    /\ (got0 <> 1 ->
        (got_packet = 1
         <-> exists mid, sub = AtGate mid /\ emission_test ctx mid frame
                         /\ res = 0)).
Proof.
  intros Hs Hd0 Hcall.
  pose proof (session_delay _ _ _ _ _ _ _ Hs Hd0) as Hd.
  destruct (session_engine_inv _ _ _ _ _ _ _ Hs) as [Hinv _].
  apply engine_inv_iff in Hinv as (Hq & Hr & Hp).
  destruct (pool_inv_count _ _ _ _ _ Hp) as (_ & Hlen & _).
  rewrite <- (outstanding_length ctx Hq Hr) in Hlen.
  destruct (call_from_invariant _ _ _ _ _ _ _ _ _ _ _ Hq Hr ltac:(lia) Hd
              Hcall) as (sub & Hsub & Hend).
  exists sub. split; [exact Hsub|]. split; [exact Hend|].
  intros Hg0. destruct sub as [r c|mid].
  - destruct Hend as (_ & _ & -> & _). split; [contradiction|].
    intros (mid & E & _). discriminate.
  - destruct Hend as [[Hg [[-> ->]|[Hne ->]]]|(Hng & -> & -> & _)].
    + split; [eauto|reflexivity].
    + split; [contradiction|]. intros (m & _ & _ & E). contradiction.
    + split; [discriminate|]. intros (m & E & Hg & _).
      injection E as <-. contradiction.
Qed.

Lemma emission_gate_decides_witness :
  (session_1080p calls_three_frames ctx_two_ready
   /\ exists ctx' pkt',
        nvenc_encode_frame true AV_CODEC_ID_H264 ctx_two_ready blank_packet
          (frame_at 3) 0
          (frame_answers NV_ENC_SUCCESS (lock_ok 0 NV_ENC_PIC_TYPE_IDR))
        = Done (0, ctx', 1, pkt')
        /\ exists mid,
             nvenc_submit AV_CODEC_ID_H264 ctx_two_ready (frame_at 3)
               (frame_answers NV_ENC_SUCCESS (lock_ok 0 NV_ENC_PIC_TYPE_IDR))
             = Done (AtGate mid)
             /\ emission_test ctx_two_ready mid (frame_at 3))
  /\ (session_1080p calls_five_frames ctx_five_in_flight
      /\ exists ctx' pkt',
           nvenc_encode_frame true AV_CODEC_ID_H264 ctx_five_in_flight
             blank_packet None 7 (frame_answers NV_ENC_SUCCESS lock_refused)
           = Done (AVERROR_EXTERNAL, ctx', 7, pkt')
           /\ exists mid,
                nvenc_submit AV_CODEC_ID_H264 ctx_five_in_flight None
                  (frame_answers NV_ENC_SUCCESS lock_refused)
                = Done (AtGate mid)
                /\ emission_test ctx_five_in_flight mid None).
Proof.
  assert (H3 : session_1080p calls_three_frames ctx_two_ready).
  { split; [repeat split|]. split; [split; discriminate|].
    eexists _, _, _, _.
    split; [vm_compute; reflexivity|vm_compute; reflexivity]. }
  assert (H5 : session_1080p calls_five_frames ctx_five_in_flight).
  { split; [repeat split|]. split; [split; discriminate|].
    eexists _, _, _, _.
    split; [vm_compute; reflexivity|vm_compute; reflexivity]. }
  split.
  - split; [exact H3|].
    assert (Hcall : exists ctx' pkt',
              nvenc_encode_frame true AV_CODEC_ID_H264 ctx_two_ready
                blank_packet (frame_at 3) 0
                (frame_answers NV_ENC_SUCCESS (lock_ok 0 NV_ENC_PIC_TYPE_IDR))
              = Done (0, ctx', 1, pkt'))
      by (eexists _, _; vm_compute; reflexivity).
    destruct Hcall as (ctx' & pkt' & Hcall).
    exists ctx', pkt'. split; [exact Hcall|].
    destruct (emission_gate_decides true avctx_1080p options_default
                (set_buffer_delay ctx_zero 2) answers_ok calls_three_frames
                ctx_two_ready blank_packet (frame_at 3)
                (frame_answers NV_ENC_SUCCESS (lock_ok 0 NV_ENC_PIC_TYPE_IDR))
                0 0 ctx' 1 pkt' H3 ltac:(vm_compute; discriminate) Hcall)
      as (sub & Hsub & _ & Hiff).
    destruct (proj1 (Hiff ltac:(discriminate)) eq_refl) as (mid & -> & Hg & _).
    exists mid. split; [exact Hsub|exact Hg].
  - split; [exact H5|].
    assert (Hcall : exists ctx' pkt',
              nvenc_encode_frame true AV_CODEC_ID_H264 ctx_five_in_flight
                blank_packet None 7 (frame_answers NV_ENC_SUCCESS lock_refused)
              = Done (AVERROR_EXTERNAL, ctx', 7, pkt'))
      by (eexists _, _; vm_compute; reflexivity).
    destruct Hcall as (ctx' & pkt' & Hcall).
    exists ctx', pkt'. split; [exact Hcall|].
    destruct (emission_gate_decides true avctx_1080p options_default
                (set_buffer_delay ctx_zero 2) answers_ok calls_five_frames
                ctx_five_in_flight blank_packet None
                (frame_answers NV_ENC_SUCCESS lock_refused)
                7 AVERROR_EXTERNAL ctx' 7 pkt' H5
                ltac:(vm_compute; discriminate) Hcall)
      as (sub & Hsub & Hend & _).
    destruct sub as [r c|mid].
    + vm_compute in Hsub. discriminate.
    + exists mid. split; [exact Hsub|].
      destruct Hend as [[Hg _]|(_ & E & _)]; [exact Hg|discriminate].
Defined.

(** C1, as stated, fails on calls that leave before or during the
    retrieval.  Without a frame and with five surfaces ready, a driver that
    refuses to lock the bitstream makes the call return
    [AVERROR_EXTERNAL] with [got_packet] untouched; with a frame, two
    surfaces ready and a delay of 2, a refused mapping of the input surface
    makes the call return 0 before the test, again without a packet. *)
Lemma gate_open_without_packet :
  (session_1080p calls_five_frames ctx_five_in_flight
   /\ exists mid ctx' pkt',
     nvenc_submit AV_CODEC_ID_H264 ctx_five_in_flight None
       (frame_answers NV_ENC_SUCCESS lock_refused) = Done (AtGate mid)
     /\ count (output_surface_ready_queue mid) = 5
     /\ nvenc_encode_frame true AV_CODEC_ID_H264 ctx_five_in_flight
          blank_packet None 0 (frame_answers NV_ENC_SUCCESS lock_refused)
        = Done (AVERROR_EXTERNAL, ctx', 0, pkt'))
  /\ (session_1080p calls_three_frames ctx_two_ready
      /\ count (output_surface_ready_queue ctx_two_ready) = 2
      /\ count (output_surface_queue ctx_two_ready) = 0
      /\ buffer_delay ctx_two_ready = 2
      /\ exists ctx',
           nvenc_encode_frame true AV_CODEC_ID_H264 ctx_two_ready
             blank_packet (frame_at 3) 0 answers_map_refused
           = Done (0, ctx', 0, blank_packet)
           /\ count (output_surface_ready_queue ctx') = 2).
Proof.
  split.
  - split; [exact session_1080p_five|].
    eexists _, _, _. split; [vm_compute; reflexivity|].
    split; [reflexivity|]. vm_compute. reflexivity.
  - split; [exact session_1080p_three|].
    split; [reflexivity|]. split; [reflexivity|]. split; [reflexivity|].
    eexists. split; [vm_compute; reflexivity|]. reflexivity.
Qed.

(** * Further properties of the code *)

(** ** The engine's own accesses stay in bounds *)

Lemma find_input_surface_Done n : forall i ins,
  (i + n <= length ins)%nat ->
  exists r, find_input_surface n i ins = Done r
            /\ (r = None ->
                forall j s, (i <= j < i + n)%nat -> ins !! j = Some s ->
                            lockCount s <> 0).
Proof.
  induction n as [|n IH]; intros i ins Hlen; simpl.
  - exists None. split; [reflexivity|]. intros _ j s Hj. lia.
  - destruct (lookup_lt_is_Some_2 ins i ltac:(lia)) as [s Hs]. rewrite Hs.
    destruct (lockCount s =? 0) eqn:E.
    + exists (Some i). split; [reflexivity|discriminate].
    + apply Z.eqb_neq in E.
      destruct (IH (S i) ins ltac:(lia)) as (r & Hr & Hnone).
      exists r. split; [exact Hr|]. intros Hn j s' Hj Hs'.
      destruct (decide (j = i)) as [->|Hne].
      * rewrite Hs in Hs'. injection Hs' as <-. exact E.
      * eapply Hnone; eauto. lia.
Qed.

Lemma find_output_surface_Done n : forall i outs,
  (i + n <= length outs)%nat ->
  exists k, find_output_surface n i outs = Done k /\ (k <= i + n)%nat.
Proof.
  induction n as [|n IH]; intros i outs Hlen; simpl.
  - exists i. split; [reflexivity|lia].
  - destruct (lookup_lt_is_Some_2 outs i ltac:(lia)) as [o Ho]. rewrite Ho.
    destruct (busy o =? 0).
    + exists i. split; [reflexivity|lia].
    + destruct (IH (S i) outs ltac:(lia)) as (k & Hk & Hle).
      exists k. split; [exact Hk|lia].
Qed.

Lemma update_at_total {A} (l : list A) i f :
  (i < length l)%nat -> exists x, l !! i = Some x
                                  /\ update_at l i f = Done (<[i := f x]> l).
Proof.
  intros Hi. destruct (lookup_lt_is_Some_2 l i Hi) as [x Hx].
  exists x. unfold update_at. rewrite Hx. auto.
Qed.

(** The preparation of a frame returns unless every input surface is
    locked, in which case it trips [av_assert0(inSurf)]. *)
Lemma prepare_frame_progress codec ctx f a :
  engine_inv ctx ->
  match nvenc_prepare_frame codec ctx f a with
  | Done _ => exists s, s ∈ input_surfaces ctx /\ lockCount s = 0
  | AssertFail => Forall (fun s => lockCount s <> 0) (input_surfaces ctx)
  | Undefined => False
  end.
Proof.
  intros Hinv. apply engine_inv_iff in Hinv as (Hq & Hr & Hp).
  pose proof Hp as (Ht & _ & _ & _ & _ & _ & _ & Hli & Hlo & Hm).
  destruct (pool_inv_count _ _ _ _ _ Hp) as (Hcb & _ & Hmax).
  assert (Hn : Z.to_nat (max_surface_count ctx)
               = length (input_surfaces ctx)) by lia.
  assert (Hno : Z.to_nat (max_surface_count ctx)
                = length (output_surfaces ctx)) by lia.
  unfold nvenc_prepare_frame.
  destruct (find_input_surface_Done (Z.to_nat (max_surface_count ctx)) 0
              (input_surfaces ctx) ltac:(lia)) as (r & Hfind & Hnone).
  rewrite Hfind, bind_Done.
  destruct r as [j|].
  2:{ apply Forall_forall. intros s Hs.
      apply list_elem_of_lookup in Hs as [j Hj].
      eapply (Hnone eq_refl j); [|exact Hj].
      apply lookup_lt_Some in Hj. lia. }
  destruct (find_input_surface_spec _ _ _ _ Hfind) as (s & Hs & Hlk).
  assert (Hfree : exists s, s ∈ input_surfaces ctx /\ lockCount s = 0).
  { exists s. split; [eapply list_elem_of_lookup_2; eauto|exact Hlk]. }
  assert (Hlt : (j < length (input_surfaces ctx))%nat)
    by (eapply lookup_lt_Some; eauto).
  cbv beta iota.
  destruct (update_at_total (input_surfaces ctx) j
              (fun s => set_lockCount s 1) Hlt) as (s0 & Hs0 & Hu0).
  rewrite Hs in Hs0. injection Hs0 as <-. rewrite Hu0, bind_Done.
  destruct (decide (map_status a <> NV_ENC_SUCCESS)); [exact Hfree|].
  destruct (decide (_ <> Some (mappedBufferFmt a))); [exact Hfree|].
  destruct (negb _); [exact Hfree|].
  destruct (decide (unmap_status a <> NV_ENC_SUCCESS)); [exact Hfree|].
  simpl.
  destruct (find_output_surface_Done (Z.to_nat (max_surface_count ctx)) 0
              (output_surfaces ctx) ltac:(lia)) as (i & Hfo & Hle).
  rewrite Hfo, bind_Done.
  destruct (Z.of_nat i =? max_surface_count ctx) eqn:Ei.
  { destruct (update_at_total (<[j:=set_lockCount s 1]> (input_surfaces ctx))
                j (fun s => set_lockCount s 0)
                ltac:(rewrite length_insert; exact Hlt)) as (x & _ & Hu).
    rewrite Hu, bind_Done. exact Hfree. }
  apply Z.eqb_neq in Ei.
  destruct (update_at_total (output_surfaces ctx) i
              (fun s => set_input_surface s (Some j)) ltac:(lia))
    as (o & _ & Hu).
  rewrite Hu, bind_Done.
  destruct (enqueue_total (timestamp_malloc a) (timestamp_list ctx)
              (U_timestamp (frame_pts f)) Ht ltac:(lia))
    as (r' & q' & He & _).
  destruct codec; [| |exact Hfree];
    (unfold timestamp_queue_enqueue; simpl; rewrite He, bind_Done;
     destruct (negb (r' =? 0)); exact Hfree).
Qed.

Lemma mark_busy_Done ctx i :
  (i < length (output_surfaces ctx))%nat -> is_Done (mark_busy ctx i).
Proof.
  intros Hi. unfold mark_busy.
  destruct (update_at_total (output_surfaces ctx) i (fun s => set_busy s 1) Hi)
    as (o & _ & Hu).
  rewrite Hu, bind_Done. eexists. reflexivity.
Qed.

Lemma pending_index ctx i :
  pending ctx i -> (i < length (output_surfaces ctx))%nat.
Proof.
  intros (_ & _ & o & j & s & Ho & _). eapply lookup_lt_Some; eauto.
Qed.

(** Once the frame is prepared, the rest of the submission step returns. *)
Lemma submit_after_prepare codec ctx frame a prep :
  match frame with
  | Some f => nvenc_prepare_frame codec ctx f a
  | None => Done (inr (ctx, O))
  end = Done prep ->
  match prep with
  | inl _ => True
  | inr (c, i) => engine_inv c /\ (is_Some frame -> pending c i)
  end ->
  is_Done (nvenc_submit codec ctx frame a).
Proof.
  intros Hprep Hp. unfold nvenc_submit. rewrite Hprep, bind_Done.
  destruct prep as [[res c1]|[c1 i]]; [eexists; reflexivity|].
  destruct Hp as [Hinv1 Hpend].
  pose proof Hinv1 as Hinv1'.
  apply engine_inv_iff in Hinv1' as (Hq & Hr & Hp).
  destruct (pool_inv_count _ _ _ _ _ Hp) as (_ & Hlen & _).
  pose proof (contents_length_wf _ Hq) as Hlq.
  pose proof (contents_length_wf _ Hr) as Hlr.
  assert (Hqr : count (output_surface_queue c1)
                + count (output_surface_ready_queue c1) < 2 ^ 31 - 1).
  { unfold queued in Hlen. rewrite length_app in Hlen. lia. }
  destruct (bool_decide _) eqn:Hbd.
  - apply bool_decide_eq_true in Hbd as [Hfr Hst].
    specialize (Hpend Hfr). rewrite Hst.
    unfold out_surf_queue_enqueue.
    destruct (enqueue_total (queue_malloc a) (output_surface_queue c1)
                (U_surface i) Hq ltac:(lia))
      as (res' & q' & Henq' & Hwf' & Hcase).
    rewrite Henq', bind_Done.
    destruct (negb (res' =? 0)).
    + rewrite bind_Done. eexists. reflexivity.
    + destruct (mark_busy_Done (set_output_surface_queue c1 q') i
                  (pending_index _ _ Hpend)) as [c3 Hmb].
      rewrite Hmb, !bind_Done. eexists. reflexivity.
  - rewrite bind_Done.
    destruct (encode_status a) eqn:Hst; try (eexists; reflexivity).
    pose proof (move_to_ready_spec (ready_malloc a)
                  (Z.to_nat (count (output_surface_queue c1))) 0%nat
                  (output_surface_queue c1) (output_surface_ready_queue c1)
                  Hq Hr eq_refl ltac:(lia)) as Hm.
    destruct (move_to_ready _ _ _ _ _) as [[[res q] r]| |];
      [|contradiction|].
    2:{ exfalso. apply Hm.
        destruct Hp as (_ & _ & _ & Hl & _).
        apply links_ok_surfaces in Hl. unfold queued in Hl.
        apply Forall_app in Hl as [Hl _]. exact Hl. }
    destruct Hm as (Hq' & Hr' & lost & Hperm & _).
    rewrite bind_Done.
    destruct (negb (res =? 0)); [eexists; reflexivity|].
    destruct frame as [f|]; [|eexists; reflexivity].
    assert (Hcr : count r < 2 ^ 31).
    { apply Permutation_length in Hperm. rewrite !length_app in Hperm.
      pose proof (contents_length_wf _ Hr').
      pose proof (contents_length_wf _ Hq'). lia. }
    unfold out_surf_queue_enqueue. simpl.
    destruct (enqueue_total (ready_malloc_frame a) r (U_surface i) Hr' Hcr)
      as (res' & r' & Henq' & Hwf' & Hcase).
    rewrite Henq', bind_Done.
    destruct (negb (res' =? 0)); [eexists; reflexivity|].
    destruct (mark_busy_Done
                (set_output_surface_ready_queue
                   (set_output_surface_ready_queue
                      (set_output_surface_queue c1 q) r) r') i
                (pending_index _ _ (Hpend ltac:(eauto)))) as [c5 Hmb].
    rewrite Hmb, bind_Done. eexists. reflexivity.
Qed.

(** The submission step returns unless a frame is passed while every
    input surface is locked. *)
Lemma nvenc_submit_progress codec ctx frame a :
  engine_inv ctx ->
  match nvenc_submit codec ctx frame a with
  | Done _ =>
    frame = None \/ exists s, s ∈ input_surfaces ctx /\ lockCount s = 0
  | AssertFail =>
    is_Some frame
    /\ Forall (fun s => lockCount s <> 0) (input_surfaces ctx)
  | Undefined => False
  end.
Proof.
  intros Hinv. destruct frame as [f|].
  - pose proof (prepare_frame_progress codec ctx f a Hinv) as Hpp.
    destruct (nvenc_prepare_frame codec ctx f a) as [prep| |] eqn:Hprep.
    + destruct (submit_after_prepare codec ctx (Some f) a prep Hprep)
        as [sub Hsub].
      { pose proof (prepare_frame_inv _ _ _ _ _ Hinv Hprep) as Hpf.
        destruct prep as [[res c]|[c i]]; [exact I|].
        split; [apply Hpf|intros _; exact Hpf]. }
      rewrite Hsub. right. exact Hpp.
    + unfold nvenc_submit. rewrite Hprep. simpl. split; [eauto|exact Hpp].
    + contradiction.
  - destruct (submit_after_prepare codec ctx None a (inr (ctx, O)) eq_refl)
      as [sub Hsub].
    { split; [exact Hinv|]. intros [? ?]. discriminate. }
    rewrite Hsub. left. reflexivity.
Qed.

(** A call of the engine on a state that satisfies the invariant returns,
    unless a frame is passed while every input surface is locked: then,
    and only then, it trips [av_assert0]. *)
Lemma nvenc_encode_frame_progress FF codec ctx pkt frame got a :
  codec <> AV_CODEC_ID_OTHER -> engine_inv ctx ->
  match nvenc_encode_frame FF codec ctx pkt frame got a with
  | Done _ =>
    frame = None \/ exists s, s ∈ input_surfaces ctx /\ lockCount s = 0
  | AssertFail =>
    is_Some frame
    /\ Forall (fun s => lockCount s <> 0) (input_surfaces ctx)
  | Undefined => False
  end.
Proof.
  intros Hcodec Hinv.
  pose proof (nvenc_submit_progress codec ctx frame a Hinv) as Hsp.
  unfold nvenc_encode_frame.
  destruct (nvenc_submit codec ctx frame a) as [sub| |] eqn:Hsub;
    [|exact Hsp|contradiction].
  rewrite bind_Done.
  pose proof (nvenc_submit_inv _ _ _ _ _ Hinv Hsub) as Hinv1.
  destruct sub as [r c1|c1]; [exact Hsp|].
  destruct (emission_gate c1 frame) eqn:Eg; [|exact Hsp].
  unfold emission_gate in Eg. apply andb_true_iff in Eg as [Eg _].
  apply negb_true_iff, Z.eqb_neq in Eg.
  pose proof Hinv1 as [Hok _].
  apply engine_inv_iff in Hinv1 as (_ & Hr & _).
  pose proof (contents_length_wf _ Hr).
  destruct (retrieve_spec FF codec c1 pkt got (lock a) Hcodec Hok ltac:(lia))
    as (res & ctx' & got' & pkt' & Hret & _).
  rewrite Hret. exact Hsp.
Qed.

(** ** Frames dropped on the way in *)

(** The three [return 0] exits of lines 1224-1239: the call answers 0, the
    caller's packet and [got_packet] are untouched, and the input surface
    taken at line 1220 stays locked. *)
Lemma frame_dropped FF codec ctx pkt f got a j s :
  find_input_surface (Z.to_nat (max_surface_count ctx)) 0 (input_surfaces ctx)
  = Done (Some j) ->
  input_surfaces ctx !! j = Some s ->
  map_status a <> NV_ENC_SUCCESS
  \/ format s <> mappedBufferFmt a
  \/ nvenc_copy_to_inputbuffer (cuda_copy a) f <> 0 ->
  nvenc_encode_frame FF codec ctx pkt (Some f) got a
  = Done (0, set_input_surfaces ctx
               (<[j := set_lockCount s 1]> (input_surfaces ctx)), got, pkt).
Proof.
  intros Hfind Hs Hcase.
  assert (Hlt : (j < length (input_surfaces ctx))%nat)
    by (eapply lookup_lt_Some; eauto).
  enough (Hprep : nvenc_prepare_frame codec ctx f a
                  = Done (inl (0, set_input_surfaces ctx
                                    (<[j := set_lockCount s 1]>
                                       (input_surfaces ctx))))).
  { unfold nvenc_encode_frame, nvenc_submit. rewrite Hprep, !bind_Done.
    reflexivity. }
  unfold nvenc_prepare_frame. cbv zeta. rewrite Hfind, bind_Done.
  cbv beta iota.
  destruct (update_at_total (input_surfaces ctx) j
              (fun s => set_lockCount s 1) Hlt) as (s0 & Hs0 & Hu0).
  rewrite Hs in Hs0. injection Hs0 as <-. rewrite Hu0, bind_Done.
  destruct (decide (map_status a <> NV_ENC_SUCCESS)); [reflexivity|].
  rewrite list_lookup_insert_eq by exact Hlt. simpl.
  destruct (decide (_ <> Some (mappedBufferFmt a))) as [|Hfmt];
    [reflexivity|].
  destruct (nvenc_copy_to_inputbuffer (cuda_copy a) f =? 0) eqn:E;
    [|reflexivity].
  apply Z.eqb_eq in E. exfalso.
  destruct Hcase as [H|[H|H]]; [contradiction| |contradiction].
  apply Hfmt. intros Heq. injection Heq as Heq. contradiction.
Qed.

Lemma find_input_surface_None n : forall i ins,
  (i + n <= length ins)%nat ->
  Forall (fun s => lockCount s <> 0) ins ->
  find_input_surface n i ins = Done None.
Proof.
  induction n as [|n IH]; intros i ins Hlen Hall; simpl; [reflexivity|].
  destruct (lookup_lt_is_Some_2 ins i ltac:(lia)) as [s Hs]. rewrite Hs.
  rewrite Forall_forall in Hall.
  pose proof (Hall s (list_elem_of_lookup_2 _ _ _ Hs)) as Hlk.
  destruct (lockCount s =? 0) eqn:E; [apply Z.eqb_eq in E; contradiction|].
  apply IH; [lia|]. apply Forall_forall. exact Hall.
Qed.

Lemma locked_all ins :
  locked ins = length ins -> Forall (fun s => lockCount s <> 0) ins.
Proof.
  unfold locked. induction ins as [|s ins IH]; intros H; [constructor|].
  rewrite filter_cons in H.
  pose proof (length_filter (fun s => lockCount s <> 0) ins) as Hle.
  destruct (decide (lockCount s <> 0)) as [Hs|Hs]; simpl in H.
  - constructor; [exact Hs|]. apply IH. lia.
  - lia.
Qed.

Lemma locked_length ins :
  Forall (fun s => lockCount s <> 0) ins -> locked ins = length ins.
Proof.
  unfold locked. induction 1 as [|s ins Hs _ IH]; [reflexivity|].
  rewrite filter_cons. destruct (decide (lockCount s <> 0)); [|contradiction].
  simpl. rewrite IH. reflexivity.
Qed.

(** With every input surface locked, a call with a frame stops at
    [av_assert0(inSurf)], line 1218. *)
Lemma exhausted_asserts FF codec ctx pkt f got a :
  (Z.to_nat (max_surface_count ctx) <= length (input_surfaces ctx))%nat ->
  Forall (fun s => lockCount s <> 0) (input_surfaces ctx) ->
  nvenc_encode_frame FF codec ctx pkt (Some f) got a = AssertFail.
Proof.
  intros Hlen Hall. unfold nvenc_encode_frame, nvenc_submit,
    nvenc_prepare_frame. cbv zeta.
  rewrite find_input_surface_None by (simpl; assumption). reflexivity.
Qed.

Lemma refused_mappings_run FF codec : forall drops ctx,
  codec <> AV_CODEC_ID_OTHER -> engine_inv ctx ->
  Forall (fun c : option AVFrame * FrameAnswers =>
            is_Some c.1 /\ map_status c.2 <> NV_ENC_SUCCESS) drops ->
  Z.of_nat (length drops)
  = max_surface_count ctx - Z.of_nat (locked (input_surfaces ctx)) ->
  exists outs ctx',
    run_engine FF codec ctx drops = Done (outs, ctx')
    /\ Forall (fun r => r = (0, 0, blank_packet)) outs
    /\ queued ctx' = queued ctx
    /\ forall pkt f got fa,
         nvenc_encode_frame FF codec ctx' pkt (Some f) got fa = AssertFail.
Proof.
  induction drops as [|[frame fa] drops IH]; intros ctx Hcodec Hinv Hall Hlen.
  - exists [], ctx. split; [reflexivity|]. split; [constructor|].
    split; [reflexivity|]. intros pkt f got fa.
    apply engine_inv_iff in Hinv as (_ & _ & Hp).
    destruct Hp as (_ & _ & _ & _ & _ & _ & _ & Hli & _).
    simpl in Hlen.
    apply exhausted_asserts; [lia|]. apply locked_all. lia.
  - apply Forall_cons in Hall as [[Hf Hmap] Hall]. simpl in Hf, Hmap.
    destruct Hf as [f ->].
    pose proof Hinv as Hinv0.
    apply engine_inv_iff in Hinv0 as (_ & _ & Hp).
    destruct Hp as (_ & _ & _ & _ & _ & _ & _ & Hli & _ & _).
    destruct (find_input_surface_Done (Z.to_nat (max_surface_count ctx)) 0
                (input_surfaces ctx) ltac:(lia)) as (r & Hfind & Hnone).
    destruct r as [j|].
    2:{ exfalso.
        assert (Hl : locked (input_surfaces ctx)
                     = length (input_surfaces ctx)).
        { apply locked_length. apply Forall_forall. intros s Hs.
          apply list_elem_of_lookup in Hs as [j Hj].
          eapply (Hnone eq_refl j); [|exact Hj].
          apply lookup_lt_Some in Hj. lia. }
        simpl in Hlen. lia. }
    destruct (find_input_surface_spec _ _ _ _ Hfind) as (s & Hs & Hlk).
    pose proof (frame_dropped FF codec ctx blank_packet f 0 fa j s Hfind Hs
                  (or_introl Hmap)) as Hcall.
    pose proof (nvenc_encode_frame_inv _ _ _ _ _ _ _ _ _ _ _ Hcodec Hinv Hcall)
      as Hinv1.
    pose proof (locked_insert (input_surfaces ctx) j s (set_lockCount s 1) Hs)
      as Hlocked.
    destruct (decide (lockCount s <> 0)) as [?|_]; [congruence|].
    destruct (decide (lockCount (set_lockCount s 1) <> 0)) as [_|Hn1];
      [|simpl in Hn1; lia].
    destruct (IH _ Hcodec Hinv1 Hall) as (outs & ctx' & Hrun & Houts & Hq & Hab).
    { simpl in *. lia. }
    exists ((0, 0, blank_packet) :: outs), ctx'.
    split; [simpl; rewrite Hcall, bind_Done, Hrun, bind_Done; reflexivity|].
    split; [constructor; [reflexivity|exact Houts]|].
    split; [rewrite Hq; reflexivity|exact Hab].
Qed.

(** X1. In every state of a session whose encoder handle is set, a call of
    the engine keeps its own accesses in bounds: no cell of a surface array
    or of a queue block is addressed out of range, no queue entry is read
    as the wrong member of the union, no surface pointer taken from a
    queue is null, and neither [av_assert0(queue->size)] of the dequeue
    nor the assert of line 1346 fires.  The call returns, except that a
    call with a frame made while every input surface is locked stops at
    [av_assert0(inSurf)]; a call that returned with a frame had found an
    unlocked input surface.  What the driver does with the handles it is
    given is a parameter of the model, and the signed 64-bit arithmetic of
    lines 1116 and 1122, written here with wrap-around, is outside the
    statement: C leaves its overflow undefined. *)
Theorem session_calls_in_bounds (FF_API_CODED_FRAME : bool)
    (avctx : AVCodecContext) (o : NvencOptions) (ctx0 : NvencContext)
    (a : InitAnswers) (calls : list (option AVFrame * FrameAnswers))
    (ctx : NvencContext) (pkt : AVPacket) (frame : option AVFrame)
    (got_packet : Z) (fa : FrameAnswers) :
  session_state FF_API_CODED_FRAME avctx o ctx0 a calls ctx ->
  nvencoder ctx = true ->
  match nvenc_encode_frame FF_API_CODED_FRAME (codec_id avctx) ctx pkt frame
          got_packet fa with
  | Done _ =>
    frame = None \/ exists s, s ∈ input_surfaces ctx /\ lockCount s = 0
  | AssertFail =>
    is_Some frame
    /\ Forall (fun s => lockCount s <> 0) (input_surfaces ctx)
  | Undefined => False
  end.
Proof.
  intros Hs _.
  destruct (session_engine_inv _ _ _ _ _ _ _ Hs) as [Hinv Hcodec].
  apply nvenc_encode_frame_progress; assumption.
Qed.

Lemma session_calls_in_bounds_witness :
  session_1080p calls_five_frames ctx_five_in_flight
  /\ nvencoder ctx_five_in_flight = true
  /\ is_Done (nvenc_encode_frame true AV_CODEC_ID_H264 ctx_five_in_flight
                blank_packet (frame_at 5) 0
                (frame_answers NV_ENC_SUCCESS (lock_ok 0 NV_ENC_PIC_TYPE_P))).
Proof.
  assert (Hs : session_1080p calls_five_frames ctx_five_in_flight).
  { split; [repeat split|]. split; [split; discriminate|].
    eexists _, _, _, _.
    split; [vm_compute; reflexivity|vm_compute; reflexivity]. }
  split; [exact Hs|]. split; [reflexivity|].
  pose proof (session_calls_in_bounds true avctx_1080p options_default
                (set_buffer_delay ctx_zero 2) answers_ok calls_five_frames
                ctx_five_in_flight blank_packet (frame_at 5) 0
                (frame_answers NV_ENC_SUCCESS (lock_ok 0 NV_ENC_PIC_TYPE_P))
                Hs eq_refl) as H.
  change (codec_id avctx_1080p) with AV_CODEC_ID_H264 in H.
  destruct (nvenc_encode_frame true AV_CODEC_ID_H264 ctx_five_in_flight
              blank_packet (frame_at 5) 0
              (frame_answers NV_ENC_SUCCESS (lock_ok 0 NV_ENC_PIC_TYPE_P)))
    as [r| |] eqn:E.
  - exists r. reflexivity.
  - vm_compute in E. discriminate.
  - contradiction.
Defined.

(** X2. A frame whose input surface the driver refuses to map, whose
    mapped buffer has another format than the surface, or whose copy to the
    device fails, is dropped without a word: the call returns 0 and leaves
    the packet, [got_packet], the queues and the timestamp list as they
    were; the input surface it had taken (the first unlocked one) stays
    locked, so the pool has one usable surface less from then on. *)
Theorem frame_dropped_silently (FF_API_CODED_FRAME : bool)
    (codec : AVCodecID) (ctx : NvencContext) (pkt : AVPacket) (f : AVFrame)
    (got_packet : Z) (a : FrameAnswers) (j : nat) (s : NvencInputSurface) :
  find_input_surface (Z.to_nat (max_surface_count ctx)) 0 (input_surfaces ctx)
  = Done (Some j) ->
  input_surfaces ctx !! j = Some s ->
  map_status a <> NV_ENC_SUCCESS
  \/ format s <> mappedBufferFmt a
  \/ nvenc_copy_to_inputbuffer (cuda_copy a) f <> 0 ->
  let ctx' := set_input_surfaces ctx
                (<[j := set_lockCount s 1]> (input_surfaces ctx)) in
  nvenc_encode_frame FF_API_CODED_FRAME codec ctx pkt (Some f) got_packet a
  = Done (0, ctx', got_packet, pkt)
  /\ locked (input_surfaces ctx') = S (locked (input_surfaces ctx)).
Proof.
  intros Hfind Hs Hcase. cbv zeta.
  split; [apply frame_dropped; assumption|].
  destruct (find_input_surface_spec _ _ _ _ Hfind) as (s' & Hs' & Hlk).
  rewrite Hs in Hs'. injection Hs' as <-.
  pose proof (locked_insert (input_surfaces ctx) j s (set_lockCount s 1) Hs)
    as Hlocked.
  destruct (decide (lockCount s <> 0)) as [?|_]; [congruence|].
  destruct (decide (lockCount (set_lockCount s 1) <> 0)) as [_|Hn1];
    [|simpl in Hn1; lia].
  simpl. lia.
Qed.

Lemma frame_dropped_silently_witness :
  exists ctx',
    nvenc_encode_frame true AV_CODEC_ID_H264 ctx_two_ready blank_packet
      (frame_at 3) 0 answers_map_refused
    = Done (0, ctx', 0, blank_packet)
    /\ locked (input_surfaces ctx')
       = S (locked (input_surfaces ctx_two_ready)).
Proof.
  eexists.
  eapply (frame_dropped_silently true AV_CODEC_ID_H264 ctx_two_ready
            blank_packet (mkAVFrame 3 AV_PIX_FMT_NV12) 0 answers_map_refused).
  - vm_compute. reflexivity.
  - vm_compute. reflexivity.
  - left. discriminate.
Defined.

(** X3. Such drops add up.  From any state of an opened session, as many
    frames with a refused mapping as there are unlocked input surfaces all
    return 0 without a packet and without queueing anything; after them
    every call with a frame, whatever the driver answers, stops at
    [av_assert0(inSurf)]. *)
Theorem refused_mappings_exhaust_pool (FF_API_CODED_FRAME : bool)
    (avctx : AVCodecContext) (o : NvencOptions) (ctx0 : NvencContext)
    (a : InitAnswers) (calls drops : list (option AVFrame * FrameAnswers))
    (ctx : NvencContext) :
  session_state FF_API_CODED_FRAME avctx o ctx0 a calls ctx ->
  Forall (fun c : option AVFrame * FrameAnswers =>
            is_Some c.1 /\ map_status c.2 <> NV_ENC_SUCCESS) drops ->
  Z.of_nat (length drops)
  = max_surface_count ctx - Z.of_nat (locked (input_surfaces ctx)) ->
  exists outs ctx',
    run_engine FF_API_CODED_FRAME (codec_id avctx) ctx drops
    = Done (outs, ctx')
    /\ Forall (fun r => r = (0, 0, blank_packet)) outs
    /\ queued ctx' = queued ctx
    /\ forall pkt f got fa,
         nvenc_encode_frame FF_API_CODED_FRAME (codec_id avctx) ctx' pkt
           (Some f) got fa = AssertFail.
Proof.
  intros Hs Hall Hlen.
  destruct (session_engine_inv _ _ _ _ _ _ _ Hs) as [Hinv Hcodec].
  apply refused_mappings_run; assumption.
Qed.

Lemma refused_mappings_exhaust_pool_witness :
  session_1080p [] ctx_open
  /\ exists outs ctx',
       run_engine true AV_CODEC_ID_H264 ctx_open
         (replicate 32 (frame_at 0, answers_map_refused))
       = Done (outs, ctx')
       /\ Forall (fun r => r = (0, 0, blank_packet)) outs
       /\ queued ctx' = queued ctx_open
       /\ forall pkt f got fa,
            nvenc_encode_frame true AV_CODEC_ID_H264 ctx' pkt (Some f) got fa
            = AssertFail.
Proof.
  assert (Hs : session_1080p [] ctx_open).
  { split; [repeat split|]. split; [split; discriminate|].
    eexists _, _, _, _.
    split; [vm_compute; reflexivity|reflexivity]. }
  split; [exact Hs|].
  apply (refused_mappings_exhaust_pool true avctx_1080p options_default
           (set_buffer_delay ctx_zero 2) answers_ok []
           (replicate 32 (frame_at 0, answers_map_refused)) ctx_open Hs).
  - apply Forall_forall. intros c Hc.
    apply elem_of_replicate in Hc as [-> _].
    split; [eexists; reflexivity|discriminate].
  - vm_compute. reflexivity.
Defined.

(** ** What the engine leaves alone and what it bounds *)

Lemma prepare_frame_capacity codec ctx f a r :
  nvenc_prepare_frame codec ctx f a = Done r ->
  let c := match r with inl (_, c) => c | inr (c, _) => c end in
  max_surface_count c = max_surface_count ctx
  /\ frameIntervalP c = frameIntervalP ctx
  /\ last_dts c = last_dts ctx.
Proof.
  unfold nvenc_prepare_frame. intros H.
  apply bind_Done_inv in H as (inSurf & _ & H).
  destruct inSurf as [j|]; [|discriminate].
  apply bind_Done_inv in H as (ins & _ & H).
  destruct (decide (map_status a <> NV_ENC_SUCCESS));
    [injection H as <-; simpl; auto|].
  destruct (decide (_ <> Some (mappedBufferFmt a)));
    [injection H as <-; simpl; auto|].
  destruct (negb _); [injection H as <-; simpl; auto|].
  destruct (decide (unmap_status a <> NV_ENC_SUCCESS));
    [injection H as <-; simpl; auto|].
  apply bind_Done_inv in H as (i & _ & H).
  destruct (Z.of_nat i =? _).
  { apply bind_Done_inv in H as (ins0 & _ & H). injection H as <-.
    simpl. auto. }
  apply bind_Done_inv in H as (outs & _ & H).
  destruct codec; try (injection H as <-; simpl; auto; fail);
    apply bind_Done_inv in H as ([res tl] & _ & H);
    destruct (negb (res =? 0)); injection H as <-; simpl; auto.
Qed.

Lemma mark_busy_capacity ctx i ctx' :
  mark_busy ctx i = Done ctx' ->
  max_surface_count ctx' = max_surface_count ctx
  /\ frameIntervalP ctx' = frameIntervalP ctx
  /\ last_dts ctx' = last_dts ctx.
Proof.
  unfold mark_busy. intros H. apply bind_Done_inv in H as (outs & _ & H).
  injection H as <-. simpl. auto.
Qed.

Lemma nvenc_submit_capacity codec ctx frame a sub :
  nvenc_submit codec ctx frame a = Done sub ->
  let c := match sub with Returned _ c => c | AtGate c => c end in
  max_surface_count c = max_surface_count ctx
  /\ frameIntervalP c = frameIntervalP ctx
  /\ last_dts c = last_dts ctx.
Proof.
  intros H. unfold nvenc_submit in H.
  apply bind_Done_inv in H as (prep & Hprep & H).
  assert (Hp : let c := match prep with inl (_, c) => c | inr (c, _) => c end in
               max_surface_count c = max_surface_count ctx
               /\ frameIntervalP c = frameIntervalP ctx
               /\ last_dts c = last_dts ctx).
  { destruct frame as [f|].
    - apply prepare_frame_capacity in Hprep. exact Hprep.
    - injection Hprep as <-. simpl. auto. }
  destruct prep as [[res c1]|[c1 i]]; [injection H as <-; exact Hp|].
  simpl in Hp. destruct Hp as (Hm & Hf & Hl).
  apply bind_Done_inv in H as (qd & Hqd & H).
  destruct (bool_decide _) eqn:Hbd.
  - apply bool_decide_eq_true in Hbd as [_ Hst]. rewrite Hst in H.
    apply bind_Done_inv in Hqd as ([res q] & _ & Hqd).
    destruct (negb (res =? 0)).
    + injection Hqd as <-. injection H as <-. simpl. auto.
    + apply bind_Done_inv in Hqd as (ctx3 & Hmb & Hqd). injection Hqd as <-.
      injection H as <-.
      apply mark_busy_capacity in Hmb as (Hm3 & Hf3 & Hl3). simpl.
      rewrite Hm3, Hf3, Hl3. simpl. auto.
  - injection Hqd as <-.
    destruct (encode_status a); try (injection H as <-; simpl; auto; fail).
    apply bind_Done_inv in H as ([[res q] r] & _ & H).
    destruct (negb (res =? 0)); [injection H as <-; simpl; auto|].
    destruct frame as [f|]; [|injection H as <-; simpl; auto].
    apply bind_Done_inv in H as ([res1 r1] & _ & H).
    destruct (negb (res1 =? 0)); [injection H as <-; simpl; auto|].
    apply bind_Done_inv in H as (ctx5 & Hmb & H). injection H as <-.
    apply mark_busy_capacity in Hmb as (Hm3 & Hf3 & Hl3). simpl.
    rewrite Hm3, Hf3, Hl3. simpl. auto.
Qed.

Lemma nvenc_retrieve_capacity FF codec ctx pkt got a res ctx' got' pkt' :
  nvenc_retrieve FF codec ctx pkt got a = Done (res, ctx', got', pkt') ->
  max_surface_count ctx' = max_surface_count ctx
  /\ frameIntervalP ctx' = frameIntervalP ctx
  /\ (res <> 0 -> last_dts ctx' = last_dts ctx).
Proof.
  unfold nvenc_retrieve. intros H.
  apply bind_Done_inv in H as ([surf r] & _ & H).
  apply bind_Done_inv in H as ([[res1 ctx2] pkt1] & Hp & H).
  apply process_output_surface_frame in Hp as (tl & ld & -> & Hld & _).
  destruct (negb (res1 =? 0)) eqn:E.
  { injection H as <- <- _ _. simpl. repeat split; auto. }
  apply negb_false_iff, Z.eqb_eq in E. subst res1.
  destruct surf as [i|]; [|discriminate].
  apply bind_Done_inv in H as (outs & _ & H).
  destruct (outs !! i ≫= input_surface) as [j|]; [|discriminate].
  destruct (input_surfaces _ !! j) as [s|]; [|discriminate].
  destruct (lockCount s =? 0); [discriminate|].
  apply bind_Done_inv in H as (ins & _ & H).
  injection H as <- <- _ _. simpl. repeat split; auto; congruence.
Qed.

Lemma nvenc_encode_frame_capacity FF codec ctx pkt frame got a res ctx' got' pkt' :
  nvenc_encode_frame FF codec ctx pkt frame got a
  = Done (res, ctx', got', pkt') ->
  max_surface_count ctx' = max_surface_count ctx
  /\ frameIntervalP ctx' = frameIntervalP ctx
  /\ (res <> 0 -> last_dts ctx' = last_dts ctx).
Proof.
  intros H. unfold nvenc_encode_frame in H.
  apply bind_Done_inv in H as (sub & Hsub & H).
  apply nvenc_submit_capacity in Hsub.
  destruct sub as [r c1|c1];
    [injection H as _ <- _ _; simpl in Hsub; intuition|].
  simpl in Hsub. destruct Hsub as (Hm & Hf & Hl).
  destruct (emission_gate c1 frame);
    [|injection H as _ <- _ _; intuition].
  apply nvenc_retrieve_capacity in H as (-> & -> & Hl').
  repeat split; auto. intros Hres. rewrite Hl' by exact Hres. exact Hl.
Qed.

Lemma run_engine_capacity FF codec : forall calls ctx outs ctx',
  run_engine FF codec ctx calls = Done (outs, ctx') ->
  max_surface_count ctx' = max_surface_count ctx
  /\ frameIntervalP ctx' = frameIntervalP ctx.
Proof.
  induction calls as [|[frame a] calls IH]; intros ctx outs ctx' H;
    simpl in H.
  - injection H as _ <-. auto.
  - apply bind_Done_inv in H as ([[[res ctx1] got] pkt] & Hcall & H).
    apply bind_Done_inv in H as ([outs1 ctx2] & Hrun & H).
    injection H as _ <-.
    apply nvenc_encode_frame_capacity in Hcall as (Hm & Hf & _).
    apply IH in Hrun as (-> & ->). auto.
Qed.

Lemma session_capacity FF avctx o ctx0 a calls ctx :
  session_state FF avctx o ctx0 a calls ctx ->
  max_surface_count ctx = (if 8160 <=? num_macroblocks avctx then 32 else 48).
Proof.
  intros (_ & Hcu & avctx' & ctx1 & tr & outs & Hinit & Hrun).
  apply run_engine_capacity in Hrun as [-> _].
  destruct (init_configured _ _ _ _ _ _ _ Hcu Hinit) as (c & (Hm & _) & _).
  destruct (configure_gop_config avctx a (size_surface_pool avctx c))
    as (Hg & _).
  destruct (size_surface_pool_config avctx c) as (Hs & _).
  congruence.
Qed.

(** X4. In every state of an opened session the bookkeeping of the pool is
    sound: the pool has 32 or 48 surfaces of each kind; at most that many
    output surfaces are outstanding (in flight or ready) and at most that
    many timestamps are pending; lock counts are 0 or 1; the timestamp
    list holds timestamps only and the two surface queues surfaces only;
    and no two queued output surfaces refer to the same input surface. *)
Theorem session_pool_bounds (FF_API_CODED_FRAME : bool)
    (avctx : AVCodecContext) (o : NvencOptions) (ctx0 : NvencContext)
    (a : InitAnswers) (calls : list (option AVFrame * FrameAnswers))
    (ctx : NvencContext) :
  session_state FF_API_CODED_FRAME avctx o ctx0 a calls ctx ->
  (max_surface_count ctx = 32 \/ max_surface_count ctx = 48)
  /\ Z.of_nat (length (input_surfaces ctx)) = max_surface_count ctx
  /\ Z.of_nat (length (output_surfaces ctx)) = max_surface_count ctx
  /\ 0 <= outstanding ctx <= max_surface_count ctx
  /\ 0 <= count (timestamp_list ctx) <= max_surface_count ctx
  /\ Forall (fun s => lockCount s = 0 \/ lockCount s = 1) (input_surfaces ctx)
  /\ Forall (fun d => is_timestamp d = true) (contents (timestamp_list ctx))
  /\ Forall (fun d => is_timestamp d = false) (queued ctx)
  /\ NoDup (surface_link (output_surfaces ctx) <$> queued ctx).
Proof.
  intros Hs. pose proof (session_capacity _ _ _ _ _ _ _ Hs) as Hcap.
  destruct (session_engine_inv _ _ _ _ _ _ _ Hs) as [Hinv _].
  apply engine_inv_iff in Hinv as (Hq & Hr & Hp).
  pose proof Hp as (Ht & Hall & _ & Hl & _ & H01 & Hc & Hli & Hlo & _).
  pose proof (links_ok_length _ _ _ Hl) as Hlen.
  pose proof (locked_le (input_surfaces ctx)) as Hlk.
  pose proof (contents_length_wf _ Ht) as Hlt.
  rewrite (outstanding_length ctx Hq Hr).
  split; [destruct (8160 <=? num_macroblocks avctx); auto|].
  split; [exact Hli|]. split; [exact Hlo|].
  split; [lia|]. split; [lia|]. split; [exact H01|]. split; [exact Hall|].
  split; [eapply links_ok_surfaces; exact Hl|apply Hl].
Qed.

Lemma session_pool_bounds_witness :
  session_1080p calls_five_frames ctx_five_in_flight
  /\ max_surface_count ctx_five_in_flight = 32
  /\ outstanding ctx_five_in_flight = 5
  /\ 0 <= outstanding ctx_five_in_flight
     <= max_surface_count ctx_five_in_flight.
Proof.
  assert (Hs : session_1080p calls_five_frames ctx_five_in_flight).
  { split; [repeat split|]. split; [split; discriminate|].
    eexists _, _, _, _.
    split; [vm_compute; reflexivity|vm_compute; reflexivity]. }
  split; [exact Hs|]. split; [reflexivity|]. split; [reflexivity|].
  apply (session_pool_bounds true avctx_1080p options_default
           (set_buffer_delay ctx_zero 2) answers_ok calls_five_frames
           ctx_five_in_flight Hs).
Defined.

(** ** What a retrieval does to the pool *)

Lemma gate_ready_count ctx frame :
  queue_wf (output_surface_ready_queue ctx) ->
  emission_gate ctx frame = true ->
  0 < count (output_surface_ready_queue ctx).
Proof.
  intros Hr Eg. unfold emission_gate in Eg.
  apply andb_true_iff in Eg as [Eg _].
  apply negb_true_iff, Z.eqb_neq in Eg.
  pose proof (contents_length_wf _ Hr). lia.
Qed.

Lemma retrieval_from_invariant FF codec ctx pkt got a :
  codec <> AV_CODEC_ID_OTHER -> engine_inv ctx ->
  0 < count (output_surface_ready_queue ctx) ->
  exists res ctx' got' pkt' i o j s,
    nvenc_retrieve FF codec ctx pkt got a = Done (res, ctx', got', pkt')
    /\ outstanding ctx' = outstanding ctx - 1
    /\ queued ctx ≡ₚ U_surface i :: queued ctx'
    /\ output_surfaces ctx !! i = Some o /\ busy o <> 0
    /\ input_surface o = Some j
    /\ input_surfaces ctx !! j = Some s /\ lockCount s = 1
    /\ ((res = 0 /\ got' = 1
         /\ input_surfaces ctx'
            = <[j := set_lockCount s 0]> (input_surfaces ctx)
         /\ output_surfaces ctx'
            = <[i := set_busy o 0]> (output_surfaces ctx))
        \/ (res <> 0 /\ got' = got
            /\ input_surfaces ctx' = input_surfaces ctx
            /\ output_surfaces ctx' = output_surfaces ctx)).
Proof.
  intros Hcodec Hinv Hc. pose proof Hinv as [Hok _].
  apply engine_inv_iff in Hinv as (Hq & Hr & Hp).
  destruct Hp as (_ & _ & _ & _ & Hbusy & H01 & _).
  destruct (retrieve_spec FF codec ctx pkt got a Hcodec Hok Hc)
    as (res & ctx' & got' & pkt' & Hret & _ & Hout & Hgot
        & i & o & j & s & Ho & Hj & Hs & Hlk & Hperm & _ & _ & Hcase).
  exists res, ctx', got', pkt', i, o, j, s.
  assert (Hs1 : lockCount s = 1).
  { rewrite Forall_forall in H01.
    destruct (H01 s (list_elem_of_lookup_2 _ _ _ Hs)); [contradiction|].
    assumption. }
  assert (Hb : busy o <> 0).
  { rewrite Forall_forall in Hbusy.
    assert (Hin : U_surface i ∈ queued ctx)
      by (rewrite Hperm; apply list_elem_of_here).
    specialize (Hbusy _ Hin). simpl in Hbusy. rewrite Ho in Hbusy.
    apply negb_true_iff, Z.eqb_neq in Hbusy. exact Hbusy. }
  repeat (split; [assumption|]).
  destruct Hcase as [(Hr0 & Hins & Houts & _)|(Hne & Hins & Houts)].
  - left. destruct Hgot as [[_ Hg]|[Hne _]]; [|contradiction].
    rewrite Hs1 in Hins. repeat split; assumption.
  - right. destruct Hgot as [[H0 _]|[_ Hg]]; [contradiction|].
    repeat split; assumption.
Qed.

(** X5. When the emission test passes in a session, the retrieval returns
    and takes exactly one output surface out of the queues; that surface
    was marked busy and referred to an input surface with lock count 1.
    If the retrieval succeeds the packet is reported and both surfaces are
    handed back to the pool (busy 0, lock count 0).  If it fails (a refused
    lock, a failed allocation), [got_packet] is left alone and the surface,
    though no longer queued, stays busy and its input surface locked. *)
Theorem retrieval_releases_or_leaks (FF_API_CODED_FRAME : bool)
    (avctx : AVCodecContext) (o : NvencOptions) (ctx0 : NvencContext)
    (a : InitAnswers) (calls : list (option AVFrame * FrameAnswers))
    (ctx : NvencContext) (pkt : AVPacket) (frame : option AVFrame)
    (got_packet : Z) (fa : FrameAnswers) (mid : NvencContext) :
  session_state FF_API_CODED_FRAME avctx o ctx0 a calls ctx ->
  nvenc_submit (codec_id avctx) ctx frame fa = Done (AtGate mid) ->
  emission_gate mid frame = true ->
  exists res ctx' got' pkt' i so j si,
    nvenc_encode_frame FF_API_CODED_FRAME (codec_id avctx) ctx pkt frame
      got_packet fa = Done (res, ctx', got', pkt')
    /\ outstanding ctx' = outstanding mid - 1
    /\ queued mid ≡ₚ U_surface i :: queued ctx'
    /\ output_surfaces mid !! i = Some so /\ busy so <> 0
    /\ input_surface so = Some j
    /\ input_surfaces mid !! j = Some si /\ lockCount si = 1
    /\ ((res = 0 /\ got' = 1
         /\ input_surfaces ctx'
            = <[j := set_lockCount si 0]> (input_surfaces mid)
         /\ output_surfaces ctx'
            = <[i := set_busy so 0]> (output_surfaces mid))
        \/ (res <> 0 /\ got' = got_packet
            /\ input_surfaces ctx' = input_surfaces mid
            /\ output_surfaces ctx' = output_surfaces mid)).
Proof.
  intros Hs Hsub Eg.
  destruct (session_engine_inv _ _ _ _ _ _ _ Hs) as [Hinv Hcodec].
  pose proof (nvenc_submit_inv _ _ _ _ _ Hinv Hsub) as Hinv1. simpl in Hinv1.
  pose proof Hinv1 as Hinv1'.
  apply engine_inv_iff in Hinv1' as (_ & Hr & _).
  unfold nvenc_encode_frame. rewrite Hsub, bind_Done, Eg.
  apply retrieval_from_invariant; try assumption.
  eapply gate_ready_count; eassumption.
Qed.

Lemma retrieval_releases_or_leaks_witness :
  session_1080p calls_five_frames ctx_five_in_flight
  /\ exists mid ctx' pkt',
       nvenc_submit AV_CODEC_ID_H264 ctx_five_in_flight None
         (frame_answers NV_ENC_SUCCESS lock_refused) = Done (AtGate mid)
       /\ nvenc_encode_frame true AV_CODEC_ID_H264 ctx_five_in_flight
            blank_packet None 0 (frame_answers NV_ENC_SUCCESS lock_refused)
          = Done (AVERROR_EXTERNAL, ctx', 0, pkt')
       /\ outstanding ctx' = outstanding mid - 1
       /\ input_surfaces ctx' = input_surfaces mid
       /\ output_surfaces ctx' = output_surfaces mid.
Proof.
  assert (Hs : session_1080p calls_five_frames ctx_five_in_flight).
  { split; [repeat split|]. split; [split; discriminate|].
    eexists _, _, _, _.
    split; [vm_compute; reflexivity|vm_compute; reflexivity]. }
  split; [exact Hs|].
  assert (Hsub : exists mid,
             nvenc_submit AV_CODEC_ID_H264 ctx_five_in_flight None
               (frame_answers NV_ENC_SUCCESS lock_refused) = Done (AtGate mid)
             /\ emission_gate mid None = true).
  { eexists. split; [vm_compute; reflexivity|vm_compute; reflexivity]. }
  destruct Hsub as (mid & Hsub & Eg).
  destruct (retrieval_releases_or_leaks true avctx_1080p options_default
              (set_buffer_delay ctx_zero 2) answers_ok calls_five_frames
              ctx_five_in_flight blank_packet None 0
              (frame_answers NV_ENC_SUCCESS lock_refused) mid Hs Hsub Eg)
    as (res & ctx' & got' & pkt' & i & so & j & si & Hcall & Hout & _ & _ & _
        & _ & _ & _ & Hcase).
  change (codec_id avctx_1080p) with AV_CODEC_ID_H264 in Hcall.
  assert (Hres : res = AVERROR_EXTERNAL /\ got' = 0).
  { assert (Hc : exists c p,
               nvenc_encode_frame true AV_CODEC_ID_H264 ctx_five_in_flight
                 blank_packet None 0
                 (frame_answers NV_ENC_SUCCESS lock_refused)
               = Done (AVERROR_EXTERNAL, c, 0, p)).
    { eexists _, _. vm_compute. reflexivity. }
    destruct Hc as (c & p & Hc). rewrite Hc in Hcall.
    injection Hcall as <- _ <- _. auto. }
  destruct Hres as [-> ->].
  exists mid, ctx', pkt'. split; [exact Hsub|]. split; [exact Hcall|].
  split; [exact Hout|].
  destruct Hcase as [(H0 & _)|(_ & _ & Hi & Ho)]; [discriminate|auto].
Defined.

(** ** The delay as a floor of buffered frames *)

Lemma delay_floor_from_invariant FF codec ctx pkt f a res ctx' pkt' :
  codec <> AV_CODEC_ID_OTHER -> engine_inv ctx ->
  0 <= buffer_delay ctx <= INT_MAX ->
  nvenc_encode_frame FF codec ctx pkt (Some f) 0 a
  = Done (res, ctx', 1, pkt') ->
  res = 0 /\ buffer_delay ctx' - 1 <= outstanding ctx'.
Proof.
  intros Hcodec Hinv Hd Hcall.
  pose proof (nvenc_encode_frame_delay _ _ _ _ _ _ _ _ _ _ _ Hcall) as Hbd.
  unfold nvenc_encode_frame in Hcall.
  apply bind_Done_inv in Hcall as (sub & Hsub & Hcall).
  pose proof (nvenc_submit_inv _ _ _ _ _ Hinv Hsub) as Hinv1.
  pose proof (nvenc_submit_delay _ _ _ _ _ Hsub) as Hd1.
  destruct sub as [r mid|mid]; [discriminate|]. simpl in Hinv1, Hd1.
  destruct (emission_gate mid (Some f)) eqn:Eg; [|discriminate].
  pose proof Hinv1 as Hinv1'.
  apply engine_inv_iff in Hinv1' as (Hq & Hr & Hp).
  destruct (pool_inv_count _ _ _ _ _ Hp) as (_ & Hlen & _).
  rewrite <- (outstanding_length mid Hq Hr) in Hlen.
  apply (emission_gate_iff mid (Some f) Hq Hr ltac:(lia)
           ltac:(rewrite Hd1; exact Hd)) in Eg as [Hc [Hf|Hsum]];
    [discriminate|].
  destruct (retrieval_from_invariant FF codec mid pkt 0 (lock a) Hcodec Hinv1)
    as (res0 & ctx0 & got0 & pkt0 & i & o & j & s & Hret & Hout & _ & _ & _
        & _ & _ & _ & Hcase).
  { pose proof (contents_length_wf _ Hr). lia. }
  rewrite Hcall in Hret. injection Hret as <- <- <- <-.
  destruct Hcase as [(-> & _)|(_ & Hg & _)]; [|discriminate].
  split; [reflexivity|]. unfold outstanding in *. lia.
Qed.

(** X6. While frames keep coming, the delay is a floor on what the engine
    holds back: in a session opened with a delay option that is not
    negative, a call with a frame that reports a packet has returned 0 and
    leaves at least delay - 1 surfaces outstanding. *)
Theorem delay_keeps_frames_buffered (FF_API_CODED_FRAME : bool)
    (avctx : AVCodecContext) (o : NvencOptions) (ctx0 : NvencContext)
    (a : InitAnswers) (calls : list (option AVFrame * FrameAnswers))
    (ctx : NvencContext) (pkt : AVPacket) (f : AVFrame) (fa : FrameAnswers)
    (res : Z) (ctx' : NvencContext) (pkt' : AVPacket) :
  session_state FF_API_CODED_FRAME avctx o ctx0 a calls ctx ->
  0 <= buffer_delay ctx0 ->
  nvenc_encode_frame FF_API_CODED_FRAME (codec_id avctx) ctx pkt (Some f) 0 fa
  = Done (res, ctx', 1, pkt') ->
  res = 0 /\ buffer_delay ctx' - 1 <= outstanding ctx'.
Proof.
  intros Hs Hd0 Hcall.
  pose proof (session_delay _ _ _ _ _ _ _ Hs Hd0) as Hd.
  destruct (session_engine_inv _ _ _ _ _ _ _ Hs) as [Hinv Hcodec].
  eapply delay_floor_from_invariant; eassumption.
Qed.

Lemma delay_keeps_frames_buffered_witness :
  exists ctx' pkt',
    nvenc_encode_frame true AV_CODEC_ID_H264 ctx_two_ready blank_packet
      (frame_at 3) 0
      (frame_answers NV_ENC_SUCCESS (lock_ok 1 NV_ENC_PIC_TYPE_P))
    = Done (0, ctx', 1, pkt')
    /\ buffer_delay ctx' = 2
    /\ 0 = 0 /\ buffer_delay ctx' - 1 <= outstanding ctx'.
Proof.
  assert (Hs : session_1080p calls_three_frames ctx_two_ready).
  { split; [repeat split|]. split; [split; discriminate|].
    eexists _, _, _, _.
    split; [vm_compute; reflexivity|vm_compute; reflexivity]. }
  eexists _, _. split; [vm_compute; reflexivity|].
  split; [reflexivity|].
  eapply (delay_keeps_frames_buffered true avctx_1080p options_default
            (set_buffer_delay ctx_zero 2) answers_ok calls_three_frames
            ctx_two_ready blank_packet (mkAVFrame 3 AV_PIX_FMT_NV12)
            (frame_answers NV_ENC_SUCCESS (lock_ok 1 NV_ENC_PIC_TYPE_P))).
  - exact Hs.
  - vm_compute. discriminate.
  - vm_compute. reflexivity.
Defined.

(** ** Failing retrievals and the timestamp list *)

Lemma process_output_surface_error_spec ctx pkt res r ctx' pkt' :
  queue_wf (timestamp_list ctx) ->
  process_output_surface_error ctx pkt res = Done (r, ctx', pkt') ->
  r = res /\ pkt' = pkt /\ last_dts ctx' = last_dts ctx
  /\ contents (timestamp_list ctx') = tail (contents (timestamp_list ctx)).
Proof.
  intros Hwf H. unfold process_output_surface_error in H.
  apply bind_Done_inv in H as ([t tl] & Hdq & H).
  injection H as <- <- <-. simpl.
  destruct (timestamp_dequeue_spec _ _ _ Hwf Hdq) as (_ & Hc & _).
  auto.
Qed.

(** X7. A retrieval that fails leaves the decode-timestamp baseline alone.
    If it fails after the slice-offset table was allocated (a refused
    lock, a failed packet allocation, an unknown picture type) it still
    discards the oldest pending timestamp, which keeps the list in step
    with the surfaces; if the allocation of the table itself fails it
    returns [AVERROR(ENOMEM)] at once and the context is exactly as
    before.  When the failure comes before [ff_alloc_packet2] is called
    (the table, or a refused lock) the packet is as the caller passed
    it; about the packet after a later failure nothing is stated. *)
Theorem failed_retrieval_timestamps (FF_API_CODED_FRAME : bool)
    (codec : AVCodecID) (ctx : NvencContext) (pkt : AVPacket)
    (surf : option nat) (a : LockAnswers)
    (res : Z) (ctx' : NvencContext) (pkt' : AVPacket) :
  queue_wf (timestamp_list ctx) ->
  process_output_surface FF_API_CODED_FRAME codec ctx pkt surf a
  = Done (res, ctx', pkt') ->
  res <> 0 ->
  last_dts ctx' = last_dts ctx
  /\ (if slice_offsets_alloc a
      then contents (timestamp_list ctx')
           = tail (contents (timestamp_list ctx))
      else res = AVERROR ENOMEM /\ ctx' = ctx)
  /\ (slice_offsets_alloc a = false \/ lock_status a <> NV_ENC_SUCCESS ->
      pkt' = pkt).
Proof.
  intros Hwf H Hres. unfold process_output_surface in H.
  assert (Herr : forall p r0,
            process_output_surface_error ctx p r0 = Done (res, ctx', pkt') ->
            last_dts ctx' = last_dts ctx
            /\ contents (timestamp_list ctx')
               = tail (contents (timestamp_list ctx))
            /\ pkt' = p).
  { intros p r0 He.
    apply process_output_surface_error_spec in He as (_ & -> & Hl & Hc);
      auto. }
  destruct codec; [| |discriminate];
    (destruct (slice_offsets_alloc a); simpl in H;
     [|injection H as <- <- <-; repeat split; intros; reflexivity];
     destruct (surf ≫= _); [|discriminate];
     destruct (decide (lock_status a <> NV_ENC_SUCCESS)) as [Hl|Hl];
       [apply Herr in H as (H1 & H2 & H3); auto|];
     assert (Hlate : true = false \/ lock_status a <> NV_ENC_SUCCESS ->
                     pkt' = pkt)
       by (intros [E|E]; [discriminate|contradiction]);
     destruct (negb (alloc_packet a =? 0));
       [apply Herr in H as (H1 & H2 & _); auto|];
     destruct (pictureType a), FF_API_CODED_FRAME;
     try (apply Herr in H as (H1 & H2 & _); auto; fail);
     apply bind_Done_inv in H as ([c1 p3] & _ & H);
     injection H as <- _ _; contradiction).
Qed.

Lemma failed_retrieval_timestamps_witness :
  exists ctx' pkt',
    process_output_surface true AV_CODEC_ID_H264 ctx_five_in_flight
      blank_packet (Some 0%nat) lock_refused
    = Done (AVERROR_EXTERNAL, ctx', pkt')
    /\ last_dts ctx' = last_dts ctx_five_in_flight
    /\ contents (timestamp_list ctx')
       = tail (contents (timestamp_list ctx_five_in_flight))
    /\ (slice_offsets_alloc lock_refused = false
        \/ lock_status lock_refused <> NV_ENC_SUCCESS -> pkt' = blank_packet).
Proof.
  eexists _, _. split; [vm_compute; reflexivity|].
  apply (failed_retrieval_timestamps true AV_CODEC_ID_H264
           ctx_five_in_flight blank_packet (Some 0%nat) lock_refused
           AVERROR_EXTERNAL).
  - reflexivity.
  - vm_compute. reflexivity.
  - discriminate.
Defined.

(** ** Pending timestamps cover the outstanding surfaces *)

Lemma prepare_frame_timestamps codec ctx f a r :
  queue_wf (timestamp_list ctx) -> count (timestamp_list ctx) < 2 ^ 31 ->
  nvenc_prepare_frame codec ctx f a = Done r ->
  match r with
  | inl (_, c) => timestamp_list c = timestamp_list ctx
  | inr (c, _) => count (timestamp_list c) = count (timestamp_list ctx) + 1
  end.
Proof.
  intros Hwf Hb. unfold nvenc_prepare_frame. intros H.
  apply bind_Done_inv in H as (inSurf & _ & H).
  destruct inSurf as [j|]; [|discriminate].
  apply bind_Done_inv in H as (ins & _ & H).
  destruct (decide (map_status a <> NV_ENC_SUCCESS));
    [injection H as <-; reflexivity|].
  destruct (decide (_ <> Some (mappedBufferFmt a)));
    [injection H as <-; reflexivity|].
  destruct (negb _); [injection H as <-; reflexivity|].
  destruct (decide (unmap_status a <> NV_ENC_SUCCESS));
    [injection H as <-; reflexivity|].
  apply bind_Done_inv in H as (i & _ & H).
  destruct (Z.of_nat i =? _).
  { apply bind_Done_inv in H as (ins0 & _ & H). injection H as <-.
    reflexivity. }
  apply bind_Done_inv in H as (outs & _ & H).
  destruct (enqueue_total (timestamp_malloc a) (timestamp_list ctx)
              (U_timestamp (frame_pts f)) Hwf Hb)
    as (r' & q' & He & _ & Hcase).
  destruct codec; try (injection H as <-; reflexivity);
    (apply bind_Done_inv in H as ([res tl] & Henq & H);
     unfold timestamp_queue_enqueue in Henq; simpl in Henq;
     rewrite He in Henq; injection Henq as <- <-;
     destruct Hcase as [(-> & _ & Hc & _)|(-> & -> & _)];
     simpl in H; injection H as <-; simpl; auto).
Qed.

Lemma mark_busy_timestamps ctx i ctx' :
  mark_busy ctx i = Done ctx' -> timestamp_list ctx' = timestamp_list ctx.
Proof.
  unfold mark_busy. intros H. apply bind_Done_inv in H as (outs & _ & H).
  injection H as <-. reflexivity.
Qed.

(** The submission step never queues a surface without a timestamp
    pushed for it. *)
Lemma nvenc_submit_cover codec ctx frame a sub :
  engine_inv ctx ->
  outstanding ctx <= count (timestamp_list ctx) ->
  nvenc_submit codec ctx frame a = Done sub ->
  let c := match sub with Returned _ c => c | AtGate c => c end in
  outstanding c <= count (timestamp_list c).
Proof.
  intros Hinv Hcov H. pose proof Hinv as Hinv0.
  apply engine_inv_iff in Hinv0 as (Hq & Hr & Hp).
  destruct (pool_inv_count _ _ _ _ _ Hp) as (Hcb & Hlen & _).
  pose proof Hp as (Ht & _).
  rewrite <- (outstanding_length ctx Hq Hr) in Hlen.
  pose proof (contents_length_wf _ Hq) as Hlq.
  pose proof (contents_length_wf _ Hr) as Hlr.
  unfold nvenc_submit in H.
  apply bind_Done_inv in H as (prep & Hprep & H).
  assert (Hpq : let c := match prep with inl (_, c) => c | inr (c, _) => c end in
                output_surface_queue c = output_surface_queue ctx
                /\ output_surface_ready_queue c
                   = output_surface_ready_queue ctx).
  { destruct frame as [f|].
    - apply prepare_frame_queues in Hprep. cbv zeta in *. tauto.
    - injection Hprep as <-. simpl. auto. }
  assert (Hpt : match prep with
                | inl (_, c) => timestamp_list c = timestamp_list ctx
                | inr (c, _) =>
                  match frame with
                  | Some _ => count (timestamp_list c)
                              = count (timestamp_list ctx) + 1
                  | None => timestamp_list c = timestamp_list ctx
                  end
                end).
  { destruct frame as [f|].
    - apply prepare_frame_timestamps in Hprep; [|assumption|lia].
      destruct prep as [[? ?]|[? ?]]; exact Hprep.
    - injection Hprep as <-. reflexivity. }
  destruct prep as [[res c1]|[c1 i]].
  { injection H as <-. simpl in *. destruct Hpq as [Hq1 Hr1].
    unfold outstanding in *. rewrite Hq1, Hr1, Hpt. exact Hcov. }
  simpl in Hpq. destruct Hpq as [Hq1 Hr1].
  unfold outstanding in *.
  apply bind_Done_inv in H as (qd & Hqd & H).
  destruct (bool_decide _) eqn:Hbd.
  - apply bool_decide_eq_true in Hbd as [[f ->] Hst]. rewrite Hst in H.
    apply bind_Done_inv in Hqd as ([res q] & Henq & Hqd).
    unfold out_surf_queue_enqueue in Henq.
    destruct (enqueue_total (queue_malloc a) (output_surface_queue c1)
                (U_surface i) ltac:(rewrite Hq1; exact Hq)
                ltac:(rewrite Hq1; lia))
      as (res' & q' & Henq' & Hwf' & Hcase).
    rewrite Henq in Henq'. injection Henq' as <- <-.
    destruct Hcase as [(-> & _ & Hc & _)|(-> & -> & _)].
    + simpl in Hqd. apply bind_Done_inv in Hqd as (ctx3 & Hmb & Hqd).
      injection Hqd as <-. injection H as <-.
      pose proof (mark_busy_timestamps _ _ _ Hmb) as Ht3.
      apply mark_busy_queues in Hmb as (Hq3 & Hr3 & _). simpl in *.
      rewrite Hq3, Hr3, Ht3, Hc, Hq1, Hr1, Hpt. lia.
    + simpl in Hqd. injection Hqd as <-. injection H as <-. simpl.
      rewrite Hq1, Hr1, Hpt. lia.
  - injection Hqd as <-.
    assert (Hc1 : count (output_surface_queue c1)
                  + count (output_surface_ready_queue c1)
                  + match frame with Some _ => 1 | None => 0 end
                  <= count (timestamp_list c1)).
    { rewrite Hq1, Hr1. destruct frame; rewrite Hpt; lia. }
    destruct (encode_status a) eqn:Hst;
      try (injection H as <-; simpl; destruct frame; lia).
    apply bind_Done_inv in H as ([[res q] r] & Hmv & H).
    pose proof (move_to_ready_spec (ready_malloc a)
                  (Z.to_nat (count (output_surface_queue c1))) 0%nat
                  (output_surface_queue c1) (output_surface_ready_queue c1)
                  ltac:(rewrite Hq1; exact Hq) ltac:(rewrite Hr1; exact Hr)
                  eq_refl ltac:(rewrite Hq1, Hr1; lia)) as Hm.
    rewrite Hmv in Hm. destruct Hm as (Hq' & Hr' & lost & Hperm & _).
    assert (Hlen' : count q + count r
                    <= count (output_surface_queue c1)
                       + count (output_surface_ready_queue c1)).
    { apply Permutation_length in Hperm. rewrite !length_app in Hperm.
      pose proof (contents_length_wf _ Hq').
      pose proof (contents_length_wf _ Hr').
      rewrite Hq1, Hr1 in *. lia. }
    destruct (negb (res =? 0));
      [injection H as <-; simpl; destruct frame; lia|].
    destruct frame as [f|]; [|injection H as <-; simpl; lia].
    apply bind_Done_inv in H as ([res1 r1] & Henq & H).
    unfold out_surf_queue_enqueue in Henq. simpl in Henq.
    destruct (enqueue_total (ready_malloc_frame a) r (U_surface i) Hr'
                ltac:(rewrite Hq1, Hr1 in *;
                      pose proof (contents_length_wf _ Hq'); lia))
      as (res' & r' & Henq' & Hwf' & Hcase).
    rewrite Henq in Henq'. injection Henq' as <- <-.
    destruct Hcase as [(-> & _ & Hc & _)|(-> & -> & _)].
    + simpl in H. apply bind_Done_inv in H as (ctx5 & Hmb & H).
      injection H as <-.
      pose proof (mark_busy_timestamps _ _ _ Hmb) as Ht5.
      apply mark_busy_queues in Hmb as (Hq5 & Hr5 & _). simpl in *.
      rewrite Hq5, Hr5, Ht5, Hc. lia.
    + simpl in H. injection H as <-. simpl. lia.
Qed.

Lemma nvenc_retrieve_cover FF codec ctx pkt got a res ctx' got' pkt' :
  codec <> AV_CODEC_ID_OTHER -> engine_inv ctx ->
  0 < count (output_surface_ready_queue ctx) ->
  outstanding ctx <= count (timestamp_list ctx) ->
  nvenc_retrieve FF codec ctx pkt got a = Done (res, ctx', got', pkt') ->
  outstanding ctx' <= count (timestamp_list ctx').
Proof.
  intros Hcodec Hinv Hc Hcov H. pose proof Hinv as [Hok _].
  apply engine_inv_iff in Hinv as (Hq & Hr & Hp). pose proof Hp as (Ht & _).
  destruct (retrieve_spec FF codec ctx pkt got a Hcodec Hok Hc)
    as (res0 & ctx0 & got0 & pkt0 & Hret & _ & Hout & _).
  rewrite H in Hret. injection Hret as <- <- <- <-.
  enough (count (timestamp_list ctx) - 1 <= count (timestamp_list ctx'))
    by lia.
  unfold nvenc_retrieve in H.
  apply bind_Done_inv in H as ([surf r] & _ & H).
  apply bind_Done_inv in H as ([[res1 ctx2] pkt1] & Hpo & H).
  apply process_output_surface_frame in Hpo as (tl & ld & Hctx2 & _ & Htl).
  assert (Hts : timestamp_list ctx' = tl).
  { destruct (negb (res1 =? 0)).
    - injection H as _ <- _ _. rewrite Hctx2. reflexivity.
    - destruct surf as [i|]; [|discriminate].
      apply bind_Done_inv in H as (outs & _ & H).
      destruct (outs !! i ≫= input_surface) as [j|]; [|discriminate].
      destruct (input_surfaces _ !! j) as [s|]; [|discriminate].
      destruct (lockCount s =? 0); [discriminate|].
      apply bind_Done_inv in H as (ins & _ & H).
      injection H as _ <- _ _. rewrite Hctx2. reflexivity. }
  rewrite Hts. simpl in Htl.
  destruct Htl as [->|[t Hdq]]; [lia|].
  apply (timestamp_dequeue_count _ _ _ Ht) in Hdq. lia.
Qed.

Lemma nvenc_encode_frame_cover FF codec ctx pkt frame got a res ctx' got' pkt' :
  codec <> AV_CODEC_ID_OTHER -> engine_inv ctx ->
  outstanding ctx <= count (timestamp_list ctx) ->
  nvenc_encode_frame FF codec ctx pkt frame got a
  = Done (res, ctx', got', pkt') ->
  outstanding ctx' <= count (timestamp_list ctx').
Proof.
  intros Hcodec Hinv Hcov H. unfold nvenc_encode_frame in H.
  apply bind_Done_inv in H as (sub & Hsub & H).
  pose proof (nvenc_submit_inv _ _ _ _ _ Hinv Hsub) as Hinv1.
  pose proof (nvenc_submit_cover _ _ _ _ _ Hinv Hcov Hsub) as Hcov1.
  destruct sub as [r c1|c1]; [injection H as _ <- _ _; exact Hcov1|].
  simpl in Hinv1, Hcov1.
  destruct (emission_gate c1 frame) eqn:Eg;
    [|injection H as _ <- _ _; exact Hcov1].
  eapply nvenc_retrieve_cover; [exact Hcodec|exact Hinv1| |exact Hcov1|exact H].
  apply engine_inv_iff in Hinv1 as (_ & Hr & _).
  eapply gate_ready_count; eassumption.
Qed.

Lemma run_engine_cover FF codec : forall calls ctx outs ctx',
  codec <> AV_CODEC_ID_OTHER -> engine_inv ctx ->
  outstanding ctx <= count (timestamp_list ctx) ->
  run_engine FF codec ctx calls = Done (outs, ctx') ->
  outstanding ctx' <= count (timestamp_list ctx').
Proof.
  induction calls as [|[frame a] calls IH];
    intros ctx outs ctx' Hcodec Hinv Hcov H; simpl in H.
  - injection H as _ <-. exact Hcov.
  - apply bind_Done_inv in H as ([[[res ctx1] got] pkt] & Hcall & H).
    apply bind_Done_inv in H as ([outs1 ctx2] & Hrun & H).
    injection H as _ <-.
    eapply IH; [exact Hcodec| | |exact Hrun].
    + eapply nvenc_encode_frame_inv; eauto.
    + eapply nvenc_encode_frame_cover; eauto.
Qed.

Lemma init_fresh avctx o ctx a avctx' ctx' tr :
  fresh ctx -> cu_wrapper_reports a ->
  nvenc_encode_init avctx o ctx a = Done (0, avctx', ctx', tr) ->
  fresh ctx'.
Proof.
  intros Hfresh [Hcu1 Hcu2]. unfold nvenc_encode_init.
  destruct (nvenc_dyload_nvenc avctx ctx a) as [[loaded ctx0] tr0] eqn:Hdy.
  apply dyload_queues in Hdy as (Hd1 & Hd2 & Hd3).
  destruct (loaded =? 0); [discriminate|].
  destruct (get_cuda_context a); simpl.
  2:{ intros H. apply init_error_config in H as [H _]. discriminate. }
  destruct (cu_module_load a) as [r|].
  { intros H. injection H as -> _ _ _. congruence. }
  destruct (cu_module_get_function a) as [r|].
  { intros H. injection H as -> _ _ _. congruence. }
  destruct (decide (open_session a <> NV_ENC_SUCCESS)).
  { intros H. apply init_error_config in H as [H _]. discriminate. }
  destruct (select_preset _ _) as [[[[g tp] isLL] lossless]|].
  2:{ intros H. apply init_error_config in H as [H _]. discriminate. }
  destruct (codec_id avctx) eqn:Hcodec;
    try (intros H; apply init_error_config in H as [H _]; discriminate);
    (destruct (decide (get_preset_config a <> NV_ENC_SUCCESS));
     [intros H; apply init_error_config in H as [H _]; discriminate|]);
    (destruct (select_profile_level avctx o 0) as [res1|res1] eqn:Hsel;
     [intros H; apply init_error_config in H as [H _]; subst res1;
      exfalso; revert Hsel; unfold select_profile_level; rewrite Hcodec;
      repeat case_match; intros; simplify_eq;
      try match goal with
          | E : negb (?x =? 0) = true, E' : ?x = 0 |- _ =>
            rewrite E' in E; discriminate
          end
     |intros H;
      apply init_pool_filled in H as ((Hq1 & Hq2 & Hq3) & _ & _);
      match type of Hq1 with
      | _ = output_surface_queue
              (configure_gop _ _ (size_surface_pool _ ?c)) =>
        destruct (configure_gop_pool avctx a (size_surface_pool avctx c))
          as [(Hg1 & Hg2 & Hg3) _];
        destruct (size_surface_pool_queues avctx c) as [(Hp1 & Hp2 & Hp3) _]
      end;
      destruct Hfresh as (Hf1 & Hf2 & Hf3);
      unfold fresh;
      rewrite Hq1, Hq2, Hq3, Hg1, Hg2, Hg3, Hp1, Hp2, Hp3; simpl;
      rewrite Hd1, Hd2, Hd3; auto]).
Qed.

Lemma session_cover FF avctx o ctx0 a calls ctx :
  session_state FF avctx o ctx0 a calls ctx ->
  outstanding ctx <= count (timestamp_list ctx).
Proof.
  intros (Hfresh & Hcu & avctx' & ctx1 & tr & outs & Hinit & Hrun).
  destruct (init_engine_inv _ _ _ _ _ _ _ Hfresh Hcu Hinit) as [Hinv Hcodec].
  eapply run_engine_cover; [exact Hcodec|exact Hinv| |exact Hrun].
  destruct (init_fresh _ _ _ _ _ _ _ Hfresh Hcu Hinit) as (Hz1 & Hz2 & Hz3).
  unfold outstanding. rewrite Hz1, Hz2, Hz3. reflexivity.
Qed.

Lemma prepare_frame_pushed codec ctx f a c i :
  queue_wf (timestamp_list ctx) -> count (timestamp_list ctx) < 2 ^ 31 ->
  nvenc_prepare_frame codec ctx f a = Done (inr (c, i)) ->
  contents (timestamp_list c)
  = contents (timestamp_list ctx) ++ [U_timestamp (frame_pts f)]
  /\ queue_wf (timestamp_list c).
Proof.
  intros Hwf Hb. unfold nvenc_prepare_frame. intros H.
  apply bind_Done_inv in H as (inSurf & _ & H).
  destruct inSurf as [j|]; [|discriminate].
  apply bind_Done_inv in H as (ins & _ & H).
  destruct (decide (map_status a <> NV_ENC_SUCCESS)); [discriminate|].
  destruct (decide (_ <> Some (mappedBufferFmt a))); [discriminate|].
  destruct (negb _); [discriminate|].
  destruct (decide (unmap_status a <> NV_ENC_SUCCESS)); [discriminate|].
  apply bind_Done_inv in H as (i' & _ & H).
  destruct (Z.of_nat i' =? _).
  { apply bind_Done_inv in H as (ins0 & _ & H). discriminate. }
  apply bind_Done_inv in H as (outs & _ & H).
  destruct (enqueue_total (timestamp_malloc a) (timestamp_list ctx)
              (U_timestamp (frame_pts f)) Hwf Hb)
    as (r' & q' & He & Hwf' & Hcase).
  destruct codec; try discriminate;
    (apply bind_Done_inv in H as ([res tl] & Henq & H);
     unfold timestamp_queue_enqueue in Henq; simpl in Henq;
     rewrite He in Henq; injection Henq as <- <-;
     destruct Hcase as [(-> & Hc & _)|(-> & -> & _)];
     simpl in H; [|discriminate];
     injection H as <- <-; simpl; auto).
Qed.

(** A call that reaches the emission test has pushed the frame's
    presentation timestamp, and nothing else, on the timestamp list. *)
Lemma nvenc_submit_pushed codec ctx frame a mid :
  queue_wf (timestamp_list ctx) -> count (timestamp_list ctx) < 2 ^ 31 ->
  nvenc_submit codec ctx frame a = Done (AtGate mid) ->
  contents (timestamp_list mid)
  = contents (timestamp_list ctx)
    ++ match frame with
       | Some f => [U_timestamp (frame_pts f)]
       | None => []
       end
  /\ queue_wf (timestamp_list mid).
Proof.
  intros Hwf Hb H. unfold nvenc_submit in H.
  apply bind_Done_inv in H as (prep & Hprep & H).
  destruct prep as [[res c1]|[c1 i]]; [discriminate|].
  assert (Hp : contents (timestamp_list c1)
               = contents (timestamp_list ctx)
                 ++ match frame with
                    | Some f => [U_timestamp (frame_pts f)]
                    | None => []
                    end
               /\ queue_wf (timestamp_list c1)).
  { destruct frame as [f|].
    - eapply prepare_frame_pushed; eauto.
    - injection Hprep as <- _. rewrite app_nil_r. auto. }
  apply bind_Done_inv in H as (qd & Hqd & H).
  destruct (bool_decide _) eqn:Hbd.
  - apply bool_decide_eq_true in Hbd as [_ Hst]. rewrite Hst in H.
    apply bind_Done_inv in Hqd as ([res q] & _ & Hqd).
    destruct (negb (res =? 0)); [injection Hqd as <-; discriminate|].
    apply bind_Done_inv in Hqd as (ctx3 & Hmb & Hqd). injection Hqd as <-.
    injection H as <-.
    apply mark_busy_timestamps in Hmb. rewrite Hmb. exact Hp.
  - injection Hqd as <-.
    destruct (encode_status a); try discriminate;
      [|injection H as <-; exact Hp].
    apply bind_Done_inv in H as ([[res q] r] & _ & H).
    destruct (negb (res =? 0)); [discriminate|].
    destruct frame as [f|]; [|injection H as <-; exact Hp].
    apply bind_Done_inv in H as ([res1 r1] & _ & H).
    destruct (negb (res1 =? 0)); [discriminate|].
    apply bind_Done_inv in H as (ctx5 & Hmb & H). injection H as <-.
    apply mark_busy_timestamps in Hmb. rewrite Hmb. exact Hp.
Qed.

(** A retrieval that reports a packet, seen from the timestamp list. *)
Lemma nvenc_retrieve_stamp FF codec ctx pkt got a ctx' got' pkt' :
  queue_wf (timestamp_list ctx) ->
  nvenc_retrieve FF codec ctx pkt got a = Done (0, ctx', got', pkt') ->
  contents (timestamp_list ctx') = tail (contents (timestamp_list ctx))
  /\ dts pkt' = decode_timestamp (frameIntervalP ctx) (last_dts ctx)
                  (pts pkt') (oldest_timestamp (timestamp_list ctx))
  /\ last_dts ctx' = dts pkt'.
Proof.
  intros Hwf H. unfold nvenc_retrieve in H.
  apply bind_Done_inv in H as ([surf r] & _ & H).
  apply bind_Done_inv in H as ([[res1 ctx2] pkt1] & Hp & H).
  destruct (negb (res1 =? 0)) eqn:E.
  { injection H as -> _ _ _. discriminate. }
  apply negb_false_iff, Z.eqb_eq in E. subst res1.
  destruct (process_output_surface_ok _ _ _ _ _ _ _ _ Hp) as [pkt2 Hs].
  destruct (set_timestamps_spec (set_output_surface_ready_queue ctx r) pkt2
              (outputTimeStamp a) ctx2 pkt1 Hwf Hs)
    as (tl & Hdq & Hpts & Hdts & Hctx).
  simpl in Hdq, Hdts, Hctx.
  destruct (timestamp_dequeue_spec _ _ _ Hwf Hdq) as (_ & Hc & _).
  destruct surf as [i|]; [|discriminate].
  apply bind_Done_inv in H as (outs & _ & H).
  destruct (outs !! i ≫= input_surface) as [j|]; [|discriminate].
  destruct (input_surfaces _ !! j) as [s|]; [|discriminate].
  destruct (lockCount s =? 0); [discriminate|].
  apply bind_Done_inv in H as (ins & _ & H).
  injection H as <- _ <-. rewrite Hctx. simpl.
  rewrite Hpts. auto.
Qed.

(** X8. The timestamp list never runs dry in a session: there are always
    at least as many pending timestamps as surfaces outstanding.  So a
    call that reports a packet has stamped it from the oldest presentation
    timestamp pending (those left by earlier calls, then the one of this
    call's frame), never from the "no value" sentinel of an empty list,
    and has removed exactly that timestamp. *)
Theorem packet_stamped_from_pending (FF_API_CODED_FRAME : bool)
    (avctx : AVCodecContext) (o : NvencOptions) (ctx0 : NvencContext)
    (a : InitAnswers) (calls : list (option AVFrame * FrameAnswers))
    (ctx : NvencContext) (pkt : AVPacket) (frame : option AVFrame)
    (fa : FrameAnswers) (res : Z) (ctx' : NvencContext) (pkt' : AVPacket) :
  session_state FF_API_CODED_FRAME avctx o ctx0 a calls ctx ->
  nvenc_encode_frame FF_API_CODED_FRAME (codec_id avctx) ctx pkt frame 0 fa
  = Done (res, ctx', 1, pkt') ->
  outstanding ctx <= count (timestamp_list ctx)
  /\ exists t rest,
       contents (timestamp_list ctx)
       ++ match frame with
          | Some f => [U_timestamp (frame_pts f)]
          | None => []
          end
       = U_timestamp t :: rest
       /\ contents (timestamp_list ctx') = rest
       /\ dts pkt' = decode_timestamp (frameIntervalP ctx) (last_dts ctx)
                       (pts pkt') t
       /\ last_dts ctx' = dts pkt'.
Proof.
  intros Hs Hcall.
  destruct (session_engine_inv _ _ _ _ _ _ _ Hs) as [Hinv Hcodec].
  pose proof (session_cover _ _ _ _ _ _ _ Hs) as Hcov.
  split; [exact Hcov|].
  pose proof Hinv as Hinv0.
  apply engine_inv_iff in Hinv0 as (_ & _ & Hp0).
  destruct (pool_inv_count _ _ _ _ _ Hp0) as (Hcb & _ & _).
  destruct Hp0 as (Ht0 & _).
  unfold nvenc_encode_frame in Hcall.
  apply bind_Done_inv in Hcall as (sub & Hsub & Hcall).
  destruct sub as [r mid|mid]; [discriminate|].
  destruct (emission_gate mid frame) eqn:Eg; [|discriminate].
  pose proof (nvenc_submit_inv _ _ _ _ _ Hinv Hsub) as Hinv1.
  pose proof (nvenc_submit_cover _ _ _ _ _ Hinv Hcov Hsub) as Hcov1.
  pose proof (nvenc_submit_capacity _ _ _ _ _ Hsub) as (_ & Hfip & Hld).
  simpl in Hinv1, Hcov1, Hfip, Hld.
  destruct (nvenc_submit_pushed _ _ _ _ _ Ht0 ltac:(lia) Hsub) as [Hpend Ht].
  apply engine_inv_iff in Hinv1 as (Hq & Hr & Hp).
  destruct Hp as (_ & Hall & _).
  pose proof (gate_ready_count _ _ Hr Eg) as Hready.
  destruct (retrieve_got _ _ _ _ _ _ _ _ _ _ Hcall) as [[-> _]|[_ Hbad]];
    [|discriminate].
  destruct (nvenc_retrieve_stamp _ _ _ _ _ _ _ _ _ Ht Hcall)
    as (Hc & Hdts & Hlast).
  pose proof (contents_length_wf _ Ht) as Hlen.
  pose proof (contents_length_wf _ Hq) as Hlq.
  unfold oldest_timestamp in Hdts. rewrite <- Hpend.
  destruct (contents (timestamp_list mid)) as [|d rest] eqn:Hcont.
  { simpl in Hlen. unfold outstanding in Hcov1. lia. }
  apply Forall_cons in Hall as [Hd _].
  destruct d as [t|i]; [|discriminate].
  exists t, rest. simpl in Hc, Hdts.
  rewrite Hfip, Hld in Hdts. auto.
Qed.

Lemma packet_stamped_from_pending_witness :
  exists ctx' pkt',
    nvenc_encode_frame true AV_CODEC_ID_H264 ctx_two_ready blank_packet
      (frame_at 3) 0
      (frame_answers NV_ENC_SUCCESS (lock_ok 1 NV_ENC_PIC_TYPE_P))
    = Done (0, ctx', 1, pkt')
    /\ contents (timestamp_list ctx_two_ready) = map U_timestamp [1; 2]
    /\ exists t rest,
         contents (timestamp_list ctx_two_ready) ++ [U_timestamp 3]
         = U_timestamp t :: rest
         /\ contents (timestamp_list ctx') = rest
         /\ dts pkt' = decode_timestamp (frameIntervalP ctx_two_ready)
                         (last_dts ctx_two_ready) (pts pkt') t
         /\ last_dts ctx' = dts pkt'.
Proof.
  assert (Hs : session_1080p calls_three_frames ctx_two_ready).
  { split; [repeat split|]. split; [split; discriminate|].
    eexists _, _, _, _.
    split; [vm_compute; reflexivity|vm_compute; reflexivity]. }
  eexists _, _. split; [vm_compute; reflexivity|].
  split; [vm_compute; reflexivity|].
  eapply (packet_stamped_from_pending true avctx_1080p options_default
            (set_buffer_delay ctx_zero 2) answers_ok calls_three_frames
            ctx_two_ready blank_packet (frame_at 3)
            (frame_answers NV_ENC_SUCCESS (lock_ok 1 NV_ENC_PIC_TYPE_P)) 0).
  - exact Hs.
  - vm_compute. reflexivity.
Defined.

Lemma nvenc_retrieve_no_table FF codec ctx pkt got a res ctx' got' pkt' :
  slice_offsets_alloc a = false ->
  nvenc_retrieve FF codec ctx pkt got a = Done (res, ctx', got', pkt') ->
  res = AVERROR ENOMEM /\ got' = got /\ pkt' = pkt
  /\ timestamp_list ctx' = timestamp_list ctx
  /\ last_dts ctx' = last_dts ctx.
Proof.
  intros Hsl H. unfold nvenc_retrieve in H.
  apply bind_Done_inv in H as ([surf r] & _ & H).
  apply bind_Done_inv in H as ([[res1 ctx2] pkt1] & Hp & H).
  unfold process_output_surface in Hp. rewrite Hsl in Hp.
  destruct codec; try discriminate;
    (simpl in Hp; injection Hp as <- <- <-; simpl in H;
     injection H as <- <- <- <-; auto).
Qed.

(** X9. The one failure that breaks the pairing: when the emission test
    passes in a session and the slice-offset table of
    [process_output_surface] cannot be allocated, the call returns
    [AVERROR(ENOMEM)] with the surface already taken out of the ready
    queue but no timestamp discarded.  After the call the list holds more
    timestamps than there are surfaces outstanding: the oldest pending
    timestamp no longer belongs to the oldest surface outstanding. *)
Theorem slice_table_failure_shifts_timestamps (FF_API_CODED_FRAME : bool)
    (avctx : AVCodecContext) (o : NvencOptions) (ctx0 : NvencContext)
    (a : InitAnswers) (calls : list (option AVFrame * FrameAnswers))
    (ctx : NvencContext) (pkt : AVPacket) (frame : option AVFrame)
    (got_packet : Z) (fa : FrameAnswers) (mid : NvencContext) :
  session_state FF_API_CODED_FRAME avctx o ctx0 a calls ctx ->
  nvenc_submit (codec_id avctx) ctx frame fa = Done (AtGate mid) ->
  emission_gate mid frame = true ->
  slice_offsets_alloc (lock fa) = false ->
  exists ctx',
    nvenc_encode_frame FF_API_CODED_FRAME (codec_id avctx) ctx pkt frame
      got_packet fa = Done (AVERROR ENOMEM, ctx', got_packet, pkt)
    /\ outstanding ctx' = outstanding mid - 1
    /\ timestamp_list ctx' = timestamp_list mid
    /\ last_dts ctx' = last_dts mid
    /\ outstanding ctx' < count (timestamp_list ctx').
Proof.
  intros Hs Hsub Eg Hsl.
  destruct (session_engine_inv _ _ _ _ _ _ _ Hs) as [Hinv Hcodec].
  pose proof (session_cover _ _ _ _ _ _ _ Hs) as Hcov.
  pose proof (nvenc_submit_inv _ _ _ _ _ Hinv Hsub) as Hinv1.
  pose proof (nvenc_submit_cover _ _ _ _ _ Hinv Hcov Hsub) as Hcov1.
  simpl in Hinv1, Hcov1. pose proof Hinv1 as Hinv1'.
  apply engine_inv_iff in Hinv1' as (_ & Hr & _).
  pose proof (gate_ready_count _ _ Hr Eg) as Hready.
  destruct (retrieval_from_invariant FF_API_CODED_FRAME (codec_id avctx) mid
              pkt got_packet (lock fa) Hcodec Hinv1 Hready)
    as (res & ctx' & got' & pkt' & i & so & j & si & Hret & Hout & _).
  destruct (nvenc_retrieve_no_table _ _ _ _ _ _ _ _ _ _ Hsl Hret)
    as (-> & -> & -> & Hts & Hld).
  exists ctx'. unfold nvenc_encode_frame. rewrite Hsub, bind_Done, Eg.
  split; [exact Hret|]. split; [exact Hout|]. split; [exact Hts|].
  split; [exact Hld|]. rewrite Hts. lia.
Qed.

Lemma slice_table_failure_shifts_timestamps_witness :
  session_1080p calls_five_frames ctx_five_in_flight
  /\ exists mid ctx',
       nvenc_submit AV_CODEC_ID_H264 ctx_five_in_flight None
         (frame_answers NV_ENC_SUCCESS lock_no_table)
       = Done (AtGate mid)
       /\ nvenc_encode_frame true AV_CODEC_ID_H264 ctx_five_in_flight
            blank_packet None 0 (frame_answers NV_ENC_SUCCESS lock_no_table)
          = Done (AVERROR ENOMEM, ctx', 0, blank_packet)
       /\ outstanding ctx' = outstanding mid - 1
       /\ timestamp_list ctx' = timestamp_list mid
       /\ last_dts ctx' = last_dts mid
       /\ outstanding ctx' < count (timestamp_list ctx').
Proof.
  assert (Hs : session_1080p calls_five_frames ctx_five_in_flight).
  { split; [repeat split|]. split; [split; discriminate|].
    eexists _, _, _, _.
    split; [vm_compute; reflexivity|vm_compute; reflexivity]. }
  split; [exact Hs|].
  assert (Hsub : exists mid,
             nvenc_submit AV_CODEC_ID_H264 ctx_five_in_flight None
               (frame_answers NV_ENC_SUCCESS lock_no_table)
             = Done (AtGate mid)
             /\ emission_gate mid None = true).
  { eexists. split; [vm_compute; reflexivity|vm_compute; reflexivity]. }
  destruct Hsub as (mid & Hsub & Eg).
  destruct (slice_table_failure_shifts_timestamps true avctx_1080p
              options_default (set_buffer_delay ctx_zero 2) answers_ok
              calls_five_frames ctx_five_in_flight blank_packet None 0
              (frame_answers NV_ENC_SUCCESS lock_no_table)
              mid Hs Hsub Eg eq_refl) as (ctx' & H).
  exists mid, ctx'. split; [exact Hsub|exact H].
Defined.

(** ** What set-up and tear-down hold and give back *)

Lemma acquired_elem r tr : r ∈ acquired tr <-> Acquire r ∈ tr.
Proof.
  unfold acquired. rewrite list_elem_of_omap. split.
  - intros ([r'|r'] & He & Hm); [|discriminate]. injection Hm as ->. exact He.
  - intros He. exists (Acquire r). auto.
Qed.

Lemma released_elem r tr : r ∈ released tr <-> Release r ∈ tr.
Proof.
  unfold released. rewrite list_elem_of_omap. split.
  - intros ([r'|r'] & He & Hm); [discriminate|]. injection Hm as ->. exact He.
  - intros He. exists (Release r). auto.
Qed.

Lemma kept_elem r tr : r ∈ kept tr <-> Acquire r ∈ tr /\ Release r ∉ tr.
Proof.
  unfold kept. rewrite list_elem_of_filter, acquired_elem, released_elem.
  tauto.
Qed.

Lemma release_surfaces_events n : forall i ctx ev,
  release_surfaces n i ctx = Done ev ->
  (forall e, e ∈ ev -> exists r, e = Release r)
  /\ forall j, (i <= j < i + n)%nat ->
       Release (R_registration j) ∈ ev /\ Release (R_input_mem j) ∈ ev
       /\ (forall o, output_surfaces ctx !! j = Some o ->
                     output_surface o = true -> Release (R_bitstream j) ∈ ev).
Proof.
  induction n as [|n IH]; intros i ctx ev H; simpl in H.
  - injection H as <-. split; [intros e He; inversion He|]. intros j Hj. lia.
  - destruct (input_surfaces ctx !! i) as [s|]; [|discriminate].
    destruct (output_surfaces ctx !! i) as [o|] eqn:Ho; [|discriminate].
    apply bind_Done_inv in H as (rest & Hrest & H). injection H as <-.
    destruct (IH _ _ _ Hrest) as [Hrel Hall].
    split.
    + intros e He. destruct (output_surface o); set_unfold in He;
        naive_solver.
    + intros j Hj. destruct (decide (j = i)) as [->|Hne].
      * split; [set_solver|]. split; [set_solver|].
        intros o' Ho' Hflag. rewrite Ho in Ho'. injection Ho' as <-.
        rewrite Hflag. set_solver.
      * destruct (Hall j ltac:(lia)) as (H1 & H2 & H3).
        split; [set_solver|]. split; [set_solver|].
        intros o' Ho' Hflag. specialize (H3 o' Ho' Hflag). set_solver.
Qed.

Lemma close_surfaces_events n : forall i ctx ev,
  close_surfaces n i ctx = Done ev ->
  (forall e, e ∈ ev -> exists r, e = Release r)
  /\ forall j, (i <= j < i + n)%nat ->
       Release (R_registration j) ∈ ev /\ Release (R_input_mem j) ∈ ev
       /\ Release (R_bitstream j) ∈ ev.
Proof.
  induction n as [|n IH]; intros i ctx ev H; simpl in H.
  - injection H as <-. split; [intros e He; inversion He|]. intros j Hj. lia.
  - destruct (input_surfaces ctx !! i) as [s|]; [|discriminate].
    destruct (output_surfaces ctx !! i) as [o|] eqn:Ho; [|discriminate].
    apply bind_Done_inv in H as (rest & Hrest & H). injection H as <-.
    destruct (IH _ _ _ Hrest) as [Hrel Hall].
    split.
    + intros e He. set_unfold in He. naive_solver.
    + intros j Hj. destruct (decide (j = i)) as [->|Hne].
      * set_solver.
      * destruct (Hall j ltac:(lia)) as (H1 & H2 & H3). set_solver.
Qed.

Lemma released_app tr1 tr2 : released (tr1 ++ tr2) = released tr1 ++ released tr2.
Proof. unfold released. apply omap_app. Qed.

Lemma dyload_trace avctx ctx a loaded ctx0 tr0 :
  nvenc_dyload_nvenc avctx ctx a = (loaded, ctx0, tr0) ->
  (loaded = 0 \/ loaded = 1)
  /\ (loaded = 0 -> forall r, r ∈ kept tr0 -> r = R_cuda)
  /\ (loaded = 1 ->
      (forall e, e ∈ tr0 -> e = Acquire R_cuda \/ e = Acquire R_nvenc_lib)
      /\ released tr0 = []
      /\ nvenc_lib ctx0 = true
      /\ nvencoder ctx0 = nvencoder ctx /\ cu_context ctx0 = cu_context ctx).
Proof.
  unfold nvenc_dyload_nvenc, nvenc_check_cuda. intros H.
  repeat case_match; simplify_eq; simpl;
    (split; [auto|]); (split; intros Hl; try discriminate);
    try (intros r Hr; apply kept_elem in Hr as [Ha Hr]; set_unfold;
         naive_solver);
    repeat split; try reflexivity; try assumption;
    try (intros e He; set_unfold; naive_solver).
Qed.

Lemma held_within_start a enc cuc outs tr0 :
  (forall e, e ∈ tr0 -> e = Acquire R_cuda \/ e = Acquire R_nvenc_lib) ->
  held_within a enc cuc outs 0 tr0.
Proof.
  intros H. unfold held_within, session_resources.
  split; [|split; [|split]].
  - intros r Hr. destruct (H _ Hr) as [E|E]; injection E as ->; set_solver.
  - intros Hr. destruct (H _ Hr); discriminate.
  - intros Hr. destruct (H _ Hr); discriminate.
  - intros i Hr. destruct (H _ Hr); discriminate.
Qed.

Lemma held_within_acquire a enc cuc enc' cuc' outs sc tr r :
  held_within a enc cuc outs sc tr ->
  r ∈ session_resources ->
  (enc = true -> enc' = true) -> (cuc = true -> cuc' = true) ->
  (r = R_encoder -> enc' = true) -> (r = R_cuda_context -> cuc' = true) ->
  held_within a enc' cuc' outs sc (tr ++ [Acquire r]).
Proof.
  intros (H1 & H2 & H3 & H4) Hr He Hc Hre Hrc. unfold held_within.
  split; [|split; [|split]].
  - intros x Hx. apply elem_of_app in Hx as [Hx|Hx]; [auto|].
    apply list_elem_of_singleton in Hx. injection Hx as ->. auto.
  - intros Hx. apply elem_of_app in Hx as [Hx|Hx]; [auto|].
    apply list_elem_of_singleton in Hx. injection Hx as <-. auto.
  - intros Hx. apply elem_of_app in Hx as [Hx|Hx]; [auto|].
    apply list_elem_of_singleton in Hx. injection Hx as <-. auto.
  - intros i Hx. apply elem_of_app in Hx as [Hx|Hx]; [auto|].
    apply list_elem_of_singleton in Hx. injection Hx as <-.
    unfold session_resources in Hr. set_solver.
Qed.

Lemma held_within_flags a enc cuc enc' cuc' outs sc tr :
  held_within a enc cuc outs sc tr ->
  (enc = true -> enc' = true) -> (cuc = true -> cuc' = true) ->
  held_within a enc' cuc' outs sc tr.
Proof.
  intros (H1 & H2 & H3 & H4) He Hc. unfold held_within. auto 6.
Qed.

Lemma held_within_no_bitstream a enc cuc outs tr i :
  held_within a enc cuc outs 0 tr -> Acquire (R_bitstream i) ∉ tr.
Proof.
  intros (H1 & _) Hx. destruct (H1 _ Hx) as [H|[(j & Hj & _)|[H _]]].
  - unfold session_resources in H. set_solver.
  - lia.
  - discriminate.
Qed.

Lemma held_within_outs a enc cuc outs outs' tr :
  held_within a enc cuc outs 0 tr -> held_within a enc cuc outs' 0 tr.
Proof.
  intros H. pose proof H as (H1 & H2 & H3 & H4). unfold held_within.
  repeat split; try assumption.
  intros i Hx. exfalso. eapply held_within_no_bitstream; eauto.
Qed.

(** One turn of the surface loop, by the way it ends. *)
Lemma init_surfaces_step n k avctx a ctx tr failed k' ctx' tr' :
  init_surfaces (S n) k avctx a ctx tr = Done (failed, k', ctx', tr') ->
  (failed = Some (AVERROR EINVAL) /\ k' = k /\ ctx' = ctx /\ tr' = tr)
  \/ exists ctxm,
       output_surfaces ctxm = output_surfaces ctx
       /\ nvencoder ctxm = nvencoder ctx /\ cu_context ctxm = cu_context ctx
       /\ nvenc_lib ctxm = nvenc_lib ctx
       /\ ((register_resource a k <> NV_ENC_SUCCESS
            /\ failed = Some AVERROR_EXTERNAL /\ k' = k /\ ctx' = ctxm
            /\ tr' = tr ++ [Acquire (R_input_mem k)])
           \/ (register_resource a k = NV_ENC_SUCCESS
               /\ exists o0 flag,
                    output_surfaces ctx !! k = Some o0
                    /\ let ctxn :=
                         set_output_surfaces ctxm
                           (<[k := mkNvencOutputSurface flag
                                     (input_surface o0)
                                     (if flag then 0 else busy o0)]>
                              (output_surfaces ctx)) in
                       let trn := (tr ++ [Acquire (R_input_mem k)])
                                  ++ [Acquire (R_registration k)] in
                       (flag = false
                        /\ failed = Some AVERROR_EXTERNAL /\ k' = S k
                        /\ ctx' = ctxn /\ tr' = trn)
                       \/ (flag = true
                           /\ init_surfaces n (S k) avctx a ctxn
                                (trn ++ [Acquire (R_bitstream k)])
                              = Done (failed, k', ctx', tr')))).
Proof.
  intros H. simpl in H.
  assert (Hbody :
    pix_fmt avctx = AV_PIX_FMT_OTHER
    \/ (ins ← update_at (input_surfaces ctx) k
                (fun s => mkNvencInputSurface (lockCount s)
                            NV_ENC_BUFFER_FORMAT_NV12_PL);
        let ctx1 := set_input_surfaces ctx ins in
        let tr1 := tr ++ [Acquire (R_input_mem k)] in
        if decide (register_resource a k <> NV_ENC_SUCCESS)
        then Done (Some AVERROR_EXTERNAL, k, ctx1, tr1)
        else
          ins1 ← update_at ins k (fun s => set_lockCount s 0);
          let ctx2 := set_input_surfaces ctx1 ins1 in
          let tr2 := tr1 ++ [Acquire (R_registration k)] in
          if decide (create_bitstream_buffer a k <> NV_ENC_SUCCESS) then
            outs ← update_at (output_surfaces ctx2) k
                     (fun s => mkNvencOutputSurface false (input_surface s)
                                 (busy s));
            Done (Some AVERROR_EXTERNAL, S k, set_output_surfaces ctx2 outs,
                  tr2)
          else
            outs ← update_at (output_surfaces ctx2) k
                     (fun s => mkNvencOutputSurface true (input_surface s) 0);
            init_surfaces n (S k) avctx a (set_output_surfaces ctx2 outs)
              (tr2 ++ [Acquire (R_bitstream k)]))
       = Done (failed, k', ctx', tr')).
  { destruct (pix_fmt avctx); auto. }
  destruct Hbody as [Hp|Hb].
  { rewrite Hp in H. injection H as <- <- <- <-. left. auto. }
  clear H. right.
  apply bind_Done_inv in Hb as (ins & _ & H). cbv zeta in H.
  destruct (decide (register_resource a k <> NV_ENC_SUCCESS)) as [Hreg|Hreg].
  { injection H as <- <- <- <-.
    exists (set_input_surfaces ctx ins). simpl.
    repeat (split; [reflexivity|]). left. auto. }
  apply bind_Done_inv in H as (ins1 & _ & H).
  exists (set_input_surfaces (set_input_surfaces ctx ins) ins1). simpl.
  repeat (split; [reflexivity|]). right.
  split.
  { destruct (register_resource a k); try reflexivity;
      exfalso; apply Hreg; discriminate. }
  destruct (decide (create_bitstream_buffer a k <> NV_ENC_SUCCESS));
    apply bind_Done_inv in H as (outs & Huo & H);
    apply update_at_Done in Huo as (o0 & Ho0 & ->); simpl in Ho0.
  - exists o0, false. split; [exact Ho0|]. left.
    injection H as <- <- <- <-. auto.
  - exists o0, true. split; [exact Ho0|]. right.
    split; [reflexivity|exact H].
Qed.

Lemma held_within_bitstream_index a enc cuc outs k tr i :
  held_within a enc cuc outs k tr -> Acquire (R_bitstream i) ∈ tr ->
  (i < k)%nat.
Proof.
  intros (H1 & _) Hx.
  destruct (H1 _ Hx) as [Hs|[(j & Hj & [E|[E|E]])|[E _]]];
    try discriminate; [unfold session_resources in Hs; set_solver|].
  injection E as ->. exact Hj.
Qed.

Lemma held_within_leak a enc cuc outs k tr :
  held_within a enc cuc outs k tr ->
  register_resource a k <> NV_ENC_SUCCESS ->
  held_within a enc cuc outs k (tr ++ [Acquire (R_input_mem k)]).
Proof.
  intros (H1 & H2 & H3 & H4) Hreg. unfold held_within.
  split; [|split; [|split]].
  - intros r Hr. apply elem_of_app in Hr as [Hr|Hr]; [auto|].
    apply list_elem_of_singleton in Hr. injection Hr as ->. auto.
  - intros Hr. apply elem_of_app in Hr as [Hr|Hr]; [auto|].
    apply list_elem_of_singleton in Hr. discriminate.
  - intros Hr. apply elem_of_app in Hr as [Hr|Hr]; [auto|].
    apply list_elem_of_singleton in Hr. discriminate.
  - intros i Hr. apply elem_of_app in Hr as [Hr|Hr]; [auto|].
    apply list_elem_of_singleton in Hr. discriminate.
Qed.

Lemma held_within_surface a enc cuc outs k tr o' :
  held_within a enc cuc outs k tr ->
  register_resource a k = NV_ENC_SUCCESS ->
  held_within a enc cuc (<[k := o']> outs) (S k)
    ((tr ++ [Acquire (R_input_mem k)]) ++ [Acquire (R_registration k)]).
Proof.
  intros Hh Hreg. pose proof Hh as (H1 & H2 & H3 & H4). unfold held_within.
  split; [|split; [|split]].
  - intros r Hr. rewrite !elem_of_app, !list_elem_of_singleton in Hr.
    destruct Hr as [[Hr|Hr]|Hr].
    + destruct (H1 _ Hr) as [?|[(j & Hj & ?)|[? ?]]];
        [auto|right; left; exists j; split; [lia|auto]|contradiction].
    + injection Hr as ->. right. left. exists k. split; [lia|auto].
    + injection Hr as ->. right. left. exists k. split; [lia|auto].
  - intros Hr. rewrite !elem_of_app, !list_elem_of_singleton in Hr.
    destruct Hr as [[Hr|Hr]|Hr]; [auto|discriminate|discriminate].
  - intros Hr. rewrite !elem_of_app, !list_elem_of_singleton in Hr.
    destruct Hr as [[Hr|Hr]|Hr]; [auto|discriminate|discriminate].
  - intros i Hr. rewrite !elem_of_app, !list_elem_of_singleton in Hr.
    destruct Hr as [[Hr|Hr]|Hr]; [|discriminate|discriminate].
    pose proof (held_within_bitstream_index _ _ _ _ _ _ _ Hh Hr).
    rewrite list_lookup_insert_ne by lia. auto.
Qed.

Lemma held_within_bitstream a enc cuc outs k tr o :
  held_within a enc cuc outs (S k) tr ->
  outs !! k = Some o -> output_surface o = true ->
  held_within a enc cuc outs (S k) (tr ++ [Acquire (R_bitstream k)]).
Proof.
  intros (H1 & H2 & H3 & H4) Ho Hflag. unfold held_within.
  split; [|split; [|split]].
  - intros r Hr. apply elem_of_app in Hr as [Hr|Hr]; [auto|].
    apply list_elem_of_singleton in Hr. injection Hr as ->.
    right. left. exists k. split; [lia|auto].
  - intros Hr. apply elem_of_app in Hr as [Hr|Hr]; [auto|].
    apply list_elem_of_singleton in Hr. discriminate.
  - intros Hr. apply elem_of_app in Hr as [Hr|Hr]; [auto|].
    apply list_elem_of_singleton in Hr. discriminate.
  - intros i Hr. apply elem_of_app in Hr as [Hr|Hr]; [auto|].
    apply list_elem_of_singleton in Hr. injection Hr as ->. eauto.
Qed.

(** The surface loop adds acquisitions only, and accounts for them. *)
Lemma init_surfaces_held n avctx a enc cuc :
  forall k ctx tr failed k' ctx' tr',
  held_within a enc cuc (output_surfaces ctx) k tr ->
  init_surfaces n k avctx a ctx tr = Done (failed, k', ctx', tr') ->
  held_within a enc cuc (output_surfaces ctx') k' tr'
  /\ released tr' = released tr
  /\ nvencoder ctx' = nvencoder ctx /\ cu_context ctx' = cu_context ctx
  /\ nvenc_lib ctx' = nvenc_lib ctx
  /\ (forall e, e ∈ tr -> e ∈ tr')
  /\ (failed = None ->
      k' = (k + n)%nat
      /\ forall i, (k <= i < k + n)%nat ->
           Acquire (R_registration i) ∈ tr' /\ Acquire (R_input_mem i) ∈ tr'
           /\ Acquire (R_bitstream i) ∈ tr').
Proof.
  induction n as [|n IH]; intros k ctx tr failed k' ctx' tr' Hh H.
  { simpl in H. injection H as <- <- <- <-.
    split; [exact Hh|]. repeat split; auto; intros; lia. }
  apply init_surfaces_step in H
    as [(-> & -> & -> & ->)
       |(ctxm & Ho & He & Hc & Hl
         & [(Hreg & -> & -> & -> & ->)|(Hreg & o0 & flag & Ho0 & Hcase)])].
  - split; [exact Hh|]. repeat split; auto; intros; discriminate.
  - rewrite Ho, He, Hc, Hl. split; [apply held_within_leak; assumption|].
    rewrite released_app, app_nil_r.
    split; [reflexivity|]. do 3 (split; [reflexivity|]).
    split; [intros e Hin; apply elem_of_app; auto|discriminate].
  - cbv zeta in Hcase.
    pose proof (held_within_surface a enc cuc (output_surfaces ctx) k tr
                  (mkNvencOutputSurface flag (input_surface o0)
                     (if flag then 0 else busy o0)) Hh Hreg) as Hh2.
    assert (Hk : (k < length (output_surfaces ctx))%nat)
      by (eapply lookup_lt_Some; eauto).
    destruct Hcase as [(-> & -> & -> & -> & ->)|(-> & Hrec)].
    + simpl. rewrite He, Hc, Hl. split; [exact Hh2|].
      rewrite !released_app, !app_nil_r.
      split; [reflexivity|]. do 3 (split; [reflexivity|]).
      split; [intros e Hin; rewrite !elem_of_app; auto|discriminate].
    + apply IH in Hrec
        as (Hh' & Hrel & He' & Hc' & Hl' & Hsub & Hnone).
      2:{ simpl.
          apply (held_within_bitstream _ _ _ _ _ _
                   (mkNvencOutputSurface true (input_surface o0) 0) Hh2);
            [apply list_lookup_insert_eq; exact Hk|reflexivity]. }
      simpl in He', Hc', Hl'.
      split; [exact Hh'|].
      rewrite Hrel, !released_app, !app_nil_r.
      split; [reflexivity|]. split; [congruence|]. split; [congruence|].
      split; [congruence|].
      split; [intros e Hin; apply Hsub; rewrite !elem_of_app; auto|].
      intros Hf. destruct (Hnone Hf) as [-> Hall]. split; [lia|].
      intros i Hi. destruct (decide (i = k)) as [->|Hne].
      * repeat split; apply Hsub; rewrite !elem_of_app,
          !list_elem_of_singleton; auto.
      * apply Hall. lia.
Qed.

(** The [error:] label gives back what the trace holds, except what the
    code never gives back. *)
Lemma init_error_kept avctx a ctx sc res tr r avctx' ctx' tr' :
  held_within a (nvencoder ctx) (cu_context ctx) (output_surfaces ctx) sc tr ->
  init_error avctx ctx sc res tr = Done (r, avctx', ctx', tr') ->
  r = res /\ avctx' = avctx /\ unwound a ctx' tr'.
Proof.
  unfold init_error. intros (H1 & H2 & H3 & H4) H.
  apply bind_Done_inv in H as (ev & Hev & H).
  unfold nvenc_unload_nvenc in H. injection H as <- <- <- <-.
  destruct (release_surfaces_events _ _ _ _ Hev) as [Hrel Hall].
  split; [reflexivity|]. split; [reflexivity|].
  split; [reflexivity|]. split; [reflexivity|]. split; [reflexivity|].
  intros x Hx. apply kept_elem in Hx as [Ha Hr].
  assert (Hin : Acquire x ∈ tr).
  { clear Hr. rewrite !elem_of_app, elem_of_cons, elem_of_app in Ha.
    destruct Ha as [[Ha|[Ha|[Ha|[Ha|Ha]]]]|Ha]; [exact Ha|..].
    - destruct (Hrel _ Ha) as [? ?]. discriminate.
    - discriminate.
    - destruct (nvencoder ctx); [|inversion Ha].
      apply list_elem_of_singleton in Ha. discriminate.
    - destruct (cu_context ctx); [|inversion Ha].
      apply list_elem_of_singleton in Ha. discriminate.
    - rewrite !elem_of_cons in Ha.
      destruct Ha as [Ha|[Ha|Ha]]; [discriminate|discriminate|inversion Ha]. }
  assert (Hno : forall y,
            Release y ∈ ev \/ y = R_transfer_mem
            \/ (y = R_encoder /\ nvencoder ctx = true)
            \/ (y = R_cuda_context /\ cu_context ctx = true)
            \/ y = R_nvenc_lib \/ y = R_cuda -> y <> x).
  { intros y Hy ->. apply Hr. rewrite !elem_of_app, elem_of_cons, elem_of_app.
    destruct Hy as [Hy|[->|[[-> Hy]|[[-> Hy]|[->| ->]]]]].
    - left. right. left. exact Hy.
    - left. right. right. left. reflexivity.
    - left. right. right. right. left. rewrite Hy.
      apply list_elem_of_singleton. reflexivity.
    - left. right. right. right. right. rewrite Hy.
      apply list_elem_of_singleton. reflexivity.
    - right. rewrite !elem_of_cons. auto.
    - right. rewrite !elem_of_cons. auto. }
  destruct (H1 _ Hin) as [Hs|[(i & Hi & Hx)|[-> Hreg]]].
  - unfold session_resources in Hs. unfold never_released.
    rewrite !elem_of_cons in Hs. rewrite !elem_of_cons.
    destruct Hs as [->|[->|[->|[->|[->|[->|[->|[->|Hs]]]]]]]];
      [exfalso; apply (Hno R_cuda); auto 10
      |exfalso; apply (Hno R_nvenc_lib); auto 10
      |exfalso; apply (Hno R_cuda_context); auto 10
      |auto
      |exfalso; apply (Hno R_encoder); auto 10
      |auto|auto
      |exfalso; apply (Hno R_transfer_mem); auto 10
      |inversion Hs].
  - destruct (Hall i ltac:(lia)) as (Hr1 & Hr2 & Hr3).
    exfalso. destruct Hx as [->|[->| ->]].
    + eapply Hno; [left; exact Hr2|reflexivity].
    + eapply Hno; [left; exact Hr1|reflexivity].
    + destruct (H4 _ Hin) as (o & Ho & Hflag).
      eapply Hno; [left; exact (Hr3 o Ho Hflag)|reflexivity].
  - right. eauto.
Qed.

Lemma init_error_unwound avctx a ctx enc cuc outs res tr r avctx' ctx' tr' :
  held_within a enc cuc outs 0 tr ->
  (enc = true -> nvencoder ctx = true) ->
  (cuc = true -> cu_context ctx = true) ->
  init_error avctx ctx 0 res tr = Done (r, avctx', ctx', tr') ->
  unwound a ctx' tr'.
Proof.
  intros Hh He Hc H.
  eapply init_error_kept in H as (_ & _ & H); [exact H|].
  eapply held_within_outs, held_within_flags; eauto.
Qed.

Lemma dyload_flags avctx ctx a loaded ctx0 tr0 :
  nvenc_dyload_nvenc avctx ctx a = (loaded, ctx0, tr0) ->
  nvencoder ctx0 = nvencoder ctx /\ cu_context ctx0 = cu_context ctx.
Proof.
  unfold nvenc_dyload_nvenc. intros H.
  repeat case_match; simplify_eq; simpl; auto.
Qed.

Lemma configure_flags avctx a c :
  let c' := configure_gop avctx a (size_surface_pool avctx c) in
  nvencoder c' = nvencoder c /\ cu_context c' = cu_context c.
Proof.
  unfold configure_gop, size_surface_pool.
  repeat case_match; simpl; auto.
Qed.

(** The header and the exit of set-up: either the [error:] label, or the
    context as it is and at most the header acquired. *)
Lemma init_finish_outcome avctx a ctx sc res tr r avctx' ctx' tr' :
  held_within a (nvencoder ctx) (cu_context ctx) (output_surfaces ctx) sc tr ->
  init_finish avctx a ctx sc res tr = Done (r, avctx', ctx', tr') ->
  unwound a ctx' tr'
  \/ (ctx' = ctx /\ (tr' = tr \/ tr' = tr ++ [Acquire R_extradata])
      /\ r = (if add_cpb_side_data a then 0 else AVERROR ENOMEM)).
Proof.
  unfold init_finish. intros Hh H.
  destruct (global_header avctx).
  - destruct (decide (get_sequence_params a <> NV_ENC_SUCCESS)).
    { left. eapply init_error_kept in H as (_ & _ & H); eauto. }
    destruct (negb (extradata_alloc a)).
    { left. eapply init_error_kept in H as (_ & _ & H); eauto. }
    right. destruct (add_cpb_side_data a); simpl in H;
      injection H as <- <- <- <-; auto.
  - right. destruct (add_cpb_side_data a); simpl in H;
      injection H as <- <- <- <-; auto.
Qed.

(** A surface loop that runs to its end acquires surface resources only. *)
Lemma init_surfaces_exact n avctx a : forall k ctx tr k' ctx' tr',
  (forall x, Acquire x ∈ tr ->
     x ∈ session_resources
     \/ exists i, (i < k)%nat
          /\ (x = R_input_mem i \/ x = R_registration i \/ x = R_bitstream i)) ->
  init_surfaces n k avctx a ctx tr = Done (None, k', ctx', tr') ->
  forall x, Acquire x ∈ tr' ->
    x ∈ session_resources
    \/ exists i, (i < k')%nat
         /\ (x = R_input_mem i \/ x = R_registration i \/ x = R_bitstream i).
Proof.
  induction n as [|n IH]; intros k ctx tr k' ctx' tr' Hin H.
  { simpl in H. injection H as <- <- <-. exact Hin. }
  apply init_surfaces_step in H
    as [(Hf & _)
       |(ctxm & Ho & He & Hc & Hl
         & [(_ & Hf & _)|(Hreg & o0 & flag & Ho0 & Hcase)])];
    [discriminate|discriminate|].
  cbv zeta in Hcase. destruct Hcase as [(_ & Hf & _)|(-> & Hrec)];
    [discriminate|].
  eapply IH; [|exact Hrec].
  intros x Hx. rewrite !elem_of_app, !list_elem_of_singleton in Hx.
  destruct Hx as [[[Hx|Hx]|Hx]|Hx].
  - destruct (Hin _ Hx) as [?|(i & Hi & ?)]; [auto|].
    right. exists i. split; [lia|assumption].
  - injection Hx as ->. right. exists k. split; [lia|auto].
  - injection Hx as ->. right. exists k. split; [lia|auto].
  - injection Hx as ->. right. exists k. split; [lia|auto].
Qed.

Lemma held_within_app a enc cuc outs sc tr ev :
  held_within a enc cuc outs sc tr ->
  (forall e, e ∈ ev ->
     e ∈ [Acquire R_cu_module; Acquire R_input_surfaces;
          Acquire R_output_surfaces; Acquire R_transfer_mem]) ->
  held_within a enc cuc outs sc (tr ++ ev).
Proof.
  intros (H1 & H2 & H3 & H4) Hev. unfold held_within.
  split; [|split; [|split]].
  - intros r Hr. apply elem_of_app in Hr as [Hr|Hr]; [auto|].
    apply Hev in Hr. left. unfold session_resources.
    rewrite !elem_of_cons in Hr. rewrite !elem_of_cons.
    destruct Hr as [E|[E|[E|[E|E]]]]; [| | | |inversion E];
      injection E as ->; auto 10.
  - intros Hr. apply elem_of_app in Hr as [Hr|Hr]; [auto|].
    apply Hev in Hr. rewrite !elem_of_cons in Hr.
    destruct Hr as [E|[E|[E|[E|E]]]]; [| | | |inversion E]; discriminate.
  - intros Hr. apply elem_of_app in Hr as [Hr|Hr]; [auto|].
    apply Hev in Hr. rewrite !elem_of_cons in Hr.
    destruct Hr as [E|[E|[E|[E|E]]]]; [| | | |inversion E]; discriminate.
  - intros i Hr. apply elem_of_app in Hr as [Hr|Hr]; [auto|].
    apply Hev in Hr. rewrite !elem_of_cons in Hr.
    destruct Hr as [E|[E|[E|[E|E]]]]; [| | | |inversion E]; discriminate.
Qed.

(** From the initialisation of the encoder to the exit of set-up: either
    the [error:] label, or the pool is acquired in full and nothing is
    given back. *)
Lemma init_pool_outcome avctx a ctx res tr r avctx' ctx' tr' :
  held_within a (nvencoder ctx) (cu_context ctx) (output_surfaces ctx) 0 tr ->
  (forall x, Acquire x ∈ tr -> x ∈ session_resources) ->
  init_pool avctx a ctx res tr = Done (r, avctx', ctx', tr') ->
  unwound a ctx' tr'
  \/ (nvencoder ctx' = nvencoder ctx /\ cu_context ctx' = cu_context ctx
      /\ max_surface_count ctx' = max_surface_count ctx
      /\ released tr' = released tr
      /\ (forall e, e ∈ tr -> e ∈ tr')
      /\ Acquire R_input_surfaces ∈ tr' /\ Acquire R_output_surfaces ∈ tr'
      /\ (forall i, (i < Z.to_nat (max_surface_count ctx))%nat ->
            Acquire (R_input_mem i) ∈ tr' /\ Acquire (R_registration i) ∈ tr'
            /\ Acquire (R_bitstream i) ∈ tr')
      /\ (forall x, Acquire x ∈ tr' ->
            x ∈ session_resources \/ x = R_extradata
            \/ exists i, (i < Z.to_nat (max_surface_count ctx))%nat
                 /\ (x = R_input_mem i \/ x = R_registration i
                     \/ x = R_bitstream i))
      /\ r = (if add_cpb_side_data a then 0 else AVERROR ENOMEM)).
Proof.
  unfold init_pool. intros Hh Hex H.
  destruct (decide (initialize_encoder a <> NV_ENC_SUCCESS)) as [Hie|Hie].
  { left. eapply init_error_kept in H as (_ & _ & H); eauto. }
  destruct (input_surfaces_alloc a); simpl in H.
  2:{ left. eapply init_error_kept in H as (_ & _ & H); [exact H|exact Hh]. }
  destruct (output_surfaces_alloc a); simpl in H.
  2:{ left.
      eapply (init_error_unwound _ a _ (nvencoder ctx) (cu_context ctx)
                (output_surfaces ctx)) in H;
        [exact H| |simpl; auto|simpl; auto].
      apply held_within_app; [exact Hh|].
      intros e He. apply list_elem_of_singleton in He as ->.
      rewrite !elem_of_cons. auto. }
  apply bind_Done_inv in H as ([[[failed k'] ctx3] tr3] & Hs & H).
  set (n := Z.to_nat (max_surface_count ctx)) in *.
  set (tl := if decide (pix_fmt avctx = AV_PIX_FMT_YUV420P)
             then [Acquire R_transfer_mem] else []) in *.
  assert (Htl : forall e, e ∈ Acquire R_output_surfaces :: tl ->
                  e = Acquire R_output_surfaces \/ e = Acquire R_transfer_mem).
  { intros e He. apply elem_of_cons in He as [He|He]; [auto|].
    unfold tl in He. destruct (decide _); [|inversion He].
    apply list_elem_of_singleton in He. auto. }
  pose proof (init_surfaces_held n avctx a (nvencoder ctx) (cu_context ctx)
                _ _ _ _ _ _ _
                (held_within_outs _ _ _ _ _ _
                   (held_within_app a _ _ (output_surfaces ctx) 0 _ _
                      (held_within_app a _ _ _ 0 tr [Acquire R_input_surfaces]
                         Hh ltac:(intros e He;
                                  apply list_elem_of_singleton in He as ->;
                                  rewrite !elem_of_cons; auto))
                      ltac:(intros e He; destruct (Htl e He) as [-> | ->];
                            rewrite !elem_of_cons; auto 6)))
                Hs)
    as (Hh3 & Hrel & He3 & Hc3 & _ & Hsub & Hnone).
  simpl in Hh3, Hrel, He3, Hc3, Hsub, Hnone.
  destruct failed as [res1|].
  { left. eapply init_error_kept in H as (_ & _ & H); [exact H|].
    rewrite He3, Hc3. exact Hh3. }
  destruct (Hnone eq_refl) as [-> Hall]. simpl in Hall.
  assert (Hmax : max_surface_count ctx3 = max_surface_count ctx).
  { eapply init_surfaces_filled in Hs as (_ & _ & Hm); [exact Hm|].
    unfold pool_filled. simpl. rewrite !length_replicate.
    split; [reflexivity|]. split; [reflexivity|]. intros j s Hj. lia. }
  assert (Hex3 : forall x, Acquire x ∈ tr3 ->
            x ∈ session_resources
            \/ exists i, (i < n)%nat
                 /\ (x = R_input_mem i \/ x = R_registration i
                     \/ x = R_bitstream i)).
  { eapply (init_surfaces_exact n avctx a 0); [|exact Hs].
    intros x Hx. left. rewrite !elem_of_app in Hx.
    destruct Hx as [[Hx|Hx]|Hx]; [auto| |].
    - apply list_elem_of_singleton in Hx. injection Hx as ->.
      unfold session_resources. rewrite !elem_of_cons. auto 10.
    - destruct (Htl _ Hx) as [E|E]; injection E as ->;
        unfold session_resources; rewrite !elem_of_cons; auto 10. }
  assert (Hrel3 : released tr3 = released tr).
  { rewrite Hrel, !released_app. unfold tl.
    destruct (decide _); simpl; rewrite !app_nil_r; reflexivity. }
  assert (Hin3 : forall e, e ∈ tr -> e ∈ tr3).
  { intros e He. apply Hsub. rewrite !elem_of_app. auto. }
  assert (Hi3 : Acquire R_input_surfaces ∈ tr3).
  { apply Hsub. apply elem_of_app. left. apply elem_of_app. right.
    apply list_elem_of_singleton. reflexivity. }
  assert (Ho3 : Acquire R_output_surfaces ∈ tr3).
  { apply Hsub. apply elem_of_app. right. apply elem_of_cons. left.
    reflexivity. }
  apply init_finish_outcome in H as [H|(-> & Htr & ->)];
    [left; exact H| |rewrite He3, Hc3; exact Hh3].
  right. split; [exact He3|]. split; [exact Hc3|]. split; [exact Hmax|].
  destruct Htr as [-> | ->].
  - split; [exact Hrel3|]. split; [exact Hin3|]. split; [exact Hi3|].
    split; [exact Ho3|]. split; [|split; [|reflexivity]].
    + intros i Hi. destruct (Hall i ltac:(lia)) as (? & ? & ?). auto.
    + intros x Hx. destruct (Hex3 _ Hx); auto.
  - split; [rewrite released_app, Hrel3; apply app_nil_r|].
    split; [intros e He; apply elem_of_app; auto|].
    split; [apply elem_of_app; auto|]. split; [apply elem_of_app; auto|].
    split; [|split; [|reflexivity]].
    + intros i Hi. destruct (Hall i ltac:(lia)) as (? & ? & ?).
      rewrite !elem_of_app. auto.
    + intros x Hx. apply elem_of_app in Hx as [Hx|Hx].
      * destruct (Hex3 _ Hx); auto.
      * apply list_elem_of_singleton in Hx. injection Hx as ->. auto.
Qed.

(** The four ways set-up ends: the library could not be loaded; the [__cu]
    wrapper made the function return; the [error:] label; or the exit of
    lines 958-969 with the session open. *)
Lemma init_outcome avctx o ctx a r avctx' ctx' tr :
  nvenc_encode_init avctx o ctx a = Done (r, avctx', ctx', tr) ->
  (r = AVERROR_EXTERNAL /\ nvencoder ctx' = nvencoder ctx
   /\ cu_context ctx' = cu_context ctx
   /\ forall x, x ∈ kept tr -> x = R_cuda)
  \/ ((cu_module_load a = Some r
       \/ (cu_module_load a = None /\ cu_module_get_function a = Some r))
      /\ released tr = [] /\ cu_context ctx' = true
      /\ nvencoder ctx' = nvencoder ctx)
  \/ unwound a ctx' tr
  \/ (opened ctx' tr /\ r = (if add_cpb_side_data a then 0 else AVERROR ENOMEM)).
Proof.
  unfold nvenc_encode_init. intros H.
  destruct (nvenc_dyload_nvenc avctx ctx a) as [[loaded ctx0] tr0] eqn:Hdy.
  pose proof (dyload_flags _ _ _ _ _ _ Hdy) as [Hf1 Hf2].
  destruct (dyload_trace _ _ _ _ _ _ Hdy) as (Hl & Hl0 & Hl1).
  destruct (loaded =? 0) eqn:El.
  { apply Z.eqb_eq in El. injection H as <- <- <- <-. left. auto. }
  assert (Hone : loaded = 1)
    by (apply Z.eqb_neq in El; destruct Hl; congruence).
  destruct (Hl1 Hone) as (Htr0 & Hrel0 & _).
  right.
  pose proof (held_within_start a false false [] tr0 Htr0) as Hh0.
  destruct (get_cuda_context a); simpl in H.
  2:{ right. left.
      eapply init_error_unwound in H;
        [exact H|exact Hh0|discriminate|discriminate]. }
  assert (Hh1 : held_within a false true [] 0 (tr0 ++ [Acquire R_cuda_context])).
  { apply (held_within_acquire a false false false true);
      auto; try discriminate.
    unfold session_resources. rewrite !elem_of_cons. auto. }
  destruct (cu_module_load a) as [r0|] eqn:Hml.
  { injection H as <- <- <- <-. left. split; [auto|].
    split; [rewrite released_app, Hrel0; reflexivity|]. simpl. auto. }
  destruct (cu_module_get_function a) as [r0|] eqn:Hgf.
  { injection H as <- <- <- <-. left. split; [auto|].
    split; [rewrite !released_app, Hrel0; reflexivity|]. simpl. auto. }
  right.
  assert (Hh2 : held_within a false true [] 0
                  ((tr0 ++ [Acquire R_cuda_context]) ++ [Acquire R_cu_module])).
  { apply held_within_app; [exact Hh1|].
    intros e He. apply list_elem_of_singleton in He as ->.
    rewrite !elem_of_cons. auto. }
  destruct (decide (open_session a <> NV_ENC_SUCCESS)) as [Hos|Hos].
  { left. eapply init_error_unwound in H;
      [exact H|exact Hh2|discriminate|reflexivity]. }
  assert (Hh3 : held_within a true true [] 0
                  (((tr0 ++ [Acquire R_cuda_context]) ++ [Acquire R_cu_module])
                   ++ [Acquire R_encoder])).
  { apply (held_within_acquire a false true true true);
      auto; try discriminate.
    unfold session_resources. rewrite !elem_of_cons. auto 10. }
  set (tr3 := ((tr0 ++ [Acquire R_cuda_context]) ++ [Acquire R_cu_module])
               ++ [Acquire R_encoder]) in *.
  assert (Hex3 : forall x, Acquire x ∈ tr3 -> x ∈ session_resources).
  { intros x Hx. unfold tr3 in Hx.
    rewrite !elem_of_app, !list_elem_of_singleton in Hx.
    unfold session_resources. rewrite !elem_of_cons.
    destruct Hx as [[[Hx|Hx]|Hx]|Hx];
      [destruct (Htr0 _ Hx) as [E|E]; injection E as ->; auto| | |];
      injection Hx as ->; auto 10. }
  assert (Hrel3 : released tr3 = []).
  { unfold tr3. rewrite !released_app, Hrel0. reflexivity. }
  assert (Hmem3 : Acquire R_cuda_context ∈ tr3 /\ Acquire R_cu_module ∈ tr3
                  /\ Acquire R_encoder ∈ tr3).
  { unfold tr3. rewrite !elem_of_app, !list_elem_of_singleton. auto 10. }
  destruct (select_preset (preset o) _) as [[[[ep tp] isLL] lossless]|].
  2:{ left. eapply init_error_unwound in H;
        [exact H|exact Hh3|reflexivity|reflexivity]. }
  set (ctx4 := set_twopass _ _) in H.
  assert (He4 : nvencoder ctx4 = true) by reflexivity.
  assert (Hc4 : cu_context ctx4 = true) by reflexivity.
  destruct (configure_flags avctx a ctx4) as [He5 Hc5].
  rewrite He4 in He5. rewrite Hc4 in Hc5.
  set (ctx5 := configure_gop avctx a (size_surface_pool avctx ctx4)) in *.
  assert (Hfin : (if decide (get_preset_config a <> NV_ENC_SUCCESS)
                  then init_error avctx ctx4 0 AVERROR_EXTERNAL tr3
                  else match select_profile_level avctx o 0 with
                       | inl res1 => init_error avctx ctx5 0 res1 tr3
                       | inr res1 => init_pool avctx a ctx5 res1 tr3
                       end) = Done (r, avctx', ctx', tr)
                 \/ init_error avctx ctx4 0 (AVERROR EINVAL) tr3
                    = Done (r, avctx', ctx', tr)).
  { destruct (codec_id avctx); auto. }
  clear H. destruct Hfin as [H|H].
  2:{ left. eapply init_error_unwound in H;
        [exact H|exact Hh3|auto|auto]. }
  destruct (decide (get_preset_config a <> NV_ENC_SUCCESS)) as [Hpc|Hpc].
  { left. eapply init_error_unwound in H;
      [exact H|exact Hh3|auto|auto]. }
  destruct (select_profile_level avctx o 0) as [res1|res1].
  { left. eapply init_error_unwound in H;
      [exact H|exact Hh3|auto|auto]. }
  apply init_pool_outcome in H
    as [H|(He' & Hc' & Hmax & Hrel' & Hsub & Hi & Ho & Hall & Hex & ->)];
    [left; exact H| |rewrite He5, Hc5; eapply held_within_outs; exact Hh3
    |exact Hex3].
  right. split; [|reflexivity]. unfold opened. rewrite Hmax.
  destruct Hmem3 as (Hm1 & Hm2 & Hm3).
  split; [congruence|]. split; [congruence|]. split; [congruence|].
  split; [|split; [exact Hall|exact Hex]].
  intros x Hx. rewrite !elem_of_cons in Hx.
  destruct Hx as [->|[->|[->|[->|[->|Hx]]]]]; auto. inversion Hx.
Qed.

(** The engine never touches the handles of the session. *)
Lemma prepare_frame_handles codec ctx f a r :
  nvenc_prepare_frame codec ctx f a = Done r ->
  let c := match r with inl (_, c) => c | inr (c, _) => c end in
  nvencoder c = nvencoder ctx /\ cu_context c = cu_context ctx.
Proof.
  unfold nvenc_prepare_frame. intros H.
  apply bind_Done_inv in H as (inSurf & _ & H).
  destruct inSurf as [j|]; [|discriminate].
  apply bind_Done_inv in H as (ins & _ & H).
  destruct (decide (map_status a <> NV_ENC_SUCCESS));
    [injection H as <-; simpl; auto|].
  destruct (decide (_ <> Some (mappedBufferFmt a)));
    [injection H as <-; simpl; auto|].
  destruct (negb _); [injection H as <-; simpl; auto|].
  destruct (decide (unmap_status a <> NV_ENC_SUCCESS));
    [injection H as <-; simpl; auto|].
  apply bind_Done_inv in H as (i & _ & H).
  destruct (Z.of_nat i =? _).
  { apply bind_Done_inv in H as (ins0 & _ & H). injection H as <-.
    simpl. auto. }
  apply bind_Done_inv in H as (outs & _ & H).
  destruct codec; try (injection H as <-; simpl; auto; fail);
    apply bind_Done_inv in H as ([res tl] & _ & H);
    destruct (negb (res =? 0)); injection H as <-; simpl; auto.
Qed.

Lemma mark_busy_handles ctx i ctx' :
  mark_busy ctx i = Done ctx' ->
  nvencoder ctx' = nvencoder ctx /\ cu_context ctx' = cu_context ctx.
Proof.
  unfold mark_busy. intros H. apply bind_Done_inv in H as (outs & _ & H).
  injection H as <-. simpl. auto.
Qed.

Lemma nvenc_submit_handles codec ctx frame a sub :
  nvenc_submit codec ctx frame a = Done sub ->
  let c := match sub with Returned _ c => c | AtGate c => c end in
  nvencoder c = nvencoder ctx /\ cu_context c = cu_context ctx.
Proof.
  intros H. unfold nvenc_submit in H.
  apply bind_Done_inv in H as (prep & Hprep & H).
  assert (Hp : let c := match prep with inl (_, c) => c | inr (c, _) => c end in
               nvencoder c = nvencoder ctx /\ cu_context c = cu_context ctx).
  { destruct frame as [f|].
    - apply prepare_frame_handles in Hprep. exact Hprep.
    - injection Hprep as <-. simpl. auto. }
  destruct prep as [[res c1]|[c1 i]]; [injection H as <-; exact Hp|].
  simpl in Hp. destruct Hp as (Hm & Hf).
  apply bind_Done_inv in H as (qd & Hqd & H).
  destruct (bool_decide _) eqn:Hbd.
  - apply bool_decide_eq_true in Hbd as [_ Hst]. rewrite Hst in H.
    apply bind_Done_inv in Hqd as ([res q] & _ & Hqd).
    destruct (negb (res =? 0)).
    + injection Hqd as <-. injection H as <-. simpl. auto.
    + apply bind_Done_inv in Hqd as (ctx3 & Hmb & Hqd). injection Hqd as <-.
      injection H as <-.
      apply mark_busy_handles in Hmb as (Hm3 & Hf3). simpl.
      rewrite Hm3, Hf3. simpl. auto.
  - injection Hqd as <-.
    destruct (encode_status a); try (injection H as <-; simpl; auto; fail).
    apply bind_Done_inv in H as ([[res q] r] & _ & H).
    destruct (negb (res =? 0)); [injection H as <-; simpl; auto|].
    destruct frame as [f|]; [|injection H as <-; simpl; auto].
    apply bind_Done_inv in H as ([res1 r1] & _ & H).
    destruct (negb (res1 =? 0)); [injection H as <-; simpl; auto|].
    apply bind_Done_inv in H as (ctx5 & Hmb & H). injection H as <-.
    apply mark_busy_handles in Hmb as (Hm3 & Hf3). simpl.
    rewrite Hm3, Hf3. simpl. auto.
Qed.

Lemma nvenc_retrieve_handles FF codec ctx pkt got a res ctx' got' pkt' :
  nvenc_retrieve FF codec ctx pkt got a = Done (res, ctx', got', pkt') ->
  nvencoder ctx' = nvencoder ctx /\ cu_context ctx' = cu_context ctx.
Proof.
  unfold nvenc_retrieve. intros H.
  apply bind_Done_inv in H as ([surf r] & _ & H).
  apply bind_Done_inv in H as ([[res1 ctx2] pkt1] & Hp & H).
  apply process_output_surface_frame in Hp as (tl & ld & -> & Hld & _).
  destruct (negb (res1 =? 0)) eqn:E.
  { injection H as <- <- _ _. simpl. auto. }
  destruct surf as [i|]; [|discriminate].
  apply bind_Done_inv in H as (outs & _ & H).
  destruct (outs !! i ≫= input_surface) as [j|]; [|discriminate].
  destruct (input_surfaces _ !! j) as [s|]; [|discriminate].
  destruct (lockCount s =? 0); [discriminate|].
  apply bind_Done_inv in H as (ins & _ & H).
  injection H as <- <- _ _. simpl. auto.
Qed.

Lemma nvenc_encode_frame_handles FF codec ctx pkt frame got a res ctx' got' pkt' :
  nvenc_encode_frame FF codec ctx pkt frame got a
  = Done (res, ctx', got', pkt') ->
  nvencoder ctx' = nvencoder ctx /\ cu_context ctx' = cu_context ctx.
Proof.
  intros H. unfold nvenc_encode_frame in H.
  apply bind_Done_inv in H as (sub & Hsub & H).
  apply nvenc_submit_handles in Hsub.
  destruct sub as [r c1|c1];
    [injection H as _ <- _ _; exact Hsub|].
  simpl in Hsub. destruct Hsub as (Hm & Hf).
  destruct (emission_gate c1 frame);
    [|injection H as _ <- _ _; auto].
  apply nvenc_retrieve_handles in H as (-> & ->). auto.
Qed.

Lemma run_engine_handles FF codec : forall calls ctx outs ctx',
  run_engine FF codec ctx calls = Done (outs, ctx') ->
  nvencoder ctx' = nvencoder ctx /\ cu_context ctx' = cu_context ctx.
Proof.
  induction calls as [|[frame a] calls IH]; intros ctx outs ctx' H;
    simpl in H.
  - injection H as _ <-. auto.
  - apply bind_Done_inv in H as ([[[res ctx1] got] pkt] & Hcall & H).
    apply bind_Done_inv in H as ([outs1 ctx2] & Hrun & H).
    injection H as _ <-.
    apply nvenc_encode_frame_handles in Hcall as (Hm & Hf).
    apply IH in Hrun as (-> & ->). auto.
Qed.

Lemma close_surfaces_Done n : forall i ctx,
  (i + n <= length (input_surfaces ctx))%nat ->
  (i + n <= length (output_surfaces ctx))%nat ->
  exists ev, close_surfaces n i ctx = Done ev.
Proof.
  induction n as [|n IH]; intros i ctx Hi Ho; simpl; [eauto|].
  destruct (lookup_lt_is_Some_2 (input_surfaces ctx) i ltac:(lia)) as [s ->].
  destruct (lookup_lt_is_Some_2 (output_surfaces ctx) i ltac:(lia)) as [o' ->].
  destruct (IH (S i) ctx ltac:(lia) ltac:(lia)) as [ev ->]. simpl. eauto.
Qed.

Lemma kept_no_release tr x :
  released tr = [] -> Acquire x ∈ tr -> x ∈ kept tr.
Proof.
  intros Hr Hx. apply kept_elem. split; [exact Hx|].
  intros Hrel. apply released_elem in Hrel. rewrite Hr in Hrel.
  inversion Hrel.
Qed.

Lemma close_surfaces_only n : forall i ctx ev,
  close_surfaces n i ctx = Done ev ->
  forall e, e ∈ ev ->
    exists j, e = Release (R_registration j) \/ e = Release (R_input_mem j)
              \/ e = Release (R_bitstream j).
Proof.
  induction n as [|n IH]; intros i ctx ev H e He; simpl in H.
  - injection H as <-. inversion He.
  - destruct (input_surfaces ctx !! i) as [s|]; [|discriminate].
    destruct (output_surfaces ctx !! i) as [o|]; [|discriminate].
    apply bind_Done_inv in H as (rest & Hrest & H). injection H as <-.
    simpl in He. rewrite !elem_of_cons in He.
    destruct He as [->|[->|[->|He]]]; eauto.
Qed.

(** X10. Whenever set-up returns with the encoder handle cleared (the
    library could not be loaded, or the [error:] label was taken, whatever
    the failure and whatever value is returned), it has given back all it
    acquired except: the CUDA library when NVENC could not be loaded, the
    CUDA module, the two surface arrays, and the device memory of a surface
    whose registration was refused.  ([cu_module_load] and
    [cu_module_get_function] are the calls under the [__cu] wrapper, taken
    here to go on.) *)
Theorem failed_setup_gives_back avctx o ctx a r avctx' ctx' tr :
  cu_module_load a = None -> cu_module_get_function a = None ->
  nvenc_encode_init avctx o ctx a = Done (r, avctx', ctx', tr) ->
  nvencoder ctx' = false ->
  forall x, x ∈ kept tr ->
    x ∈ [R_cuda; R_cu_module; R_input_surfaces; R_output_surfaces]
    \/ exists k, x = R_input_mem k /\ register_resource a k <> NV_ENC_SUCCESS.
Proof.
  intros Hml Hgf H Hoff x Hx.
  apply init_outcome in H
    as [(_ & _ & _ & H)|[([E|[_ E]] & _)|[(_ & _ & _ & H)|[(He & _) _]]]];
    try congruence.
  - left. rewrite (H _ Hx). apply list_elem_of_here.
  - destruct (H _ Hx) as [Hn|Hn]; [left|right; exact Hn].
    rewrite !elem_of_cons in Hn. rewrite !elem_of_cons. tauto.
Qed.

Lemma failed_setup_gives_back_witness :
  exists r avctx' ctx' tr,
    nvenc_encode_init avctx_1080p options_default ctx_zero
      answers_register_refused = Done (r, avctx', ctx', tr)
    /\ nvencoder ctx' = false
    /\ forall x, x ∈ kept tr ->
         x ∈ [R_cuda; R_cu_module; R_input_surfaces; R_output_surfaces]
         \/ exists k, x = R_input_mem k
                      /\ register_resource answers_register_refused k
                         <> NV_ENC_SUCCESS.
Proof.
  eexists _, _, _, _. split; [vm_compute; reflexivity|].
  split; [reflexivity|].
  eapply (failed_setup_gives_back avctx_1080p options_default ctx_zero
            answers_register_refused);
    [reflexivity|reflexivity|vm_compute; reflexivity|reflexivity].
Defined.

(** X11. Whenever set-up, entered with the encoder handle null, returns with
    the handle set, it has given nothing back: the CUDA context, the CUDA
    module, the encoder session, both surface arrays and, for each of the
    [max_surface_count] surfaces, its device memory, its registration and
    its bitstream buffer are all still held.  The value returned is then 0,
    or [AVERROR(ENOMEM)] when [ff_add_cpb_side_data] failed: that failure
    is reported with the whole session left open. *)
Theorem open_session_holds_all avctx o ctx a r avctx' ctx' tr :
  nvencoder ctx = false ->
  nvenc_encode_init avctx o ctx a = Done (r, avctx', ctx', tr) ->
  nvencoder ctx' = true ->
  r = (if add_cpb_side_data a then 0 else AVERROR ENOMEM)
  /\ released tr = []
  /\ (forall x, x ∈ [R_cuda_context; R_cu_module; R_encoder;
                     R_input_surfaces; R_output_surfaces] -> x ∈ kept tr)
  /\ forall i, (i < Z.to_nat (max_surface_count ctx'))%nat ->
       R_input_mem i ∈ kept tr /\ R_registration i ∈ kept tr
       /\ R_bitstream i ∈ kept tr.
Proof.
  intros Hnull H Hon.
  apply init_outcome in H
    as [(_ & E & _)|[(_ & _ & _ & E)|[(E & _)|[Hop ->]]]];
    try congruence.
  destruct Hop as (_ & _ & Hrel & Hmem & Hall & _).
  split; [reflexivity|]. split; [exact Hrel|].
  split; [intros x Hx; apply kept_no_release; auto|].
  intros i Hi. destruct (Hall i Hi) as (H1 & H2 & H3).
  repeat split; apply kept_no_release; assumption.
Qed.

Lemma open_session_holds_all_witness :
  exists avctx' ctx' tr,
    nvenc_encode_init avctx_1080p options_default ctx_zero
      answers_no_side_data = Done (AVERROR ENOMEM, avctx', ctx', tr)
    /\ max_surface_count ctx' = 32
    /\ released tr = []
    /\ (forall x, x ∈ [R_cuda_context; R_cu_module; R_encoder;
                       R_input_surfaces; R_output_surfaces] -> x ∈ kept tr)
    /\ forall i, (i < Z.to_nat (max_surface_count ctx'))%nat ->
         R_input_mem i ∈ kept tr /\ R_registration i ∈ kept tr
         /\ R_bitstream i ∈ kept tr.
Proof.
  eexists _, _, _. split; [vm_compute; reflexivity|].
  split; [reflexivity|].
  eapply (open_session_holds_all avctx_1080p options_default ctx_zero
            answers_no_side_data (AVERROR ENOMEM));
    [reflexivity|vm_compute; reflexivity|reflexivity].
Defined.

(** X12. Tear-down after a session.  From any state a session opened by a
    set-up that returned 0 with the encoder handle set can reach, through
    any sequence of encode calls, [nvenc_encode_close] returns 0 with the
    encoder handle cleared and [max_surface_count] reset to 0.  Of what
    set-up acquired it gives back the resources of every surface, the
    encoder session, the CUDA context and both libraries, and never the
    CUDA module or the two surface arrays; besides these only the transfer
    surface and the out-of-band header can remain. *)
Theorem teardown_after_session FF avctx o ctx0 a avctx' ctx1 tr calls outs
    ctx left :
  fresh ctx0 -> cu_wrapper_reports a ->
  nvenc_encode_init avctx o ctx0 a = Done (0, avctx', ctx1, tr) ->
  nvencoder ctx1 = true ->
  run_engine FF (codec_id avctx) ctx1 calls = Done (outs, ctx) ->
  exists ctx' trc,
    nvenc_encode_close ctx left = Done (0, ctx', trc)
    /\ nvencoder ctx' = false /\ nvenc_lib ctx' = false
    /\ cu_context ctx' = left /\ max_surface_count ctx' = 0
    /\ (forall x, x ∈ kept (tr ++ trc) ->
          x ∈ [R_cu_module; R_input_surfaces; R_output_surfaces;
               R_transfer_mem; R_extradata])
    /\ (forall x, x ∈ [R_cu_module; R_input_surfaces; R_output_surfaces] ->
          x ∈ kept (tr ++ trc)).
Proof.
  intros Hfresh Hcu Hinit Hon Hrun.
  assert (Hstate : session_state FF avctx o ctx0 a calls ctx).
  { split; [exact Hfresh|]. split; [exact Hcu|]. eauto 10. }
  destruct (session_engine_inv _ _ _ _ _ _ _ Hstate)
    as ((_ & _ & _ & _ & Hli & Hlo & _) & _).
  destruct (run_engine_capacity _ _ _ _ _ _ Hrun) as [Hmax _].
  destruct (run_engine_handles _ _ _ _ _ _ Hrun) as [He Hc].
  destruct Hcu as [Hcu1 Hcu2].
  apply init_outcome in Hinit
    as [(E & _)|[([E|[_ E]] & _)|[(E & _)|[Hop _]]]];
    [discriminate|congruence|congruence|congruence|].
  destruct Hop as (_ & Hc1 & Hrel & Hmem & Hall & Hex).
  rewrite <- Hmax in Hall, Hex.
  unfold nvenc_encode_close.
  set (ctxq := set_output_surface_queue _ _).
  destruct (close_surfaces_Done (Z.to_nat (max_surface_count ctxq)) 0 ctxq)
    as [ev Hev]; [simpl; lia|simpl; lia|].
  rewrite Hev. simpl. rewrite He, Hon, Hc, Hc1. simpl.
  eexists _, _. split; [reflexivity|].
  split; [reflexivity|]. split; [reflexivity|]. split; [reflexivity|].
  split; [reflexivity|].
  destruct (close_surfaces_events _ _ _ _ Hev) as [_ Hgone].
  pose proof (close_surfaces_only _ _ _ _ Hev) as Honly.
  change (max_surface_count ctxq) with (max_surface_count ctx) in Hgone.
  set (trc := ((ev ++ [Release R_encoder]) ++ [Release R_cuda_context])
               ++ [Release R_nvenc_lib; Release R_cuda]).
  assert (Htrc : forall e, e ∈ trc ->
            e ∈ ev \/ e ∈ [Release R_encoder; Release R_cuda_context;
                           Release R_nvenc_lib; Release R_cuda]).
  { intros e Hin. unfold trc in Hin.
    rewrite !elem_of_app, !list_elem_of_singleton in Hin.
    rewrite !elem_of_cons in *. tauto. }
  split.
  - intros x Hx. apply kept_elem in Hx as [Ha Hr].
    assert (Hin : Acquire x ∈ tr).
    { apply elem_of_app in Ha as [Ha|Ha]; [exact Ha|].
      destruct (Htrc _ Ha) as [Hin|Hin].
      - destruct (Honly _ Hin) as (j & [E|[E|E]]); discriminate.
      - rewrite !elem_of_cons in Hin.
        destruct Hin as [E|[E|[E|[E|E]]]]; try discriminate. inversion E. }
    assert (Hno : forall y, Release y ∈ trc -> y <> x).
    { intros y Hy ->. apply Hr. apply elem_of_app. auto. }
    assert (Hfix : forall y,
              y ∈ [R_encoder; R_cuda_context; R_nvenc_lib; R_cuda] ->
              y <> x).
    { intros y Hy. apply Hno. unfold trc.
      rewrite !elem_of_app, !list_elem_of_singleton.
      rewrite !elem_of_cons in *.
      destruct Hy as [->|[->|[->|[->|Hy]]]]; [auto 10..|inversion Hy]. }
    destruct (Hex _ Hin) as [Hs|[->|(i & Hi & Hx)]].
    + unfold session_resources in Hs. rewrite !elem_of_cons in Hs.
      rewrite !elem_of_cons.
      destruct Hs as [->|[->|[->|[->|[->|[->|[->|[->|Hs]]]]]]]];
        [exfalso; apply (Hfix R_cuda); [rewrite !elem_of_cons|]; auto 10
        |exfalso; apply (Hfix R_nvenc_lib); [rewrite !elem_of_cons|]; auto 10
        |exfalso; apply (Hfix R_cuda_context); [rewrite !elem_of_cons|];
           auto 10
        |auto
        |exfalso; apply (Hfix R_encoder); [rewrite !elem_of_cons|]; auto 10
        |auto|auto|auto 10
        |inversion Hs].
    + rewrite !elem_of_cons. auto 10.
    + destruct (Hgone i ltac:(lia)) as (G1 & G2 & G3).
      assert (Hsub : forall e, e ∈ ev -> e ∈ trc).
      { intros e Hin'. unfold trc. rewrite !elem_of_app. auto. }
      exfalso. destruct Hx as [-> |[-> | ->]].
      * apply (Hno (R_input_mem i)); auto.
      * apply (Hno (R_registration i)); auto.
      * apply (Hno (R_bitstream i)); auto.
  - intros x Hx. apply kept_elem.
    assert (Hin : Acquire x ∈ tr).
    { apply Hmem. rewrite !elem_of_cons in *. tauto. }
    split; [apply elem_of_app; auto|].
    intros Hr. apply elem_of_app in Hr as [Hr|Hr].
    + apply released_elem in Hr. rewrite Hrel in Hr. inversion Hr.
    + rewrite !elem_of_cons in Hx.
      destruct (Htrc _ Hr) as [Hin'|Hin'].
      * destruct (Honly _ Hin') as (j & [E|[E|E]]); injection E as ->;
          destruct Hx as [Hx|[Hx|[Hx|Hx]]]; try discriminate; inversion Hx.
      * rewrite !elem_of_cons in Hin'.
        destruct Hin' as [E|[E|[E|[E|E]]]]; [| | | |inversion E];
          injection E as ->;
          destruct Hx as [Hx|[Hx|[Hx|Hx]]]; try discriminate; inversion Hx.
Qed.

Lemma teardown_after_session_witness :
  exists avctx' tr,
    nvenc_encode_init avctx_1080p options_default
      (set_buffer_delay ctx_zero 2) answers_ok = Done (0, avctx', ctx_open, tr)
    /\ exists ctx' trc,
         nvenc_encode_close ctx_five_in_flight false = Done (0, ctx', trc)
         /\ nvencoder ctx' = false /\ nvenc_lib ctx' = false
         /\ cu_context ctx' = false /\ max_surface_count ctx' = 0
         /\ (forall x, x ∈ kept (tr ++ trc) ->
               x ∈ [R_cu_module; R_input_surfaces; R_output_surfaces;
                    R_transfer_mem; R_extradata])
         /\ (forall x, x ∈ [R_cu_module; R_input_surfaces;
                            R_output_surfaces] ->
               x ∈ kept (tr ++ trc)).
Proof.
  eexists _, _. split; [vm_compute; reflexivity|].
  eapply (teardown_after_session true avctx_1080p options_default
            (set_buffer_delay ctx_zero 2) answers_ok _ ctx_open _
            calls_five_frames _ ctx_five_in_flight false);
    [repeat split|split; discriminate|vm_compute; reflexivity|reflexivity
    |vm_compute; reflexivity].
Defined.

Lemma init_surfaces_failed_code n avctx a : forall k ctx tr res1 k' ctx' tr',
  init_surfaces n k avctx a ctx tr = Done (Some res1, k', ctx', tr') ->
  res1 <> 0.
Proof.
  induction n as [|n IH]; intros k ctx tr res1 k' ctx' tr' H;
    [discriminate|].
  apply init_surfaces_step in H
    as [(Hf & _)
       |(ctxm & _ & _ & _ & _
         & [(_ & Hf & _)|(_ & o0 & flag & _ & Hcase)])];
    [injection Hf as ->; discriminate|injection Hf as ->; discriminate|].
  cbv zeta in Hcase. destruct Hcase as [(_ & Hf & _)|(_ & Hrec)];
    [injection Hf as ->; discriminate|].
  eapply IH; exact Hrec.
Qed.

(** The [error:] label taken after [sc] surfaces were set up in full gives
    the three resources of each of them back. *)
Lemma init_error_releases avctx ctx sc res tr r avctx' ctx' tr' :
  init_error avctx ctx sc res tr = Done (r, avctx', ctx', tr') ->
  (forall i, (i < sc)%nat ->
     exists o, output_surfaces ctx !! i = Some o /\ output_surface o = true) ->
  forall i, (i < sc)%nat ->
    Release (R_registration i) ∈ tr' /\ Release (R_input_mem i) ∈ tr'
    /\ Release (R_bitstream i) ∈ tr'.
Proof.
  unfold init_error. intros H Hflag i Hi.
  apply bind_Done_inv in H as (ev & Hev & H).
  unfold nvenc_unload_nvenc in H. injection H as <- <- <- <-.
  destruct (release_surfaces_events _ _ _ _ Hev) as [_ Hall].
  destruct (Hall i ltac:(lia)) as (H1 & H2 & H3).
  destruct (Hflag i Hi) as (o & Ho & Hf). specialize (H3 o Ho Hf).
  rewrite !elem_of_app. auto 10.
Qed.

(** Set-up returning 0 with the encoder handle cleared has been through
    the [error:] label after the whole pool was set up. *)
Lemma init_pool_zero avctx a ctx res tr avctx' ctx' tr' :
  held_within a (nvencoder ctx) (cu_context ctx) (output_surfaces ctx) 0 tr ->
  nvencoder ctx = true ->
  init_pool avctx a ctx res tr = Done (0, avctx', ctx', tr') ->
  nvencoder ctx' = false ->
  max_surface_count ctx' = max_surface_count ctx
  /\ forall i, (i < Z.to_nat (max_surface_count ctx))%nat ->
       Release (R_registration i) ∈ tr' /\ Release (R_input_mem i) ∈ tr'
       /\ Release (R_bitstream i) ∈ tr'.
Proof.
  unfold init_pool. intros Hh Hon H Hoff.
  destruct (decide (initialize_encoder a <> NV_ENC_SUCCESS)) as [Hie|Hie].
  { apply init_error_config in H as [H _]. discriminate. }
  destruct (input_surfaces_alloc a); simpl in H.
  2:{ apply init_error_config in H as [H _]. discriminate. }
  destruct (output_surfaces_alloc a); simpl in H.
  2:{ apply init_error_config in H as [H _]. discriminate. }
  apply bind_Done_inv in H as ([[[failed k'] ctx3] tr3] & Hs & H).
  set (n := Z.to_nat (max_surface_count ctx)) in *.
  set (tl := if decide (pix_fmt avctx = AV_PIX_FMT_YUV420P)
             then [Acquire R_transfer_mem] else []) in *.
  assert (Htl : forall e, e ∈ Acquire R_output_surfaces :: tl ->
                  e = Acquire R_output_surfaces \/ e = Acquire R_transfer_mem).
  { intros e He. apply elem_of_cons in He as [He|He]; [auto|].
    unfold tl in He. destruct (decide _); [|inversion He].
    apply list_elem_of_singleton in He. auto. }
  pose proof (init_surfaces_held n avctx a (nvencoder ctx) (cu_context ctx)
                _ _ _ _ _ _ _
                (held_within_outs _ _ _ _ _ _
                   (held_within_app a _ _ (output_surfaces ctx) 0 _ _
                      (held_within_app a _ _ _ 0 tr [Acquire R_input_surfaces]
                         Hh ltac:(intros e He;
                                  apply list_elem_of_singleton in He as ->;
                                  rewrite !elem_of_cons; auto))
                      ltac:(intros e He; destruct (Htl e He) as [-> | ->];
                            rewrite !elem_of_cons; auto 6)))
                Hs)
    as (Hh3 & _ & He3 & _ & _ & _ & Hnone).
  simpl in Hh3, He3, Hnone.
  destruct failed as [res1|].
  { apply init_error_config in H as [H _].
    apply init_surfaces_failed_code in Hs. congruence. }
  destruct (Hnone eq_refl) as [-> Hall]. simpl in Hall.
  assert (Hmax : max_surface_count ctx3 = max_surface_count ctx).
  { eapply init_surfaces_filled in Hs as (_ & _ & Hm); [exact Hm|].
    unfold pool_filled. simpl. rewrite !length_replicate.
    split; [reflexivity|]. split; [reflexivity|]. intros j s Hj. lia. }
  assert (Hflag : forall i, (i < n)%nat ->
            exists o, output_surfaces ctx3 !! i = Some o
                      /\ output_surface o = true).
  { intros i Hi. destruct Hh3 as (_ & _ & _ & H4). apply H4.
    apply (Hall i). lia. }
  assert (Herr : forall res0,
            init_error avctx ctx3 n res0 tr3 = Done (0, avctx', ctx', tr') ->
            max_surface_count ctx' = max_surface_count ctx
            /\ forall i, (i < n)%nat ->
                 Release (R_registration i) ∈ tr'
                 /\ Release (R_input_mem i) ∈ tr'
                 /\ Release (R_bitstream i) ∈ tr').
  { intros res0 He. split.
    - apply init_error_config in He as [_ (Hm & _)]. congruence.
    - eapply init_error_releases; eauto. }
  unfold init_finish in H.
  assert (Hopen : forall avctx1 tr1,
            (if negb (add_cpb_side_data a)
             then Done (AVERROR ENOMEM,
                        (if 1 <? frameIntervalP ctx3
                         then set_has_b_frames avctx1 2 else avctx1),
                        ctx3, tr1)
             else Done (0, (if 1 <? frameIntervalP ctx3
                            then set_has_b_frames avctx1 2 else avctx1),
                        ctx3, tr1))
            = Done (0, avctx', ctx', tr') -> False).
  { intros avctx1 tr1 E.
    destruct (negb (add_cpb_side_data a));
      [injection E as E0 _ _ _; discriminate E0
      |injection E as _ <- _; congruence]. }
  destruct (global_header avctx).
  - destruct (decide (get_sequence_params a <> NV_ENC_SUCCESS));
      [eapply Herr; exact H|].
    destruct (negb (extradata_alloc a)); [eapply Herr; exact H|].
    exfalso. eapply Hopen; exact H.
  - exfalso. eapply Hopen; exact H.
Qed.

Lemma init_zero_unwound avctx o ctx a avctx' ctx' tr :
  cu_wrapper_reports a ->
  nvenc_encode_init avctx o ctx a = Done (0, avctx', ctx', tr) ->
  nvencoder ctx' = false ->
  forall i, (i < Z.to_nat (max_surface_count ctx'))%nat ->
    Release (R_registration i) ∈ tr /\ Release (R_input_mem i) ∈ tr
    /\ Release (R_bitstream i) ∈ tr.
Proof.
  intros [Hcu1 Hcu2]. unfold nvenc_encode_init.
  destruct (nvenc_dyload_nvenc avctx ctx a) as [[loaded ctx0] tr0] eqn:Hdy.
  destruct (dyload_trace _ _ _ _ _ _ Hdy) as (Hl & _ & Hl1).
  destruct (loaded =? 0) eqn:El; [discriminate|].
  assert (Hone : loaded = 1)
    by (apply Z.eqb_neq in El; destruct Hl; congruence).
  destruct (Hl1 Hone) as (Htr0 & _ & _).
  pose proof (held_within_start a false false [] tr0 Htr0) as Hh0.
  destruct (get_cuda_context a); simpl.
  2:{ intros H. apply init_error_config in H as [H _]. discriminate. }
  destruct (cu_module_load a) as [r|].
  { intros H. injection H as -> _ _ _. congruence. }
  destruct (cu_module_get_function a) as [r|].
  { intros H. injection H as -> _ _ _. congruence. }
  destruct (decide (open_session a <> NV_ENC_SUCCESS)).
  { intros H. apply init_error_config in H as [H _]. discriminate. }
  assert (Hh3 : held_within a true true [] 0
                  (((tr0 ++ [Acquire R_cuda_context]) ++ [Acquire R_cu_module])
                   ++ [Acquire R_encoder])).
  { apply (held_within_acquire a false true true true);
      auto; try discriminate.
    - apply held_within_app.
      + apply (held_within_acquire a false false false true);
          auto; try discriminate.
        unfold session_resources. rewrite !elem_of_cons. auto.
      + intros e He. apply list_elem_of_singleton in He as ->.
        rewrite !elem_of_cons. auto.
    - unfold session_resources. rewrite !elem_of_cons. auto 10. }
  destruct (select_preset _ _) as [[[[g tp] isLL] lossless]|].
  2:{ intros H. apply init_error_config in H as [H _]. discriminate. }
  set (ctx4 := set_twopass _ _).
  assert (He4 : nvencoder ctx4 = true) by reflexivity.
  assert (Hc4 : cu_context ctx4 = true) by reflexivity.
  destruct (configure_flags avctx a ctx4) as [He5 Hc5].
  rewrite He4 in He5. rewrite Hc4 in Hc5.
  destruct (codec_id avctx) eqn:Hcodec;
    try (intros H; apply init_error_config in H as [H _]; discriminate);
    (destruct (decide (get_preset_config a <> NV_ENC_SUCCESS));
     [intros H; apply init_error_config in H as [H _]; discriminate|]);
    (destruct (select_profile_level avctx o 0) as [res1|res1] eqn:Hsel;
     [intros H; apply init_error_config in H as [H _]; subst res1;
      exfalso; revert Hsel; unfold select_profile_level; rewrite Hcodec;
      repeat case_match; intros; simplify_eq;
      try match goal with
          | E : negb (?x =? 0) = true, E' : ?x = 0 |- _ =>
            rewrite E' in E; discriminate
          end
     |intros H Hoff;
      apply init_pool_zero in H as [Hmax Hall];
      [rewrite Hmax; exact Hall
      |rewrite He5, Hc5; eapply held_within_outs; exact Hh3
      |exact He5|exact Hoff]]).
Qed.

(** X13. Tear-down after the set-up that returned 0 through its [error:]
    label (the sequence-header query was refused: set-up reports success
    with the encoder handle cleared).  Whatever encode calls came between,
    [nvenc_encode_close] still returns 0, and every surface of the pool is
    unregistered, its device memory freed and its bitstream buffer
    destroyed a second time: each of these releases is in the trace of
    set-up and again in the trace of tear-down. *)
Theorem teardown_after_header_failure FF avctx o ctx0 a avctx' ctx1 tr calls
    outs ctx left :
  fresh ctx0 -> cu_wrapper_reports a ->
  nvenc_encode_init avctx o ctx0 a = Done (0, avctx', ctx1, tr) ->
  nvencoder ctx1 = false ->
  run_engine FF (codec_id avctx) ctx1 calls = Done (outs, ctx) ->
  exists ctx' trc,
    nvenc_encode_close ctx left = Done (0, ctx', trc)
    /\ (max_surface_count ctx = 32 \/ max_surface_count ctx = 48)
    /\ forall i, (i < Z.to_nat (max_surface_count ctx))%nat ->
         forall x, x ∈ [R_registration i; R_input_mem i; R_bitstream i] ->
           Release x ∈ tr /\ Release x ∈ trc.
Proof.
  intros Hfresh Hcu Hinit Hoff Hrun.
  assert (Hstate : session_state FF avctx o ctx0 a calls ctx).
  { split; [exact Hfresh|]. split; [exact Hcu|]. eauto 10. }
  destruct (session_engine_inv _ _ _ _ _ _ _ Hstate)
    as ((_ & _ & _ & _ & Hli & Hlo & _) & _).
  pose proof (session_capacity _ _ _ _ _ _ _ Hstate) as Hcap.
  destruct (run_engine_capacity _ _ _ _ _ _ Hrun) as [Hmax _].
  pose proof (init_zero_unwound _ _ _ _ _ _ _ Hcu Hinit Hoff) as Hall.
  rewrite <- Hmax in Hall.
  unfold nvenc_encode_close.
  set (ctxq := set_output_surface_queue _ _).
  destruct (close_surfaces_Done (Z.to_nat (max_surface_count ctxq)) 0 ctxq)
    as [ev Hev]; [simpl; lia|simpl; lia|].
  rewrite Hev. simpl.
  destruct (close_surfaces_events _ _ _ _ Hev) as [_ Hgone].
  change (max_surface_count ctxq) with (max_surface_count ctx) in Hgone.
  destruct (nvencoder ctx), (cu_context ctx); simpl;
    (eexists _, _; split; [reflexivity|];
     split; [destruct (8160 <=? num_macroblocks avctx); auto|];
     intros i Hi x Hx;
     destruct (Hall i Hi) as (A1 & A2 & A3);
     destruct (Hgone i ltac:(lia)) as (G1 & G2 & G3);
     rewrite !elem_of_cons in Hx;
     destruct Hx as [->|[->|[->|Hx]]]; [| | |inversion Hx];
     (split; [assumption|]); rewrite !elem_of_app; auto 10).
Qed.

Lemma teardown_after_header_failure_witness :
  exists avctx' ctx1 tr,
    nvenc_encode_init avctx_1080p options_default ctx_zero
      answers_header_refused = Done (0, avctx', ctx1, tr)
    /\ exists ctx' trc,
         nvenc_encode_close ctx1 false = Done (0, ctx', trc)
         /\ (max_surface_count ctx1 = 32 \/ max_surface_count ctx1 = 48)
         /\ forall i, (i < Z.to_nat (max_surface_count ctx1))%nat ->
              forall x, x ∈ [R_registration i; R_input_mem i; R_bitstream i] ->
                Release x ∈ tr /\ Release x ∈ trc.
Proof.
  eexists _, _, _. split; [vm_compute; reflexivity|].
  eapply (teardown_after_header_failure true avctx_1080p options_default
            ctx_zero answers_header_refused _ _ _ [] []);
    [repeat split|split; discriminate|vm_compute; reflexivity|reflexivity
    |reflexivity].
Defined.

(** ** The option strings *)

Lemma input_string_to_uint32_first pair input :
  match input_string_to_uint32 pair input with
  | (res, Some num) =>
    res = 0
    /\ exists before after,
         pair = before ++ (input, num) :: after /\ input ∉ before.*1
  | (res, None) => res = AVERROR EINVAL /\ input ∉ pair.*1
  end.
Proof.
  induction pair as [|[str num] pair IH]; simpl.
  - split; [reflexivity|]. intros H. inversion H.
  - destruct (String.eqb input str) eqn:E.
    + apply String.eqb_eq in E as ->. split; [reflexivity|].
      exists [], pair. split; [reflexivity|]. intros H. inversion H.
    + apply String.eqb_neq in E.
      destruct (input_string_to_uint32 pair input) as [res [num'|]].
      * destruct IH as (-> & before & after & -> & Hn).
        split; [reflexivity|].
        exists ((str, num) :: before), after. split; [reflexivity|].
        simpl. rewrite elem_of_cons. tauto.
      * destruct IH as (-> & Hn). split; [reflexivity|].
        rewrite elem_of_cons. tauto.
Qed.




Lemma input_string_to_uint32_at before input num after :
  input ∉ before.*1 ->
  input_string_to_uint32 (before ++ (input, num) :: after) input
  = (0, Some num).
Proof.
  induction before as [|[str n] before IH]; simpl; intros Hn.
  - rewrite String.eqb_refl. reflexivity.
  - rewrite elem_of_cons in Hn.
    destruct (String.eqb input str) eqn:E.
    + apply String.eqb_eq in E. tauto.
    + apply IH. tauto.
Qed.

(** X14. [input_string_to_uint32] is a first-match lookup: it returns 0 and
    stores [num] exactly when the table has an entry [(input, num)] with no
    earlier entry of that name, and it returns [AVERROR(EINVAL)] storing
    nothing exactly when no entry has the name. *)
Theorem level_lookup_first_match pair input :
  (forall num,
     input_string_to_uint32 pair input = (0, Some num)
     <-> exists before after,
           pair = before ++ (input, num) :: after /\ input ∉ before.*1)
  /\ (input_string_to_uint32 pair input = (AVERROR EINVAL, None)
      <-> input ∉ pair.*1).
Proof.
  pose proof (input_string_to_uint32_first pair input) as H.
  split.
  - intros num. split.
    + intros E. rewrite E in H. destruct H as [_ H]. exact H.
    + intros (before & after & -> & Hn).
      apply input_string_to_uint32_at. exact Hn.
  - split.
    + intros E. rewrite E in H. destruct H as [_ H]. exact H.
    + intros Hn.
      destruct (input_string_to_uint32 pair input) as [res [num|]].
      * destruct H as (_ & before & after & -> & _). exfalso. apply Hn.
        rewrite fmap_app, elem_of_app. right. simpl. apply list_elem_of_here.
      * destruct H as [-> _]. reflexivity.
Qed.



(** ** How the queue grows *)

(** X16. The capacity of a queue changes only in [data_queue_enqueue], and
    only upwards: a successful enqueue leaves a capacity of 4 on a queue
    that had none, doubles the capacity of a full queue, and keeps it
    otherwise; a failed one ([AVERROR(ENOMEM)], the only other return
    value) keeps it too.  While there is room the allocator is not
    consulted: the call does the same with any allocator. *)
Theorem enqueue_growth_policy m q d r q' :
  queue_wf q -> count q < 2 ^ 31 ->
  data_queue_enqueue m q d = Done (r, q') ->
  (r = 0 \/ r = AVERROR ENOMEM)
  /\ size q' = (if r =? 0 then
                  if size q =? 0 then 4
                  else if count q =? size q then 2 * size q else size q
                else size q)
  /\ (size q <> 0 -> count q <> size q ->
      forall m', data_queue_enqueue m' q d = Done (r, q')).
Proof.
  intros Hwf Hc H.
  destruct (data q) as [buf|] eqn:Hd.
  - destruct (queue_wf_alloc q buf Hwf Hd) as (k & Hk & Hs & Hl & Hp & Hcs).
    pose proof (pow2_bounds k Hk) as Hb.
    destruct (size q =? 0) eqn:E; [apply Z.eqb_eq in E; lia|].
    destruct (count q =? size q) eqn:E1.
    + apply Z.eqb_eq in E1.
      destruct (m (size_t (uint32_t (Z.shiftl (size q) 1) * 8))) eqn:Hm.
      * destruct (enqueue_rec_grow 2 m q d Hwf ltac:(lia) E1 ltac:(lia) Hm)
          as (q1 & He & _ & _ & _ & Hs').
        unfold data_queue_enqueue in H. rewrite He in H.
        injection H as <- <-. change (0 =? 0) with true. cbv iota.
        split; [auto|]. split; [exact Hs'|].
        intros _ Hne. contradiction.
      * rewrite (enqueue_enomem m q d
                   (size_t (uint32_t (Z.shiftl (size q) 1) * 8)) Hwf) in H;
          [|unfold allocation_request; rewrite E;
            apply Z.eqb_eq in E1; rewrite E1; reflexivity|exact Hm].
        injection H as <- <-. split; [auto|]. split; [reflexivity|].
        intros _ Hne. contradiction.
    + apply Z.eqb_neq in E1.
      destruct (store_spec q d Hwf ltac:(lia) ltac:(lia))
        as (q1 & He & _ & _ & _ & Hs').
      unfold data_queue_enqueue in *.
      rewrite enqueue_rec_room in H by lia. rewrite He in H.
      injection H as <- <-. change (0 =? 0) with true. cbv iota.
        split; [auto|]. split; [exact Hs'|].
      intros _ _ m'. rewrite enqueue_rec_room by lia. exact He.
  - apply queue_wf_zero in Hwf; [|assumption]. subst q.
    destruct (m (size_t (4 * 8))) eqn:Hm.
    + unfold data_queue_enqueue in H. rewrite enqueue_rec_first in H by exact Hm.
      injection H as <- <-. change (0 =? 0) with true. cbv iota.
        split; [auto|]. split; [reflexivity|].
      intros Hne. contradiction.
    + rewrite (enqueue_enomem m queue_zero d (size_t (4 * 8))) in H;
        [|reflexivity|reflexivity|exact Hm].
      injection H as <- <-. split; [auto|]. split; [reflexivity|].
      intros Hne. contradiction.
Qed.

Lemma enqueue_growth_policy_witness :
  exists q',
    data_queue_enqueue granted queue_full (U_timestamp 9) = Done (0, q')
    /\ size queue_full = 4 /\ size q' = 8.
Proof.
  eexists. split; [vm_compute; reflexivity|]. split; [reflexivity|].
  eapply (enqueue_growth_policy granted queue_full (U_timestamp 9) 0);
    [reflexivity|reflexivity|vm_compute; reflexivity].
Defined.

(** ** Rate control *)

(** X17. With neither lossless, CBR nor constant quality selected and both
    quantiser bounds given ([0 <= qmin <= qmax], as far as [int] holds
    [qmax + 3 * qmin]), the block enables both bounds with the caller's
    values and starts P-frames at [(qmax + 3 * qmin) / 4]: a value between
    the bounds and no higher than their midpoint.  The mode is two-pass VBR
    when [twopass] is set and VBR with a minimum quantiser otherwise; the
    caller's [qmin] and [qmax] are kept. *)
Theorem initial_qp_between_bounds av_clip cbr twopass global_quality qmin qmax
    factors intra_scaled inter_b_scaled rc rc' qmin' qmax' :
  cbr = 0 -> global_quality <= 0 -> 0 <= qmin <= qmax -> qmax < 2 ^ 29 ->
  configure_rate_control av_clip false cbr twopass global_quality qmin qmax
    factors intra_scaled inter_b_scaled rc = (rc', qmin', qmax') ->
  qpInterP (initialRCQP rc') = (qmax + 3 * qmin) / 4
  /\ qmin <= qpInterP (initialRCQP rc') <= qmax
  /\ 2 * qpInterP (initialRCQP rc') <= qmin + qmax
  /\ enableInitialRCQP rc' = 1
  /\ enableMinQP rc' = 1 /\ enableMaxQP rc' = 1
  /\ minQP rc' = mkNV_ENC_QP qmin qmin qmin
  /\ maxQP rc' = mkNV_ENC_QP qmax qmax qmax
  /\ rateControlMode rc'
     = (if twopass =? 0 then NV_ENC_PARAMS_RC_VBR_MINQP
        else NV_ENC_PARAMS_RC_2_PASS_VBR)
  /\ constQP rc' = constQP rc
  /\ qmin' = qmin /\ qmax' = qmax.
Proof.
  intros -> Hg [Hq0 Hq1] Hmax. unfold configure_rate_control.
  change (negb (0 =? 0)) with false. cbv iota.
  destruct (0 <? global_quality) eqn:Eg; [apply Z.ltb_lt in Eg; lia|].
  destruct (0 <=? qmin) eqn:E1; [|apply Z.leb_gt in E1; lia].
  destruct (0 <=? qmax) eqn:E2; [|apply Z.leb_gt in E2; lia].
  cbn [andb].
  assert (Hqp : int_t (Z.quot (int_t (qmax + int_t (3 * qmin))) 4)
                = (qmax + 3 * qmin) / 4).
  { rewrite (int_t_small (3 * qmin)) by lia.
    rewrite (int_t_small (qmax + 3 * qmin)) by lia.
    rewrite Z.quot_div_nonneg by lia.
    apply int_t_small.
    assert (0 <= (qmax + 3 * qmin) / 4) by (apply Z.div_pos; lia).
    assert ((qmax + 3 * qmin) / 4 <= qmax + 3 * qmin)
      by (apply Z.div_le_upper_bound; lia).
    lia. }
  assert (Hlo : qmin <= (qmax + 3 * qmin) / 4)
    by (apply Z.div_le_lower_bound; lia).
  assert (Hhi : (qmax + 3 * qmin) / 4 <= qmax)
    by (apply Z.div_le_upper_bound; lia).
  assert (Hmid : 2 * ((qmax + 3 * qmin) / 4) <= qmin + qmax).
  { pose proof (Z.mul_div_le (qmax + 3 * qmin) 4 ltac:(lia)). lia. }
  intros H.
  destruct factors, (twopass =? 0); simpl in H; injection H as <- <- <-;
    simpl; rewrite ?Hqp; rewrite ?uint32_t_small by lia;
    repeat split; try reflexivity; try lia.
Qed.

Lemma initial_qp_between_bounds_witness :
  exists rc',
    configure_rate_control (fun a _ _ => a) false 0 0 0 18 30 false
      (fun q => q) (fun q => q)
      (mkNV_ENC_RC_PARAMS NV_ENC_PARAMS_RC_VBR (mkNV_ENC_QP 28 31 25) 0 0
         (mkNV_ENC_QP 0 0 0) (mkNV_ENC_QP 51 51 51) 0 (mkNV_ENC_QP 0 0 0))
    = (rc', 18, 30)
    /\ qpInterP (initialRCQP rc') = 21
    /\ 18 <= qpInterP (initialRCQP rc') <= 30.
Proof.
  eexists. split; [reflexivity|]. split; [reflexivity|].
  eapply (initial_qp_between_bounds (fun a _ _ => a) 0 0 0 18 30 false
            (fun q => q) (fun q => q));
    [reflexivity|lia|lia|lia|reflexivity].
Defined.

(** ** Display aspect ratio *)

(** X18. A sample aspect ratio whose numerator is 1 is never applied: the
    test of line 544 compares the numerator with 1 twice and the
    denominator never, so for 1:den the display aspect ratio handed to the
    encoder is the one of square pixels whatever [den] is: the frame size,
    unless the frame is 720x480 or 720x576 (where the compensation of
    lines 559-567 is applied to the frame size). *)
Theorem unit_numerator_aspect_ignored av_reduce width height den :
  (width = 720 -> height <> 480 /\ height <> 576) ->
  display_aspect_ratio av_reduce width height 1 den
  = (uint32_t width, uint32_t height)
  /\ display_aspect_ratio av_reduce width height 1 den
     = display_aspect_ratio av_reduce width height 1 1.
Proof.
  intros Hsize. unfold display_aspect_ratio.
  change (1 =? 1) with true. change (1 =? 0) with false.
  cbn [negb orb andb]. rewrite !andb_false_r.
  split; [|reflexivity].
  destruct (width =? 720) eqn:Ew; [|reflexivity].
  apply Z.eqb_eq in Ew. destruct (Hsize Ew) as [H1 H2].
  apply Z.eqb_neq in H1, H2. rewrite H1, H2. reflexivity.
Qed.

Lemma unit_numerator_aspect_ignored_witness :
  display_aspect_ratio (fun n d _ => (n / Z.gcd n d, d / Z.gcd n d))
    1440 1080 1 2
  = (1440, 1080).
Proof.
  eapply (unit_numerator_aspect_ignored
            (fun n d _ => (n / Z.gcd n d, d / Z.gcd n d)) 1440 1080 2).
  intros H. lia.
Defined.
